(* ===== verification/_CoqProject ===== *)
-Q . S2P
Prelude.v
GoStrings.v
GoCrypto.v
Types.v
Versions.v
Modules.v
Images.v
Cluster.v
Resources.v
Status.v
Packages.v
Manifests.v
Drivers.v
Pods.v
ModCommon.v
Resiliency.v
Replication.v
ReverseProxy.v
AuthSidecar.v
Observability.v
AuthScaffold.v
AuthServer.v
AuthServerSpec.v
AuthServerCerts.v
ModPackage.v
Watch.v
Sync.v
Controller.v
Settling.v
Frames.v
PackageFrames.v
Isolation.v
Spares.v
Names.v
Installing.v
PackageSpares.v
Operator.v
Start.v
Semver.v
