(* ===== verification/Prelude.v ===== *)
(** * csm-operator, modelled and verified

    The operator reconciles custom resources of kind ContainerStorageModule: for each it checks
    the request, installs or updates the manifests of a CSI driver and of its modules on the
    cluster, keeps the status of the resource, and takes everything away again when the
    resource is deleted. This is a development about its Go code under src/.

    ** How the program is modelled

    Go values are Rocq values: a pointer is an [option], a map that can be nil an [option] of a
    [gmap], an integer a [Z] (with its wrap-around written out where it is reached), a string a
    [string] of bytes. A call that only computes is a function into [outcome]: a value, an
    error, or a panic. A call that also reads or changes the cluster is a function into the
    monad [M (World W)], where the [World] holds the API server's state, the trace of calls
    made, the stop channels of the watches, the update counter and one package variable. A Go
    [range] over a map goes in an order that [MapOrder] leaves open. Pointers that alias (the
    status of a custom resource) are modelled as pointers, and where two copies of a struct
    share a map or slice the result says what the caller sees.

    What is not in the repository is an argument: the Kubernetes API server and its client
    ([Client], with what the proofs use of it in [ClientLaws]), retrying and polling ([Retry],
    [RetryLaws]), informers ([Informers], [InformerLaws]), the file system, environment and
    YAML decoding ([Host], [Directory], [ManifestCodec], [SecretCodec] and the codecs of the authorization
    server), JSON encoding ([JSON]), URL parsing ([URLs]), API discovery ([Discovery]), what
    starts the process ([Startup]) and what builds it ([Machine]). Each has a concrete instance
    on which the witnesses run: [store_client] is an API server that keeps finalizers, deletion
    marks and status subresources.

    ** The files

    - Prelude: outcomes, the monad, loops, tactics (this file).
    - GoStrings: the functions of Go's strings, strconv and path/filepath that the code uses;
      GoCrypto: those of encoding/base64, crypto/sha256 and encoding/hex.
    - Types: api/v1 (csm_types.go, types.go), the custom resource and its methods.
    - Versions: versions, upgrade paths, [MinVersionCheck], [IsValidUpgrade], [GetVersion]
      (pkg/operatorutils/utils.go).
    - Modules: which modules and components are enabled, default components (utils.go).
    - Images: images, environment variables and arguments of containers, and the images of the
      csm-images config map (utils.go).
    - Cluster: API objects, the client interface, its laws and its instance, the world.
    - Resources: pkg/resources (one Sync function per kind) and [DeleteObject], [ApplyObject],
      [ApplyCTRLObject] (utils.go); what a call touches and what it ensures.
    - Status: pkg/operatorutils/status.go, from counting pods to writing the status.
    - Packages: the interfaces of pkg/drivers, pkg/modules and k8s as the reconciler uses them.
    - Manifests: splitting and decoding manifests (utils.go).
    - Drivers: pkg/drivers but for the pods: checks of a request, certificate volumes, the MDM
      addresses and zones of PowerFlex secrets, placeholders, config map and CSIDriver.
    - Pods: controller deployment and node daemon set of a driver (pkg/drivers/commonconfig.go,
      powerflex.go, powermax.go).
    - ModCommon, Resiliency, Replication, ReverseProxy: pkg/modules, one file each for
      commonconfig.go, resiliency.go, replication.go and reverseproxy.go; AuthSidecar: the part of
      authorization.go that injects the proxy into drivers; Observability: observability.go.
    - AuthScaffold: authorization_deployment_scaffold.go, the workloads of the authorization
      server and the mounting of secrets into them; AuthServer: the rest of authorization.go, with
      its package variables in the world; AuthServerSpec and AuthServerCerts: what they promise.
    - ModPackage: pkg/modules as the implementation of the interface of Packages.
    - Watch: event handlers, [informerUpdate], [ContentWatch] and the stop channels as a state
      machine with interleavings (controllers/csm_controller.go).
    - Sync: [SyncCSM], observability, authorization, metrics, removal (csm_controller.go).
    - Controller: [PreChecks], [checkUpgrade], annotations, finalizers and [Reconcile]
      (csm_controller.go), which puts the other files together.
    - Settling: that completing a request settles after one round.
    - Frames, PackageFrames, Isolation, Operator: which custom resources a call can touch, as a
      logic of frames ([within]) with an interface of laws ([DriverFrames], [ModuleFrames],
      [DiscoveryFrames]) that the real packages obey; an abstract machine of custom resources
      ([turn]); and the operator, with its real packages, as a refinement of it. [serve] is the
      loop of controller-runtime with the single worker that main.go asks for.
    - Spares, Names, Installing, PackageSpares: calls that delete nothing ([spares]) and calls
      that put objects there ([brings]); that preparing a driver keeps the names of its objects
      ([same_names]); that a reconciliation with success leaves all of them on the cluster; and
      that the real packages obey the laws that this needs.
    - Start: src/main.go and the questions of k8s/client.go; Semver: core/semver/semver.go.

    ** What the theorems show

    Reconciliation (Controller, Sync, Watch): success is reported only for a resource whose
    sync succeeded and whose status Succeeded was written; deletion removes driver, modules and
    finalizer in this order and stops at a failed removal; an accepted resource has a supported
    driver and a valid upgrade, or an authorization server, and supported modules unless it
    switches between the major versions of authorization; syncing puts every manifest there and
    touches nothing else; removal takes every manifest away, up to workloads that the API server
    did not answer about; no stop channel of a watch is closed twice or leaked in any
    interleaving. Status: calculation only reads, Succeeded means that the counts of the
    controller agreed (those of a failed lookup do) and that node pods and checked modules were
    ready, and what is written is what was calculated. Single objects (Resources): each operation changes its
    object only, and success means that the object is there, or gone. Versions, Modules,
    Images: the comparison is a total preorder that ignores patch levels, accepted upgrades
    reach the listed minimum and can be rolled back, defaults are only added, and templates
    change containers exactly as documented by their theorems. Drivers, Pods, Manifests: what a
    check accepts, which arrays, zones and certificates a secret gives, and what a pod takes from
    its manifest, the request and the images. Modules of pkg/modules: what each check accepts,
    what injecting a module changes of a driver's pods and roles, and that installing and then
    removing its manifest takes away what it put there. Authorization server: every workload is
    one that the API server takes, which objects a deployment writes and in which order, that
    services read the password of redis where it was stored, that the ingress refers to the
    certificates that were installed, and that certificates in base64 arrive byte by byte.
    The operator as a whole: a run of requests refines turns of an abstract machine, so no
    resource is touched but those asked for, none is created, and a deletion that reports success
    is complete; an installation that reports success has left every object of the manifests of
    the resource's driver on the cluster, up to what a clean-up of an earlier configuration takes
    away; completing a request is idempotent. The process: which
    configuration it starts with and in which order, and that a build is stamped with what git describe says. Several theorems state
    behaviour that a comment or a log line of the code contradicts: ignored patch levels,
    dropped read errors, the switch between authorization versions, a missing deployment that
    counts as running, finalizers of others that are dropped.

    ** Bounds

    Loops of the code are structural here. Trimming spaces has the length of its text for fuel,
    which is enough since every step drops a byte. The instances of retrying and polling try five
    and three times, while the theorems hold for every instance that obeys [RetryLaws], however
    often it tries. Counters of pods are [Z]; the update counter and the replicas of a stateful
    set wrap at 32 bits. The versions of Kubernetes are compared as the 64-bit floats that the
    code makes of them, for every minor version below 1000.

    ** Not modelled

    Locks: a call runs alone, except in the state machine of Watch, whose steps are the
    sections between locks. Logging, tracing identifiers and metrics of the process
    (pkg/logger), the construction of clients and of the manager, and the registration of types
    and watches with libraries (SetupWithManager). Generated deep copies: values are not shared
    here unless the model says so. The reconciler uses pkg/drivers and pkg/modules through the
    interfaces of Packages: its theorems hold for all their implementations, and Operator puts
    in the real ones. *)

From stdpp Require Export base tactics list gmap strings pretty.
From Stdlib Require Import Lia.
From stdpp Require Import options.

(** ** Go values shared by every component *)

(** A Go [error]. [StatusError] is an error of the Kubernetes API machinery,
    with the [reason] its classifiers look at; [Errorf] is [errors.New] and
    [fmt.Errorf] with [%v] or [%s]; [WrapError] is [fmt.Errorf] with [%w], which keeps
    the inner error reachable. *)
Inductive error :=
  | StatusError (reason : string) (msg : string)
  | Errorf (msg : string)
  | WrapError (msg : string) (inner : error).

#[export] Instance error_eq_dec : EqDecision error.
Proof. solve_decision. Defined.

(** [err.Error()] *)
Definition error_text (e : error) : string :=
  match e with
  | StatusError _ m | Errorf m | WrapError m _ => m
  end.

(** [fmt.Errorf(msg + ": %v", err)] *)
Definition errorf (msg : string) (e : error) : error := Errorf (msg +:+ ": " +:+ error_text e).

(** What a call does: it returns a value, it returns a non-nil error (the value
    beside it is then not looked at), or it panics. *)
Inductive outcome (A : Type) :=
  | Ok (a : A)
  | Fail (e : error)
  | Panic (why : string).
Arguments Ok {A} a.
Arguments Fail {A} e.
Arguments Panic {A} why.

#[export] Instance outcome_ret : MRet outcome := λ A a, Ok a.
#[export] Instance outcome_bind : MBind outcome := λ A B f m,
  match m with
  | Ok a => f a
  | Fail e => Fail e
  | Panic w => Panic w
  end.
#[export] Instance outcome_fmap : FMap outcome := λ A B f m,
  match m with
  | Ok a => Ok (f a)
  | Fail e => Fail e
  | Panic w => Panic w
  end.

(** Reading through a pointer. *)
Definition deref {A} (p : option A) : outcome A :=
  match p with
  | Some a => Ok a
  | None => Panic "invalid memory address or nil pointer dereference"
  end.

(** Calls that also change a world [W] (the cluster and what the operator
    remembers): state passing with an outcome. The state survives an error. *)
Definition M (W A : Type) : Type := W → outcome A * W.

#[export] Instance M_ret {W} : MRet (M W) := λ A a w, (Ok a, w).
#[export] Instance M_bind {W} : MBind (M W) := λ A B f m w,
  match m w with
  | (Ok a, w') => f a w'
  | (Fail e, w') => (Fail e, w')
  | (Panic y, w') => (Panic y, w')
  end.

(** [return err] *)
Definition failM {W A} (e : error) : M W A := λ w, (Fail e, w).
(** a pure call inside an effectful one *)
Definition lift {W A} (m : outcome A) : M W A := λ w, (m, w).
(** [v, err := m()], the error kept as a value *)
Definition attempt {W A} (m : M W A) : M W (error + A) := λ w,
  match m w with
  | (Ok a, w') => (Ok (inr a), w')
  | (Fail e, w') => (Ok (inl e), w')
  | (Panic y, w') => (Panic y, w')
  end.
(** [if err := m(); err != nil { return wrap(err) }] *)
Definition orFail {W A} (m : M W A) (wrap : error → error) : M W A := λ w,
  match m w with
  | (Fail e, w') => (Fail (wrap e), w')
  | r => r
  end.
(** [if err := m(); err != nil { log }] *)
Definition ignoreErr {W A} (m : M W A) : M W () := λ w,
  match m w with
  | (Ok _, w') | (Fail _, w') => (Ok (), w')
  | (Panic y, w') => (Panic y, w')
  end.
(** the same wrapping of an error in a pure call *)
Definition wrapErr {A} (m : outcome A) (wrap : error → error) : outcome A :=
  match m with
  | Fail e => Fail (wrap e)
  | r => r
  end.

(** [for _, x := range xs { f(x) }], left at the first error or panic. *)
Fixpoint forM {W A} (f : A → M W ()) (xs : list A) : M W () :=
  match xs with
  | [] => mret ()
  | x :: xs' => _ ← f x; forM f xs'
  end.

(** [if b { m() }] *)
Definition when {W} (b : bool) (m : M W ()) : M W () := if b then m else mret ().

(** A loop that calls pure code which can fail. *)
Fixpoint foldO {A B} (f : B → A → outcome B) (b : B) (xs : list A) : outcome B :=
  match xs with
  | [] => Ok b
  | x :: xs' => b' ← f b x; foldO f b' xs'
  end.

(** A loop that appends at most one element per round and threads a state. *)
Definition collect {S A B} (f : S → A → outcome (S * option B)) (st : S) (xs : list A)
    : outcome (S * list B) :=
  foldO (λ '(st, ys) x, '(st, y) ← f st x; Ok (st, ys ++ option_list y)) (st, []) xs.

(** The order in which [range] visits a Go map is not specified: it is some
    permutation of the entries. *)
Class MapOrder := {
  range {A} : gmap string A → list (string * A);
  range_perm {A} (m : gmap string A) : range m ≡ₚ map_to_list m
}.

(** The order of [map_to_list] is one such order. *)
#[export, program] Instance map_to_list_order : MapOrder | 100 :=
  {| range A m := map_to_list m |}.
Next Obligation. done. Qed.

(** Go's reading of a map entry: the zero value [""] when the key is absent. *)
Definition lookup_zero (m : gmap string string) (k : string) : string :=
  default "" (m !! k).

(** What a call outside the repository returns: a value or an error. *)
Definition res {A} (r : error + A) : outcome A :=
  match r with
  | inl e => Fail e
  | inr a => Ok a
  end.

(** [b, _ := f()] for a function whose value beside an error is [false] *)
Definition okTrue (m : outcome bool) : bool :=
  match m with
  | Ok b => b
  | _ => false
  end.

(** [xs[i] = xs[len(xs)-1]; xs = xs[:len(xs)-1]] *)
Definition swap_remove {A} (i : nat) (xs : list A) : list A :=
  match last xs with
  | Some x => take (length xs - 1) (<[i := x]> xs)
  | None => xs
  end.

(** A value of type [int32]: conversions and additions wrap. *)
Definition wrap_int32 (n : Z) : Z := ((n + 2147483648) `mod` 4294967296 - 2147483648)%Z.

Lemma wrap_int32_id n : (- 2 ^ 31 <= n < 2 ^ 31)%Z → wrap_int32 n = n.
Proof. unfold wrap_int32. intros Hn. rewrite Z.mod_small; lia. Qed.

Lemma wrap_int32_bounds n : (- 2 ^ 31 <= wrap_int32 n < 2 ^ 31)%Z.
Proof. unfold wrap_int32. pose proof (Z.mod_pos_bound (n + 2147483648) 4294967296). lia. Qed.

(** ** Inversion of binds *)

Lemma outcome_bind_Ok {A B} (m : outcome A) (f : A → outcome B) b :
  (m ≫= f) = Ok b ↔ ∃ a, m = Ok a ∧ f a = Ok b.
Proof. destruct m; simpl; naive_solver. Qed.

Lemma M_bind_Ok {W A B} (m : M W A) (f : A → M W B) w b w' :
  (m ≫= f) w = (Ok b, w') ↔ ∃ a w1, m w = (Ok a, w1) ∧ f a w1 = (Ok b, w').
Proof. unfold mbind, M_bind. destruct (m w) as [[] ?]; naive_solver. Qed.

(** A bind whose first call is known to return, fail or panic. *)
Lemma M_bind_step {W A B} (m : M W A) (f : A → M W B) w a w1 :
  m w = (Ok a, w1) → (m ≫= f) w = f a w1.
Proof. intros E. unfold mbind, M_bind. by rewrite E. Qed.

Lemma M_bind_Fail {W A B} (m : M W A) (f : A → M W B) w e w1 :
  m w = (Fail e, w1) → (m ≫= f) w = (Fail e, w1).
Proof. intros E. unfold mbind, M_bind. by rewrite E. Qed.

Lemma M_ret_run {W A} (a : A) (w : W) : (mret a : M W A) w = (Ok a, w).
Proof. done. Qed.

Lemma lift_run {W A} (m : outcome A) (w : W) : lift m w = (m, w).
Proof. done. Qed.

Lemma orFail_Ok {W A} (m : M W A) wrap w a w' :
  orFail m wrap w = (Ok a, w') ↔ m w = (Ok a, w').
Proof. unfold orFail. destruct (m w) as [[] ?]; naive_solver. Qed.


(** Takes apart hypotheses that say a sequence of calls returned normally. *)
Ltac go_inv :=
  repeat match goal with
  | H : (_ ≫= _) = Ok _ |- _ =>
      apply outcome_bind_Ok in H as (? & ? & H); cbv beta in H
  | H : (_ ≫= _) _ = (Ok _, _) |- _ =>
      apply M_bind_Ok in H as (? & ? & ? & H); cbv beta in H
  | H : orFail _ _ _ = (Ok _, _) |- _ => apply orFail_Ok in H
  | H : lift _ _ = (Ok _, _) |- _ => rewrite lift_run in H
  | H : mret _ _ = (Ok _, _) |- _ => rewrite M_ret_run in H
  | H : (Ok _, _) = (Ok _, _) |- _ => first [injection H; clear H; intros | clear H]
  | H : Ok _ = Ok _ |- _ => first [injection H; clear H; intros | clear H]
  | H : (Fail _, _) = (Ok _, _) |- _ => discriminate H
  | H : (Panic _, _) = (Ok _, _) |- _ => discriminate H
  | H : failM _ _ = (Ok _, _) |- _ => discriminate H
  end; subst.

(** A run whose outcome is known, as a pair. *)
Lemma run_fst {A B} (p : A * B) a : fst p = a → p = (a, snd p).
Proof. destruct p. simpl. by intros ->. Qed.

(** ** Filters *)

Lemma filter_all {A} (P : A → Prop) `{∀ x, Decision (P x)} l : Forall P l → filter P l = l.
Proof. induction 1; [done|]. rewrite filter_cons_True by done. by f_equal. Qed.

Lemma filter_none {A} (P : A → Prop) `{∀ x, Decision (P x)} l :
  filter P l = [] ↔ Forall (λ x, ¬ P x) l.
Proof.
  rewrite Forall_forall. split.
  - intros E x Hx HP. by eapply filter_nil_not_elem_of.
  - induction l as [|x l IH]; intros Hl; [done|]. rewrite filter_cons_False by set_solver.
    apply IH. set_solver.
Qed.

Lemma filter_full {A} (P : A → Prop) `{∀ x, Decision (P x)} l :
  length (filter P l) = length l → filter P l = l.
Proof.
  intros E. apply filter_all, Forall_forall. intros x Hx. apply dec_stable. intros HP.
  pose proof (length_filter_lt P l x Hx HP). lia.
Qed.

(** ** Removal by the last element *)

Lemma swap_remove_split {A} (l1 l2 : list A) y x :
  swap_remove (length l1) (l1 ++ y :: l2 ++ [x]) = l1 ++ x :: l2
  ∧ swap_remove (length l1) (l1 ++ [y]) = l1.
Proof.
  unfold swap_remove. split.
  - rewrite (app_comm_cons l2 [x] y), (app_assoc l1), last_snoc, length_app, <- (app_assoc l1).
    rewrite insert_app_r_alt, Nat.sub_diag by done. simpl.
    rewrite (app_comm_cons l2 [x] x), (app_assoc l1). apply take_app_length'.
    rewrite !length_app. simpl. lia.
  - rewrite last_snoc, length_app, insert_app_r_alt, Nat.sub_diag by done. simpl.
    apply take_app_length'. lia.
Qed.

Lemma swap_remove_perm {A} i (xs : list A) y : xs !! i = Some y → y :: swap_remove i xs ≡ₚ xs.
Proof.
  intros (l1 & l2 & -> & ->)%list_elem_of_split_length.
  destruct l2 as [|x l2 _] using rev_ind.
  - rewrite (proj2 (swap_remove_split l1 [] y y)). solve_Permutation.
  - rewrite (proj1 (swap_remove_split l1 l2 y x)). solve_Permutation.
Qed.

(** ** Loops that append *)

Lemma collect_acc {S A B} (f : S → A → outcome (S * option B)) st ys xs :
  foldO (λ '(st, ys) x, '(st, y) ← f st x; Ok (st, ys ++ option_list y)) (st, ys) xs
  = '(st, zs) ← collect f st xs; Ok (st, ys ++ zs).
Proof.
  unfold collect. revert st ys. induction xs as [|x xs IH]; intros st ys; simpl.
  - by rewrite app_nil_r.
  - destruct (f st x) as [[st' y]|e|e]; simpl; [|done..].
    rewrite (IH st' (ys ++ option_list y)), (IH st' (option_list y)).
    destruct (foldO _ (st', []) xs) as [[st'' zs]|e|e]; simpl; [|done..]. by rewrite app_assoc.
Qed.

Lemma collect_cons {S A B} (f : S → A → outcome (S * option B)) st x xs :
  collect f st (x :: xs)
  = '(st, y) ← f st x; '(st, ys) ← collect f st xs; Ok (st, option_list y ++ ys).
Proof.
  unfold collect at 1. simpl. destruct (f st x) as [[st' y]|e|e]; simpl; [|done..].
  apply collect_acc.
Qed.

Lemma collect_app {S A B} (f : S → A → outcome (S * option B)) st xs1 xs2 :
  collect f st (xs1 ++ xs2)
  = '(st, ys1) ← collect f st xs1; '(st, ys2) ← collect f st xs2; Ok (st, ys1 ++ ys2).
Proof.
  revert st. induction xs1 as [|x xs1 IH]; intros st.
  - simpl. change (collect f st []) with (Ok (st, @nil B)). simpl.
    by destruct (collect f st xs2) as [[]| |].
  - simpl. rewrite !collect_cons. destruct (f st x) as [[st' y]|e|e]; simpl; [|done..].
    rewrite IH. destruct (collect f st' xs1) as [[st1 ys1]|e|e]; simpl; [|done..].
    destruct (collect f st1 xs2) as [[st2 ys2]|e|e]; simpl; [|done..]. by rewrite app_assoc.
Qed.

(** What each round keeps of an element, while the state keeps an invariant. *)
Lemma collect_Ok {S A B} (f : S → A → outcome (S * option B)) (I : S → Prop)
    (P : A → Prop) `{∀ x, Decision (P x)} (R : A → B → Prop) st xs st' ys :
  (∀ st x st' o, x ∈ xs → I st → f st x = Ok (st', o) →
     I st' ∧ match o with None => ¬ P x | Some y => P x ∧ R x y end) →
  I st → collect f st xs = Ok (st', ys) → I st' ∧ Forall2 R (filter P xs) ys.
Proof.
  revert st ys. induction xs as [|x xs IH]; intros st ys Hf HI E.
  - injection E as <- <-. split; [done|]. rewrite filter_nil. constructor.
  - rewrite collect_cons in E. destruct (f st x) as [[st1 o]|e|e] eqn:Ex; [|done..].
    destruct (Hf _ _ _ _ ltac:(by left) HI Ex) as [HI1 Ho]. simpl in E.
    destruct (collect f st1 xs) as [[st2 zs]|e|e] eqn:Ec; [|done..]. injection E as <- <-.
    destruct (IH st1 zs) as [HI2 HR]; [intros; eapply Hf; [by right|done..]|done..|]. split; [done|]. destruct o as [y|].
    + destruct Ho as [HP HRy]. rewrite filter_cons_True by done. simpl. by constructor.
    + by rewrite filter_cons_False.
Qed.

Lemma collect_state {S A B} (f : S → A → outcome (S * option B)) (I : S → Prop) st xs st' ys :
  (∀ st x st' o, x ∈ xs → I st → f st x = Ok (st', o) → I st') →
  I st → collect f st xs = Ok (st', ys) → I st'.
Proof.
  revert st ys. induction xs as [|x xs IH]; intros st ys Hf HI E.
  - by injection E as <- <-.
  - rewrite collect_cons in E. apply outcome_bind_Ok in E as ([st1 o] & Ex & E).
    apply outcome_bind_Ok in E as ([st2 zs] & Ec & E). injection E as <- <-.
    eapply IH; [|by eapply Hf; [left|..]|done]. intros. eapply Hf; [by right|done..].
Qed.

(** What comes before an element, its round, and what comes after it. *)
Lemma collect_at {S A B} (f : S → A → outcome (S * option B)) st pre x post st' ys :
  collect f st (pre ++ x :: post) = Ok (st', ys) →
  ∃ st1 ys1 st2 o ys2, collect f st pre = Ok (st1, ys1) ∧ f st1 x = Ok (st2, o)
    ∧ ys = ys1 ++ option_list o ++ ys2.
Proof.
  rewrite collect_app. intros E. apply outcome_bind_Ok in E as ([st1 ys1] & E1 & E).
  apply outcome_bind_Ok in E as ([st3 ys3] & E3 & E). injection E as <- <-.
  rewrite collect_cons in E3. apply outcome_bind_Ok in E3 as ([st2 o] & E2 & E3).
  apply outcome_bind_Ok in E3 as ([st4 ys4] & E4 & E3). injection E3 as <- <-.
  by exists st1, ys1, st2, o, ys4.
Qed.

(** Settles a decidable closed goal by running its decision procedure. *)
Ltac decide_goal :=
  match goal with
  | |- ?P => apply (bool_decide_unpack P); vm_compute; exact I
  end.
