(* ===== verification/GoStrings.v ===== *)
(** The parts of Go's [strings], [strconv], [fmt] and [path/filepath] that the
    operator calls, on byte strings, with the lemmas the components share.
    A separator is always a single byte and an [old] is never empty in the
    source, so [Split], [Replace] and [ReplaceAll] are written for those uses. *)

From S2P Require Import Prelude.
From Stdlib Require Import Ascii ZArith Lia.
From stdpp Require Import options.

Local Open Scope string_scope.
Local Open Scope stdpp_scope.

(** ** Searching *)

Definition HasPrefix (s p : string) : bool := String.prefix p s.

Fixpoint Contains (s sub : string) : bool :=
  HasPrefix s sub ||
  match s with
  | "" => false
  | String _ s' => Contains s' sub
  end.

(** [strings.LastIndexByte(s, c)] followed by the slice [s[i+1:]]: the text
    after the last [c], or [None] when there is none. *)
Fixpoint after_last (c : ascii) (s : string) : option string :=
  match s with
  | "" => None
  | String a s' =>
      match after_last c s' with
      | Some r => Some r
      | None => if decide (a = c) then Some s' else None
      end
  end.

Fixpoint all_chars (p : ascii → bool) (s : string) : bool :=
  match s with
  | "" => true
  | String c s' => p c && all_chars p s'
  end.

Definition HasSuffix (s suf : string) : bool := HasPrefix (String.rev s) (String.rev suf).

(** ** Trimming *)

Fixpoint drop_str (n : nat) (s : string) : string :=
  match n, s with
  | S n', String _ s' => drop_str n' s'
  | _, _ => s
  end.

Definition TrimPrefix (s p : string) : string :=
  if HasPrefix s p then drop_str (String.length p) s else s.

(** [strings.TrimLeft(s, "c")] for a cutset of one byte. *)
Fixpoint TrimLeft (s : string) (c : ascii) : string :=
  match s with
  | String a s' => if decide (a = c) then TrimLeft s' c else s
  | "" => ""
  end.

Definition TrimRight (s : string) (c : ascii) : string :=
  String.rev (TrimLeft (String.rev s) c).

(** The UTF-8 encodings of the runes of [unicode.IsSpace]. *)
Definition bytes_str (l : list nat) : string :=
  foldr (λ n s, String (ascii_of_nat n) s) "" l.

Definition spaces : list string :=
  bytes_str <$> [[9]; [10]; [11]; [12]; [13]; [32]; [194; 133]; [194; 160];
    [225; 154; 128]; [226; 128; 128]; [226; 128; 129]; [226; 128; 130];
    [226; 128; 131]; [226; 128; 132]; [226; 128; 133]; [226; 128; 134];
    [226; 128; 135]; [226; 128; 136]; [226; 128; 137]; [226; 128; 138];
    [226; 128; 168]; [226; 128; 169]; [226; 128; 175]; [226; 129; 159];
    [227; 128; 128]].

(** Drops leading members of [cut] ([fuel] is the length of the string). *)
Fixpoint trim_front (fuel : nat) (cut : list string) (s : string) : string :=
  match fuel with
  | O => s
  | S f =>
      match list_find (λ p, HasPrefix s p = true) cut with
      | Some (_, p) => trim_front f cut (drop_str (String.length p) s)
      | None => s
      end
  end.

Definition TrimSpace (s : string) : string :=
  let l := trim_front (String.length s) spaces s in
  String.rev (trim_front (String.length l) (String.rev <$> spaces) (String.rev l)).

(** ** Splitting and replacing *)

Fixpoint Split (s : string) (sep : ascii) : list string :=
  match s with
  | "" => [""]
  | String a s' =>
      if decide (a = sep) then "" :: Split s' sep
      else match Split s' sep with
           | p :: ps => String a p :: ps
           | [] => [String a ""]
           end
  end.

(** [strings.SplitN(s, sep, 2)]: [None] when there is one part only. *)
Fixpoint SplitN2 (s : string) (sep : ascii) : option (string * string) :=
  match s with
  | "" => None
  | String a s' =>
      if decide (a = sep) then Some ("", s')
      else match SplitN2 s' sep with
           | Some (x, y) => Some (String a x, y)
           | None => None
           end
  end.

Fixpoint Join (ps : list string) (sep : string) : string :=
  match ps with
  | [] => ""
  | [p] => p
  | p :: ps' => p +:+ sep +:+ Join ps' sep
  end.

(** [strings.ReplaceAll]: [skip] bytes of a match are still to be dropped. *)
Fixpoint replace_from (skip : nat) (s old new : string) : string :=
  match s with
  | "" => ""
  | String a s' =>
      match skip with
      | S k => replace_from k s' old new
      | O =>
          if HasPrefix s old
          then new +:+ replace_from (String.length old - 1) s' old new
          else String a (replace_from O s' old new)
      end
  end.

Definition ReplaceAll (s old new : string) : string := replace_from 0 s old new.

(** [strings.Replace(s, old, new, 1)] *)
Fixpoint Replace1 (s old new : string) : string :=
  if HasPrefix s old then new +:+ drop_str (String.length old) s
  else match s with
       | "" => ""
       | String a s' => String a (Replace1 s' old new)
       end.

(** ** Case folding (ASCII letters) *)

Definition lower (c : ascii) : ascii :=
  let n := nat_of_ascii c in
  if (65 <=? n)%nat && (n <=? 90)%nat then ascii_of_nat (n + 32) else c.

Fixpoint EqualFold (s t : string) : bool :=
  match s, t with
  | "", "" => true
  | String a s', String b t' => bool_decide (lower a = lower b) && EqualFold s' t'
  | _, _ => false
  end.

(** ** Numbers *)

(** [fmt.Sprintf("%d", n)] and [strconv.Itoa(n)] *)
Definition Itoa (n : Z) : string := pretty n.

Definition digit (c : ascii) : option Z :=
  let n := Z.of_nat (nat_of_ascii c) in
  if decide (48 ≤ n ≤ 57)%Z then Some (n - 48)%Z else None.

Fixpoint digits (acc : Z) (s : string) : option Z :=
  match s with
  | "" => Some acc
  | String c s' => d ← digit c; digits (10 * acc + d) s'
  end.

Definition max_int : Z := 2 ^ 63 - 1.
Definition min_int : Z := - 2 ^ 63.

(** [strconv.Atoi] on a 64-bit machine: the value and the error. On a syntax
    error the value is 0; out of range it is the nearest [int]. *)
Definition Atoi (s : string) : Z * option error :=
  let body := match s with
              | String "+" s' | String "-" s' => s'
              | _ => s
              end in
  let neg := HasPrefix s "-" in
  match body with
  | "" => (0%Z, Some (Errorf ("strconv.Atoi: parsing " +:+ s +:+ ": invalid syntax")))
  | _ =>
      match digits 0 body with
      | None => (0%Z, Some (Errorf ("strconv.Atoi: parsing " +:+ s +:+ ": invalid syntax")))
      | Some n =>
          let v := if neg then (- n)%Z else n in
          if decide (v < min_int)%Z
          then (min_int, Some (Errorf ("strconv.Atoi: parsing " +:+ s +:+ ": value out of range")))
          else if decide (max_int < v)%Z
          then (max_int, Some (Errorf ("strconv.Atoi: parsing " +:+ s +:+ ": value out of range")))
          else (v, None)
      end
  end.

(** [strconv.ParseBool] *)
Definition ParseBool (s : string) : outcome bool :=
  if decide (s ∈ ["1"; "t"; "T"; "TRUE"; "true"; "True"]) then Ok true
  else if decide (s ∈ ["0"; "f"; "F"; "FALSE"; "false"; "False"]) then Ok false
  else Fail (Errorf ("strconv.ParseBool: parsing " +:+ s +:+ ": invalid syntax")).

(** *** [strconv.ParseInt(s, 0, 8)]: an 8-bit integer, its base given by its prefix *)

(** the value of a digit or letter, in any base up to 36 *)
Definition digit36 (c : ascii) : option Z :=
  match digit c with
  | Some d => Some d
  | None =>
      let n := Z.of_nat (nat_of_ascii (lower c)) in
      if decide (97 ≤ n ≤ 122)%Z then Some (n - 87)%Z else None
  end.

(** the base that a prefix gives, and what follows it *)
Definition number_base (s : string) : Z * string :=
  match s with
  | String "0" s' =>
      match s' with
      | String c (String _ _ as rest) =>
          if decide (lower c = "b"%char) then (2%Z, rest)
          else if decide (lower c = "o"%char) then (8%Z, rest)
          else if decide (lower c = "x"%char) then (16%Z, rest)
          else (8%Z, s')
      | _ => (8%Z, s')
      end
  | _ => (10%Z, s)
  end.

(** [underscoreOK] of the digits after a sign: [saw] is what was seen last, a digit (or a
    prefix), an underscore, or anything else *)
Inductive seen_byte := SawDigit | SawUnderscore | SawOther.

Fixpoint underscores_ok (hex : bool) (saw : seen_byte) (s : string) : bool :=
  match s with
  | "" => match saw with SawUnderscore => false | _ => true end
  | String c s' =>
      if bool_decide (is_Some (digit c))
         || hex && match digit36 c with Some d => bool_decide (d < 16)%Z | None => false end
      then underscores_ok hex SawDigit s'
      else if decide (c = "_"%char) then
        match saw with SawDigit => underscores_ok hex SawUnderscore s' | _ => false end
      else match saw with
           | SawUnderscore => false
           | _ => underscores_ok hex SawOther s'
           end
  end.

Definition underscoreOK (s : string) : bool :=
  match s with
  | String "0" (String c rest) =>
      if decide (lower c ∈ ["b"; "o"; "x"]%char)
      then underscores_ok (bool_decide (lower c = "x"%char)) SawDigit rest
      else underscores_ok false SawOther s
  | _ => underscores_ok false SawOther s
  end.

Definition syntax_error (s : string) : error :=
  Errorf ("strconv.ParseInt: parsing " +:+ s +:+ ": invalid syntax").
Definition range_error (s : string) : error :=
  Errorf ("strconv.ParseInt: parsing " +:+ s +:+ ": value out of range").

(** the loop of [ParseUint], 8 bits wide, left as soon as the value is too large *)
Fixpoint parse_digits (s0 : string) (base acc : Z) (s : string) : outcome Z :=
  match s with
  | "" => Ok acc
  | String c s' =>
      if decide (c = "_"%char) then parse_digits s0 base acc s'
      else
        match digit36 c with
        | Some d =>
            if decide (base ≤ d)%Z then Fail (syntax_error s0)
            else if decide (255 < acc * base + d)%Z then Fail (range_error s0)
            else parse_digits s0 base (acc * base + d) s'
        | None => Fail (syntax_error s0)
        end
  end.

Definition ParseInt8 (s : string) : outcome Z :=
  let neg := HasPrefix s "-" in
  let body := match s with
              | String "+" s' | String "-" s' => s'
              | _ => s
              end in
  if decide (body = "") then Fail (syntax_error s)
  else
    let '(base, ds) := number_base body in
    un ← parse_digits s base 0 ds;
    if Contains ds "_" && negb (underscoreOK body) then Fail (syntax_error s)
    else if neg then if decide (128 < un)%Z then Fail (range_error s) else Ok (- un)%Z
    else if decide (128 ≤ un)%Z then Fail (range_error s) else Ok un.

(** ** [filepath.Clean] on Unix *)

(** One path element against the elements kept so far (last first). *)
Definition clean_step (rooted : bool) (kept : list string) (e : string) : list string :=
  if decide (e = "" ∨ e = ".") then kept
  else if decide (e = "..") then
    match kept with
    | ".." :: _ => e :: kept
    | _ :: kept' => kept'
    | [] => if rooted then [] else [e]
    end
  else e :: kept.

Definition Clean (path : string) : string :=
  let rooted := HasPrefix path "/" in
  let body := Join (reverse (foldl (clean_step rooted) [] (Split path "/"))) "/" in
  if rooted then "/" +:+ body
  else if decide (body = "") then "." else body.

Example clean_1 : Clean "/etc//config/./a/../b/" = "/etc/config/b". Proof. reflexivity. Qed.
Example clean_2 : Clean "../../a/.." = "../..". Proof. reflexivity. Qed.
Example trim_1 : TrimSpace "  a b  " = "a b". Proof. reflexivity. Qed.
Example replace_1 : ReplaceAll "a<X>b<X>" "<X>" "yy" = "ayybyy". Proof. reflexivity. Qed.
Example atoi_1 : Atoi "-017" = ((-17)%Z, None). Proof. vm_compute. reflexivity. Qed.

Example parse_int_1 : ParseInt8 <$> ["12"; "-128"; "0x1F"; "0b11"; "017"; "1_0"; "0"]
  = Ok <$> [12; -128; 31; 3; 15; 10; 0]%Z.
Proof. vm_compute. reflexivity. Qed.
Example parse_int_2 : ParseInt8 "128" = Fail (range_error "128")
  ∧ ParseInt8 "1__0" = Fail (syntax_error "1__0") ∧ ParseInt8 "" = Fail (syntax_error "")
  ∧ ParseInt8 "08" = Fail (syntax_error "08").
Proof. vm_compute. done. Qed.

(** ** Facts *)

(** [c] is not a byte of [s]. *)
Definition no_byte (c : ascii) (s : string) : Prop := c ∉ String.list_ascii_of_string s.

#[export] Instance no_byte_dec c s : Decision (no_byte c s).
Proof. unfold no_byte. apply _. Defined.

Lemma no_byte_cons c a s : no_byte c (String a s) ↔ a ≠ c ∧ no_byte c s.
Proof. unfold no_byte. simpl. rewrite not_elem_of_cons. split; intros [??]; split; congruence. Qed.

Lemma no_byte_app c s t : no_byte c (s +:+ t) ↔ no_byte c s ∧ no_byte c t.
Proof.
  induction s as [|a s IH]; simpl.
  - unfold no_byte at 2. simpl. split; [split; [apply not_elem_of_nil|done]|tauto].
  - change (String a s +:+ t) with (String a (s +:+ t)). rewrite !no_byte_cons. tauto.
Qed.

Lemma append_cons a s t : String a s +:+ t = String a (s +:+ t).
Proof. done. Qed.

Lemma append_nil_r s : s +:+ "" = s.
Proof. induction s as [|a s IH]; [done|]. rewrite append_cons. by f_equal. Qed.

Lemma length_append s t : String.length (s +:+ t) = String.length s + String.length t.
Proof. induction s as [|a s IH]; [done|]. rewrite append_cons. simpl. by rewrite IH. Qed.

Lemma append_assoc s t u : (s +:+ t) +:+ u = s +:+ (t +:+ u).
Proof. induction s as [|a s IH]; [done|]. rewrite !append_cons. by f_equal. Qed.

Lemma Split_not_nil s c : Split s c ≠ [].
Proof. induction s as [|a s IH]; simpl; [done|]. repeat case_match; done. Qed.

Lemma Split_no_byte s c : no_byte c s → Split s c = [s].
Proof.
  induction s as [|a s IH]; simpl; [done|]. rewrite no_byte_cons. intros [? ?].
  rewrite decide_False, IH; done.
Qed.

Lemma Split_app s t c : no_byte c s → Split (s +:+ String c t) c = s :: Split t c.
Proof.
  induction s as [|a s IH]; intros Hs; simpl.
  - by rewrite decide_True.
  - apply no_byte_cons in Hs as [Ha Hs]. rewrite decide_False, IH; done.
Qed.

(** Splitting and joining again gives the string back. *)
Lemma Join_Split s c : Join (Split s c) (String c "") = s.
Proof.
  induction s as [|a s IH]; simpl; [done|].
  destruct (Split s c) as [|p ps] eqn:E; [by destruct (Split_not_nil s c)|].
  case_decide as Ha.
  - change (Join ("" :: p :: ps) (String c "")) with (String c (Join (p :: ps) (String c ""))).
    by rewrite IH, Ha.
  - destruct ps; simpl in *; by rewrite <- IH.
Qed.

Lemma after_last_no_byte c s : no_byte c s → after_last c s = None.
Proof.
  induction s as [|a s IH]; simpl; [done|]. rewrite no_byte_cons. intros [? ?].
  rewrite IH, decide_False; done.
Qed.

Lemma after_last_spec c s t : no_byte c t → after_last c (s +:+ String c t) = Some t.
Proof.
  intros Ht. induction s as [|a s IH]; simpl.
  - by rewrite (after_last_no_byte c t Ht), decide_True.
  - change (String a s +:+ String c t) with (String a (s +:+ String c t)). simpl. by rewrite IH.
Qed.

Lemma after_last_Some c s t :
  after_last c s = Some t → no_byte c t ∧ ∃ p, s = p +:+ String c t.
Proof.
  revert t. induction s as [|a s IH]; intros t; simpl; [done|].
  destruct (after_last c s) as [r|] eqn:E.
  - intros [= ->]. destruct (IH t eq_refl) as [? [p ->]]. split; [done|].
    by exists (String a p).
  - case_decide; [|done]. intros [= <-]. subst. split; [|by exists ""].
    clear IH. induction s as [|b s IH]; [apply not_elem_of_nil|]. simpl in E.
    apply no_byte_cons. destruct (after_last c s); [done|]. case_decide; [done|].
    split; [done|]. by apply IH.
Qed.

Lemma after_last_None c s : after_last c s = None → no_byte c s.
Proof.
  induction s as [|a s IH]; simpl; [intros; apply not_elem_of_nil|].
  destruct (after_last c s); [done|]. case_decide; [done|]. intros _.
  apply no_byte_cons. split; [done|]. by apply IH.
Qed.

(** The text before the first separator is determined. *)
Lemma append_sep_inj c s s' t t' : no_byte c s → no_byte c s' →
  s +:+ String c t = s' +:+ String c t' → s = s' ∧ t = t'.
Proof.
  revert s'. induction s as [|a s IH]; intros [|b s'] Hs Hs' E; rewrite ?append_cons in E.
  - by injection E.
  - injection E as -> E. apply no_byte_cons in Hs' as [? _]. done.
  - injection E as -> E. apply no_byte_cons in Hs as [? _]. done.
  - injection E as -> E. apply no_byte_cons in Hs as [_ Hs].
    apply no_byte_cons in Hs' as [_ Hs']. by destruct (IH s' Hs Hs' E) as [-> ->].
Qed.

Lemma HasPrefix_app p s : HasPrefix (p +:+ s) p = true.
Proof.
  unfold HasPrefix. induction p as [|a p IH]; [by destruct s|].
  rewrite append_cons. simpl. destruct (ascii_dec a a); done.
Qed.

Lemma HasPrefix_inv s p : HasPrefix s p = true → ∃ r, s = p +:+ r.
Proof.
  unfold HasPrefix. revert s. induction p as [|a p IH]; intros s H; [by exists s|].
  destruct s as [|b s]; simpl in H; [done|]. destruct (ascii_dec a b) as [->|]; [|done].
  apply IH in H as [r ->]. by exists r.
Qed.

Lemma HasPrefix_head_ne a p b s : a ≠ b → HasPrefix (String b s) (String a p) = false.
Proof. intros Hab. cbv [HasPrefix String.prefix]. by destruct (ascii_dec a b). Qed.

Lemma SplitN2_Some s c x y : SplitN2 s c = Some (x, y) → s = x +:+ String c y ∧ no_byte c x.
Proof.
  revert x y. induction s as [|a s IH]; intros x y; simpl; [done|]. case_decide; subst.
  - intros [= <- <-]. split; [done|apply not_elem_of_nil].
  - destruct (SplitN2 s c) as [[x' y']|]; [|done]. intros [= <- <-].
    destruct (IH x' y' eq_refl) as [-> ?]. split; [done|]. by apply no_byte_cons.
Qed.

Lemma SplitN2_None s c : SplitN2 s c = None → no_byte c s.
Proof.
  induction s as [|a s IH]; simpl; [intros; apply not_elem_of_nil|]. case_decide; [done|].
  intros E. apply no_byte_cons. split; [done|]. apply IH. by destruct (SplitN2 s c) as [[]|].
Qed.

(** *** Decimal numerals *)

Lemma digit_pretty_N_char n : (n < 10)%N → digit (pretty_N_char n) = Some (Z.of_N n).
Proof.
  intros Hn.
  assert (n = 0 ∨ n = 1 ∨ n = 2 ∨ n = 3 ∨ n = 4 ∨ n = 5 ∨ n = 6 ∨ n = 7 ∨ n = 8 ∨ n = 9)%N
    as H by lia.
  destruct_or! H; by subst n.
Qed.

Lemma digits_pretty_N_go x s : ∃ k, (0 ≤ k)%Z ∧
  ∀ acc, digits acc (pretty_N_go x s) = digits (acc * 10 ^ k + Z.of_N x) s.
Proof.
  revert s. induction (N.lt_wf_0 x) as [x _ IH]; intros s.
  destruct (decide (x = 0%N)) as [->|Hx].
  - exists 0%Z. split; [done|]. intros acc. rewrite pretty_N_go_0. f_equal. lia.
  - rewrite pretty_N_go_step by lia.
    destruct (IH (x `div` 10)%N ltac:(apply N.div_lt; lia)
      (String (pretty_N_char (x `mod` 10)) s)) as (k & Hk & H).
    exists (k + 1)%Z. split; [lia|]. intros acc. rewrite H. simpl.
    rewrite digit_pretty_N_char by (apply N.mod_lt; lia). simpl. f_equal.
    rewrite Z.pow_add_r by lia. pose proof (N.div_mod x 10 ltac:(lia)). lia.
Qed.

Lemma pretty_N_go_head x s : (0 < x)%N →
  ∃ n t, (n < 10)%N ∧ pretty_N_go x s = String (pretty_N_char n) t.
Proof.
  revert s. induction (N.lt_wf_0 x) as [x _ IH]; intros s Hx. rewrite pretty_N_go_step by done.
  destruct (decide (x `div` 10 = 0)%N) as [E|E].
  - rewrite E, pretty_N_go_0. eexists _, s. split; [|done]. apply N.mod_lt; lia.
  - apply IH; [by apply N.div_lt|]. by apply N.neq_0_lt_0.
Qed.

Lemma pretty_N_head (n : N) : ∃ d t, (d < 10)%N ∧ pretty n = String (pretty_N_char d) t.
Proof.
  unfold pretty, pretty_N. case_decide as E; [by exists 0%N, ""|]. apply pretty_N_go_head. lia.
Qed.

Lemma digits_pretty_N (n : N) : digits 0 (pretty n) = Some (Z.of_N n).
Proof.
  unfold pretty, pretty_N. case_decide as E; [by subst|].
  destruct (digits_pretty_N_go n "") as (k & _ & H). by rewrite H.
Qed.

Lemma pretty_N_char_not n c : nat_of_ascii c < 48 ∨ 57 < nat_of_ascii c →
  pretty_N_char n ≠ c.
Proof.
  intros Hc <-. unfold pretty_N_char in Hc.
  repeat (case_match; try (vm_compute in Hc; lia)).
Qed.

Lemma no_byte_pretty_N_go c x s : nat_of_ascii c < 48 ∨ 57 < nat_of_ascii c →
  no_byte c s → no_byte c (pretty_N_go x s).
Proof.
  intros Hc. revert s. induction (N.lt_wf_0 x) as [x _ IH]; intros s Hs.
  destruct (decide (x = 0%N)) as [->|Hx]; [by rewrite pretty_N_go_0|].
  rewrite pretty_N_go_step by lia. apply IH; [apply N.div_lt; lia|].
  apply no_byte_cons. split; [|done]. by apply pretty_N_char_not.
Qed.

Lemma no_byte_pretty_N c (n : N) : nat_of_ascii c < 48 ∨ 57 < nat_of_ascii c →
  no_byte c (pretty n).
Proof.
  intros Hc. unfold pretty, pretty_N. case_decide.
  - apply no_byte_cons. split; [|apply not_elem_of_nil]. by apply (pretty_N_char_not 0).
  - apply no_byte_pretty_N_go; [done|apply not_elem_of_nil].
Qed.

(** [strconv.Atoi(strconv.Itoa(n)) = n] for every [int] that is not negative. *)
Lemma Atoi_Itoa_N (n : N) : (Z.of_N n ≤ max_int)%Z → Atoi (pretty n) = (Z.of_N n, None).
Proof.
  intros Hn. destruct (pretty_N_head n) as (d & t & Hd & E). unfold Atoi.
  assert (Hb : match pretty n with
               | String "+" s' | String "-" s' => s'
               | _ => pretty n
               end = pretty n).
  { rewrite E. assert (H1 := pretty_N_char_not d "+" ltac:(vm_compute; lia)).
    assert (H2 := pretty_N_char_not d "-" ltac:(vm_compute; lia)).
    destruct (pretty_N_char d) as [[][][][][][][][]]; done. }
  rewrite Hb. rewrite digits_pretty_N.
  assert (Hm : HasPrefix (pretty n) "-" = false).
  { rewrite E. apply HasPrefix_head_ne. apply not_eq_sym, pretty_N_char_not.
    vm_compute; lia. }
  rewrite Hm, E. unfold max_int, min_int in *.
  rewrite !decide_False by lia. done.
Qed.
