(* ===== verification/GoCrypto.v ===== *)
(** The parts of Go's [encoding/base64], [crypto/sha256] and [encoding/hex] that the operator
    calls: [base64.StdEncoding.DecodeString], [sha256.Sum256] and [hex.EncodeToString]. *)

From S2P Require Import Prelude.
From S2P Require Import GoStrings.
From Stdlib Require Import Ascii ZArith Lia.
From stdpp Require Import options.

Local Open Scope Z_scope.
Local Open Scope stdpp_scope.
Local Open Scope list_scope.

Definition byte_of (c : ascii) : Z := Z.of_N (N_of_ascii c).
Definition of_byte (z : Z) : ascii := ascii_of_N (Z.to_N z).

Abbreviation bytes s := (String.list_ascii_of_string s).
Abbreviation of_bytes l := (String.string_of_list_ascii l).

(** ** Base 64 *)

Definition alphabet : string :=
  "ABCDEFGHIJKLMNOPQRSTUVWXYZabcdefghijklmnopqrstuvwxyz0123456789+/".

Definition char64 (v : Z) : ascii := default "A"%char (bytes alphabet !! Z.to_nat v).

Definition value64 (c : ascii) : option Z :=
  (λ '(i, _), Z.of_nat i) <$> list_find (λ d, d = c) (bytes alphabet).

(** of three bytes, and of what is left *)
Fixpoint encode64 (l : list ascii) : list ascii :=
  match l with
  | a :: b :: c :: l' =>
      let v := byte_of a * 2 ^ 16 + byte_of b * 2 ^ 8 + byte_of c in
      char64 (v / 2 ^ 18) :: char64 (v / 2 ^ 12 mod 64) :: char64 (v / 2 ^ 6 mod 64)
        :: char64 (v mod 64) :: encode64 l'
  | [a; b] =>
      let v := byte_of a * 2 ^ 16 + byte_of b * 2 ^ 8 in
      [char64 (v / 2 ^ 18); char64 (v / 2 ^ 12 mod 64); char64 (v / 2 ^ 6 mod 64); "="%char]
  | [a] =>
      let v := byte_of a * 2 ^ 16 in
      [char64 (v / 2 ^ 18); char64 (v / 2 ^ 12 mod 64); "="%char; "="%char]
  | [] => []
  end.

(** what [json.Marshal] makes of a [[]byte] *)
Definition EncodeToString (s : string) : string := of_bytes (encode64 (bytes s)).

Definition CorruptInputError (at_byte : Z) : error :=
  Errorf ("illegal base64 data at input byte " +:+ Itoa at_byte).

Definition is_newline (c : ascii) : bool :=
  bool_decide (c = ascii_of_nat 10) || bool_decide (c = ascii_of_nat 13).

(** without the newlines in front, and the position behind them *)
Fixpoint skip_newlines (src : list ascii) (si : Z) : list ascii * Z :=
  match src with
  | c :: src' => if is_newline c then skip_newlines src' (si + 1) else (src, si)
  | [] => (src, si)
  end.

(** the bytes of two, three or four digits *)
Definition quantum (buf : list Z) : list ascii :=
  let v := nth 0 buf 0 * 2 ^ 18 + nth 1 buf 0 * 2 ^ 12 + nth 2 buf 0 * 2 ^ 6 + nth 3 buf 0 in
  take (length buf - 1)
    [of_byte (v / 2 ^ 16); of_byte (v / 2 ^ 8 mod 256); of_byte (v mod 256)].

(** behind the padding only newlines may follow *)
Definition padded (src : list ascii) (si : Z) (buf : list Z) (out : list ascii)
    : outcome (list ascii) :=
  let '(rest, si) := skip_newlines src si in
  match rest with
  | [] => Ok (out ++ quantum buf)
  | _ => Fail (CorruptInputError si)
  end.

(** [Decode] from position [si] with the digits [buf] of the current quantum and the bytes
    [out] decoded so far *)
Fixpoint decode64 (src : list ascii) (si : Z) (buf : list Z) (out : list ascii)
    : outcome (list ascii) :=
  match src with
  | [] => if decide (buf = []) then Ok out
          else Fail (CorruptInputError (si - Z.of_nat (length buf)))
  | c :: src' =>
      match value64 c with
      | Some v =>
          if decide (length buf = 3%nat)
          then decode64 src' (si + 1) [] (out ++ quantum (buf ++ [v]))
          else decode64 src' (si + 1) (buf ++ [v]) out
      | None =>
          if is_newline c then decode64 src' (si + 1) buf out
          else if negb (bool_decide (c = "="%char)) then Fail (CorruptInputError si)
          else match length buf with
          | 2%nat =>
              let '(rest, si) := skip_newlines src' (si + 1) in
              match rest with
              | [] => Fail (CorruptInputError si)
              | d :: rest =>
                  if decide (d = "="%char) then padded rest (si + 1) buf out
                  else Fail (CorruptInputError (si - 1))
              end
          | 3%nat => padded src' (si + 1) buf out
          | _ => Fail (CorruptInputError si)
          end
      end
  end.

Definition DecodeString (s : string) : outcome string :=
  l ← decode64 (bytes s) 0 [] []; Ok (of_bytes l).

(** ** SHA-256 *)

Definition w32 (z : Z) : Z := z mod 2 ^ 32.
Definition rotr (n x : Z) : Z := w32 (Z.lor (Z.shiftr x n) (Z.shiftl x (32 - n))).
Definition not32 (x : Z) : Z := Z.lxor x (2 ^ 32 - 1).

(** The constants are the first 32 bits of the fractional parts of the square roots of the first
    eight primes, and of the cube roots of the first sixty-four. *)
Definition is_prime (p : Z) : bool :=
  bool_decide (2 ≤ p) && forallb (λ d, bool_decide (p mod d ≠ 0)) (seqZ 2 (p - 2)).

Definition first_primes (n : nat) : list Z := take n (filter (λ p, is_prime p = true) (seqZ 0 320)).

(** the cube root, bit by bit from the highest *)
Fixpoint cube_root (bits : nat) (acc n : Z) : Z :=
  match bits with
  | O => acc
  | S b =>
      let acc' := acc + 2 ^ Z.of_nat b in
      cube_root b (if bool_decide (acc' * acc' * acc' ≤ n) then acc' else acc) n
  end.

Definition initial_hash : list Z :=
  Eval vm_compute in ((λ p, w32 (Z.sqrt (p * 2 ^ 64))) <$> first_primes 8).

Definition round_constants : list Z :=
  Eval vm_compute in ((λ p, w32 (cube_root 36 0 (p * 2 ^ 96))) <$> first_primes 64).

(** the next word of the schedule, from the sixteen before it *)
Definition next_word (ws : list Z) : Z :=
  let w i := nth i ws 0 in
  let s0 := Z.lxor (Z.lxor (rotr 7 (w 1%nat)) (rotr 18 (w 1%nat))) (Z.shiftr (w 1%nat) 3) in
  let s1 := Z.lxor (Z.lxor (rotr 17 (w 14%nat)) (rotr 19 (w 14%nat))) (Z.shiftr (w 14%nat) 10) in
  w32 (w 0%nat + s0 + w 9%nat + s1).

(** The rounds of a block: [ws] is the window of sixteen words of the schedule. *)
Fixpoint sha_rounds (ks ws : list Z) (h : list Z) : list Z :=
  match ks, h with
  | k :: ks', [a; b; c; d; e; f; g; h0] =>
      let s1 := Z.lxor (Z.lxor (rotr 6 e) (rotr 11 e)) (rotr 25 e) in
      let ch := Z.lxor (Z.land e f) (Z.land (not32 e) g) in
      let t1 := h0 + s1 + ch + k + nth 0 ws 0 in
      let s0 := Z.lxor (Z.lxor (rotr 2 a) (rotr 13 a)) (rotr 22 a) in
      let maj := Z.lxor (Z.lxor (Z.land a b) (Z.land a c)) (Z.land b c) in
      sha_rounds ks' (tail ws ++ [next_word ws])
        [w32 (t1 + s0 + maj); a; b; c; w32 (d + t1); e; f; g]
  | _, _ => h
  end.

Definition big_endian (l : list Z) : Z := foldl (λ acc b, acc * 256 + b) 0 l.

Fixpoint words (l : list Z) : list Z :=
  match l with
  | b0 :: b1 :: b2 :: b3 :: l' => big_endian [b0; b1; b2; b3] :: words l'
  | _ => []
  end.

Definition sha_block (h : list Z) (block : list Z) : list Z :=
  zip_with (λ x y, w32 (x + y)) h (sha_rounds round_constants (words block) h).

Fixpoint bytes_of_word (n : nat) (z : Z) : list Z :=
  match n with
  | O => []
  | S n' => z / 256 ^ Z.of_nat n' mod 256 :: bytes_of_word n' z
  end.

(** the message, a bit, zeros up to the length, which takes the last eight bytes *)
Definition sha_pad (l : list Z) : list Z :=
  let n := length l in
  l ++ [128] ++ replicate ((119 - n mod 64) mod 64)%nat 0 ++ bytes_of_word 8 (8 * Z.of_nat n).

Fixpoint sha_blocks (n : nat) (l h : list Z) : list Z :=
  match n with
  | O => h
  | S n' => sha_blocks n' (drop 64 l) (sha_block h (take 64 l))
  end.

Definition Sum256 (s : string) : list Z :=
  let l := sha_pad (byte_of <$> bytes s) in
  sha_blocks (length l / 64)%nat l initial_hash ≫= bytes_of_word 4.

Definition hex_digit (z : Z) : ascii :=
  default "0"%char (bytes "0123456789abcdef" !! Z.to_nat z).

(** [hex.EncodeToString] *)
Definition hex (l : list Z) : string :=
  of_bytes (l ≫= λ b, [hex_digit (b / 16); hex_digit (b mod 16)]).

Example sha256_abc :
  hex (Sum256 "abc") = "ba7816bf8f01cfea414140de5dae2223b00361a396177a9cb410ff61f20015ad".
Proof. vm_compute. reflexivity. Qed.

Example sha256_two_blocks :
  hex (Sum256 "abcdbcdecdefdefgefghfghighijhijkijkljklmklmnlmnomnopnopq")
  = "248d6a61d20638b8e5c026930c3e6039a33ce45964ff2167f6ecedd419db06c1".
Proof. vm_compute. reflexivity. Qed.

(** ** Properties *)

Lemma byte_of_bounds c : 0 ≤ byte_of c < 256.
Proof. unfold byte_of. pose proof (N_ascii_bounded c). lia. Qed.

Lemma of_byte_of c : of_byte (byte_of c) = c.
Proof. unfold of_byte, byte_of. by rewrite N2Z.id, ascii_N_embedding. Qed.

Definition sextets : list Z := seqZ 0 64.

Lemma sextet v : 0 ≤ v < 64 → value64 (char64 v) = Some v.
Proof.
  intros Hv. assert (Forall (λ v, value64 (char64 v) = Some v) sextets) as Hall by decide_goal.
  rewrite Forall_forall in Hall. apply Hall. apply elem_of_seqZ. lia.
Qed.

(** one digit, and the last one of a quantum *)
Lemma decode64_digit v src si buf out :
  0 ≤ v < 64 → length buf ≠ 3%nat →
  decode64 (char64 v :: src) si buf out = decode64 src (si + 1) (buf ++ [v]) out.
Proof. intros Hv Hl. simpl. rewrite (sextet v Hv). by rewrite decide_False. Qed.

Lemma decode64_last v src si buf out :
  0 ≤ v < 64 → length buf = 3%nat →
  decode64 (char64 v :: src) si buf out = decode64 src (si + 1) [] (out ++ quantum (buf ++ [v])).
Proof. intros Hv Hl. simpl. rewrite (sextet v Hv). by rewrite decide_True. Qed.

(** the digits of three bytes; the last ones are zero when the last bytes are *)
Lemma split_sextets x y z v :
  0 ≤ x < 256 → 0 ≤ y < 256 → 0 ≤ z < 256 → v = x * 2 ^ 16 + y * 2 ^ 8 + z →
  (0 ≤ v / 2 ^ 18 < 64 ∧ 0 ≤ v / 2 ^ 12 mod 64 < 64 ∧ 0 ≤ v / 2 ^ 6 mod 64 < 64
   ∧ 0 ≤ v mod 64 < 64)
  ∧ v / 2 ^ 18 * 2 ^ 18 + v / 2 ^ 12 mod 64 * 2 ^ 12 + v / 2 ^ 6 mod 64 * 2 ^ 6 + v mod 64 = v
  ∧ (z = 0 → v mod 64 = 0) ∧ (y = 0 → z = 0 → v / 2 ^ 6 mod 64 = 0).
Proof. intros Hx Hy Hz ->. split_and!; intros; Z.div_mod_to_equations; lia. Qed.

Lemma byte_of_zero : byte_of "000"%char = 0.
Proof. reflexivity. Qed.

Lemma three_bytes v a b c :
  v = byte_of a * 2 ^ 16 + byte_of b * 2 ^ 8 + byte_of c →
  [of_byte (v / 2 ^ 16); of_byte (v / 2 ^ 8 mod 256); of_byte (v mod 256)] = [a; b; c].
Proof.
  pose proof (byte_of_bounds a). pose proof (byte_of_bounds b). pose proof (byte_of_bounds c).
  intros ->. transitivity [of_byte (byte_of a); of_byte (byte_of b); of_byte (byte_of c)];
    [|by rewrite !of_byte_of].
  f_equal; [f_equal|f_equal; [f_equal|f_equal; f_equal]]; Z.div_mod_to_equations; lia.
Qed.

Lemma decode64_padding d0 d1 d2 si out :
  decode64 ["="; "="]%char si [d0; d1] out = Ok (out ++ quantum [d0; d1])
  ∧ decode64 ["="]%char si [d0; d1; d2] out = Ok (out ++ quantum [d0; d1; d2]).
Proof. done. Qed.

Lemma quantum_bytes buf a b c :
  nth 0 buf 0 * 2 ^ 18 + nth 1 buf 0 * 2 ^ 12 + nth 2 buf 0 * 2 ^ 6 + nth 3 buf 0
    = byte_of a * 2 ^ 16 + byte_of b * 2 ^ 8 + byte_of c →
  quantum buf = take (length buf - 1) [a; b; c].
Proof. intros E. unfold quantum. cbv zeta. by rewrite (three_bytes _ a b c). Qed.

(** the digits of an encoded text are read back, whatever comes before *)
Lemma decode64_encode l : ∀ si out, decode64 (encode64 l) si [] out = Ok (out ++ l).
Proof.
  induction l as [l IH] using (induction_ltof1 _ (@length ascii)). intros si out.
  destruct l as [|a [|b [|c l]]].
  - simpl. by rewrite app_nil_r.
  - destruct (split_sextets (byte_of a) 0 0 (byte_of a * 2 ^ 16))
      as ((H0 & H1 & H2 & H3) & Hv & Hz & Hy); [apply byte_of_bounds|lia..|].
    cbn [encode64]. cbv zeta. rewrite !decode64_digit by done.
    rewrite (Hz eq_refl), (Hy eq_refl eq_refl) in Hv. cbn [app].
    rewrite (proj1 (decode64_padding _ _ 0 _ _)), (quantum_bytes _ a "000" "000"); [done|].
    rewrite byte_of_zero. cbn [nth]. lia.
  - destruct (split_sextets (byte_of a) (byte_of b) 0 (byte_of a * 2 ^ 16 + byte_of b * 2 ^ 8))
      as ((H0 & H1 & H2 & H3) & Hv & Hz & _); [apply byte_of_bounds..|lia|lia|].
    cbn [encode64]. cbv zeta. rewrite !decode64_digit by done.
    rewrite (Hz eq_refl) in Hv. cbn [app].
    rewrite (proj2 (decode64_padding _ _ _ _ _)), (quantum_bytes _ a b "000"); [done|].
    rewrite byte_of_zero. cbn [nth]. lia.
  - destruct (split_sextets (byte_of a) (byte_of b) (byte_of c)
        (byte_of a * 2 ^ 16 + byte_of b * 2 ^ 8 + byte_of c))
      as ((H0 & H1 & H2 & H3) & Hv & _); [apply byte_of_bounds..|done|].
    cbn [encode64]. cbv zeta. rewrite !decode64_digit by done. rewrite decode64_last by done.
    rewrite IH by (unfold ltof; simpl; lia). cbn [app].
    rewrite (quantum_bytes _ a b c) by done. by rewrite <- app_assoc.
Qed.

Lemma DecodeString_EncodeToString s : DecodeString (EncodeToString s) = Ok s.
Proof.
  unfold DecodeString, EncodeToString. rewrite String.list_ascii_of_string_of_list_ascii.
  rewrite decode64_encode. simpl. by rewrite String.string_of_list_ascii_of_string.
Qed.

(** A digest has 32 bytes, and its text 64 digits. *)
Lemma sha_rounds_length ks : ∀ ws h, length (sha_rounds ks ws h) = length h.
Proof.
  induction ks as [|k ks IH]; intros ws h; [done|]. simpl. repeat (case_match; try done).
  all: by rewrite IH.
Qed.

Lemma sha_blocks_length n : ∀ l h, length (sha_blocks n l h) = length h.
Proof.
  induction n as [|n IH]; intros l h; [done|]. simpl. rewrite IH. unfold sha_block.
  rewrite length_zip_with, sha_rounds_length. lia.
Qed.

Lemma length_flat {A B} (f : A → list B) n l :
  (∀ x, length (f x) = n) → length (l ≫= f) = (length l * n)%nat.
Proof.
  intros Hf. induction l as [|x l IH]; [done|]. rewrite bind_cons, length_app, IH, Hf. simpl. lia.
Qed.

Lemma length_of_bytes l : String.length (of_bytes l) = length l.
Proof. induction l as [|c l IH]; [done|]. simpl. by rewrite IH. Qed.

Lemma digest_length s : String.length (hex (Sum256 s)) = 64%nat.
Proof.
  unfold hex, Sum256. rewrite length_of_bytes.
  rewrite (length_flat _ 2) by done. rewrite (length_flat _ 4) by done.
  by rewrite sha_blocks_length.
Qed.
