(* ===== verification/Types.v ===== *)
(** The custom resource [ContainerStorageModule] (api/v1): its Go structs field by
    field, and its methods.  A Go pointer is an [option]; a Go map or slice whose
    [nil] the source tells from an empty one is an [option] too ([None] is [nil]).
    A field [F] of the struct [S] is [p_F] with a short prefix [p] per struct.

    The records of k8s.io/api and apimachinery that the custom resource contains
    ([EnvVar], [Toleration], [ObjectMeta], [OwnerReference]) have the fields the
    operator reads or writes. *)

From S2P Require Import Prelude.
From S2P Require Import GoStrings.
From stdpp Require Import options.

Local Open Scope stdpp_scope.

(** [map[string]string], [None] for [nil] *)
Abbreviation gomap := (option (gmap string string)).

(** [m[k]] on a map that can be nil: [""] when absent *)
Definition map_get (m : gomap) (k : string) : string :=
  lookup_zero (default ∅ m) k.

(** ** Kubernetes records inside the custom resource *)

Record EnvVar := mkEnvVar { ev_Name : string; ev_Value : string }.

Record Toleration := mkToleration {
  to_Key : string;
  to_Operator : string;
  to_Value : string;
  to_Effect : string;
  to_TolerationSeconds : option Z
}.

Record OwnerReference := mkOwnerReference {
  or_APIVersion : string;
  or_Kind : string;
  or_Name : string;
  or_UID : string;
  or_Controller : option bool;
  or_BlockOwnerDeletion : option bool
}.

Record ObjectMeta := mkObjectMeta {
  om_Name : string;
  om_Namespace : string;
  om_UID : string;
  om_ResourceVersion : string;
  om_Generation : Z;
  om_Deleting : bool;                  (* DeletionTimestamp is set *)
  om_Labels : gomap;
  om_Annotations : gomap;
  om_Finalizers : list string;
  om_OwnerReferences : option (list OwnerReference);
  om_ManagedFields : list string
}.

Definition zero_ObjectMeta : ObjectMeta :=
  {| om_Name := ""; om_Namespace := ""; om_UID := ""; om_ResourceVersion := "";
     om_Generation := 0%Z; om_Deleting := false; om_Labels := None; om_Annotations := None;
     om_Finalizers := []; om_OwnerReferences := None; om_ManagedFields := [] |}.

(** An object of the given name and namespace with nothing else set. *)
Definition named (ns name : string) : ObjectMeta :=
  {| om_Name := name; om_Namespace := ns; om_UID := ""; om_ResourceVersion := "";
     om_Generation := 0%Z; om_Deleting := false; om_Labels := None; om_Annotations := None;
     om_Finalizers := []; om_OwnerReferences := None; om_ManagedFields := [] |}.

Definition set_om_ResourceVersion (v : string) (m : ObjectMeta) : ObjectMeta :=
  {| om_Name := om_Name m; om_Namespace := om_Namespace m; om_UID := om_UID m;
     om_ResourceVersion := v; om_Generation := om_Generation m; om_Deleting := om_Deleting m;
     om_Labels := om_Labels m; om_Annotations := om_Annotations m;
     om_Finalizers := om_Finalizers m; om_OwnerReferences := om_OwnerReferences m;
     om_ManagedFields := om_ManagedFields m |}.

Definition set_om_Finalizers (v : list string) (m : ObjectMeta) : ObjectMeta :=
  {| om_Name := om_Name m; om_Namespace := om_Namespace m; om_UID := om_UID m;
     om_ResourceVersion := om_ResourceVersion m; om_Generation := om_Generation m;
     om_Deleting := om_Deleting m; om_Labels := om_Labels m; om_Annotations := om_Annotations m;
     om_Finalizers := v; om_OwnerReferences := om_OwnerReferences m;
     om_ManagedFields := om_ManagedFields m |}.

Definition set_om_Annotations (v : gomap) (m : ObjectMeta) : ObjectMeta :=
  {| om_Name := om_Name m; om_Namespace := om_Namespace m; om_UID := om_UID m;
     om_ResourceVersion := om_ResourceVersion m; om_Generation := om_Generation m;
     om_Deleting := om_Deleting m; om_Labels := om_Labels m; om_Annotations := v;
     om_Finalizers := om_Finalizers m; om_OwnerReferences := om_OwnerReferences m;
     om_ManagedFields := om_ManagedFields m |}.

Definition set_om_OwnerReferences (v : option (list OwnerReference)) (m : ObjectMeta) : ObjectMeta :=
  {| om_Name := om_Name m; om_Namespace := om_Namespace m; om_UID := om_UID m;
     om_ResourceVersion := om_ResourceVersion m; om_Generation := om_Generation m;
     om_Deleting := om_Deleting m; om_Labels := om_Labels m; om_Annotations := om_Annotations m;
     om_Finalizers := om_Finalizers m; om_OwnerReferences := v;
     om_ManagedFields := om_ManagedFields m |}.

Definition set_om_ManagedFields (v : list string) (m : ObjectMeta) : ObjectMeta :=
  {| om_Name := om_Name m; om_Namespace := om_Namespace m; om_UID := om_UID m;
     om_ResourceVersion := om_ResourceVersion m; om_Generation := om_Generation m;
     om_Deleting := om_Deleting m; om_Labels := om_Labels m; om_Annotations := om_Annotations m;
     om_Finalizers := om_Finalizers m; om_OwnerReferences := om_OwnerReferences m;
     om_ManagedFields := v |}.

(** ** The constants of api/v1/types.go *)

Definition Replication : string := "replication".
Definition Resiliency : string := "resiliency".
Definition Observability : string := "observability".
Definition Authorization : string := "authorization".
Definition AuthorizationServer : string := "authorization-proxy-server".
Definition ReverseProxy : string := "csireverseproxy".
Definition PowerFlex : string := "powerflex".
Definition PowerMax : string := "powermax".
Definition PowerScale : string := "isilon".
Definition PowerScaleName : string := "powerscale".
Definition PowerFlexName : string := "vxflexos".
Definition Unity : string := "unity".
Definition PowerStore : string := "powerstore".
Definition Cosi : string := "cosi".
Definition Provisioner : string := "provisioner".
Definition Attacher : string := "attacher".
Definition Snapshotter : string := "snapshotter".
Definition Registrar : string := "registrar".
Definition Resizer : string := "resizer".
Definition Sdcmonitor : string := "sdc-monitor".
Definition Externalhealthmonitor : string := "external-health-monitor".
Definition Sdc : string := "sdc".

(** ** The structs of api/v1/types.go *)

Record Vault := mkVault {
  va_Identifier : string;
  va_Address : string;
  va_Role : string;
  va_SkipCertificateValidation : bool;
  va_ClientCertificate : string;
  va_ClientKey : string;
  va_CertificateAuthority : string
}.

Record ConjurCredentialPath := mkConjurCredentialPath {
  cc_UsernamePath : string;
  cc_PasswordPath : string
}.

Record ConjurConfigPath := mkConjurConfigPath {
  cp_SecretPath : string
}.

Record ConjurSecretProviderClass := mkConjurSecretProviderClass {
  cs_Name : string;
  cs_Paths : list ConjurCredentialPath
}.

Record StorageSystemSecretProviderClasses := mkStorageSystemSecretProviderClasses {
  ss_Vaults : list string;
  ss_Conjurs : list ConjurSecretProviderClass
}.

Record RedisSecretProviderClass := mkRedisSecretProviderClass {
  rp_SecretProviderClassName : string;
  rp_RedisSecretName : string;
  rp_RedisUsernameKey : string;
  rp_RedisPasswordKey : string;
  rp_Conjur : option ConjurCredentialPath
}.

Record ConfigSecretProviderClass := mkConfigSecretProviderClass {
  cf_SecretProviderClassName : string;
  cf_ConfigSecretName : string;
  cf_Conjur : option ConjurConfigPath
}.

Record ProxyServerIngress := mkProxyServerIngress {
  pi_IngressClassName : string;
  pi_Hosts : list string;
  pi_Annotations : gomap
}.

Record ProxyServerGateway := mkProxyServerGateway {
  pg_GatewayClassName : string;
  pg_Hosts : list string;
  pg_Annotations : gomap
}.

Record SnapshotClass := mkSnapshotClass {
  sc_Name : string;
  sc_Parameters : gomap
}.

Record CSIDriverSpec := mkCSIDriverSpec {
  cd_FSGroupPolicy : string;
  cd_StorageCapacity : bool
}.

Record ContainerTemplate := mkContainerTemplate {
  ct_Name : string;
  ct_Enabled : option bool;
  ct_Image : string;
  ct_ImagePullPolicy : string;
  ct_Args : list string;
  ct_Envs : option (list EnvVar);
  ct_Tolerations : list Toleration;
  ct_NodeSelector : gomap;
  ct_ProxyService : string;
  ct_ProxyServiceReplicas : Z;
  ct_TenantService : string;
  ct_TenantServiceReplicas : Z;
  ct_RoleService : string;
  ct_RoleServiceReplicas : Z;
  ct_StorageService : string;
  ct_StorageServiceReplicas : Z;
  ct_AuthorizationController : string;
  ct_AuthorizationControllerReplicas : Z;
  ct_LeaderElection : bool;
  ct_OpenTelemetryCollectorAddress : string;
  ct_ControllerReconcileInterval : string;
  ct_Redis : string;
  ct_Commander : string;
  ct_Opa : string;
  ct_OpaKubeMgmt : string;
  ct_Hostname : string;
  ct_ProxyServerIngress : list ProxyServerIngress;
  ct_Gateway : option ProxyServerGateway;
  ct_Vaults : list Vault;
  ct_SecretProviderClasses : option StorageSystemSecretProviderClasses;
  ct_Secrets : list string;
  ct_SkipCertificateValidation : bool;
  ct_RedisUsername : string;
  ct_RedisPassword : string;
  ct_RedisName : string;
  ct_RedisCommander : string;
  ct_RedisReplicas : Z;
  ct_Sentinel : string;
  ct_RedisSecretProviderClass : list RedisSecretProviderClass;
  ct_ConfigSecretProviderClass : list ConfigSecretProviderClass;
  ct_Certificate : string;
  ct_PrivateKey : string;
  ct_CertificateAuthority : string
}.

Definition zero_ContainerTemplate : ContainerTemplate :=
  {| ct_Name := "";
     ct_Enabled := None;
     ct_Image := "";
     ct_ImagePullPolicy := "";
     ct_Args := [];
     ct_Envs := None;
     ct_Tolerations := [];
     ct_NodeSelector := None;
     ct_ProxyService := "";
     ct_ProxyServiceReplicas := 0%Z;
     ct_TenantService := "";
     ct_TenantServiceReplicas := 0%Z;
     ct_RoleService := "";
     ct_RoleServiceReplicas := 0%Z;
     ct_StorageService := "";
     ct_StorageServiceReplicas := 0%Z;
     ct_AuthorizationController := "";
     ct_AuthorizationControllerReplicas := 0%Z;
     ct_LeaderElection := false;
     ct_OpenTelemetryCollectorAddress := "";
     ct_ControllerReconcileInterval := "";
     ct_Redis := "";
     ct_Commander := "";
     ct_Opa := "";
     ct_OpaKubeMgmt := "";
     ct_Hostname := "";
     ct_ProxyServerIngress := [];
     ct_Gateway := None;
     ct_Vaults := [];
     ct_SecretProviderClasses := None;
     ct_Secrets := [];
     ct_SkipCertificateValidation := false;
     ct_RedisUsername := "";
     ct_RedisPassword := "";
     ct_RedisName := "";
     ct_RedisCommander := "";
     ct_RedisReplicas := 0%Z;
     ct_Sentinel := "";
     ct_RedisSecretProviderClass := [];
     ct_ConfigSecretProviderClass := [];
     ct_Certificate := "";
     ct_PrivateKey := "";
     ct_CertificateAuthority := "" |}.

Definition set_ct_Name (v : string) (x : ContainerTemplate) : ContainerTemplate :=
  {| ct_Name := v;
     ct_Enabled := ct_Enabled x;
     ct_Image := ct_Image x;
     ct_ImagePullPolicy := ct_ImagePullPolicy x;
     ct_Args := ct_Args x;
     ct_Envs := ct_Envs x;
     ct_Tolerations := ct_Tolerations x;
     ct_NodeSelector := ct_NodeSelector x;
     ct_ProxyService := ct_ProxyService x;
     ct_ProxyServiceReplicas := ct_ProxyServiceReplicas x;
     ct_TenantService := ct_TenantService x;
     ct_TenantServiceReplicas := ct_TenantServiceReplicas x;
     ct_RoleService := ct_RoleService x;
     ct_RoleServiceReplicas := ct_RoleServiceReplicas x;
     ct_StorageService := ct_StorageService x;
     ct_StorageServiceReplicas := ct_StorageServiceReplicas x;
     ct_AuthorizationController := ct_AuthorizationController x;
     ct_AuthorizationControllerReplicas := ct_AuthorizationControllerReplicas x;
     ct_LeaderElection := ct_LeaderElection x;
     ct_OpenTelemetryCollectorAddress := ct_OpenTelemetryCollectorAddress x;
     ct_ControllerReconcileInterval := ct_ControllerReconcileInterval x;
     ct_Redis := ct_Redis x;
     ct_Commander := ct_Commander x;
     ct_Opa := ct_Opa x;
     ct_OpaKubeMgmt := ct_OpaKubeMgmt x;
     ct_Hostname := ct_Hostname x;
     ct_ProxyServerIngress := ct_ProxyServerIngress x;
     ct_Gateway := ct_Gateway x;
     ct_Vaults := ct_Vaults x;
     ct_SecretProviderClasses := ct_SecretProviderClasses x;
     ct_Secrets := ct_Secrets x;
     ct_SkipCertificateValidation := ct_SkipCertificateValidation x;
     ct_RedisUsername := ct_RedisUsername x;
     ct_RedisPassword := ct_RedisPassword x;
     ct_RedisName := ct_RedisName x;
     ct_RedisCommander := ct_RedisCommander x;
     ct_RedisReplicas := ct_RedisReplicas x;
     ct_Sentinel := ct_Sentinel x;
     ct_RedisSecretProviderClass := ct_RedisSecretProviderClass x;
     ct_ConfigSecretProviderClass := ct_ConfigSecretProviderClass x;
     ct_Certificate := ct_Certificate x;
     ct_PrivateKey := ct_PrivateKey x;
     ct_CertificateAuthority := ct_CertificateAuthority x |}.

Definition set_ct_Enabled (v : option bool) (x : ContainerTemplate) : ContainerTemplate :=
  {| ct_Name := ct_Name x;
     ct_Enabled := v;
     ct_Image := ct_Image x;
     ct_ImagePullPolicy := ct_ImagePullPolicy x;
     ct_Args := ct_Args x;
     ct_Envs := ct_Envs x;
     ct_Tolerations := ct_Tolerations x;
     ct_NodeSelector := ct_NodeSelector x;
     ct_ProxyService := ct_ProxyService x;
     ct_ProxyServiceReplicas := ct_ProxyServiceReplicas x;
     ct_TenantService := ct_TenantService x;
     ct_TenantServiceReplicas := ct_TenantServiceReplicas x;
     ct_RoleService := ct_RoleService x;
     ct_RoleServiceReplicas := ct_RoleServiceReplicas x;
     ct_StorageService := ct_StorageService x;
     ct_StorageServiceReplicas := ct_StorageServiceReplicas x;
     ct_AuthorizationController := ct_AuthorizationController x;
     ct_AuthorizationControllerReplicas := ct_AuthorizationControllerReplicas x;
     ct_LeaderElection := ct_LeaderElection x;
     ct_OpenTelemetryCollectorAddress := ct_OpenTelemetryCollectorAddress x;
     ct_ControllerReconcileInterval := ct_ControllerReconcileInterval x;
     ct_Redis := ct_Redis x;
     ct_Commander := ct_Commander x;
     ct_Opa := ct_Opa x;
     ct_OpaKubeMgmt := ct_OpaKubeMgmt x;
     ct_Hostname := ct_Hostname x;
     ct_ProxyServerIngress := ct_ProxyServerIngress x;
     ct_Gateway := ct_Gateway x;
     ct_Vaults := ct_Vaults x;
     ct_SecretProviderClasses := ct_SecretProviderClasses x;
     ct_Secrets := ct_Secrets x;
     ct_SkipCertificateValidation := ct_SkipCertificateValidation x;
     ct_RedisUsername := ct_RedisUsername x;
     ct_RedisPassword := ct_RedisPassword x;
     ct_RedisName := ct_RedisName x;
     ct_RedisCommander := ct_RedisCommander x;
     ct_RedisReplicas := ct_RedisReplicas x;
     ct_Sentinel := ct_Sentinel x;
     ct_RedisSecretProviderClass := ct_RedisSecretProviderClass x;
     ct_ConfigSecretProviderClass := ct_ConfigSecretProviderClass x;
     ct_Certificate := ct_Certificate x;
     ct_PrivateKey := ct_PrivateKey x;
     ct_CertificateAuthority := ct_CertificateAuthority x |}.

Definition set_ct_Image (v : string) (x : ContainerTemplate) : ContainerTemplate :=
  {| ct_Name := ct_Name x;
     ct_Enabled := ct_Enabled x;
     ct_Image := v;
     ct_ImagePullPolicy := ct_ImagePullPolicy x;
     ct_Args := ct_Args x;
     ct_Envs := ct_Envs x;
     ct_Tolerations := ct_Tolerations x;
     ct_NodeSelector := ct_NodeSelector x;
     ct_ProxyService := ct_ProxyService x;
     ct_ProxyServiceReplicas := ct_ProxyServiceReplicas x;
     ct_TenantService := ct_TenantService x;
     ct_TenantServiceReplicas := ct_TenantServiceReplicas x;
     ct_RoleService := ct_RoleService x;
     ct_RoleServiceReplicas := ct_RoleServiceReplicas x;
     ct_StorageService := ct_StorageService x;
     ct_StorageServiceReplicas := ct_StorageServiceReplicas x;
     ct_AuthorizationController := ct_AuthorizationController x;
     ct_AuthorizationControllerReplicas := ct_AuthorizationControllerReplicas x;
     ct_LeaderElection := ct_LeaderElection x;
     ct_OpenTelemetryCollectorAddress := ct_OpenTelemetryCollectorAddress x;
     ct_ControllerReconcileInterval := ct_ControllerReconcileInterval x;
     ct_Redis := ct_Redis x;
     ct_Commander := ct_Commander x;
     ct_Opa := ct_Opa x;
     ct_OpaKubeMgmt := ct_OpaKubeMgmt x;
     ct_Hostname := ct_Hostname x;
     ct_ProxyServerIngress := ct_ProxyServerIngress x;
     ct_Gateway := ct_Gateway x;
     ct_Vaults := ct_Vaults x;
     ct_SecretProviderClasses := ct_SecretProviderClasses x;
     ct_Secrets := ct_Secrets x;
     ct_SkipCertificateValidation := ct_SkipCertificateValidation x;
     ct_RedisUsername := ct_RedisUsername x;
     ct_RedisPassword := ct_RedisPassword x;
     ct_RedisName := ct_RedisName x;
     ct_RedisCommander := ct_RedisCommander x;
     ct_RedisReplicas := ct_RedisReplicas x;
     ct_Sentinel := ct_Sentinel x;
     ct_RedisSecretProviderClass := ct_RedisSecretProviderClass x;
     ct_ConfigSecretProviderClass := ct_ConfigSecretProviderClass x;
     ct_Certificate := ct_Certificate x;
     ct_PrivateKey := ct_PrivateKey x;
     ct_CertificateAuthority := ct_CertificateAuthority x |}.

Definition set_ct_Envs (v : option (list EnvVar)) (x : ContainerTemplate) : ContainerTemplate :=
  {| ct_Name := ct_Name x;
     ct_Enabled := ct_Enabled x;
     ct_Image := ct_Image x;
     ct_ImagePullPolicy := ct_ImagePullPolicy x;
     ct_Args := ct_Args x;
     ct_Envs := v;
     ct_Tolerations := ct_Tolerations x;
     ct_NodeSelector := ct_NodeSelector x;
     ct_ProxyService := ct_ProxyService x;
     ct_ProxyServiceReplicas := ct_ProxyServiceReplicas x;
     ct_TenantService := ct_TenantService x;
     ct_TenantServiceReplicas := ct_TenantServiceReplicas x;
     ct_RoleService := ct_RoleService x;
     ct_RoleServiceReplicas := ct_RoleServiceReplicas x;
     ct_StorageService := ct_StorageService x;
     ct_StorageServiceReplicas := ct_StorageServiceReplicas x;
     ct_AuthorizationController := ct_AuthorizationController x;
     ct_AuthorizationControllerReplicas := ct_AuthorizationControllerReplicas x;
     ct_LeaderElection := ct_LeaderElection x;
     ct_OpenTelemetryCollectorAddress := ct_OpenTelemetryCollectorAddress x;
     ct_ControllerReconcileInterval := ct_ControllerReconcileInterval x;
     ct_Redis := ct_Redis x;
     ct_Commander := ct_Commander x;
     ct_Opa := ct_Opa x;
     ct_OpaKubeMgmt := ct_OpaKubeMgmt x;
     ct_Hostname := ct_Hostname x;
     ct_ProxyServerIngress := ct_ProxyServerIngress x;
     ct_Gateway := ct_Gateway x;
     ct_Vaults := ct_Vaults x;
     ct_SecretProviderClasses := ct_SecretProviderClasses x;
     ct_Secrets := ct_Secrets x;
     ct_SkipCertificateValidation := ct_SkipCertificateValidation x;
     ct_RedisUsername := ct_RedisUsername x;
     ct_RedisPassword := ct_RedisPassword x;
     ct_RedisName := ct_RedisName x;
     ct_RedisCommander := ct_RedisCommander x;
     ct_RedisReplicas := ct_RedisReplicas x;
     ct_Sentinel := ct_Sentinel x;
     ct_RedisSecretProviderClass := ct_RedisSecretProviderClass x;
     ct_ConfigSecretProviderClass := ct_ConfigSecretProviderClass x;
     ct_Certificate := ct_Certificate x;
     ct_PrivateKey := ct_PrivateKey x;
     ct_CertificateAuthority := ct_CertificateAuthority x |}.

Record MetricsServiceMonitorConfig := mkMetricsServiceMonitorConfig {
  sm_Enabled : bool;
  sm_Interval : string;
  sm_InsecureSkipVerify : bool
}.

Definition zero_MetricsServiceMonitorConfig : MetricsServiceMonitorConfig :=
  {| sm_Enabled := false;
     sm_Interval := "";
     sm_InsecureSkipVerify := false |}.

Record GatewayMonitoringConfig := mkGatewayMonitoringConfig {
  gm_Enabled : bool;
  gm_LeaderElectionEnabled : option bool;
  gm_PollInterval : string
}.

Record DriverMetrics := mkDriverMetrics {
  dm_Enabled : bool;
  dm_Port : Z;
  dm_TLSCertSecret : string;
  dm_GatewayMonitoring : option GatewayMonitoringConfig;
  dm_ServiceMonitor : option MetricsServiceMonitorConfig
}.

Definition zero_DriverMetrics : DriverMetrics :=
  {| dm_Enabled := false;
     dm_Port := 0%Z;
     dm_TLSCertSecret := "";
     dm_GatewayMonitoring := None;
     dm_ServiceMonitor := None |}.

Record Driver := mkDriver {
  d_CSIDriverType : string;
  d_CSIDriverSpec : option CSIDriverSpec;
  d_ConfigVersion : string;
  d_Replicas : Z;
  d_DNSPolicy : string;
  d_Common : option ContainerTemplate;
  d_Controller : option ContainerTemplate;
  d_Node : option ContainerTemplate;
  d_SideCars : list ContainerTemplate;
  d_InitContainers : list ContainerTemplate;
  d_SnapshotClass : list SnapshotClass;
  d_AuthSecret : string;
  d_TLSCertSecret : string;
  d_ForceRemoveDriver : option bool;
  d_Metrics : option DriverMetrics
}.

Definition zero_Driver : Driver :=
  {| d_CSIDriverType := "";
     d_CSIDriverSpec := None;
     d_ConfigVersion := "";
     d_Replicas := 0%Z;
     d_DNSPolicy := "";
     d_Common := None;
     d_Controller := None;
     d_Node := None;
     d_SideCars := [];
     d_InitContainers := [];
     d_SnapshotClass := [];
     d_AuthSecret := "";
     d_TLSCertSecret := "";
     d_ForceRemoveDriver := None;
     d_Metrics := None |}.

Definition set_d_Node (v : option ContainerTemplate) (x : Driver) : Driver :=
  {| d_CSIDriverType := d_CSIDriverType x;
     d_CSIDriverSpec := d_CSIDriverSpec x;
     d_ConfigVersion := d_ConfigVersion x;
     d_Replicas := d_Replicas x;
     d_DNSPolicy := d_DNSPolicy x;
     d_Common := d_Common x;
     d_Controller := d_Controller x;
     d_Node := v;
     d_SideCars := d_SideCars x;
     d_InitContainers := d_InitContainers x;
     d_SnapshotClass := d_SnapshotClass x;
     d_AuthSecret := d_AuthSecret x;
     d_TLSCertSecret := d_TLSCertSecret x;
     d_ForceRemoveDriver := d_ForceRemoveDriver x;
     d_Metrics := d_Metrics x |}.

Definition set_d_SideCars (v : list ContainerTemplate) (x : Driver) : Driver :=
  {| d_CSIDriverType := d_CSIDriverType x;
     d_CSIDriverSpec := d_CSIDriverSpec x;
     d_ConfigVersion := d_ConfigVersion x;
     d_Replicas := d_Replicas x;
     d_DNSPolicy := d_DNSPolicy x;
     d_Common := d_Common x;
     d_Controller := d_Controller x;
     d_Node := d_Node x;
     d_SideCars := v;
     d_InitContainers := d_InitContainers x;
     d_SnapshotClass := d_SnapshotClass x;
     d_AuthSecret := d_AuthSecret x;
     d_TLSCertSecret := d_TLSCertSecret x;
     d_ForceRemoveDriver := d_ForceRemoveDriver x;
     d_Metrics := d_Metrics x |}.

Definition set_d_InitContainers (v : list ContainerTemplate) (x : Driver) : Driver :=
  {| d_CSIDriverType := d_CSIDriverType x;
     d_CSIDriverSpec := d_CSIDriverSpec x;
     d_ConfigVersion := d_ConfigVersion x;
     d_Replicas := d_Replicas x;
     d_DNSPolicy := d_DNSPolicy x;
     d_Common := d_Common x;
     d_Controller := d_Controller x;
     d_Node := d_Node x;
     d_SideCars := d_SideCars x;
     d_InitContainers := v;
     d_SnapshotClass := d_SnapshotClass x;
     d_AuthSecret := d_AuthSecret x;
     d_TLSCertSecret := d_TLSCertSecret x;
     d_ForceRemoveDriver := d_ForceRemoveDriver x;
     d_Metrics := d_Metrics x |}.

Definition set_d_ForceRemoveDriver (v : option bool) (x : Driver) : Driver :=
  {| d_CSIDriverType := d_CSIDriverType x;
     d_CSIDriverSpec := d_CSIDriverSpec x;
     d_ConfigVersion := d_ConfigVersion x;
     d_Replicas := d_Replicas x;
     d_DNSPolicy := d_DNSPolicy x;
     d_Common := d_Common x;
     d_Controller := d_Controller x;
     d_Node := d_Node x;
     d_SideCars := d_SideCars x;
     d_InitContainers := d_InitContainers x;
     d_SnapshotClass := d_SnapshotClass x;
     d_AuthSecret := d_AuthSecret x;
     d_TLSCertSecret := d_TLSCertSecret x;
     d_ForceRemoveDriver := v;
     d_Metrics := d_Metrics x |}.

Record Module := mkModule {
  m_Name : string;
  m_Enabled : bool;
  m_ConfigVersion : string;
  m_Components : list ContainerTemplate;
  m_ForceRemoveModule : bool;
  m_InitContainer : list ContainerTemplate
}.

Definition zero_Module : Module :=
  {| m_Name := "";
     m_Enabled := false;
     m_ConfigVersion := "";
     m_Components := [];
     m_ForceRemoveModule := false;
     m_InitContainer := [] |}.

Definition set_m_ConfigVersion (v : string) (x : Module) : Module :=
  {| m_Name := m_Name x;
     m_Enabled := m_Enabled x;
     m_ConfigVersion := v;
     m_Components := m_Components x;
     m_ForceRemoveModule := m_ForceRemoveModule x;
     m_InitContainer := m_InitContainer x |}.

Definition set_m_Components (v : list ContainerTemplate) (x : Module) : Module :=
  {| m_Name := m_Name x;
     m_Enabled := m_Enabled x;
     m_ConfigVersion := m_ConfigVersion x;
     m_Components := v;
     m_ForceRemoveModule := m_ForceRemoveModule x;
     m_InitContainer := m_InitContainer x |}.

#[export] Instance EnvVar_eq_dec : EqDecision EnvVar.
Proof. solve_decision. Defined.
#[export] Instance Toleration_eq_dec : EqDecision Toleration.
Proof. solve_decision. Defined.
#[export] Instance Vault_eq_dec : EqDecision Vault.
Proof. solve_decision. Defined.
#[export] Instance ConjurCredentialPath_eq_dec : EqDecision ConjurCredentialPath.
Proof. solve_decision. Defined.
#[export] Instance ConjurConfigPath_eq_dec : EqDecision ConjurConfigPath.
Proof. solve_decision. Defined.
#[export] Instance ConjurSecretProviderClass_eq_dec : EqDecision ConjurSecretProviderClass.
Proof. solve_decision. Defined.
#[export] Instance StorageSystemSecretProviderClasses_eq_dec :
  EqDecision StorageSystemSecretProviderClasses.
Proof. solve_decision. Defined.
#[export] Instance RedisSecretProviderClass_eq_dec : EqDecision RedisSecretProviderClass.
Proof. solve_decision. Defined.
#[export] Instance ConfigSecretProviderClass_eq_dec : EqDecision ConfigSecretProviderClass.
Proof. solve_decision. Defined.
#[export] Instance ProxyServerIngress_eq_dec : EqDecision ProxyServerIngress.
Proof. solve_decision. Defined.
#[export] Instance ProxyServerGateway_eq_dec : EqDecision ProxyServerGateway.
Proof. solve_decision. Defined.
#[export] Instance ContainerTemplate_eq_dec : EqDecision ContainerTemplate.
Proof. solve_decision. Defined.
#[export] Instance Module_eq_dec : EqDecision Module.
Proof. solve_decision. Defined.

Record PodStatus := mkPodStatus {
  ps_Available : string;
  ps_Desired : string;
  ps_Failed : string
}.

Definition zero_PodStatus : PodStatus :=
  {| ps_Available := "";
     ps_Desired := "";
     ps_Failed := "" |}.
(** ** api/v1/csm_types.go *)

Record ContainerStorageModuleSpec := mkSpec {
  sp_Version : string;
  sp_Driver : Driver;
  sp_Modules : list Module;
  sp_CustomRegistry : string;
  sp_RetainImageRegistryPath : bool
}.

Record ContainerStorageModuleStatus := mkStatus {
  st_ControllerStatus : PodStatus;
  st_NodeStatus : PodStatus;
  st_State : string;
  st_LastSuccessfulConfiguration : string
}.

Record ContainerStorageModule := mkCSM {
  cr_Kind : string;
  cr_Meta : ObjectMeta;
  cr_Spec : ContainerStorageModuleSpec;
  cr_Status : ContainerStorageModuleStatus
}.

Abbreviation CSM := ContainerStorageModule.

Definition zero_Status : ContainerStorageModuleStatus :=
  mkStatus zero_PodStatus zero_PodStatus "" "".

Definition zero_Spec : ContainerStorageModuleSpec := mkSpec "" zero_Driver [] "" false.
Definition zero_CSM : CSM := mkCSM "" zero_ObjectMeta zero_Spec zero_Status.

Definition cr_Name (cr : CSM) : string := om_Name (cr_Meta cr).
Definition cr_Namespace (cr : CSM) : string := om_Namespace (cr_Meta cr).

Definition set_cr_Meta (v : ObjectMeta) (cr : CSM) : CSM :=
  mkCSM (cr_Kind cr) v (cr_Spec cr) (cr_Status cr).
Definition set_cr_Status (v : ContainerStorageModuleStatus) (cr : CSM) : CSM :=
  mkCSM (cr_Kind cr) (cr_Meta cr) (cr_Spec cr) v.
Definition set_cr_Modules (v : list Module) (cr : CSM) : CSM :=
  mkCSM (cr_Kind cr) (cr_Meta cr)
    (mkSpec (sp_Version (cr_Spec cr)) (sp_Driver (cr_Spec cr)) v
       (sp_CustomRegistry (cr_Spec cr)) (sp_RetainImageRegistryPath (cr_Spec cr)))
    (cr_Status cr).
Definition set_cr_Driver (v : Driver) (cr : CSM) : CSM :=
  mkCSM (cr_Kind cr) (cr_Meta cr)
    (mkSpec (sp_Version (cr_Spec cr)) v (sp_Modules (cr_Spec cr))
       (sp_CustomRegistry (cr_Spec cr)) (sp_RetainImageRegistryPath (cr_Spec cr)))
    (cr_Status cr).

Definition set_st_State (v : string) (s : ContainerStorageModuleStatus) :=
  mkStatus (st_ControllerStatus s) (st_NodeStatus s) v (st_LastSuccessfulConfiguration s).
Definition set_st_ControllerStatus (v : PodStatus) (s : ContainerStorageModuleStatus) :=
  mkStatus v (st_NodeStatus s) (st_State s) (st_LastSuccessfulConfiguration s).
Definition set_st_NodeStatus (v : PodStatus) (s : ContainerStorageModuleStatus) :=
  mkStatus (st_ControllerStatus s) v (st_State s) (st_LastSuccessfulConfiguration s).
Definition set_st_LastSuccessful (v : string) (s : ContainerStorageModuleStatus) :=
  mkStatus (st_ControllerStatus s) (st_NodeStatus s) (st_State s) v.

(** *** Methods *)

Definition GetDriverType (cr : CSM) : string := d_CSIDriverType (sp_Driver (cr_Spec cr)).

Definition GetControllerName (cr : CSM) : string :=
  if decide (GetDriverType cr = Cosi) then cr_Name cr
  else cr_Name cr +:+ "-controller".

Definition GetNodeName (cr : CSM) : string := cr_Name cr +:+ "-node".

(** The loop [for _, m := range cr.Spec.Modules], left at the first match. *)
Fixpoint find_module (moduleType : string) (ms : list Module) : option Module :=
  match ms with
  | [] => None
  | m :: ms' => if decide (m_Name m = moduleType) then Some m else find_module moduleType ms'
  end.

Definition GetModule (cr : CSM) (moduleType : string) : Module :=
  default zero_Module (find_module moduleType (sp_Modules (cr_Spec cr))).

Definition HasModule (cr : CSM) (moduleType : string) : bool :=
  match find_module moduleType (sp_Modules (cr_Spec cr)) with
  | Some _ => true
  | None => false
  end.

Definition IsBeingDeleted (cr : CSM) : bool := om_Deleting (cr_Meta cr).

Definition HasFinalizer (cr : CSM) (finalizerName : string) : bool :=
  existsb (λ item, bool_decide (item = finalizerName)) (om_Finalizers (cr_Meta cr)).

(** *** Facts *)

Lemma find_module_Some t ms m : find_module t ms = Some m →
  m_Name m = t ∧ m ∈ ms.
Proof.
  induction ms as [|x ms IH]; simpl; [done|]. case_decide.
  - intros [= <-]. set_solver.
  - intros H'. destruct (IH H'). set_solver.
Qed.

Lemma find_module_None t ms : find_module t ms = None ↔ ∀ m, m ∈ ms → m_Name m ≠ t.
Proof.
  induction ms as [|x ms IH]; simpl; [set_solver|]. case_decide; [set_solver|].
  rewrite IH. set_solver.
Qed.

Lemma HasModule_true cr t :
  HasModule cr t = true ↔ ∃ m, m ∈ sp_Modules (cr_Spec cr) ∧ m_Name m = t.
Proof.
  unfold HasModule. destruct (find_module t _) as [m|] eqn:E.
  - apply find_module_Some in E. naive_solver.
  - rewrite find_module_None in E. naive_solver.
Qed.

Lemma HasFinalizer_true cr f : HasFinalizer cr f = true ↔ f ∈ om_Finalizers (cr_Meta cr).
Proof.
  unfold HasFinalizer. rewrite existsb_exists. split.
  - intros (x & Hx & E). apply bool_decide_eq_true in E. subst. by apply list_elem_of_In.
  - intros Hf. exists f. split; [by apply list_elem_of_In|]. by apply bool_decide_eq_true.
Qed.

Lemma set_om_Finalizers_eq v m : om_Finalizers (set_om_Finalizers v m) = v.
Proof. done. Qed.
