(* ===== verification/Versions.v ===== *)
(** Versions, upgrade paths and the configuration of the operator:
    [versionParser], [MinVersionCheck], [IsValidUpgrade], [getUpgradeInfo],
    [GetModuleDefaultVersion] and [GetVersion] of pkg/operatorutils/utils.go.

    The files of the configuration directory, the environment and the YAML
    decoder (a third-party package) are the parameter [Host]. *)

From S2P Require Import Prelude.
From S2P Require Import GoStrings.
From S2P Require Import Types.
From Stdlib Require Import Ascii ZArith Lia.
From stdpp Require Import options.

Local Open Scope stdpp_scope.

(** ** Data *)

Record K8sImages := mkK8sImages {
  im_Attacher : string;
  im_Provisioner : string;
  im_Snapshotter : string;
  im_Registrar : string;
  im_Resizer : string;
  im_Externalhealthmonitor : string;
  im_Sdc : string;
  im_Sdcmonitor : string;
  im_Podmon : string;
  im_CSIRevProxy : string
}.

Record K8sImagesConfig := mkK8sImagesConfig {
  kc_K8sVersion : string;
  kc_Images : K8sImages
}.

Record OperatorConfig := mkOperatorConfig {
  oc_IsOpenShift : bool;
  oc_K8sVersion : K8sImagesConfig;
  oc_ConfigDirectory : string
}.

Record UpgradePaths := mkUpgradePaths { up_MinUpgradePath : string }.

(** The version of the driver and its images, keyed by container name. *)
Record VersionSpec := mkVersionSpec {
  vs_Version : string;
  vs_Images : gmap string string
}.

Definition zero_VersionSpec : VersionSpec := mkVersionSpec "" ∅.

Inductive CSMComponentType :=
  | ADriver (t : string)
  | AModule (t : string).

(** ** What the operator reads from outside: files, environment, YAML *)

Class Host := {
  ReadFile : string → error + string;
  FileExists : string → bool;
  Getenv : string → string;
  yaml_UpgradePaths : string → error + UpgradePaths;
  yaml_ModuleVersions : string → error + gmap string (gmap string (gmap string string));
  yaml_VersionMapping : string → error + gmap string (gmap string string);
  yaml_CSM : string → error + CSM;
  yaml_VersionSpecs : string → error + list VersionSpec
}.

(** ** versionParser and MinVersionCheck *)

Definition versionParser (version : string) : outcome (Z * Z) :=
  let versionNoV := TrimLeft version "v" in
  match Split versionNoV "." with
  | [major; minor; _] => Ok (fst (Atoi major), fst (Atoi minor))
  | _ => Fail (Errorf ("version " +:+ version +:+ " not in correct version format, breaks down as: "
                       +:+ "[" +:+ Join (Split versionNoV ".") " " +:+ "]"))
  end.

Definition MinVersionCheck (minVersion version : string) : outcome bool :=
  '(minMajorVersion, minMinorVersion) ← versionParser minVersion;
  '(majorVersion, minorVersion) ← versionParser version;
  if decide (majorVersion > minMajorVersion)%Z then Ok true
  else if decide (majorVersion = minMajorVersion ∧ minorVersion >= minMinorVersion)%Z then Ok true
  else Ok false.

Section host.
Context `{Host} `{MapOrder}.

(** ** Upgrade paths *)

Definition getUpgradeInfo (operatorConfig : OperatorConfig) (csmCompType : CSMComponentType)
    (oldVersion : string) : outcome string :=
  let '(csmCompConfigDir, name) :=
    match csmCompType with
    | ADriver t => ("driverconfig", t)
    | AModule t => ("moduleconfig", t)
    end in
  let upgradeInfoPath := oc_ConfigDirectory operatorConfig +:+ "/" +:+ csmCompConfigDir
    +:+ "/" +:+ name +:+ "/" +:+ oldVersion +:+ "/upgrade-path.yaml" in
  buf ← res (ReadFile (Clean upgradeInfoPath));
  upgradePath ← res (yaml_UpgradePaths buf);
  Ok (up_MinUpgradePath upgradePath).

Definition component_name (t : CSMComponentType) : string :=
  match t with
  | ADriver s | AModule s => s
  end.

(** The value beside a non-nil error is always [false]; it is dropped. *)
Definition IsValidUpgrade (oldVersion newVersion : string) (csmComponentType : CSMComponentType)
    (operatorConfig : OperatorConfig) : outcome bool :=
  if decide (oldVersion = newVersion) then Ok true
  else
    let isUpgrade := okTrue (MinVersionCheck oldVersion newVersion) in
    '(valid : bool) ←
      (if isUpgrade then
         minUpgradePath ← getUpgradeInfo operatorConfig csmComponentType newVersion;
         Ok (okTrue (MinVersionCheck minUpgradePath oldVersion))
       else
         minDowngradePath ← getUpgradeInfo operatorConfig csmComponentType oldVersion;
         Ok (okTrue (MinVersionCheck minDowngradePath newVersion)));
    if valid then Ok true
    else Fail (Errorf ("upgrade/downgrade of " +:+ component_name csmComponentType
           +:+ " from version " +:+ oldVersion +:+ " to " +:+ newVersion +:+ " not valid")).

(** ** Default versions of modules *)

Definition GetModuleDefaultVersion (driverConfigVersion driverType moduleType path : string)
    : outcome string :=
  let configMapPath := path +:+ "/moduleconfig/common/version-values.yaml" in
  buf ← res (ReadFile (Clean configMapPath));
  support ← res (yaml_ModuleVersions buf);
  let dType := if decide (driverType = "isilon") then "powerscale" else driverType in
  match support !! dType with
  | Some driver =>
      match driver !! driverConfigVersion with
      | Some modules =>
          match modules !! moduleType with
          | Some moduleVer => Ok moduleVer
          | None => Fail (Errorf (" " +:+ moduleType +:+ " module for " +:+ dType
                      +:+ " driver  does not exist in file " +:+ configMapPath))
          end
      | None => Fail (Errorf ("version " +:+ driverConfigVersion +:+ " of " +:+ dType
                  +:+ " driver does not exist in file " +:+ configMapPath))
      end
  | None => Fail (Errorf (dType +:+ " driver does not exist in file " +:+ configMapPath))
  end.

(** ** GetVersion: the configuration version of a custom resource *)

Definition GetVersion (cr : CSM) (op : OperatorConfig) : outcome string :=
  let version := sp_Version (cr_Spec cr) in
  if decide (version ≠ "") then
    let file := oc_ConfigDirectory op +:+ "/common/csm-version-mapping.yaml" in
    buf ← wrapErr (res (ReadFile (Clean file)))
      (λ e, Errorf ("failed to read file " +:+ file +:+ ": " +:+ error_text e));
    support ← res (yaml_VersionMapping buf);
    let driverType0 := d_CSIDriverType (sp_Driver (cr_Spec cr)) in
    let driverType1 := if decide (driverType0 = PowerScale) then PowerScaleName else driverType0 in
    let driverType :=
      if decide (driverType1 = "") then
        match find_module AuthorizationServer (sp_Modules (cr_Spec cr)) with
        | Some _ => AuthorizationServer
        | None => driverType1
        end
      else driverType1 in
    match support !! driverType with
    | Some csmVersion =>
        match csmVersion !! version with
        | Some configVersion => Ok configVersion
        | None =>
            let keys := fst <$> range csmVersion in
            Fail (Errorf ("No custom resource configuration is available for CSM version "
              +:+ version +:+ ". Supported CSM versions are: [" +:+ Join keys ", " +:+ "]"))
        end
    | None => Fail (Errorf ("Unsupported platform " +:+ driverType))
    end
  else
    let configVersion := d_ConfigVersion (sp_Driver (cr_Spec cr)) in
    if decide (configVersion = "") then
      match find_module AuthorizationServer (sp_Modules (cr_Spec cr)) with
      | Some m => Ok (m_ConfigVersion m)
      | None => Ok configVersion
      end
    else Ok configVersion.
End host.

(** ** Facts about versions *)

(** The text [vMAJOR.MINOR.PATCH]. *)
Definition version_text (major minor : N) (patch : string) : string :=
  "v" +:+ pretty major +:+ "." +:+ pretty minor +:+ "." +:+ patch.

Definition in_int (n : N) : Prop := (Z.of_N n ≤ max_int)%Z.

Lemma TrimLeft_v_pretty (n : N) s : TrimLeft (pretty n +:+ s) "v" = pretty n +:+ s.
Proof.
  destruct (pretty_N_head n) as (d & t & _ & E). rewrite E, append_cons. simpl.
  rewrite decide_False; [done|]. apply pretty_N_char_not. vm_compute; lia.
Qed.

Lemma versionParser_text major minor patch :
  in_int major → in_int minor → no_byte "." patch →
  versionParser (version_text major minor patch) = Ok (Z.of_N major, Z.of_N minor).
Proof.
  intros Hma Hmi Hp. unfold versionParser, version_text.
  replace (TrimLeft _ _) with (pretty major +:+ "." +:+ pretty minor +:+ "." +:+ patch)
    by (symmetry; apply TrimLeft_v_pretty).
  assert (Hdot : ∀ n : N, no_byte "." (pretty n)).
  { intros n. apply no_byte_pretty_N. vm_compute; lia. }
  change ("." +:+ pretty minor +:+ "." +:+ patch)
    with (String "." (pretty minor +:+ String "." patch)).
  rewrite !Split_app, Split_no_byte by done.
  by rewrite !Atoi_Itoa_N.
Qed.

(** The comparison [MinVersionCheck] computes once both texts have parsed. *)
Definition reaches (min v : Z * Z) : bool :=
  bool_decide (v.1 > min.1 ∨ (v.1 = min.1 ∧ v.2 >= min.2))%Z.

Lemma MinVersionCheck_parsed minVersion version p q :
  versionParser minVersion = Ok p → versionParser version = Ok q →
  MinVersionCheck minVersion version = Ok (reaches p q).
Proof.
  intros Hp Hq. unfold MinVersionCheck, reaches. rewrite Hp. simpl. rewrite Hq.
  destruct p as [a b], q as [c d]. simpl.
  repeat case_decide; case_bool_decide; done || lia.
Qed.

Lemma MinVersionCheck_Ok minVersion version b :
  MinVersionCheck minVersion version = Ok b ↔
  ∃ p q, versionParser minVersion = Ok p ∧ versionParser version = Ok q ∧ b = reaches p q.
Proof.
  split.
  - intros E. pose proof E as E0. unfold MinVersionCheck in E.
    destruct (versionParser minVersion) as [p| |] eqn:Hp; [|done..]. destruct p.
    simpl in E. destruct (versionParser version) as [q| |] eqn:Hq; [|done..].
    rewrite (MinVersionCheck_parsed _ _ _ _ Hp Hq) in E0. naive_solver.
  - intros (p & q & Hp & Hq & ->). by apply MinVersionCheck_parsed.
Qed.

Lemma reaches_trans p q r : reaches p q = true → reaches q r = true → reaches p r = true.
Proof. unfold reaches. rewrite !bool_decide_eq_true. lia. Qed.

Lemma reaches_total p q : reaches p q = true ∨ reaches q p = true.
Proof. unfold reaches. rewrite !bool_decide_eq_true. lia. Qed.

#[export] Hint Resolve reaches_trans : core.

(** ** Properties *)

(** C14: on versions written [vMAJOR.MINOR.PATCH], [MinVersionCheck] returns, without an
    error, whether the version's (major, minor) pair is at least the minimum's in the
    lexicographic order of numbers (so v2.9 is below v2.10); the patch level is not looked at. *)
Theorem MinVersionCheck_lexicographic minMajor minMinor minPatch major minor patch :
  in_int minMajor → in_int minMinor → in_int major → in_int minor →
  no_byte "." minPatch → no_byte "." patch →
  MinVersionCheck (version_text minMajor minMinor minPatch) (version_text major minor patch)
  = Ok (bool_decide (minMajor < major ∨ (minMajor = major ∧ minMinor ≤ minor))%N).
Proof.
  intros. rewrite (MinVersionCheck_parsed _ _ (Z.of_N minMajor, Z.of_N minMinor)
    (Z.of_N major, Z.of_N minor)) by by apply versionParser_text.
  unfold reaches. simpl. f_equal. apply bool_decide_ext. lia.
Qed.

Lemma MinVersionCheck_lexicographic_witness :
  MinVersionCheck "v2.10.0" "v2.9.3" = Ok false ∧ MinVersionCheck "v2.9.3" "v2.10.0" = Ok true.
Proof.
  split.
  - refine (MinVersionCheck_lexicographic 2 10 "0" 2 9 "3" _ _ _ _ _ _);
      first [by vm_compute | decide_goal].
  - refine (MinVersionCheck_lexicographic 2 9 "3" 2 10 "0" _ _ _ _ _ _);
      first [by vm_compute | decide_goal].
Defined.

(** The check is a total preorder on the versions it can parse: it is transitive, and
    of two parseable versions one reaches the other; it fails exactly when one of the two
    does not split at the dots into three parts. *)
Theorem MinVersionCheck_preorder u v w :
  (MinVersionCheck u v = Ok true → MinVersionCheck v w = Ok true → MinVersionCheck u w = Ok true)
  ∧ (∀ p q, versionParser u = Ok p → versionParser v = Ok q →
       MinVersionCheck u v = Ok true ∨ MinVersionCheck v u = Ok true)
  ∧ ((∃ e, MinVersionCheck u v = Fail e) ↔
       length (Split (TrimLeft u "v") ".") ≠ 3 ∨ length (Split (TrimLeft v "v") ".") ≠ 3).
Proof.
  split_and!.
  - intros (p & q & Hp & Hq & E1)%MinVersionCheck_Ok (q' & r & Hq' & Hr & E2)%MinVersionCheck_Ok.
    apply MinVersionCheck_Ok. exists p, r. split_and!; [done..|].
    rewrite Hq in Hq'. simplify_eq. symmetry. eauto.
  - intros p q Hp Hq. rewrite (MinVersionCheck_parsed u v p q), (MinVersionCheck_parsed v u q p)
      by done.
    destruct (reaches_total p q) as [-> | ->]; auto.
  - unfold MinVersionCheck, versionParser.
    destruct (Split (TrimLeft u "v") ".") as [|? [|? [|? [|]]]]; simpl;
      try (split; [by left|by eauto]);
    destruct (Split (TrimLeft v "v") ".") as [|? [|? [|? [|]]]]; simpl;
      try (split; [by right|by eauto]);
    repeat case_decide; naive_solver.
Qed.

Lemma MinVersionCheck_preorder_witness :
  MinVersionCheck "v2.15.0" "v2.17.0" = Ok true
  ∧ (MinVersionCheck "v2.9.0" "v2.10.0" = Ok true ∨ MinVersionCheck "v2.10.0" "v2.9.0" = Ok true).
Proof.
  split.
  - apply (proj1 (MinVersionCheck_preorder "v2.15.0" "v2.16.0" "v2.17.0")); vm_compute; reflexivity.
  - apply (proj1 (proj2 (MinVersionCheck_preorder "v2.9.0" "v2.10.0" "v2.10.0")) (2, 9)%Z (2, 10)%Z);
      vm_compute; reflexivity.
Defined.

(** [MinVersionCheck] does not look at the patch level: for one major and minor number
    it answers that any patch level meets any minimum, in both directions. *)
Theorem MinVersionCheck_ignores_patch major minor patch patch' :
  in_int major → in_int minor → no_byte "." patch → no_byte "." patch' →
  MinVersionCheck (version_text major minor patch) (version_text major minor patch') = Ok true.
Proof.
  intros. rewrite (MinVersionCheck_parsed _ _ (Z.of_N major, Z.of_N minor)
    (Z.of_N major, Z.of_N minor)) by by apply versionParser_text.
  unfold reaches. by rewrite bool_decide_true by (simpl; lia).
Qed.

Lemma MinVersionCheck_ignores_patch_witness : MinVersionCheck "v2.15.1" "v2.15.0" = Ok true.
Proof.
  refine (MinVersionCheck_ignores_patch 2 15 "1" "0" _ _ _ _);
    first [by vm_compute | decide_goal].
Defined.

(** A host with the given files, whose decoders read a file as the value itself. *)
Definition host_of (files : gmap string string) (mapping : gmap string (gmap string string))
    (env : gmap string string) : Host := {|
  ReadFile p := match files !! p with
                | Some b => inr b
                | None => inl (Errorf ("open " +:+ p +:+ ": no such file or directory"))
                end;
  FileExists p := bool_decide (is_Some (files !! p));
  Getenv k := lookup_zero env k;
  yaml_UpgradePaths b := inr (mkUpgradePaths b);
  yaml_ModuleVersions b := inr ∅;
  yaml_VersionMapping b := inr mapping;
  yaml_CSM b := inl (Errorf "yaml: unmarshal errors");
  yaml_VersionSpecs b := inl (Errorf "yaml: unmarshal errors")
|}.

Definition demo_config : OperatorConfig :=
  mkOperatorConfig false (mkK8sImagesConfig "" (mkK8sImages "" "" "" "" "" "" "" "" "" "")) "/cfg".

Definition demo_host : Host := host_of
  {[ "/cfg/driverconfig/powermax/v2.17.0/upgrade-path.yaml" := "v2.15.0";
     "/cfg/common/csm-version-mapping.yaml" := "" ]}
  {[ "powerscale" := {[ "v1.17.0" := "v2.17.0" ]} ]} ∅.

Section upgrades.
Context `{Host} `{MapOrder}.

Lemma okTrue_true m : okTrue m = true ↔ m = Ok true.
Proof. destruct m as [[]| |]; naive_solver. Qed.

(** C12: an accepted change of version is the same version, or one whose lower end reaches
    the minimum upgrade path that the configuration directory lists for its higher end;
    [IsValidUpgrade] never answers [false] without an error. *)
Theorem IsValidUpgrade_safe oldVersion newVersion ct op b :
  IsValidUpgrade oldVersion newVersion ct op = Ok b →
  b = true ∧
  (oldVersion = newVersion
   ∨ ∃ hi lo min, ((hi, lo) = (newVersion, oldVersion) ∧ MinVersionCheck lo hi = Ok true
                   ∨ (hi, lo) = (oldVersion, newVersion) ∧ MinVersionCheck hi lo ≠ Ok true)
                  ∧ getUpgradeInfo op ct hi = Ok min
                  ∧ MinVersionCheck min lo = Ok true).
Proof.
  unfold IsValidUpgrade. case_decide as E; [naive_solver|].
  destruct (okTrue (MinVersionCheck oldVersion newVersion)) eqn:Up.
  - apply okTrue_true in Up. intros Hv. go_inv. case_match; [|done]. go_inv.
    split; [done|]. right. eexists newVersion, oldVersion, _. rewrite okTrue_true in *. eauto.
  - intros Hv. go_inv. case_match; [|done]. go_inv.
    split; [done|]. right. eexists oldVersion, newVersion, _. rewrite okTrue_true in *.
    split_and!; [right; split; [done|]|done..].
    intros F. by rewrite F in Up.
Qed.

(** Every upgrade the operator accepts can be rolled back, and every rollback it accepts
    could have been an upgrade: for versions of different (major, minor), the two directions
    are accepted together, because both read the upgrade path of the higher version. *)
Theorem IsValidUpgrade_rollback lo hi ct op :
  MinVersionCheck lo hi = Ok true → MinVersionCheck hi lo = Ok false →
  IsValidUpgrade lo hi ct op = Ok true ↔ IsValidUpgrade hi lo ct op = Ok true.
Proof.
  intros Hup Hdown. assert (lo ≠ hi) by congruence.
  unfold IsValidUpgrade. rewrite !decide_False, Hup, Hdown by done. simpl.
  destruct (getUpgradeInfo op ct hi) as [min|e|p]; simpl; [|done..].
  destruct (okTrue (MinVersionCheck min lo)); done.
Qed.

(** The folder of the version mapping that serves a custom resource. *)
Definition platform (cr : CSM) : string :=
  let t := d_CSIDriverType (sp_Driver (cr_Spec cr)) in
  if decide (t = PowerScale) then PowerScaleName
  else if decide (t = "") then (if HasModule cr AuthorizationServer then AuthorizationServer else "")
  else t.

(** [GetVersion] returns the mapping's entry for the platform and [spec.version] when
    that is set; otherwise the driver's configVersion, or the authorization server's when
    the driver has none; it returns nothing else. *)
Theorem GetVersion_spec cr op v :
  GetVersion cr op = Ok v ↔
  (sp_Version (cr_Spec cr) ≠ "" ∧
    ∃ buf support versions,
      ReadFile (Clean (oc_ConfigDirectory op +:+ "/common/csm-version-mapping.yaml")) = inr buf
      ∧ yaml_VersionMapping buf = inr support
      ∧ support !! platform cr = Some versions
      ∧ versions !! sp_Version (cr_Spec cr) = Some v)
  ∨ (sp_Version (cr_Spec cr) = "" ∧
     v = (if decide (d_ConfigVersion (sp_Driver (cr_Spec cr)) = "")
          then m_ConfigVersion (GetModule cr AuthorizationServer)
          else d_ConfigVersion (sp_Driver (cr_Spec cr)))).
Proof.
  unfold GetVersion, GetModule. destruct (decide (sp_Version (cr_Spec cr) = "")) as [E|E].
  - rewrite (decide_False (P := _ ≠ "")) by naive_solver.
    destruct (decide (d_ConfigVersion _ = "")) as [E'|E'];
      [destruct (find_module _ _)|]; simpl; split; try naive_solver congruence.
  - rewrite decide_True by done.
    assert (Hp : ∀ t0, t0 = d_CSIDriverType (sp_Driver (cr_Spec cr)) →
      (if decide ((if decide (t0 = PowerScale) then PowerScaleName else t0) = "")
       then match find_module AuthorizationServer (sp_Modules (cr_Spec cr)) with
            | Some _ => AuthorizationServer
            | None => if decide (t0 = PowerScale) then PowerScaleName else t0
            end
       else if decide (t0 = PowerScale) then PowerScaleName else t0) = platform cr).
    { intros t0 ->. unfold platform, HasModule. repeat case_decide; try done.
      by destruct (find_module _ _). }
    rewrite (Hp _ eq_refl). clear Hp.
    destruct (ReadFile _) as [e|buf]; simpl;
      [split; [done|]; intros [(_ & ? & ? & ? & ? & _)|[? _]]; congruence|].
    destruct (yaml_VersionMapping buf) as [e|support] eqn:Hs; simpl;
      [split; [done|]; intros [(_ & ? & ? & ? & ? & ? & _)|[? _]]; congruence|].
    destruct (support !! platform cr) as [versions|] eqn:Hl;
      [|split; [done|]; intros [(_ & ? & ? & ? & ? & ? & ? & _)|[? _]]; congruence].
    destruct (versions !! _) as [v'|] eqn:Hv;
      [|split; [done|]; intros [(_ & ? & ? & ? & ? & ? & ? & ?)|[? _]]; congruence].
    split; [intros [= <-]; left; eauto 10|].
    intros [(_ & ? & ? & ? & ? & ? & ? & ?)|[? _]]; congruence.
Qed.
End upgrades.

Lemma IsValidUpgrade_safe_witness :
  @IsValidUpgrade demo_host "v2.16.0" "v2.17.0" (ADriver "powermax") demo_config = Ok true
  ∧ true = true.
Proof.
  assert (E : @IsValidUpgrade demo_host "v2.16.0" "v2.17.0" (ADriver "powermax") demo_config
              = Ok true) by reflexivity.
  split; [exact E|]. exact (proj1 (@IsValidUpgrade_safe demo_host _ _ _ _ _ E)).
Defined.

Lemma IsValidUpgrade_rollback_witness :
  @IsValidUpgrade demo_host "v2.17.0" "v2.16.0" (ADriver "powermax") demo_config = Ok true.
Proof.
  apply (proj1 (@IsValidUpgrade_rollback demo_host "v2.16.0" "v2.17.0" (ADriver "powermax")
    demo_config eq_refl eq_refl)). reflexivity.
Defined.
