(* ===== verification/Modules.v ===== *)
(** Modules and their components in a custom resource, and the default components
    of a minimal manifest: [IsModuleEnabled], [IsModuleComponentEnabled],
    [HasModuleComponent], [AddModuleComponent], [getDefaultComponents],
    [LoadDefaultComponents] and the environment helpers of pkg/operatorutils/utils.go. *)

From S2P Require Import Prelude.
From S2P Require Import GoStrings.
From S2P Require Import Types.
From S2P Require Import Versions.
From stdpp Require Import options.

Local Open Scope stdpp_scope.

(** ** Looking modules and components up *)

Fixpoint first_enabled (modT : string) (ms : list Module) : option Module :=
  match ms with
  | [] => None
  | m :: ms' => if decide (m_Name m = modT ∧ m_Enabled m = true) then Some m
                else first_enabled modT ms'
  end.

(** Whether the module is enabled, and the module (its zero value when not). *)
Definition IsModuleEnabled (instance : CSM) (modT : string) : bool * Module :=
  match first_enabled modT (sp_Modules (cr_Spec instance)) with
  | Some m => (true, m)
  | None => (false, zero_Module)
  end.

Definition IsResiliencyModuleEnabled (instance : CSM) : bool :=
  match first_enabled Resiliency (sp_Modules (cr_Spec instance)) with
  | Some _ => true
  | None => false
  end.

(** The loop over the components: [*c.Enabled] is read only of a component of that name,
    and a nil pointer there panics. *)
Fixpoint component_enabled (componentType : string) (cs : list ContainerTemplate) : outcome bool :=
  match cs with
  | [] => Ok false
  | c :: cs' =>
      if decide (ct_Name c = componentType)
      then enabled ← deref (ct_Enabled c);
           if (enabled : bool) then Ok true else component_enabled componentType cs'
      else component_enabled componentType cs'
  end.

Definition IsModuleComponentEnabled (instance : CSM) (modT componentType : string) : outcome bool :=
  let '(moduleEnabled, module) := IsModuleEnabled instance modT in
  if moduleEnabled then component_enabled componentType (m_Components module)
  else Ok false.

Definition has_component (componentType : string) (cs : list ContainerTemplate) : bool :=
  existsb (λ c, bool_decide (ct_Name c = componentType)) cs.

Definition HasModuleComponent (instance : CSM) (modT componentType : string) : bool :=
  has_component componentType (m_Components (GetModule instance modT)).

(** The component goes to every module of that name. *)
Definition add_to_module (modT : string) (component : ContainerTemplate) (m : Module) : Module :=
  if decide (m_Name m = modT) then set_m_Components (m_Components m ++ [component]) m else m.

Definition AddModuleComponent (instance : CSM) (modT : string) (component : ContainerTemplate) : CSM :=
  set_cr_Modules (add_to_module modT component <$> sp_Modules (cr_Spec instance)) instance.

(** [Contains] of utils.go, on a slice. *)
Definition SliceContains (slice : list string) (str : string) : bool :=
  existsb (λ v, bool_decide (v = str)) slice.

Section host.
Context `{Host}.

(** ** The environment *)

Definition DetermineUnitTestRun : bool := okTrue (ParseBool (Getenv "UNIT_TEST")).

Definition GetEnvironmentVariable (varName : string) : outcome string :=
  let value := Getenv varName in
  if decide (value = "") then Fail (Errorf ("environment variable is not defined: " +:+ varName))
  else Ok value.

(** ** Default components *)

Definition name_default (driverType : string) (c : ContainerTemplate) : ContainerTemplate :=
  if HasPrefix (ct_Name c) "metrics"
  then set_ct_Name (ReplaceAll (ct_Name c) "<CSI_DRIVER_TYPE>" driverType) c
  else c.

Definition getDefaultComponents (driverType module : string) (op : OperatorConfig)
    : outcome (list ContainerTemplate) :=
  let file := oc_ConfigDirectory op +:+ "/moduleconfig/" +:+ module
              +:+ "/default-components.yaml" in
  buf ← wrapErr (res (ReadFile (Clean file)))
    (λ e, Errorf ("failed to read file " +:+ file +:+ ": " +:+ error_text e));
  defaultCsm ← wrapErr (res (yaml_CSM buf))
    (λ e, Errorf ("failed to unmarshal default-components.yaml for " +:+ module +:+ ": "
                  +:+ error_text e));
  let defaultComps := m_Components (GetModule defaultCsm module) in
  if decide (module = Observability) then
    let driverType := if decide (driverType = PowerScale) then PowerScaleName else driverType in
    Ok (name_default driverType <$> defaultComps)
  else Ok defaultComps.

(** One default component: added unless the resource already has one of its name. *)
Definition load_component (module : string) (cr : CSM) (comp : ContainerTemplate) : CSM :=
  if HasModuleComponent cr module (ct_Name comp) then cr
  else AddModuleComponent cr Observability comp.

Definition load_module (op : OperatorConfig) (cr : CSM) (module : string) : outcome CSM :=
  if HasModule cr module then
    defaultComps ← wrapErr (getDefaultComponents (GetDriverType cr) module op)
      (λ e, Errorf ("failed to get default components for " +:+ module +:+ ": "
                    +:+ error_text e));
    if fst (IsModuleEnabled cr module)
    then Ok (foldl (load_component module) cr defaultComps)
    else Ok cr
  else Ok cr.

(** The resource is changed in place; the result is the changed resource. *)
Definition LoadDefaultComponents (cr : CSM) (op : OperatorConfig) : outcome CSM :=
  foldO (load_module op) cr [Observability].
End host.

(** ** Facts *)

Lemma first_enabled_Some modT ms m : first_enabled modT ms = Some m →
  m ∈ ms ∧ m_Name m = modT ∧ m_Enabled m = true.
Proof.
  induction ms as [|x ms IH]; simpl; [done|]. case_decide.
  - intros [= <-]. split; [by left|done].
  - intros E. destruct (IH E). split; [by right|done].
Qed.

Lemma first_enabled_None modT ms : first_enabled modT ms = None ↔
  ∀ m, m ∈ ms → m_Name m = modT → m_Enabled m = false.
Proof.
  induction ms as [|x ms IH]; simpl; [set_solver|]. case_decide as E.
  - split; [done|]. intros Hall. destruct E as [E1 E2]. rewrite (Hall x) in E2; [done|by left|done].
  - rewrite IH. split.
    + intros Hall m [->|Hm]%elem_of_cons Hn; [|by apply Hall].
      destruct (m_Enabled x) eqn:Ex; [|done]. by destruct E.
    + intros Hall m Hm. apply Hall. by right.
Qed.

Lemma IsModuleEnabled_true cr modT :
  fst (IsModuleEnabled cr modT) = true ↔
  ∃ m, m ∈ sp_Modules (cr_Spec cr) ∧ m_Name m = modT ∧ m_Enabled m = true.
Proof.
  unfold IsModuleEnabled. destruct (first_enabled modT _) as [m|] eqn:E; simpl.
  - apply first_enabled_Some in E. naive_solver.
  - rewrite first_enabled_None in E. split; [done|]. intros (m & Hm & Hn & He).
    by rewrite (E m Hm Hn) in He.
Qed.

Lemma has_component_true t cs :
  has_component t cs = true ↔ ∃ c, c ∈ cs ∧ ct_Name c = t.
Proof.
  unfold has_component. rewrite existsb_exists. split.
  - intros (c & Hc & E). apply bool_decide_eq_true in E. exists c.
    split; [by apply list_elem_of_In|done].
  - intros (c & Hc & E). exists c. split; [by apply list_elem_of_In|].
    by apply bool_decide_eq_true.
Qed.

(** What adding components to the modules of one name leaves as it was. *)
Lemma add_to_module_name modT c m : m_Name (add_to_module modT c m) = m_Name m.
Proof. unfold add_to_module. by case_decide. Qed.

Lemma add_to_module_enabled modT c m : m_Enabled (add_to_module modT c m) = m_Enabled m.
Proof. unfold add_to_module. by case_decide. Qed.

Lemma find_module_add t modT c ms :
  find_module t (add_to_module modT c <$> ms) = add_to_module modT c <$> find_module t ms.
Proof.
  induction ms as [|m ms IH]; simpl; [done|]. rewrite add_to_module_name.
  by case_decide.
Qed.

Lemma HasModule_add cr modT c t : HasModule (AddModuleComponent cr modT c) t = HasModule cr t.
Proof.
  unfold HasModule, AddModuleComponent. simpl. rewrite find_module_add.
  by destruct (find_module t _).
Qed.

Lemma first_enabled_add t modT c ms :
  first_enabled t (add_to_module modT c <$> ms) = add_to_module modT c <$> first_enabled t ms.
Proof.
  induction ms as [|m ms IH]; simpl; [done|].
  rewrite add_to_module_name, add_to_module_enabled. by case_decide.
Qed.

Lemma IsModuleEnabled_add cr modT c t :
  fst (IsModuleEnabled (AddModuleComponent cr modT c) t) = fst (IsModuleEnabled cr t).
Proof.
  unfold IsModuleEnabled, AddModuleComponent. simpl. rewrite first_enabled_add.
  by destruct (first_enabled t _).
Qed.

Lemma GetModule_add cr modT c : HasModule cr modT = true →
  m_Components (GetModule (AddModuleComponent cr modT c) modT)
  = m_Components (GetModule cr modT) ++ [c].
Proof.
  unfold HasModule, GetModule, AddModuleComponent. simpl. rewrite find_module_add.
  destruct (find_module modT _) as [m|] eqn:E; [|done]. intros _. simpl.
  apply find_module_Some in E as [E _]. unfold add_to_module. by rewrite decide_True.
Qed.

(** The relation between a resource and the same resource with more observability components. *)
Record extends (cr cr' : CSM) : Prop := {
  ext_meta : cr_Meta cr' = cr_Meta cr;
  ext_kind : cr_Kind cr' = cr_Kind cr;
  ext_status : cr_Status cr' = cr_Status cr;
  ext_version : sp_Version (cr_Spec cr') = sp_Version (cr_Spec cr);
  ext_registry : sp_CustomRegistry (cr_Spec cr') = sp_CustomRegistry (cr_Spec cr);
  ext_driver : sp_Driver (cr_Spec cr') = sp_Driver (cr_Spec cr);
  ext_modules : Forall2 (λ m m', ∃ extra, m' = set_m_Components (m_Components m ++ extra) m
                          ∧ (m_Name m ≠ Observability → extra = []))
                  (sp_Modules (cr_Spec cr)) (sp_Modules (cr_Spec cr'))
}.

Lemma set_m_Components_id m : set_m_Components (m_Components m ++ []) m = m.
Proof. rewrite app_nil_r. by destruct m. Qed.

#[export] Instance extends_preorder : PreOrder extends.
Proof.
  split.
  - intros cr. constructor; try done. apply Forall_Forall2_diag, Forall_true. intros m. exists [].
    by rewrite set_m_Components_id.
  - intros a b c [] []. constructor; try congruence.
    eapply Forall2_trans; [|done..]. clear. intros m m' m'' (e1 & -> & H1) (e2 & -> & H2).
    exists (e1 ++ e2). split; [by rewrite app_assoc|]. intros Hn. by rewrite H1, H2.
Qed.

Lemma extends_add cr c : extends cr (AddModuleComponent cr Observability c).
Proof.
  constructor; try done. simpl. apply Forall2_fmap_r, Forall_Forall2_diag, Forall_true.
  intros m. simpl. unfold add_to_module. case_decide.
  - exists [c]. by split.
  - exists []. by rewrite set_m_Components_id.
Qed.

Lemma extends_load module cr comps :
  extends cr (foldl (load_component module) cr comps).
Proof.
  revert cr. induction comps as [|c comps IH]; intros cr; simpl; [done|].
  etrans; [|apply IH]. unfold load_component. case_match; [done|apply extends_add].
Qed.

(** Loading the components twice, seen on the names only. *)
Lemma has_component_app t cs c :
  has_component t (cs ++ [c]) = has_component t cs || bool_decide (ct_Name c = t).
Proof. unfold has_component. rewrite existsb_app. simpl. by rewrite orb_false_r. Qed.

Lemma HasModuleComponent_load cr c t : HasModule cr Observability = true →
  HasModuleComponent (load_component Observability cr c) Observability t
  = HasModuleComponent cr Observability t || bool_decide (ct_Name c = t).
Proof.
  intros Hm. unfold load_component. destruct (HasModuleComponent cr Observability (ct_Name c)) eqn:E.
  - case_bool_decide as Ht; [subst|]; [by rewrite E|by rewrite orb_false_r].
  - unfold HasModuleComponent. by rewrite GetModule_add, has_component_app.
Qed.

Lemma HasModule_load cr c t : HasModule (load_component Observability cr c) t = HasModule cr t.
Proof. unfold load_component. case_match; [done|]. apply HasModule_add. Qed.

Lemma HasModuleComponent_load_all cr comps t : HasModule cr Observability = true →
  HasModuleComponent (foldl (load_component Observability) cr comps) Observability t
  = HasModuleComponent cr Observability t || has_component t comps.
Proof.
  revert cr. induction comps as [|c comps IH]; intros cr Hm; simpl; [by rewrite orb_false_r|].
  rewrite IH by by rewrite HasModule_load. rewrite HasModuleComponent_load by done.
  by rewrite orb_assoc.
Qed.

Lemma load_all_id cr comps :
  (∀ c, c ∈ comps → HasModuleComponent cr Observability (ct_Name c) = true) →
  foldl (load_component Observability) cr comps = cr.
Proof.
  induction comps as [|c comps IH]; intros Hall; simpl; [done|].
  unfold load_component at 2. rewrite Hall by by left. apply IH. intros c' Hc'. apply Hall.
  by right.
Qed.

Lemma IsModuleEnabled_load_all cr comps t :
  fst (IsModuleEnabled (foldl (load_component Observability) cr comps) t)
  = fst (IsModuleEnabled cr t).
Proof.
  revert cr. induction comps as [|c comps IH]; intros cr; simpl; [done|]. rewrite IH.
  unfold load_component. case_match; [done|]. apply IsModuleEnabled_add.
Qed.

Lemma extends_HasModule cr cr' t : extends cr cr' → HasModule cr' t = HasModule cr t.
Proof.
  intros HF%ext_modules. unfold HasModule.
  induction HF as [|m m' ms ms' (extra & -> & _) _ IH]; simpl; [done|]. by case_decide.
Qed.

(** ** Properties *)

(** A call that looks a component up returns whether the first enabled module of that
    type has an enabled component of that name, and panics exactly when it meets a component
    of that name whose [enabled] field is absent before an enabled one. *)
Theorem IsModuleComponentEnabled_spec cr modT name :
  match IsModuleComponentEnabled cr modT name with
  | Ok true => ∃ m c, first_enabled modT (sp_Modules (cr_Spec cr)) = Some m
                 ∧ c ∈ m_Components m ∧ ct_Name c = name ∧ ct_Enabled c = Some true
  | Ok false => ∀ m c, first_enabled modT (sp_Modules (cr_Spec cr)) = Some m →
                 c ∈ m_Components m → ct_Name c = name → ct_Enabled c = Some false
  | Panic _ => ∃ m pre c post, first_enabled modT (sp_Modules (cr_Spec cr)) = Some m
                 ∧ m_Components m = pre ++ c :: post
                 ∧ ct_Name c = name ∧ ct_Enabled c = None
                 ∧ (∀ d, d ∈ pre → ct_Name d = name → ct_Enabled d = Some false)
  | Fail _ => False
  end.
Proof.
  unfold IsModuleComponentEnabled, IsModuleEnabled.
  destruct (first_enabled modT (sp_Modules (cr_Spec cr))) as [m|]; [|done].
  assert (Hl : ∀ cs, match component_enabled name cs with
    | Ok true => ∃ c, c ∈ cs ∧ ct_Name c = name ∧ ct_Enabled c = Some true
    | Ok false => ∀ c, c ∈ cs → ct_Name c = name → ct_Enabled c = Some false
    | Panic _ => ∃ pre c post, cs = pre ++ c :: post ∧ ct_Name c = name ∧ ct_Enabled c = None
                   ∧ (∀ d, d ∈ pre → ct_Name d = name → ct_Enabled d = Some false)
    | Fail _ => False
    end).
  { induction cs as [|c cs IH]; simpl; [by intros ? ?%elem_of_nil|].
    assert (Hskip : ct_Name c ≠ name ∨ ct_Enabled c = Some false →
      match component_enabled name cs with
      | Ok true => ∃ c0, c0 ∈ c :: cs ∧ ct_Name c0 = name ∧ ct_Enabled c0 = Some true
      | Ok false => ∀ c0, c0 ∈ c :: cs → ct_Name c0 = name → ct_Enabled c0 = Some false
      | Panic _ => ∃ pre c0 post, c :: cs = pre ++ c0 :: post ∧ ct_Name c0 = name
                     ∧ ct_Enabled c0 = None
                     ∧ (∀ d, d ∈ pre → ct_Name d = name → ct_Enabled d = Some false)
      | Fail _ => False
      end).
    { intros Hc. destruct (component_enabled name cs) as [[]| |]; [| |done|].
      - destruct IH as (c0 & ? & ?). exists c0. split; [by right|done].
      - intros c0 [->|Hin]%elem_of_cons Hn; [by destruct Hc|by apply IH].
      - destruct IH as (pre & c0 & post & -> & Hn & He & Hp). exists (c :: pre), c0, post.
        split_and!; try done.
        intros d [->|Hd]%elem_of_cons Hdn; [by destruct Hc|by apply Hp]. }
    case_decide as Hn; [|apply Hskip; by left].
    destruct (ct_Enabled c) as [[]|] eqn:He; simpl.
    - exists c. split_and!; [by left|done..].
    - apply Hskip. by right.
    - exists [], c, cs. split_and!; try done. by intros ? ?%elem_of_nil. }
  specialize (Hl (m_Components m)). destruct (component_enabled name (m_Components m)) as [[]| |].
  - naive_solver.
  - intros m' c [= <-]. apply Hl.
  - done.
  - destruct Hl as (pre & c & post & ?). by exists m, pre, c, post.
Qed.

Section properties.
Context `{Host}.

Lemma LoadDefaultComponents_run cr op cr' :
  LoadDefaultComponents cr op = Ok cr' →
  extends cr cr'
  ∧ LoadDefaultComponents cr' op = Ok cr'
  ∧ (fst (IsModuleEnabled cr Observability) = true →
     ∃ comps, getDefaultComponents (GetDriverType cr) Observability op = Ok comps
       ∧ ∀ c, c ∈ comps → HasModuleComponent cr' Observability (ct_Name c) = true).
Proof.
  unfold LoadDefaultComponents. simpl. intros E. go_inv. unfold load_module in *.
  destruct (HasModule cr Observability) eqn:Hm.
  - go_inv. destruct (getDefaultComponents _ _ _) as [comps0| |] eqn:Hc; [|done..].
    simplify_eq/=. match type of Hc with _ = Ok ?c => rename c into comps end.
    destruct (fst (IsModuleEnabled cr Observability)) eqn:He; simplify_eq.
    + pose proof (extends_load Observability cr comps) as Hext.
      assert (Hall : ∀ c, c ∈ comps → HasModuleComponent
        (foldl (load_component Observability) cr comps) Observability (ct_Name c) = true).
      { intros c Hin. rewrite HasModuleComponent_load_all by done.
        apply orb_true_iff. right. apply has_component_true. eauto. }
      split_and!; [done| |eauto].
      assert (Hdt : GetDriverType (foldl (load_component Observability) cr comps)
                    = GetDriverType cr)
        by (unfold GetDriverType; by rewrite (ext_driver _ _ Hext)).
      rewrite (extends_HasModule _ _ _ Hext), Hm, Hdt, Hc. simpl.
      rewrite IsModuleEnabled_load_all, He. simpl.
      by rewrite load_all_id.
    + split_and!; [done| |done]. rewrite Hm, Hc. simpl. by rewrite He.
  - simplify_eq. split_and!; [done|by rewrite Hm|].
    intros (m & Hin & Hn & _)%IsModuleEnabled_true.
    assert (HasModule cr' Observability = true) by (apply HasModule_true; eauto). congruence.
Qed.

(** [LoadDefaultComponents] only appends components to observability modules (metadata,
    status, driver and every other module stay as they were); when observability is enabled
    its first module then has every default component; and a second call changes nothing. *)
Theorem LoadDefaultComponents_spec cr op cr' :
  LoadDefaultComponents cr op = Ok cr' →
  extends cr cr'
  ∧ LoadDefaultComponents cr' op = Ok cr'
  ∧ (fst (IsModuleEnabled cr Observability) = true →
     ∃ comps, getDefaultComponents (GetDriverType cr) Observability op = Ok comps
       ∧ ∀ c, c ∈ comps → HasModuleComponent cr' Observability (ct_Name c) = true).
Proof. apply LoadDefaultComponents_run. Qed.
End properties.

(** A host whose default components are one collector, and a resource without it. *)
Definition demo_components_host : Host := {|
  ReadFile p := inr "";
  FileExists p := true;
  Getenv k := "";
  yaml_UpgradePaths b := inr (mkUpgradePaths "");
  yaml_ModuleVersions b := inr ∅;
  yaml_VersionMapping b := inr ∅;
  yaml_CSM b := inr (mkCSM "" zero_ObjectMeta
    (mkSpec "" zero_Driver [mkModule Observability true ""
       [set_ct_Name "otel-collector" zero_ContainerTemplate] false []] "" false) zero_Status);
  yaml_VersionSpecs b := inr []
|}.

Definition demo_observability : CSM :=
  mkCSM "" zero_ObjectMeta
    (mkSpec "" zero_Driver [mkModule Observability true "" [] false []] "" false) zero_Status.

Lemma LoadDefaultComponents_spec_witness : ∃ cr',
  LoadDefaultComponents (H := demo_components_host) demo_observability demo_config = Ok cr'
  ∧ extends demo_observability cr'.
Proof.
  assert (∃ cr', LoadDefaultComponents (H := demo_components_host) demo_observability demo_config
    = Ok cr') as [cr' E] by (eexists; vm_compute; reflexivity).
  exists cr'. split; [exact E|].
  exact (proj1 (LoadDefaultComponents_spec (H := demo_components_host) _ _ _ E)).
Defined.
