(* ===== verification/Images.v ===== *)
(** Container images, environment variables and arguments:
    [ResolveImage], [GetImageField], [GetFinalImage], [UpdateContainerApply] and its
    callers, [ReplaceAllContainerImageApply], [ReplaceAllApplyCustomEnvs], [ReplaceAllArgs],
    and the image list of a version ([ValidateConfigMap], [UpdateUsingConfigMap])
    of pkg/operatorutils/utils.go.

    A container of an apply configuration has pointer fields; the operator writes
    through some of them ([*c.Image = img]), which panics on a nil pointer. *)

From S2P Require Import Prelude.
From S2P Require Import GoStrings.
From S2P Require Import Types.
From S2P Require Import Versions.
From Stdlib Require Import Ascii.
From stdpp Require Import options.

Local Open Scope stdpp_scope.

(** ** Apply configurations of k8s.io/client-go (the fields the operator uses) *)

Record FieldSelector := mkFieldSelector {
  fs_APIVersion : option string;
  fs_FieldPath : option string
}.

Record SecretKeySelector := mkSecretKeySelector {
  sk_Name : option string;
  sk_Key : option string;
  sk_Optional : option bool
}.

(** A source names one of a field, a secret's key, or (not copied by the operator) a key
    of a config map or a resource of a container. *)
Record EnvVarSource := mkEnvVarSource {
  es_FieldRef : option FieldSelector;
  es_SecretKeyRef : option SecretKeySelector;
  es_ConfigMapKeyRef : option SecretKeySelector;
  es_ResourceFieldRef : option string
}.

Record EnvVarApply := mkEnvVarApply {
  ea_Name : option string;
  ea_Value : option string;
  ea_ValueFrom : option EnvVarSource
}.

Record VolumeMountApply := mkVolumeMountApply {
  vm_Name : option string;
  vm_MountPath : option string;
  vm_ReadOnly : option bool;
  vm_Rest : string
}.

Record SecretVolume := mkSecretVolume { sv_SecretName : option string; sv_Optional : option bool }.

Record ConfigMapVolume := mkConfigMapVolume { cv_Name : option string; cv_Optional : option bool }.

(** the secret, and pairs of a key and a path *)
Record SecretProjection := mkSecretProjection {
  pj_Name : option string;
  pj_Items : list (string * string)
}.

(** the other sources of a volume: a CSI driver's, or text that is only passed on *)
Inductive VolumeRest :=
  | NoSource
  | EmptyDir
  | CSISource (driver : string) (readOnly : option bool) (attributes : gmap string string)
  | OtherSource (text : string).

Record VolumeApply := mkVolumeApply {
  va_Name : option string;
  va_Secret : option SecretVolume;
  va_ConfigMap : option ConfigMapVolume;
  va_Projected : option (list SecretProjection);
  va_Rest : VolumeRest
}.

(** [ca_Rest], and [_Rest] of other records: what the operator passes on and never looks at *)
Record ContainerApply := mkContainerApply {
  ca_Name : option string;
  ca_Image : option string;
  ca_ImagePullPolicy : option string;
  ca_Args : list string;
  ca_Env : list EnvVarApply;
  ca_VolumeMounts : list VolumeMountApply;
  ca_Rest : string
}.

Definition set_ca_Image (v : option string) (c : ContainerApply) : ContainerApply :=
  mkContainerApply (ca_Name c) v (ca_ImagePullPolicy c) (ca_Args c)
    (ca_Env c) (ca_VolumeMounts c) (ca_Rest c).
Definition set_ca_ImagePullPolicy (v : option string) (c : ContainerApply) : ContainerApply :=
  mkContainerApply (ca_Name c) (ca_Image c) v (ca_Args c)
    (ca_Env c) (ca_VolumeMounts c) (ca_Rest c).
Definition set_ca_Args (v : list string) (c : ContainerApply) : ContainerApply :=
  mkContainerApply (ca_Name c) (ca_Image c) (ca_ImagePullPolicy c) v
    (ca_Env c) (ca_VolumeMounts c) (ca_Rest c).
Definition set_ca_Env (v : list EnvVarApply) (c : ContainerApply) : ContainerApply :=
  mkContainerApply (ca_Name c) (ca_Image c) (ca_ImagePullPolicy c) (ca_Args c)
    v (ca_VolumeMounts c) (ca_Rest c).
Definition set_ca_VolumeMounts (v : list VolumeMountApply) (c : ContainerApply) : ContainerApply :=
  mkContainerApply (ca_Name c) (ca_Image c) (ca_ImagePullPolicy c) (ca_Args c)
    (ca_Env c) v (ca_Rest c).

(** [*c.Image = img] *)
Definition store_Image (img : string) (c : ContainerApply) : outcome ContainerApply :=
  _ ← deref (ca_Image c);
  Ok (set_ca_Image (Some img) c).

(** ** ResolveImage *)

Definition ResolveImage (originalImageFile : string) (cr : CSM) : string :=
  let customRegistry := TrimSpace (sp_CustomRegistry (cr_Spec cr)) in
  if decide (customRegistry = "") then originalImageFile
  else
    let imageFile := TrimSpace originalImageFile in
    let imageFile :=
      if sp_RetainImageRegistryPath (cr_Spec cr) then
        match SplitN2 imageFile "/" with
        | Some (part0, part1) =>
            if Contains part0 "." || bool_decide (part0 = "localhost") then part1 else imageFile
        | None => imageFile
        end
      else
        match after_last "/" imageFile with
        | Some image => image
        | None => imageFile
        end in
    customRegistry +:+ "/" +:+ imageFile.

(** ** GetImageField and GetFinalImage *)

Definition image_line (image line : string) : string :=
  let line := TrimSpace line in
  if HasPrefix line "image:" then TrimSpace (TrimPrefix line "image:") else image.

Definition newline : ascii := ascii_of_nat 10.

Definition GetImageField (YamlString : string) : string :=
  let lines := Split YamlString newline in
  if decide (length lines = 1) then YamlString
  else foldl image_line "" lines.

Definition GetFinalImage (cr : CSM) (matched : VersionSpec) (component : ContainerTemplate)
    (YamlString : string) : string :=
  let img := lookup_zero (vs_Images matched) (ct_Name component) in
  if decide (vs_Version matched ≠ "" ∧ img ≠ "") then img
  else if decide (sp_CustomRegistry (cr_Spec cr) ≠ "") then
    ResolveImage (GetImageField YamlString) cr
  else if decide (ct_Image component ≠ "") then ct_Image component
  else GetImageField YamlString.

(** ** ReplaceAllContainerImageApply *)

Definition ReplaceAllContainerImageApply (img : K8sImagesConfig) (c : ContainerApply)
    : outcome ContainerApply :=
  name ← deref (ca_Name c);
  let im := kc_Images img in
  if decide (name = Provisioner) then store_Image (im_Provisioner im) c
  else if decide (name = Attacher) then store_Image (im_Attacher im) c
  else if decide (name = Snapshotter) then store_Image (im_Snapshotter im) c
  else if decide (name = Registrar) then store_Image (im_Registrar im) c
  else if decide (name = Resizer) then store_Image (im_Resizer im) c
  else if decide (name = Externalhealthmonitor) then store_Image (im_Externalhealthmonitor im) c
  else if decide (name = Sdc) then store_Image (im_Sdcmonitor im) c
  else if decide (name = Sdcmonitor) then store_Image (im_Sdcmonitor im) c
  else if decide (name = Resiliency) then store_Image (im_Podmon im) c
  else Ok c.

(** ** ReplaceAllApplyCustomEnvs *)

(** The two loops that fill [temp]: an empty value is recorded as ["NA"]. *)
Definition record_env (temp : gmap string string) (update : EnvVar) : gmap string string :=
  <[ev_Name update := if decide (ev_Value update = "") then "NA" else ev_Value update]> temp.

Definition env_updates (commonEnv nrEnv : list EnvVar) : gmap string string :=
  foldl record_env (foldl record_env ∅ commonEnv) nrEnv.

(** One variable of the driver's container. *)
Definition replace_env (temp : gmap string string) (old : EnvVarApply) : outcome EnvVarApply :=
  name ← deref (ea_Name old);
  let val := lookup_zero temp name in
  if decide (val ≠ "") then
    Ok (mkEnvVarApply (ea_Name old) (Some (if decide (val = "NA") then "" else val)) None)
  else
    match ea_ValueFrom old with
    | Some src =>
        let e := mkEnvVarApply (ea_Name old) None None in
        e ← match es_FieldRef src with
            | Some pRef =>
                path ← deref (fs_FieldPath pRef);
                Ok (mkEnvVarApply (ea_Name old) None
                      (Some (mkEnvVarSource (Some (mkFieldSelector None (Some path))) None None None)))
            | None => Ok e
            end;
        match es_SecretKeyRef src with
        | Some sRef =>
            sname ← deref (sk_Name sRef);
            Ok (mkEnvVarApply (ea_Name old) None
                  (Some (mkEnvVarSource None
                     (Some (mkSecretKeySelector (Some sname) (sk_Key sRef) (sk_Optional sRef)))
                     None None)))
        | None => Ok e
        end
    | None => Ok (mkEnvVarApply (ea_Name old) (ea_Value old) None)
    end.

Definition ReplaceAllApplyCustomEnvs (driverEnv : list EnvVarApply) (commonEnv nrEnv : list EnvVar)
    : outcome (list EnvVarApply) :=
  foldO (λ newEnv old, e ← replace_env (env_updates commonEnv nrEnv) old; Ok (newEnv ++ [e]))
    [] driverEnv.

(** ** ReplaceAllArgs *)

(** The part of an argument before the first ["="] ([strings.Split(old, "=")[0]]). *)
Definition arg_key (old : string) : string := hd "" (Split old "=").

(** One argument of the custom resource: every default that contains its key is
    overwritten; without one the argument waits in [merge]. *)
Definition replace_arg (st : list string * list string) (old : string) : list string * list string :=
  let '(defaultArgs, merge) := st in
  let hit := λ new, Contains new (arg_key old) in
  ((λ new, if hit new then old else new) <$> defaultArgs,
   if existsb hit defaultArgs then merge else merge ++ [old]).

Definition ReplaceAllArgs (defaultArgs crArgs : list string) : list string :=
  let '(defaultArgs, merge) := foldl replace_arg (defaultArgs, []) crArgs in
  defaultArgs ++ merge.

(** ** UpdateContainerApply *)

(** The image the version's list has for a container, [""] without one. *)
Definition matched_image (matched : VersionSpec) (name : string) : string :=
  if decide (vs_Version matched ≠ "") then lookup_zero (vs_Images matched) name else "".

(** The body of the loop, for one container of the custom resource. *)
Definition apply_template (cr : CSM) (matched : VersionSpec) (st : bool * ContainerApply)
    (ctr : ContainerTemplate) : outcome (bool * ContainerApply) :=
  let '(sidecarInSpec, c) := st in
  name ← deref (ca_Name c);
  if decide (name = ct_Name ctr) then
    let img := matched_image matched (ct_Name ctr) in
    c ← (if decide (img ≠ "") then store_Image img c
         else if decide (sp_CustomRegistry (cr_Spec cr) ≠ "") then
           image ← deref (ca_Image c);
           store_Image (ResolveImage image cr) c
         else if decide (ct_Image ctr ≠ "") then store_Image (ct_Image ctr) c
         else Ok c);
    c ← (if decide (ct_ImagePullPolicy ctr ≠ "") then
           _ ← deref (ca_ImagePullPolicy c);
           Ok (set_ca_ImagePullPolicy (Some (ct_ImagePullPolicy ctr)) c)
         else Ok c);
    env ← ReplaceAllApplyCustomEnvs (ca_Env c) [] (default [] (ct_Envs ctr));
    Ok (true, set_ca_Args (ReplaceAllArgs (ca_Args c) (ct_Args ctr)) (set_ca_Env env c))
  else Ok (sidecarInSpec, c).

Definition UpdateContainerApply (toBeApplied : list ContainerTemplate) (c : ContainerApply)
    (cr : CSM) (matched : VersionSpec) : outcome ContainerApply :=
  '(sidecarInSpec, c) ← foldO (apply_template cr matched) (false, c) toBeApplied;
  if (sidecarInSpec : bool) then Ok c
  else
    img ← (if decide (vs_Version matched ≠ "") then
             name ← deref (ca_Name c);
             Ok (lookup_zero (vs_Images matched) name)
           else Ok "");
    if decide (img ≠ "") then store_Image img c
    else if decide (sp_CustomRegistry (cr_Spec cr) ≠ "") then
      image ← deref (ca_Image c);
      store_Image (ResolveImage image cr) c
    else Ok c.

Definition UpdateSideCarApply (sideCars : list ContainerTemplate) (c : ContainerApply) (cr : CSM)
    (matched : VersionSpec) : outcome ContainerApply :=
  UpdateContainerApply sideCars c cr matched.

Definition UpdateInitContainerApply (initContainers : list ContainerTemplate) (c : ContainerApply)
    (cr : CSM) (matched : VersionSpec) : outcome ContainerApply :=
  UpdateContainerApply initContainers c cr matched.

(** ** The image list of a version *)

Section configmap.
Context `{Host} `{MapOrder}.

(** The first empty value that the map's iteration meets. *)
Definition ValidateConfigMap (version : VersionSpec) : outcome () :=
  match list_find (λ '(_, val), val = "") (range (vs_Images version)) with
  | Some (_, (key, _)) => Fail (Errorf ("value for key " +:+ key +:+ " is empty"))
  | None => Ok ()
  end.

(** The version that [UpdateUsingConfigMap] returns beside an error, where a caller uses it all
    the same: one that the validation rejects is returned too. *)
Definition matched_beside (csm : CSM) (data : gomap) : VersionSpec :=
  if decide (default ∅ data = (∅ : gmap string string)) then zero_VersionSpec
  else
    let versionsYAML := TrimSpace (map_get data "versions.yaml") in
    if decide (versionsYAML = "") then zero_VersionSpec
    else
      match yaml_VersionSpecs versionsYAML with
      | inl _ => zero_VersionSpec
      | inr versions =>
          default zero_VersionSpec
            (snd <$> list_find (λ v, vs_Version v = sp_Version (cr_Spec csm)) versions)
      end.

(** [data] is the [Data] of the config map ([None] for nil). *)
Definition UpdateUsingConfigMap (csm : CSM) (data : gomap) : outcome VersionSpec :=
  if decide (default ∅ data = (∅ : gmap string string)) then Ok zero_VersionSpec
  else
    let versionsYAML := TrimSpace (map_get data "versions.yaml") in
    if decide (versionsYAML = "") then Ok zero_VersionSpec
    else
      versions ← res (yaml_VersionSpecs versionsYAML);
      match list_find (λ v, vs_Version v = sp_Version (cr_Spec csm)) versions with
      | None => Ok zero_VersionSpec
      | Some (_, matched) =>
          _ ← ValidateConfigMap matched;
          Ok matched
      end.
End configmap.

(** ** Facts *)

Lemma matched_beside_Ok `{Host} `{MapOrder} csm data v :
  UpdateUsingConfigMap csm data = Ok v → matched_beside csm data = v.
Proof.
  unfold UpdateUsingConfigMap, matched_beside. case_decide; [by intros [= <-]|].
  case_decide; [by intros [= <-]|]. destruct (yaml_VersionSpecs _) as [e|vs]; [done|].
  cbn [res mbind outcome_bind]. destruct (list_find _ vs) as [[i m]|]; [|by intros [= <-]].
  intros E. apply outcome_bind_Ok in E as (? & _ & E). by injection E as <-.
Qed.

(** The update that wins for a variable: the last one of its name. *)
Fixpoint last_update (name : string) (us : list EnvVar) : option EnvVar :=
  match us with
  | [] => None
  | u :: us' =>
      match last_update name us' with
      | Some u' => Some u'
      | None => if decide (ev_Name u = name) then Some u else None
      end
  end.

Lemma record_env_lookup temp us name :
  foldl record_env temp us !! name
  = match last_update name us with
    | Some u => Some (if decide (ev_Value u = "") then "NA" else ev_Value u)
    | None => temp !! name
    end.
Proof.
  revert temp. induction us as [|u us IH]; intros temp; simpl; [done|]. rewrite IH.
  destruct (last_update name us); [done|]. unfold record_env.
  destruct (decide (ev_Name u = name)) as [<-|E];
    [by rewrite lookup_insert_eq|by rewrite lookup_insert_ne].
Qed.

Lemma env_updates_lookup common nr name :
  lookup_zero (env_updates common nr) name
  = match last_update name (common ++ nr) with
    | Some u => if decide (ev_Value u = "") then "NA" else ev_Value u
    | None => ""
    end.
Proof.
  unfold lookup_zero, env_updates. rewrite <- foldl_app, record_env_lookup.
  by destruct (last_update name (common ++ nr)); rewrite ?lookup_empty.
Qed.

(** The pointers that [ReplaceAllApplyCustomEnvs] reads through are set. *)
Definition env_wf (e : EnvVarApply) : Prop :=
  is_Some (ea_Name e) ∧
  (∀ src, ea_ValueFrom e = Some src →
     (∀ f, es_FieldRef src = Some f → is_Some (fs_FieldPath f))
     ∧ (∀ k, es_SecretKeyRef src = Some k → is_Some (sk_Name k))).

(** What one variable becomes. *)
Definition env_replaced (updates : list EnvVar) (old new : EnvVarApply) : Prop :=
  ea_Name new = ea_Name old ∧
  ∀ name, ea_Name old = Some name →
    match last_update name updates with
    | Some u => ea_Value new = Some (if decide (ev_Value u = "NA") then "" else ev_Value u)
                ∧ ea_ValueFrom new = None
    | None =>
        match ea_ValueFrom old with
        | None => new = mkEnvVarApply (ea_Name old) (ea_Value old) None
        | Some src => ea_Value new = None
            ∧ match ea_ValueFrom new with
              | Some src' =>
                  (es_SecretKeyRef src' = es_SecretKeyRef src
                   ∧ es_FieldRef src' = None ∧ is_Some (es_SecretKeyRef src))
                  ∨ (es_SecretKeyRef src = None ∧ es_SecretKeyRef src' = None
                     ∧ (fs_FieldPath <$> es_FieldRef src') = (fs_FieldPath <$> es_FieldRef src)
                     ∧ is_Some (es_FieldRef src))
              | None => es_SecretKeyRef src = None ∧ es_FieldRef src = None
              end
        end
    end.

Lemma replace_env_spec common nr old : env_wf old →
  ∃ new, replace_env (env_updates common nr) old = Ok new
         ∧ env_replaced (common ++ nr) old new.
Proof.
  intros [[name Hname] Hsrc]. unfold replace_env, env_replaced. rewrite Hname. simpl.
  rewrite env_updates_lookup. destruct (last_update name (common ++ nr)) as [u|] eqn:Hu.
  - rewrite decide_True by (case_decide; [done|congruence]). eexists. split; [done|].
    simpl. split; [done|]. intros ? [= <-]. rewrite Hu. split; [|done].
    destruct (decide (ev_Value u = "")) as [E|E]; [|done].
    rewrite E. rewrite decide_True by done. by rewrite decide_False by done.
  - rewrite decide_False by tauto. destruct (ea_ValueFrom old) as [src|].
    + destruct (Hsrc src eq_refl) as [Hf Hk].
      destruct (es_FieldRef src) as [f|] eqn:Ef.
      * destruct (Hf f eq_refl) as [path Ep]. rewrite Ep. simpl.
        destruct (es_SecretKeyRef src) as [k|] eqn:Ek.
        -- destruct (Hk k eq_refl) as [sname En]. rewrite En. simpl. eexists. split; [done|].
           split; [done|]. intros ? [= <-]. rewrite Hu. split; [done|]. left. simpl.
           rewrite <- En. destruct k. simpl. eauto.
        -- eexists. split; [done|]. split; [done|]. intros ? [= <-]. rewrite Hu.
           split; [done|]. right. simpl. rewrite Ep. eauto.
      * simpl. destruct (es_SecretKeyRef src) as [k|] eqn:Ek.
        -- destruct (Hk k eq_refl) as [sname En]. rewrite En. simpl. eexists. split; [done|].
           split; [done|]. intros ? [= <-]. rewrite Hu. split; [done|]. left. simpl.
           rewrite <- En. destruct k. simpl. eauto.
        -- eexists. split; [done|]. split; [done|]. intros ? [= <-]. rewrite Hu. done.
    + eexists. split; [done|]. split; [done|]. intros ? [= <-]. by rewrite Hu.
Qed.

(** A loop that appends one result per element. *)
Lemma foldO_append {A B} (f : A → outcome B) (P : A → B → Prop) xs acc :
  (∀ x, x ∈ xs → ∃ y, f x = Ok y ∧ P x y) →
  ∃ ys, foldO (λ acc x, y ← f x; Ok (acc ++ [y])) acc xs = Ok (acc ++ ys) ∧ Forall2 P xs ys.
Proof.
  revert acc. induction xs as [|x xs IH]; intros acc Hall; simpl.
  - exists []. by rewrite app_nil_r.
  - destruct (Hall x ltac:(by left)) as (y & Ey & Py). rewrite Ey. simpl.
    destruct (IH (acc ++ [y])) as (ys & Eys & Pys); [intros; apply Hall; by right|].
    exists (y :: ys). rewrite Eys, <- app_assoc. split; [done|]. by constructor.
Qed.

(** *** Arguments *)

Lemma replace_arg_length st old :
  length (replace_arg st old).1 = length st.1.
Proof. destruct st. simpl. by rewrite length_fmap. Qed.

(** Where the entries of both lists come from. *)
Definition arg_origin (defaultArgs crArgs : list string) (a : string) : Prop :=
  a ∈ crArgs ∨ (a ∈ defaultArgs ∧ ∀ u, u ∈ crArgs → Contains a (arg_key u) = false).

Lemma replace_args_origin crArgs : ∀ done defaultArgs cur merge,
  (∀ a, a ∈ cur → arg_origin defaultArgs done a) → (∀ a, a ∈ merge → a ∈ done) →
  let '(cur', merge') := foldl replace_arg (cur, merge) crArgs in
  (∀ a, a ∈ cur' → arg_origin defaultArgs (done ++ crArgs) a)
  ∧ (∀ a, a ∈ merge' → a ∈ done ++ crArgs).
Proof.
  induction crArgs as [|u us IH]; intros dn defaultArgs cur merge Hc Hm; simpl.
  - by rewrite app_nil_r.
  - specialize (IH (dn ++ [u]) defaultArgs). rewrite <- app_assoc in IH. apply IH.
    + intros a (b & -> & Hb)%list_elem_of_fmap_1. destruct (Contains b (arg_key u)) eqn:E.
      * left. set_solver.
      * destruct (Hc b Hb) as [?|[? Hno]]; [left; set_solver|]. right. split; [done|].
        intros u' [?|Hu']%elem_of_app; [by apply Hno|].
      apply list_elem_of_singleton in Hu'. by subst.
    + intros a Ha. case_match; [|apply elem_of_app in Ha as [?|?]]; set_solver.
Qed.

Lemma replace_arg_keeps st u u' :
  Contains u (arg_key u') = false → u ∈ st.1 ++ st.2 →
  u ∈ (replace_arg st u').1 ++ (replace_arg st u').2.
Proof.
  destruct st as [cur merge]. simpl. intros Hno [Hu|Hu]%elem_of_app; apply elem_of_app.
  - left. apply list_elem_of_fmap. exists u. by rewrite Hno.
  - right. case_match; set_solver.
Qed.

Lemma replace_arg_places st u : u ∈ (replace_arg st u).1 ++ (replace_arg st u).2.
Proof.
  destruct st as [cur merge]. simpl. apply elem_of_app.
  destruct (existsb _ cur) eqn:E; [left|right; set_solver].
  apply existsb_exists in E as (x & Hx & E). apply list_elem_of_fmap. exists x.
  by rewrite E, list_elem_of_In.
Qed.

Lemma ReplaceAllArgs_fold defaultArgs crArgs :
  ReplaceAllArgs defaultArgs crArgs
  = (foldl replace_arg (defaultArgs, []) crArgs).1
    ++ (foldl replace_arg (defaultArgs, []) crArgs).2.
Proof. unfold ReplaceAllArgs. by destruct (foldl _ _ _). Qed.

Lemma replace_args_keep us st u :
  (∀ u', u' ∈ us → Contains u (arg_key u') = false) → u ∈ st.1 ++ st.2 →
  u ∈ (foldl replace_arg st us).1 ++ (foldl replace_arg st us).2.
Proof.
  revert st. induction us as [|u' us IH]; intros st Hall Hu; simpl; [done|].
  apply IH; [intros; apply Hall; by right|]. apply replace_arg_keeps; [|done].
  apply Hall. by left.
Qed.

Lemma replace_args_length us st :
  length (foldl replace_arg st us).1 = length st.1
  ∧ length st.2 ≤ length (foldl replace_arg st us).2 ≤ length st.2 + length us.
Proof.
  revert st. induction us as [|u us IH]; intros [cur merge]; simpl; [lia|].
  destruct (IH (replace_arg (cur, merge) u)) as [H1 H2]. rewrite replace_arg_length in H1.
  simpl in H1, H2. split; [done|]. case_match; rewrite ?length_app in H2; simpl in *; lia.
Qed.

(** *** Images *)

Lemma GetImageField_line s : no_byte newline s → GetImageField s = s.
Proof. intros Hs. unfold GetImageField. by rewrite Split_no_byte. Qed.

(** The pointers that [UpdateContainerApply] reads and writes through are set. *)
Record container_wf (c : ContainerApply) : Prop := {
  cw_name : is_Some (ca_Name c);
  cw_image : is_Some (ca_Image c);
  cw_policy : is_Some (ca_ImagePullPolicy c);
  cw_env : ∀ e, e ∈ ca_Env c → env_wf e
}.

Lemma ReplaceAllApplyCustomEnvs_run driverEnv common nr :
  (∀ e, e ∈ driverEnv → env_wf e) →
  ∃ out, ReplaceAllApplyCustomEnvs driverEnv common nr = Ok out
         ∧ Forall2 (env_replaced (common ++ nr)) driverEnv out.
Proof.
  intros Hwf. unfold ReplaceAllApplyCustomEnvs.
  destruct (foldO_append (replace_env (env_updates common nr)) (env_replaced (common ++ nr))
    driverEnv []) as (ys & E & HF); [|by exists ys].
  intros e He. by apply replace_env_spec, Hwf.
Qed.

#[local] Arguments apply_template : simpl never.

Lemma apply_template_other cr matched b c name ctr :
  ca_Name c = Some name → ct_Name ctr ≠ name →
  apply_template cr matched (b, c) ctr = Ok (b, c).
Proof. intros Hn Hne. unfold apply_template. rewrite Hn. simpl. by rewrite decide_False. Qed.

Lemma apply_template_others cr matched b c name ctrs :
  ca_Name c = Some name → (∀ ctr, ctr ∈ ctrs → ct_Name ctr ≠ name) →
  foldO (apply_template cr matched) (b, c) ctrs = Ok (b, c).
Proof.
  intros Hn. induction ctrs as [|ctr ctrs IH]; intros Hall; simpl; [done|].
  rewrite (apply_template_other _ _ _ _ name) by (done || apply Hall; by left). simpl.
  apply IH. intros. apply Hall. by right.
Qed.

Lemma foldO_app {A B} (f : B → A → outcome B) xs ys b :
  foldO f b (xs ++ ys) = b' ← foldO f b xs; foldO f b' ys.
Proof.
  revert b. induction xs as [|x xs IH]; intros b; simpl; [done|].
  destruct (f b x); simpl; [apply IH|done..].
Qed.

(** A loop that keeps what each of its rounds keeps. *)
Lemma foldO_keeps {A B C} (f : B → A → outcome B) (g : B → C) xs b b' :
  (∀ b x b', f b x = Ok b' → g b' = g b) → foldO f b xs = Ok b' → g b' = g b.
Proof.
  intros Hf. revert b. induction xs as [|x xs IH]; intros b E; simpl in E; [by injection E as <-|].
  apply outcome_bind_Ok in E as (b1 & E1 & E). rewrite (IH _ E). by eapply Hf.
Qed.

(** Name, mounts and what the operator does not look at stay. *)
Definition fixed_parts (c : ContainerApply) := (ca_Name c, ca_VolumeMounts c, ca_Rest c).

Lemma store_Image_fixed img c c' : store_Image img c = Ok c' → fixed_parts c' = fixed_parts c.
Proof. unfold store_Image. destruct (ca_Image c); [by intros [= <-]|done]. Qed.

Lemma apply_template_fixed cr matched st t st' :
  apply_template cr matched st t = Ok st' → fixed_parts (snd st') = fixed_parts (snd st).
Proof.
  destruct st as [b c]. unfold apply_template. intros E.
  apply outcome_bind_Ok in E as (n & _ & E). case_decide; [|by injection E as <-].
  apply outcome_bind_Ok in E as (c1 & E1 & E). apply outcome_bind_Ok in E as (c2 & E2 & E).
  apply outcome_bind_Ok in E as (env & _ & E). injection E as <-.
  assert (fixed_parts c1 = fixed_parts c) as Hc.
  { clear E2. repeat case_decide; go_inv; try done; by eapply store_Image_fixed. }
  etrans; [|exact Hc]. case_decide; [|by injection E2 as <-].
  apply outcome_bind_Ok in E2 as (? & _ & E2). by injection E2 as <-.
Qed.

Lemma UpdateContainerApply_fixed ts c cr matched c' :
  UpdateContainerApply ts c cr matched = Ok c' → fixed_parts c' = fixed_parts c.
Proof.
  unfold UpdateContainerApply. intros E. apply outcome_bind_Ok in E as ([b c1] & E1 & E).
  apply (foldO_keeps _ (λ st, fixed_parts (snd st))) in E1; [|by intros ? ? ?; apply apply_template_fixed].
  simpl in E1. rewrite <- E1. destruct b; [by injection E as <-|].
  apply outcome_bind_Ok in E as (img & _ & E).
  repeat case_decide; go_inv; try done; by eapply store_Image_fixed.
Qed.

(** The pull policy of the entry, when it gives one. *)
Definition chosen_policy (entry : ContainerTemplate) (c : ContainerApply) : option string :=
  if decide (ct_ImagePullPolicy entry = "") then ca_ImagePullPolicy c
  else Some (ct_ImagePullPolicy entry).

(** [c] with that image and policy, these variables and arguments, and nothing else changed *)
Definition applied (entry : ContainerTemplate) (image : string) (env : list EnvVarApply)
    (args : list string) (c : ContainerApply) : ContainerApply :=
  set_ca_Args args (set_ca_Env env
    (set_ca_ImagePullPolicy (chosen_policy entry c) (set_ca_Image (Some image) c))).

(** The entry of the custom resource for the container, applied. *)
Lemma apply_template_hit cr matched b c image ctr :
  container_wf c → ca_Name c = Some (ct_Name ctr) → ca_Image c = Some image →
  no_byte newline image →
  ∃ env, apply_template cr matched (b, c) ctr
           = Ok (true, applied ctr (GetFinalImage cr matched ctr image) env
                         (ReplaceAllArgs (ca_Args c) (ct_Args ctr)) c)
         ∧ Forall2 (env_replaced (default [] (ct_Envs ctr))) (ca_Env c) env.
Proof.
  intros [_ _ [pol Hpol] Henv] Hn Hi Hl. unfold apply_template. rewrite Hn. simpl.
  rewrite decide_True by done.
  destruct (ReplaceAllApplyCustomEnvs_run (ca_Env c) [] (default [] (ct_Envs ctr)) Henv)
    as (env & He & HF). simpl in HF. exists env. split; [|exact HF].
  assert (Himg : ∀ (m : outcome ContainerApply),
    m = Ok (set_ca_Image (Some (GetFinalImage cr matched ctr image)) c) →
    (c ← m;
     c ← (if decide (ct_ImagePullPolicy ctr ≠ "") then
            _ ← deref (ca_ImagePullPolicy c);
            Ok (set_ca_ImagePullPolicy (Some (ct_ImagePullPolicy ctr)) c)
          else Ok c);
     env ← ReplaceAllApplyCustomEnvs (ca_Env c) [] (default [] (ct_Envs ctr));
     Ok (true, set_ca_Args (ReplaceAllArgs (ca_Args c) (ct_Args ctr)) (set_ca_Env env c)))
    = Ok (true, applied ctr (GetFinalImage cr matched ctr image) env
                  (ReplaceAllArgs (ca_Args c) (ct_Args ctr)) c)).
  { intros m ->. unfold applied, chosen_policy. simpl. rewrite Hpol.
    destruct (decide (ct_ImagePullPolicy ctr = "")) as [Ep|Ep].
    - rewrite (decide_False (P := _ ≠ "")) by tauto. simpl. rewrite He. simpl.
      by rewrite <- Hpol; destruct c.
    - rewrite (decide_True (P := _ ≠ "")) by done. simpl. by rewrite He. }
  apply Himg. clear Himg. unfold GetFinalImage, matched_image, store_Image.
  rewrite GetImageField_line by done. rewrite Hi. simpl.
  destruct (decide (vs_Version matched = "")) as [Ev|Ev].
  - rewrite !(decide_False (P := vs_Version matched ≠ "")) by tauto.
    rewrite (decide_False (P := _ ∧ _)) by tauto. rewrite decide_False by tauto.
    repeat case_decide; simpl; try done. by rewrite <- Hi; destruct c.
  - rewrite !(decide_True (P := vs_Version matched ≠ "")) by done.
    destruct (decide (lookup_zero (vs_Images matched) (ct_Name ctr) = "")) as [E|E].
    + rewrite (decide_False (P := _ ∧ _)) by tauto. rewrite decide_False by tauto.
      repeat case_decide; simpl; try done. by rewrite <- Hi; destruct c.
    + rewrite (decide_True (P := _ ∧ _)) by done. by rewrite decide_True.
Qed.

(** ** Properties *)

(** What [ResolveImage] takes for the registry domain of an image. *)
Definition is_domain (part : string) : Prop :=
  Contains part "." = true ∨ part = "localhost".

(** Without a custom registry [ResolveImage] returns the image as it is. With one, the
    result is the trimmed registry, a slash and a file: keeping the path, the image less its
    leading registry domain if it has one; otherwise the text after the image's last slash. *)
Theorem ResolveImage_spec image cr :
  let registry := TrimSpace (sp_CustomRegistry (cr_Spec cr)) in
  (registry = "" → ResolveImage image cr = image)
  ∧ (registry ≠ "" → ∃ file,
       ResolveImage image cr = registry +:+ "/" +:+ file
       ∧ if sp_RetainImageRegistryPath (cr_Spec cr)
         then (∃ domain, TrimSpace image = domain +:+ "/" +:+ file
                 ∧ no_byte "/" domain ∧ is_domain domain)
              ∨ (file = TrimSpace image
                 ∧ ∀ part rest, TrimSpace image = part +:+ "/" +:+ rest →
                     no_byte "/" part → ¬ is_domain part)
         else no_byte "/" file
              ∧ (TrimSpace image = file ∨ ∃ path, TrimSpace image = path +:+ "/" +:+ file)).
Proof.
  simpl. unfold ResolveImage. split; intros Hreg.
  - by rewrite decide_True.
  - rewrite decide_False by done. eexists. split; [done|].
    destruct (sp_RetainImageRegistryPath _).
    + destruct (SplitN2 (TrimSpace image) "/") as [[p0 p1]|] eqn:E.
      * apply SplitN2_Some in E as [Eq Hno].
        destruct (Contains p0 "." || bool_decide (p0 = "localhost")) eqn:Hd.
        -- left. exists p0. split_and!; [done..|].
           apply orb_true_iff in Hd as [?|?%bool_decide_eq_true]; [by left|by right].
        -- right. split; [done|]. intros part rest Eq' Hno' [Hd'|Hd'].
           ++ apply orb_false_iff in Hd as [Hd _].
              rewrite Eq in Eq'. apply append_sep_inj in Eq' as [-> _]; [congruence|done..].
           ++ apply orb_false_iff in Hd as [_ Hd%bool_decide_eq_false].
              rewrite Eq in Eq'. apply append_sep_inj in Eq' as [-> _]; done.
      * right. split; [done|]. intros part rest Eq' Hno'. apply SplitN2_None in E.
        rewrite Eq' in E. apply no_byte_app in E as [_ E]. by apply no_byte_cons in E as [? _].
    + destruct (after_last "/" (TrimSpace image)) as [file|] eqn:E.
      * apply after_last_Some in E as [? [path Ep]]. split; [done|]. right. by exists path.
      * split; [by apply after_last_None|by left].
Qed.

Lemma ResolveImage_spec_witness : ∃ file,
  ResolveImage "quay.io/dell/csi-powermax:v2.17.0"
    (mkCSM "" zero_ObjectMeta (mkSpec "v1.17.0" zero_Driver [] " reg.local " true) zero_Status)
  = "reg.local" +:+ "/" +:+ file.
Proof.
  destruct (proj2 (ResolveImage_spec "quay.io/dell/csi-powermax:v2.17.0"
    (mkCSM "" zero_ObjectMeta (mkSpec "v1.17.0" zero_Driver [] " reg.local " true) zero_Status))
    ltac:(vm_compute; discriminate)) as (file & E & _).
  exists file. exact E.
Defined.

(** Merging the custom environment keeps every variable of the container, in order and
    under its name. It returns whenever the pointers it reads are set. The last update of a
    variable wins over its default and over earlier updates (an update to ["NA"] sets the
    empty value); a variable with no update keeps its value or its field or secret reference. *)
Theorem ReplaceAllApplyCustomEnvs_spec driverEnv commonEnv nrEnv :
  (∀ e, e ∈ driverEnv → env_wf e) →
  ∃ out, ReplaceAllApplyCustomEnvs driverEnv commonEnv nrEnv = Ok out
    ∧ ea_Name <$> out = ea_Name <$> driverEnv
    ∧ Forall2 (env_replaced (commonEnv ++ nrEnv)) driverEnv out.
Proof.
  intros Hwf. destruct (ReplaceAllApplyCustomEnvs_run driverEnv commonEnv nrEnv Hwf)
    as (out & E & HF). exists out. split_and!; [done| |done].
  clear E Hwf. induction HF as [|old new ? ? [Hn _] _ IH]; [done|]. by rewrite !fmap_cons, Hn, IH.
Qed.

Lemma ReplaceAllApplyCustomEnvs_spec_witness : ∃ out,
  ReplaceAllApplyCustomEnvs [mkEnvVarApply (Some "A") (Some "1") None;
    mkEnvVarApply (Some "B") (Some "2") None] [mkEnvVar "A" "x"] [mkEnvVar "A" ""] = Ok out
  ∧ ea_Value <$> out = [Some ""; Some "2"].
Proof.
  destruct (ReplaceAllApplyCustomEnvs_spec [mkEnvVarApply (Some "A") (Some "1") None;
    mkEnvVarApply (Some "B") (Some "2") None] [mkEnvVar "A" "x"] [mkEnvVar "A" ""])
    as (out & E & _).
  - intros e He. repeat (apply elem_of_cons in He as [->|He]; [split; [by eexists|done]|]).
    by apply elem_of_nil in He.
  - exists out. split; [exact E|]. vm_compute in E. by injection E as <-.
Defined.

(** [out] merges the custom arguments into the default ones: there are the positions of the
    defaults and at most the custom ones after them; every entry is a custom argument, or a
    default that contains the key of no custom argument; such a default stays in its place; and
    a custom argument is there unless a later one's key occurs in it. *)
Record args_merged (defaultArgs crArgs out : list string) : Prop := mkArgsMerged {
  am_length : length defaultArgs ≤ length out ≤ length defaultArgs + length crArgs;
  am_origin a : a ∈ out → a ∈ crArgs
    ∨ (a ∈ defaultArgs ∧ ∀ u, u ∈ crArgs → Contains a (arg_key u) = false);
  am_stays i a : defaultArgs !! i = Some a →
    (∀ u, u ∈ crArgs → Contains a (arg_key u) = false) → out !! i = Some a;
  am_placed pre u post : crArgs = pre ++ u :: post →
    (∀ u', u' ∈ post → Contains u (arg_key u') = false) → u ∈ out
}.

Lemma replace_args_stay us st i a :
  st.1 !! i = Some a → (∀ u, u ∈ us → Contains a (arg_key u) = false) →
  (foldl replace_arg st us).1 !! i = Some a.
Proof.
  revert st. induction us as [|u us IH]; intros [ds ms] Hi Hu; [done|]. simpl. apply IH.
  - simpl in *. rewrite list_lookup_fmap, Hi. simpl. rewrite (Hu u); [done|by left].
  - intros u' Hu'. apply Hu. by right.
Qed.

Theorem ReplaceAllArgs_spec defaultArgs crArgs :
  args_merged defaultArgs crArgs (ReplaceAllArgs defaultArgs crArgs).
Proof.
  rewrite ReplaceAllArgs_fold. split.
  - rewrite length_app. destruct (replace_args_length crArgs (defaultArgs, [])); simpl in *; lia.
  - pose proof (replace_args_origin crArgs [] defaultArgs defaultArgs []) as Ho.
    destruct (foldl replace_arg (defaultArgs, []) crArgs) as [cur merge].
    destruct Ho as [Hc Hm].
    + intros a Ha. right. split; [done|]. by intros ? ?%elem_of_nil.
    + by intros ? ?%elem_of_nil.
    + intros a [Ha|Ha]%elem_of_app; [by apply Hc|]. left. by apply Hm.
  - intros i a Hi Hu. apply lookup_app_l_Some. by apply replace_args_stay.
  - intros pre u post -> Hno. rewrite foldl_app. simpl.
    apply replace_args_keep; [done|]. apply replace_arg_places.
Qed.

Lemma ReplaceAllArgs_spec_witness :
  "--timeout=60s" ∈ ReplaceAllArgs ["--v=5"; "--timeout=30s"] ["--timeout=60s"].
Proof.
  apply (am_placed _ _ _ (ReplaceAllArgs_spec ["--v=5"; "--timeout=30s"] ["--timeout=60s"]) [] _ []);
    [reflexivity|]. intros u' Hu. by apply not_elem_of_nil in Hu.
Defined.

(** A container that the custom resource does not list. *)
Lemma UpdateContainerApply_unlisted toBeApplied c cr matched name image :
  ca_Name c = Some name → ca_Image c = Some image → no_byte newline image →
  (∀ t, t ∈ toBeApplied → ct_Name t ≠ name) →
  UpdateContainerApply toBeApplied c cr matched
  = Ok (set_ca_Image (Some (GetFinalImage cr matched
          (set_ct_Name name zero_ContainerTemplate) image)) c).
Proof.
  intros Hn Hi Hl Hout. unfold UpdateContainerApply, GetFinalImage, store_Image.
  rewrite (apply_template_others _ _ _ _ name), GetImageField_line by done. simpl.
  rewrite Hn, Hi. simpl.
  destruct (decide (vs_Version matched = "")) as [Ev|Ev].
  - rewrite (decide_False (P := vs_Version matched ≠ "")) by tauto.
    rewrite (decide_False (P := _ ∧ _)) by tauto. simpl.
    case_decide; simpl; [done|]. rewrite <- Hi. by destruct c.
  - rewrite (decide_True (P := vs_Version matched ≠ "")) by done. simpl.
    destruct (decide (lookup_zero (vs_Images matched) name = "")) as [E|E].
    + rewrite (decide_False (P := _ ∧ _)) by tauto. rewrite decide_False by tauto.
      case_decide; simpl; [done|]. rewrite <- Hi. by destruct c.
    + rewrite (decide_True (P := _ ∧ _)) by done. by rewrite decide_True by done.
Qed.

(** Entries with other names do not matter. *)
Lemma filter_name_nil name (l : list ContainerTemplate) :
  filter (λ t, ct_Name t = name) l = [] → ∀ t, t ∈ l → ct_Name t ≠ name.
Proof.
  intros E t Ht Htn.
  assert (Hx : t ∈ filter (λ t, ct_Name t = name) l) by by apply list_elem_of_filter.
  rewrite E in Hx. by apply elem_of_nil in Hx.
Qed.

Lemma filter_name_one name (l : list ContainerTemplate) ctr :
  filter (λ t, ct_Name t = name) l = [ctr] →
  ∃ pre post, l = pre ++ ctr :: post ∧ ct_Name ctr = name
    ∧ (∀ t, t ∈ pre → ct_Name t ≠ name) ∧ (∀ t, t ∈ post → ct_Name t ≠ name).
Proof.
  intros Ef. assert (Hin : ct_Name ctr = name ∧ ctr ∈ l).
  { apply (list_elem_of_filter (λ t, ct_Name t = name)). rewrite Ef. by left. }
  destruct Hin as [Hcn (pre & post & ->)%list_elem_of_split].
  rewrite filter_app, filter_cons_True in Ef by done.
  exists pre, post. destruct (filter (λ t, ct_Name t = name) pre) as [|x r] eqn:Hp;
    simplify_eq/=; [|by destruct r].
  split_and!; [done..| |]; by apply filter_name_nil.
Qed.

(** C11: for a container whose pointers are set and at most one entry of its name in the custom
    resource, [UpdateContainerApply] returns the container with the image that [GetFinalImage]
    chooses for that entry (for an empty entry of that name, without one), the entry's pull
    policy if it gives one, the merged arguments and the merged variables, and everything else
    (name, mounts, what the operator does not look at) as it was. *)
Theorem UpdateContainerApply_spec toBeApplied c cr matched name image :
  container_wf c → ca_Name c = Some name → ca_Image c = Some image → no_byte newline image →
  length (filter (λ t, ct_Name t = name) toBeApplied) ≤ 1 →
  let entry := default (set_ct_Name name zero_ContainerTemplate)
                 (head (filter (λ t, ct_Name t = name) toBeApplied)) in
  ∃ env args, UpdateContainerApply toBeApplied c cr matched
      = Ok (applied entry (GetFinalImage cr matched entry image) env args c)
    ∧ args_merged (ca_Args c) (ct_Args entry) args
    ∧ match head (filter (λ t, ct_Name t = name) toBeApplied) with
      | None => env = ca_Env c ∧ args = ca_Args c
      | Some ctr => Forall2 (env_replaced (default [] (ct_Envs ctr))) (ca_Env c) env
      end.
Proof.
  intros Hwf Hn Hi Hl Hone. simpl.
  destruct (filter (λ t, ct_Name t = name) toBeApplied) as [|ctr [|? ?]] eqn:Ef;
    [| |simpl in Hone; lia].
  - rewrite (UpdateContainerApply_unlisted _ _ _ _ name image) by
      (done || by apply filter_name_nil).
    exists (ca_Env c), (ca_Args c). split_and!; [by destruct c| |done..].
    pose proof (ReplaceAllArgs_spec (ca_Args c) []) as A. unfold ReplaceAllArgs in A. simpl in A.
    by rewrite app_nil_r in A.
  - destruct (filter_name_one _ _ _ Ef) as (pre & post & -> & Hcn & Hpre & Hpost).
    destruct (apply_template_hit cr matched false c image ctr) as (env & E & He);
      [done|congruence|done..|].
    exists env, (ReplaceAllArgs (ca_Args c) (ct_Args ctr)).
    unfold UpdateContainerApply. rewrite foldO_app.
    rewrite (apply_template_others _ _ _ _ name) by done. simpl. rewrite E. simpl.
    rewrite (apply_template_others _ _ _ _ name) by (done || congruence).
    split_and!; [done|apply ReplaceAllArgs_spec|done].
Qed.

Lemma UpdateContainerApply_spec_witness : ∃ c',
  UpdateContainerApply [set_ct_Image "me/resizer:v1" (set_ct_Name "resizer" zero_ContainerTemplate)]
    (mkContainerApply (Some "resizer") (Some "quay.io/resizer:v2") (Some "Always") ["--v=5"] [] [] "")
    (mkCSM "" zero_ObjectMeta zero_Spec zero_Status) zero_VersionSpec = Ok c'
  ∧ ca_Image c' = Some "me/resizer:v1".
Proof.
  destruct (UpdateContainerApply_spec
    [set_ct_Image "me/resizer:v1" (set_ct_Name "resizer" zero_ContainerTemplate)]
    (mkContainerApply (Some "resizer") (Some "quay.io/resizer:v2") (Some "Always") ["--v=5"] [] [] "")
    (mkCSM "" zero_ObjectMeta zero_Spec zero_Status) zero_VersionSpec
    "resizer" "quay.io/resizer:v2") as (env & args & E & _).
  - split; [by eexists..|]. intros e He. by apply elem_of_nil in He.
  - reflexivity.
  - reflexivity.
  - decide_goal.
  - apply Nat.leb_le. reflexivity.
  - eexists. split; [exact E|reflexivity].
Defined.

Section configmap_properties.
Context `{Host} `{MapOrder}.

Lemma ValidateConfigMap_Ok v :
  ValidateConfigMap v = Ok () ↔ ∀ k img, vs_Images v !! k = Some img → img ≠ "".
Proof.
  unfold ValidateConfigMap. destruct (list_find _ _) as [[i [k x]]|] eqn:E.
  - apply list_find_Some in E as (Hl & Hx & _). split; [done|]. intros Hall.
    apply list_elem_of_lookup_2 in Hl. rewrite range_perm in Hl.
    apply elem_of_map_to_list in Hl. by destruct (Hall k x).
  - apply list_find_None in E. split; [|done]. intros _ k img Hk.
    rewrite Forall_forall in E. apply (E (k, img)). rewrite range_perm.
    by apply elem_of_map_to_list.
Qed.

(** What the version's config map gives is either no image list at all or the list of
    exactly the version the custom resource asks for, taken from the decoded file, in which
    no image is empty; it is an error exactly when the file does not decode or the list for
    that version has an empty image, in whatever order the map is visited. *)
Theorem UpdateUsingConfigMap_spec csm data :
  match UpdateUsingConfigMap csm data with
  | Ok matched =>
      matched = zero_VersionSpec
      ∨ (vs_Version matched = sp_Version (cr_Spec csm)
         ∧ (∀ k img, vs_Images matched !! k = Some img → img ≠ "")
         ∧ ∃ versions, yaml_VersionSpecs (TrimSpace (map_get data "versions.yaml")) = inr versions
             ∧ matched ∈ versions)
  | Fail e =>
      yaml_VersionSpecs (TrimSpace (map_get data "versions.yaml")) = inl e
      ∨ ∃ versions v k, yaml_VersionSpecs (TrimSpace (map_get data "versions.yaml")) = inr versions
          ∧ v ∈ versions ∧ vs_Version v = sp_Version (cr_Spec csm)
          ∧ vs_Images v !! k = Some ""
          ∧ e = Errorf ("value for key " +:+ k +:+ " is empty")
  | Panic _ => False
  end.
Proof.
  unfold UpdateUsingConfigMap. case_decide; [by left|]. case_decide; [by left|].
  destruct (yaml_VersionSpecs _) as [e|versions] eqn:Ey; simpl; [by left|].
  destruct (list_find _ versions) as [[i v]|] eqn:Ef; [|by left].
  apply list_find_Some in Ef as (Hl & Hv & _). apply list_elem_of_lookup_2 in Hl.
  destruct (ValidateConfigMap v) as [[]|e|w] eqn:Eval; simpl.
  - right. split_and!; [done| |eauto]. by apply ValidateConfigMap_Ok.
  - right. unfold ValidateConfigMap in Eval.
    destruct (list_find _ (range _)) as [[j [k x]]|] eqn:Er; [|done].
    apply list_find_Some in Er as (Hk & -> & _). apply list_elem_of_lookup_2 in Hk.
    rewrite range_perm in Hk. apply elem_of_map_to_list in Hk. injection Eval as <-.
    by exists versions, v, k.
  - unfold ValidateConfigMap in Eval. by destruct (list_find _ (range _)) as [[j [k x]]|].
Qed.
End configmap_properties.
