(* ===== verification/Cluster.v ===== *)
(** The cluster as the operator sees it: the API objects it reads and writes, the
    client interface and its documented behaviour, and the world that a call changes.

    The client (controller-runtime and client-go) is not part of the repository. Its
    operations are the class [Client]; what the proofs use of it is the class
    [ClientLaws]; [store_client] is a concrete one, on which the witnesses run. *)

From S2P Require Import Prelude.
From S2P Require Import GoStrings.
From S2P Require Import Types.
From S2P Require Import Images.
From stdpp Require Import options.

Local Open Scope stdpp_scope.

(** ** API objects *)

Record ContainerPort := mkContainerPort {
  cp_Name : string;
  cp_Protocol : string;
  cp_ContainerPort : Z
}.

(** The variables, mounts and volumes of a workload on the server are written as those of an
    apply configuration whose pointers are set. *)
Record Container := mkContainer {
  co_Name : string;
  co_Image : string;
  co_ImagePullPolicy : string;
  co_Command : list string;
  co_Args : list string;
  co_Ports : list ContainerPort;
  co_Env : list EnvVarApply;
  co_VolumeMounts : list VolumeMountApply;
  co_Rest : string
}.

(** A container with nothing else set. *)
Definition container (name image : string) : Container :=
  mkContainer name image "" [] [] [] [] [] "".

Definition set_co_Image (v : string) (c : Container) : Container :=
  mkContainer (co_Name c) v (co_ImagePullPolicy c) (co_Command c) (co_Args c) (co_Ports c)
    (co_Env c) (co_VolumeMounts c) (co_Rest c).
Definition set_co_Args (v : list string) (c : Container) : Container :=
  mkContainer (co_Name c) (co_Image c) (co_ImagePullPolicy c) (co_Command c) v (co_Ports c)
    (co_Env c) (co_VolumeMounts c) (co_Rest c).
Definition set_co_Ports (v : list ContainerPort) (c : Container) : Container :=
  mkContainer (co_Name c) (co_Image c) (co_ImagePullPolicy c) (co_Command c) (co_Args c) v
    (co_Env c) (co_VolumeMounts c) (co_Rest c).
Definition set_co_Env (v : list EnvVarApply) (c : Container) : Container :=
  mkContainer (co_Name c) (co_Image c) (co_ImagePullPolicy c) (co_Command c) (co_Args c)
    (co_Ports c) v (co_VolumeMounts c) (co_Rest c).
Definition set_co_VolumeMounts (v : list VolumeMountApply) (c : Container) : Container :=
  mkContainer (co_Name c) (co_Image c) (co_ImagePullPolicy c) (co_Command c) (co_Args c)
    (co_Ports c) (co_Env c) v (co_Rest c).

Record PodTemplate := mkPodTemplate {
  tp_Labels : gomap;
  tp_Annotations : gomap;
  tp_ServiceAccountName : string;
  tp_InitContainers : list Container;
  tp_Containers : list Container;
  tp_Volumes : list VolumeApply
}.

Definition set_tp_Annotations (v : gomap) (t : PodTemplate) : PodTemplate :=
  mkPodTemplate (tp_Labels t) v (tp_ServiceAccountName t) (tp_InitContainers t)
    (tp_Containers t) (tp_Volumes t).
Definition set_tp_Containers (v : list Container) (t : PodTemplate) : PodTemplate :=
  mkPodTemplate (tp_Labels t) (tp_Annotations t) (tp_ServiceAccountName t) (tp_InitContainers t)
    v (tp_Volumes t).
Definition set_tp_Volumes (v : list VolumeApply) (t : PodTemplate) : PodTemplate :=
  mkPodTemplate (tp_Labels t) (tp_Annotations t) (tp_ServiceAccountName t) (tp_InitContainers t)
    (tp_Containers t) v.

Record DeploymentStatus := mkDeploymentStatus {
  dps_Replicas : Z;
  dps_AvailableReplicas : Z;
  dps_ReadyReplicas : Z;
  dps_UnavailableReplicas : Z
}.

Record Deployment := mkDeployment {
  dp_Meta : ObjectMeta;
  dp_Replicas : option Z;              (* Spec.Replicas *)
  dp_Selector : gomap;                 (* Spec.Selector.MatchLabels *)
  dp_Template : PodTemplate;           (* Spec.Template *)
  dp_Status : DeploymentStatus
}.

Definition dp_TemplateLabels (d : Deployment) : gomap := tp_Labels (dp_Template d).
Definition dp_Containers (d : Deployment) : list Container := tp_Containers (dp_Template d).
Definition dp_Volumes (d : Deployment) : list VolumeApply := tp_Volumes (dp_Template d).

Definition set_dp_Template (v : PodTemplate) (d : Deployment) : Deployment :=
  mkDeployment (dp_Meta d) (dp_Replicas d) (dp_Selector d) v (dp_Status d).
Definition set_dp_Containers (v : list Container) (d : Deployment) : Deployment :=
  set_dp_Template (set_tp_Containers v (dp_Template d)) d.
Definition set_dp_Volumes (v : list VolumeApply) (d : Deployment) : Deployment :=
  set_dp_Template (set_tp_Volumes v (dp_Template d)) d.

(** A deployment of pods of which only labels, containers and volumes are given. *)
Definition simple_deployment (m : ObjectMeta) (replicas : option Z) (labels : gomap)
    (cs : list Container) (vs : list VolumeApply) (status : DeploymentStatus) : Deployment :=
  mkDeployment m replicas None (mkPodTemplate labels None "" [] cs vs) status.

Record DaemonSet := mkDaemonSet {
  dn_Meta : ObjectMeta;
  dn_TemplateLabels : gomap;
  dn_Containers : list Container;
  dn_DesiredNumberScheduled : Z;
  dn_NumberAvailable : Z;
  dn_NumberReady : Z;
  dn_NumberUnavailable : Z
}.

(** [State.Waiting] of a container status, when set. *)
Record Waiting := mkWaiting { wt_Reason : string; wt_Message : string }.

Record PodCondition := mkPodCondition { pc_Type : string; pc_Status : string }.

Record Pod := mkPod {
  po_Meta : ObjectMeta;
  po_Phase : string;
  po_ContainerStatuses : list (option Waiting);
  po_Conditions : list PodCondition
}.

Record ConfigMap := mkConfigMap { cm_Meta : ObjectMeta; cm_Data : gomap }.

Record Secret := mkSecretOf {
  se_Meta : ObjectMeta;
  se_Data : gomap;
  se_Type : string;
  se_StringData : gomap
}.

(** A secret with nothing else set. *)
Definition mkSecret (m : ObjectMeta) (data : gomap) : Secret := mkSecretOf m data "" None.

(** The content of an object of another kind: a manifest that the operator only passes on, or
    one that it builds itself (the metrics Service of a driver and its ServiceMonitor: the
    value of the label "app", the port, the interval, and with TLS whether the certificate is
    not verified; stateful sets, ingresses, routes, issuers and certificates), or a manifest
    with the one field that it sets (the file system group policy of a CSIDriver, the rules of a
    role or cluster role). *)
Record PolicyRule := mkPolicyRule {
  pr_APIGroups : list string;
  pr_Resources : list string;
  pr_Rest : string
}.

(** a rule of an ingress: host ([""] for none), path, path type, service and port *)
Record IngressRule := mkIngressRule {
  ir_Host : string;
  ir_Path : string;
  ir_PathType : string;
  ir_Service : string;
  ir_Port : Z
}.

(** a rule of a route: path type, path, service and port *)
Record HTTPRouteRule := mkHTTPRouteRule {
  hr_PathType : string;
  hr_Path : string;
  hr_Service : string;
  hr_Port : Z
}.

(** durations in hours *)
Record CertificateSpec := mkCertificateSpec {
  cx_SecretName : string;
  cx_Duration : Z;
  cx_RenewBefore : Z;
  cx_Organizations : list string;
  cx_IsCA : bool;
  cx_PrivateKey : string * (string * Z);
  cx_Usages : list string;
  cx_DNSNames : list string;
  cx_IssuerRef : string * (string * string)
}.

Inductive Body :=
  | Manifest (yaml : string)
  | RulesBody (rules : list PolicyRule) (rest : string)
  | CSIDriverBody (fsGroupPolicy : option string) (rest : string)
  | ServiceBody (app : string) (port : Z)
  | ServiceMonitorBody (app interval : string) (tls : option bool)
  | StatefulSetBody (serviceName : string) (replicas : Z) (selector : gomap)
      (template : PodTemplate)
  | IngressBody (className : string) (tlsHosts : list string) (tlsSecret : string)
      (rules : list IngressRule)
  | HTTPRouteBody (parents : list (string * string)) (hostnames : list string)
      (rules : list HTTPRouteRule)
  | IssuerBody (crlDistributionPoints : list string)
  | CertificateBody (c : CertificateSpec).

Record Resource := mkResource { rs_Kind : string; rs_Meta : ObjectMeta; rs_Body : Body }.

Inductive Object :=
  | ODeployment (d : Deployment)
  | ODaemonSet (d : DaemonSet)
  | OPod (p : Pod)
  | OConfigMap (c : ConfigMap)
  | OSecret (s : Secret)
  | OCSM (cr : CSM)
  | OOther (r : Resource).

Definition obj_kind (o : Object) : string :=
  match o with
  | ODeployment _ => "Deployment"
  | ODaemonSet _ => "DaemonSet"
  | OPod _ => "Pod"
  | OConfigMap _ => "ConfigMap"
  | OSecret _ => "Secret"
  | OCSM _ => "ContainerStorageModule"
  | OOther r => rs_Kind r
  end.

Definition obj_meta (o : Object) : ObjectMeta :=
  match o with
  | ODeployment d => dp_Meta d
  | ODaemonSet d => dn_Meta d
  | OPod p => po_Meta p
  | OConfigMap c => cm_Meta c
  | OSecret s => se_Meta s
  | OCSM cr => cr_Meta cr
  | OOther r => rs_Meta r
  end.

Definition set_obj_meta (m : ObjectMeta) (o : Object) : Object :=
  match o with
  | ODeployment d => ODeployment (mkDeployment m (dp_Replicas d) (dp_Selector d) (dp_Template d)
                       (dp_Status d))
  | ODaemonSet d => ODaemonSet (mkDaemonSet m (dn_TemplateLabels d) (dn_Containers d)
                      (dn_DesiredNumberScheduled d) (dn_NumberAvailable d) (dn_NumberReady d)
                      (dn_NumberUnavailable d))
  | OPod p => OPod (mkPod m (po_Phase p) (po_ContainerStatuses p) (po_Conditions p))
  | OConfigMap c => OConfigMap (mkConfigMap m (cm_Data c))
  | OSecret s => OSecret (mkSecretOf m (se_Data s) (se_Type s) (se_StringData s))
  | OCSM cr => OCSM (set_cr_Meta m cr)
  | OOther r => OOther (mkResource (rs_Kind r) m (rs_Body r))
  end.

Definition is_deleting (o : Object) : bool := om_Deleting (obj_meta o).

(** Kind, namespace and name. *)
Definition Key : Type := string * (string * string).

Definition obj_key (o : Object) : Key :=
  (obj_kind o, (om_Namespace (obj_meta o), om_Name (obj_meta o))).

(** A Go type that a typed call decodes into. *)
Class Kinded (T : Type) := {
  kind_of : string;
  inj_obj : T → Object;
  proj_obj : Object → option T;
  proj_inj x : proj_obj (inj_obj x) = Some x;
  inj_proj o x : proj_obj o = Some x → o = inj_obj x;
  kind_inj x : obj_kind (inj_obj x) = kind_of
}.
Arguments kind_of T {_}.

Ltac solve_kinded :=
  intros; try done;
  match goal with o : Object |- _ => destruct o end; by simplify_eq/=.

#[export, program] Instance Deployment_kinded : Kinded Deployment :=
  {| kind_of := "Deployment"; inj_obj := ODeployment;
     proj_obj o := match o with ODeployment d => Some d | _ => None end |}.
Solve Obligations with solve_kinded.
#[export, program] Instance DaemonSet_kinded : Kinded DaemonSet :=
  {| kind_of := "DaemonSet"; inj_obj := ODaemonSet;
     proj_obj o := match o with ODaemonSet d => Some d | _ => None end |}.
Solve Obligations with solve_kinded.
#[export, program] Instance Pod_kinded : Kinded Pod :=
  {| kind_of := "Pod"; inj_obj := OPod;
     proj_obj o := match o with OPod d => Some d | _ => None end |}.
Solve Obligations with solve_kinded.
#[export, program] Instance ConfigMap_kinded : Kinded ConfigMap :=
  {| kind_of := "ConfigMap"; inj_obj := OConfigMap;
     proj_obj o := match o with OConfigMap d => Some d | _ => None end |}.
Solve Obligations with solve_kinded.
#[export, program] Instance Secret_kinded : Kinded Secret :=
  {| kind_of := "Secret"; inj_obj := OSecret;
     proj_obj o := match o with OSecret d => Some d | _ => None end |}.
Solve Obligations with solve_kinded.
#[export, program] Instance CSM_kinded : Kinded CSM :=
  {| kind_of := "ContainerStorageModule"; inj_obj := OCSM;
     proj_obj o := match o with OCSM d => Some d | _ => None end |}.
Solve Obligations with solve_kinded.

(** ** The client *)

Class Client (W : Type) := {
  IsNotFound : error → bool;
  IsConflict : error → bool;
  IsForbidden : error → bool;
  IsInvalid : error → bool;
  api_Get : Key → W → (error + Object) * W;
  api_List : string → option string → gmap string string → W → (error + list Object) * W;
  api_Create : Object → W → (error + ()) * W;
  api_Update : Object → W → (error + Object) * W;   (* with the object the server stored *)
  api_StatusUpdate : Object → W → (error + ()) * W;
  api_Delete : Object → W → (error + ()) * W;
  api_Apply : Object → W → (error + ()) * W;
  (** the fields that encoding [obj] to JSON and decoding onto [k8sObj] gives *)
  json_overlay : Object → Object → Object
}.

(** One call of the operator, with whether it succeeded. *)
Inductive Call :=
  | CGet (k : Key) (ok : bool)
  | CList (kind : string) (ns : option string) (labels : gmap string string) (ok : bool)
  | CCreate (o : Object) (ok : bool)
  | CUpdate (o : Object) (ok : bool)
  | CStatusUpdate (o : Object) (ok : bool)
  | CDelete (o : Object) (ok : bool)
  | CApply (o : Object) (ok : bool)
  | CEvent (eventtype reason message : string).

(** What the operator does to the cluster beyond reading it. *)
Definition is_write (c : Call) : bool :=
  match c with
  | CGet _ _ | CList _ _ _ _ | CEvent _ _ _ => false
  | _ => true
  end.

(** The stop channels of the content watches ([ContentWatchChannels] and the channels made). *)
Record Watches := mkWatches {
  wa_channels : gmap string nat;       (* by the name of the custom resource *)
  wa_open : gset nat;                  (* made and not closed *)
  wa_next : nat
}.

(** The variables of pkg/modules/authorization.go. *)
Record AuthVars := mkAuthVars {
  redisSecretProviderClassName : string;
  redisSecretName : string;
  redisUsernameKey : string;
  redisPasswordKey : string;
  redisConjurUsernamePath : string;
  redisConjurPasswordPath : string;
  configSecretProviderClassName : string;
  configSecretName : string;
  configSecretPath : string;
  authHostname : string;
  proxyIngressClassName : string;
  authCertificate : string;
  authPrivateKey : string;
  secretName : string
}.

Definition zero_AuthVars : AuthVars := mkAuthVars "" "" "" "" "" "" "" "" "" "" "" "" "" "".

(** The world of an effectful call: the API server's state, the calls made so far (oldest
    first), the watches and the update counter of the reconciler, and the package variables of
    pkg/modules that the operator changes while it runs. *)
Record World (W : Type) := mkWorld {
  w_api : W;
  w_calls : list Call;
  w_watches : Watches;
  w_updateCount : Z;
  w_deployAsSidecar : bool;            (* the variable of pkg/modules/reverseproxy.go *)
  w_auth : AuthVars                    (* those of pkg/modules/authorization.go *)
}.
Arguments mkWorld {W}.
Arguments w_api {W}.
Arguments w_calls {W}.
Arguments w_watches {W}.
Arguments w_updateCount {W}.
Arguments w_deployAsSidecar {W}.
Arguments w_auth {W}.

(** The object is there and its deletion has been asked for. *)
Definition dying (m : gmap Key Object) (k : Key) : Prop :=
  ∃ o, m !! k = Some o ∧ is_deleting o = true.

(** What the server stores. *)
Class View (W : Type) := view : W → gmap Key Object.

Section client.
Context {W : Type} `{Client W}.

Definition call {A} (f : W → (error + A) * W) (log : bool → Call) : M (World W) A := λ w,
  let '(r, api) := f (w_api w) in
  (res r, mkWorld api (w_calls w ++ [log (if r is inr _ then true else false)])
            (w_watches w) (w_updateCount w) (w_deployAsSidecar w) (w_auth w)).

Definition getObject (k : Key) : M (World W) Object := call (api_Get k) (CGet k).

(** [client.Get(ctx, NamespacedName{ns, name}, found)] for a [found] of type [T]. *)
Definition getT (T : Type) `{Kinded T} (ns name : string) : M (World W) T :=
  o ← getObject (kind_of T, (ns, name));
  match proj_obj o with
  | Some t => mret t
  | None => failM (Errorf "object does not match its kind")
  end.

Definition listT (T : Type) `{Kinded T} (ns : option string) (labels : gmap string string)
    : M (World W) (list T) :=
  os ← call (api_List (kind_of T) ns labels) (CList (kind_of T) ns labels);
  mret (omap proj_obj os).

Definition createObject (o : Object) : M (World W) () := call (api_Create o) (CCreate o).
Definition updateObject (o : Object) : M (World W) () :=
  _ ← call (api_Update o) (CUpdate o); mret ().
(** [client.Update(ctx, cr)] where [cr] is used afterwards: the server's answer is decoded
    into it. *)
Definition updateCSM (cr : CSM) : M (World W) CSM :=
  o ← call (api_Update (OCSM cr)) (CUpdate (OCSM cr));
  match o with
  | OCSM cr' => mret cr'
  | _ => failM (Errorf "object does not match its kind")
  end.
Definition statusUpdate (o : Object) : M (World W) () :=
  call (api_StatusUpdate o) (CStatusUpdate o).
Definition deleteObject (o : Object) : M (World W) () := call (api_Delete o) (CDelete o).
Definition applyObject (o : Object) : M (World W) () := call (api_Apply o) (CApply o).

(** [r.EventRecorder.Event] *)
Definition recordEvent (eventtype reason message : string) : M (World W) () := λ w,
  (Ok (), mkWorld (w_api w) (w_calls w ++ [CEvent eventtype reason message])
            (w_watches w) (w_updateCount w) (w_deployAsSidecar w) (w_auth w)).

(** ** The documented behaviour of the client

    [view] is what the server stores. A read returns what is stored and changes nothing;
    "not found" means absent; a write changes at most its own object; after a successful
    create the object is there; after a successful update or apply it is there, unless it
    was being deleted (the server removes it when the last finalizer goes); after a
    successful delete it is gone or being deleted; a status update creates and removes
    nothing; an update that is forbidden or invalid changes nothing. An error that is not of the
    API machinery is not "not found". *)
Class ClientLaws `{!View W} : Prop := {
  get_reads k w r w' : api_Get k w = (r, w') →
    view w' = view w ∧
    match r with
    | inr o => view w !! k = Some o ∧ obj_key o = k
    | inl e => IsNotFound e = true → view w !! k = None
    end;
  list_reads kind ns labels w r w' :
    api_List kind ns labels w = (r, w') → view w' = view w;
  create_writes o w r w' : api_Create o w = (r, w') →
    (∀ k, k ≠ obj_key o → view w' !! k = view w !! k) ∧
    (r = inr () → ∃ o', view w' !! obj_key o = Some o');
  update_writes o w r w' : api_Update o w = (r, w') →
    (∀ k, k ≠ obj_key o → view w' !! k = view w !! k) ∧
    match r with
    | inr o' => obj_key o' = obj_key o
                ∧ (view w' !! obj_key o = Some o' ∨ dying (view w) (obj_key o))
    | inl e => IsForbidden e = true ∨ IsInvalid e = true → view w' = view w
    end;
  status_writes o w r w' : api_StatusUpdate o w = (r, w') →
    (∀ k, k ≠ obj_key o → view w' !! k = view w !! k) ∧
    (is_Some (view w' !! obj_key o) ↔ is_Some (view w !! obj_key o));
  apply_writes o w r w' : api_Apply o w = (r, w') →
    (∀ k, k ≠ obj_key o → view w' !! k = view w !! k) ∧
    (r = inr () → is_Some (view w' !! obj_key o) ∨ dying (view w) (obj_key o));
  delete_writes o w r w' : api_Delete o w = (r, w') →
    (∀ k, k ≠ obj_key o → view w' !! k = view w !! k) ∧
    match r with
    | inr _ => ∀ o', view w' !! obj_key o = Some o' → is_deleting o' = true
    | inl e => IsNotFound e = true → view w' !! obj_key o = None
    end;
  overlay_key o o' : obj_key o = obj_key o' → obj_key (json_overlay o o') = obj_key o;
  plain_error m : IsNotFound (Errorf m) = false
}.
End client.

(** ** A concrete client

    An API server that stores objects by key, keeps an object with finalizers until they are
    gone, keeps the status subresource apart, and refuses the calls [so_refuse] names. *)

Record Store := mkStore {
  so_objects : gmap Key Object;
  so_refuse : string → Key → option error
}.

Definition NotFound (k : Key) : error := StatusError "NotFound" (k.2.2 +:+ " not found").

Definition reason_is (r : string) (e : error) : bool :=
  match e with
  | StatusError r' _ => bool_decide (r' = r)
  | _ => false
  end.

Definition refused (verb : string) (k : Key) (s : Store) : option error :=
  e ← so_refuse s verb k;
  if reason_is "NotFound" e then None else Some e.

Definition stored (s : Store) : gmap Key Object :=
  filter (λ '(k, o), obj_key o = k) (so_objects s).

Definition put (o : Object) (s : Store) : Store :=
  mkStore (<[obj_key o := o]> (so_objects s)) (so_refuse s).

(** A written object keeps what the client cannot write: whether it is being deleted, and the
    status of a custom resource or workload. *)
Definition answer (old o : Object) : Object :=
  let m := obj_meta o in
  let m := mkObjectMeta (om_Name m) (om_Namespace m) (om_UID m) (om_ResourceVersion m)
             (om_Generation m) (is_deleting old) (om_Labels m) (om_Annotations m)
             (om_Finalizers m) (om_OwnerReferences m) (om_ManagedFields m) in
  match set_obj_meta m o, old with
  | OCSM cr, OCSM old_cr => OCSM (set_cr_Status (cr_Status old_cr) cr)
  | ODeployment d, ODeployment old_d =>
      ODeployment (mkDeployment (dp_Meta d) (dp_Replicas d) (dp_Selector d) (dp_Template d)
                     (dp_Status old_d))
  | ODaemonSet d, ODaemonSet old_d =>
      ODaemonSet (mkDaemonSet (dn_Meta d) (dn_TemplateLabels d) (dn_Containers d)
                    (dn_DesiredNumberScheduled old_d) (dn_NumberAvailable old_d)
                    (dn_NumberReady old_d) (dn_NumberUnavailable old_d))
  | o', _ => o'
  end.

(** The last finalizer of an object being deleted is gone: the object goes too. *)
Definition put_or_drop (o : Object) (s : Store) : Store :=
  if is_deleting o && bool_decide (om_Finalizers (obj_meta o) = [])
  then mkStore (delete (obj_key o) (so_objects s)) (so_refuse s)
  else put o s.

Definition marked (deleting : bool) (o : Object) : Object :=
  let m := obj_meta o in
  set_obj_meta (mkObjectMeta (om_Name m) (om_Namespace m) (om_UID m) (om_ResourceVersion m)
    (om_Generation m) deleting (om_Labels m) (om_Annotations m)
    (om_Finalizers m) (om_OwnerReferences m) (om_ManagedFields m)) o.

Definition mark_deleting : Object → Object := marked true.

(** A new object is not being deleted, whatever the client sent. *)
Definition fresh_object : Object → Object := marked false.

Definition store_status (old o : Object) : Object :=
  match o, old with
  | OCSM cr, OCSM old_cr => OCSM (set_cr_Status (cr_Status cr) old_cr)
  | _, _ => old
  end.

Definition labels_match (want : gmap string string) (o : Object) : bool :=
  forallb (λ '(k, v), bool_decide (default ∅ (om_Labels (obj_meta o)) !! k = Some v))
    (map_to_list want).

Definition guarded {A} (verb : string) (k : Key) (s : Store) (f : (error + A) * Store)
    : (error + A) * Store :=
  match refused verb k s with
  | Some e => (inl e, s)
  | None => f
  end.

#[export] Instance store_client : Client Store := {|
  IsNotFound := reason_is "NotFound";
  IsConflict := reason_is "Conflict";
  IsForbidden := reason_is "Forbidden";
  IsInvalid := reason_is "Invalid";
  api_Get k s := guarded "Get" k s
    (match stored s !! k with Some o => inr o | None => inl (NotFound k) end, s);
  api_List kind ns labels s := guarded "List" (kind, (default "" ns, "")) s
    (inr (filter (λ o, obj_kind o = kind
                       ∧ ns ∈ [None; Some (om_Namespace (obj_meta o))]
                       ∧ labels_match labels o = true)
            (snd <$> map_to_list (stored s))), s);
  api_Create o s := guarded "Create" (obj_key o) s
    (match stored s !! obj_key o with
     | Some _ => (inl (StatusError "AlreadyExists" "already exists"), s)
     | None => (inr (), put (fresh_object o) s)
     end);
  api_Update o s := guarded "Update" (obj_key o) s
    (match stored s !! obj_key o with
     | Some old => (inr (answer old o), put_or_drop (answer old o) s)
     | None => (inl (NotFound (obj_key o)), s)
     end);
  api_StatusUpdate o s := guarded "StatusUpdate" (obj_key o) s
    (match stored s !! obj_key o with
     | Some old => (inr (), put (store_status old o) s)
     | None => (inl (NotFound (obj_key o)), s)
     end);
  api_Delete o s := guarded "Delete" (obj_key o) s
    (match stored s !! obj_key o with
     | Some old => (inr (), put_or_drop (mark_deleting old) s)
     | None => (inl (NotFound (obj_key o)), s)
     end);
  api_Apply o s := guarded "Apply" (obj_key o) s
    (inr (), match stored s !! obj_key o with
             | Some old => put_or_drop (answer old o) s
             | None => put (fresh_object o) s
             end);
  json_overlay o k8sObj := o
|}.

Lemma refused_not_NotFound verb k s e : refused verb k s = Some e → reason_is "NotFound" e = false.
Proof. unfold refused. destruct (so_refuse s verb k); simpl; [|done]. case_match; congruence. Qed.

Lemma stored_put o s k :
  stored (put o s) !! k = if decide (k = obj_key o) then Some o else stored s !! k.
Proof.
  unfold stored, put. simpl. case_decide as E.
  - subst. apply map_lookup_filter_Some. by rewrite lookup_insert_eq.
  - destruct (filter _ (so_objects s) !! k) as [x|] eqn:F.
    + apply map_lookup_filter_Some in F. apply map_lookup_filter_Some.
      by rewrite lookup_insert_ne.
    + apply map_lookup_filter_None in F. apply map_lookup_filter_None.
      by rewrite lookup_insert_ne.
Qed.

Lemma stored_delete k s k' refuse :
  stored (mkStore (delete k (so_objects s)) refuse) !! k'
  = if decide (k' = k) then None else stored s !! k'.
Proof.
  unfold stored. simpl. rewrite map_filter_delete. case_decide; subst.
  - apply lookup_delete_eq.
  - by rewrite lookup_delete_ne.
Qed.

Lemma stored_key s k o : stored s !! k = Some o → obj_key o = k.
Proof. unfold stored. intros E. by apply map_lookup_filter_Some in E as [_ ?]. Qed.

Lemma set_obj_meta_key m o :
  obj_key (set_obj_meta m o) = (obj_kind o, (om_Namespace m, om_Name m)).
Proof. by destruct o. Qed.

Lemma answer_key old o : obj_key (answer old o) = obj_key o.
Proof. by destruct o, old. Qed.

Lemma answer_deleting old o : is_deleting (answer old o) = is_deleting old.
Proof. by destruct o, old. Qed.

Lemma mark_deleting_key o : obj_key (mark_deleting o) = obj_key o.
Proof. by destruct o. Qed.

Lemma fresh_object_key o : obj_key (fresh_object o) = obj_key o.
Proof. by destruct o. Qed.

Lemma fresh_object_deleting o : is_deleting (fresh_object o) = false.
Proof. by destruct o. Qed.

Lemma mark_deleting_deleting o : is_deleting (mark_deleting o) = true.
Proof. by destruct o. Qed.

Lemma store_status_key old o : obj_key (store_status old o) = obj_key old.
Proof. by destruct o, old. Qed.

Lemma stored_put_or_drop o s k :
  stored (put_or_drop o s) !! k
  = if decide (k = obj_key o)
    then if is_deleting o && bool_decide (om_Finalizers (obj_meta o) = []) then None else Some o
    else stored s !! k.
Proof.
  unfold put_or_drop. destruct (_ && _); [|by apply stored_put].
  by rewrite stored_delete.
Qed.

#[export] Instance stored_view : View Store := stored.

#[export] Instance store_client_laws : ClientLaws (W := Store).
Proof.
  split; simpl; unfold guarded, view, stored_view, dying.
  - intros k w r w'. destruct (refused _ _ _) eqn:R.
    + intros [= <- <-]. split; [done|]. apply refused_not_NotFound in R. by rewrite R.
    + destruct (stored w !! k) eqn:E; intros [= <- <-]; split; try done.
      split; [done|]. by eapply stored_key.
  - intros kind ns labels w r w'. by case_match; intros [= <- <-].
  - intros o w r w'. destruct (refused _ _ _); [by intros [= <- <-]|].
    destruct (stored w !! obj_key o); intros [= <- <-]; [done|]. split.
    + intros k Hk. by rewrite stored_put, fresh_object_key, decide_False.
    + intros _. exists (fresh_object o). by rewrite stored_put, fresh_object_key, decide_True.
  - intros o w r w'. destruct (refused _ _ _); [by intros [= <- <-]|].
    destruct (stored w !! obj_key o) as [old|] eqn:E; intros [= <- <-]; [|done].
    rewrite !stored_put_or_drop, !answer_key, answer_deleting. split; [|split; [done|]].
    + intros k Hk. by rewrite stored_put_or_drop, answer_key, decide_False.
    + rewrite decide_True by done. destruct (is_deleting old) eqn:D; [|by left].
      right. by exists old.
  - intros o w r w'. destruct (refused _ _ _); [by intros [= <- <-]|].
    destruct (stored w !! obj_key o) as [old|] eqn:E; intros [= <- <-];
      [|by rewrite ?E].
    pose proof (stored_key _ _ _ E) as K. split.
    + intros k Hk. by rewrite stored_put, store_status_key, K, decide_False.
    + rewrite stored_put, store_status_key, K, E, decide_True by done. by split; eexists.
  - intros o w r w'. destruct (refused _ _ _); intros [= <- <-]; [done|].
    destruct (stored w !! obj_key o) as [old|] eqn:E; split.
    + intros k Hk. by rewrite stored_put_or_drop, answer_key, decide_False.
    + intros _. rewrite stored_put_or_drop, answer_key, answer_deleting, decide_True by done.
      destruct (is_deleting old) eqn:D; [|by left; eexists]. right. by exists old.
    + intros k Hk. by rewrite stored_put, fresh_object_key, decide_False.
    + intros _. left. exists (fresh_object o). by rewrite stored_put, fresh_object_key, decide_True.
  - intros o w r w'. destruct (refused _ _ _) eqn:R.
    + intros [= <- <-]. split; [done|]. apply refused_not_NotFound in R. by rewrite R.
    + destruct (stored w !! obj_key o) as [old|] eqn:E; intros [= <- <-]; [|done].
      pose proof (stored_key _ _ _ E) as K. split.
      * intros k Hk. by rewrite stored_put_or_drop, mark_deleting_key, K, decide_False.
      * intros o'. rewrite stored_put_or_drop, mark_deleting_key, K, decide_True by done.
        case_match; [done|]. intros [= <-]. apply mark_deleting_deleting.
  - done.
  - done.
Qed.

(** A world over the objects of a list, in which nothing has been done yet. *)
Definition world_of (os : list Object) (refuse : string → Key → option error) : World Store :=
  mkWorld (mkStore (list_to_map ((λ o, (obj_key o, o)) <$> os)) refuse) []
    (mkWatches ∅ ∅ 0) 0%Z true zero_AuthVars.

Definition obeys (verb : string) (k : Key) : option error := None.
