(* ===== verification/Resources.v ===== *)
(** Creating, updating and deleting single objects: pkg/resources (serviceaccount, rbac,
    csidriver, configmap, deployment, daemonset) and [DeleteObject], [ApplyObject],
    [ApplyCTRLObject] and the config map lookup of pkg/operatorutils/utils.go. *)

From S2P Require Import Prelude.
From S2P Require Import GoStrings.
From S2P Require Import Types.
From S2P Require Import Versions.
From S2P Require Import Images.
From S2P Require Import Cluster.
From stdpp Require Import options.

Local Open Scope stdpp_scope.

(** ** Workloads as apply configurations (k8s.io/client-go) *)

Record TolerationApply := mkTolerationApply {
  ta_Key : option string;
  ta_Operator : option string;
  ta_Value : option string;
  ta_Effect : option string;
  ta_TolerationSeconds : option Z
}.

Record PodSpecApply := mkPodSpecApply {
  pod_Containers : list ContainerApply;
  pod_InitContainers : list ContainerApply;
  pod_Volumes : list VolumeApply;
  pod_Tolerations : list TolerationApply;
  pod_NodeSelector : gomap;
  pod_DNSPolicy : option string;
  pod_Rest : string
}.

(** [pt_Labels] is [None] when the template has no metadata, [Some None] when its label map is
    nil. *)
Record PodTemplateApply := mkPodTemplateApply {
  pt_Labels : option gomap;
  pt_Spec : option PodSpecApply
}.

Record WorkloadSpec := mkWorkloadSpec {
  ws_Replicas : option Z;
  ws_Template : option PodTemplateApply
}.

Record WorkloadMeta := mkWorkloadMeta {
  wm_Name : option string;
  wm_Namespace : option string;
  wm_Annotations : gomap;
  wm_OwnerReferences : option (list OwnerReference)
}.

(** A deployment or a daemon set. *)
Record Workload := mkWorkload {
  wl_Meta : option WorkloadMeta;
  wl_Spec : option WorkloadSpec;
  wl_Rest : string
}.

Definition wl_Name (d : Workload) : option string := wl_Meta d ≫= wm_Name.
Definition wl_Namespace (d : Workload) : option string := wl_Meta d ≫= wm_Namespace.
Definition wl_OwnerReferences (d : Workload) : option (list OwnerReference) :=
  wl_Meta d ≫= wm_OwnerReferences.
Definition wl_Template (d : Workload) : option PodTemplateApply := wl_Spec d ≫= ws_Template.
(** [Spec.Template.Labels]: [None] when a pointer on the way is nil *)
Definition wl_Labels (d : Workload) : option gomap := wl_Template d ≫= pt_Labels.
Definition wl_Pod (d : Workload) : option PodSpecApply := wl_Template d ≫= pt_Spec.
Definition wl_Containers (d : Workload) : list ContainerApply :=
  default [] (pod_Containers <$> wl_Pod d).

Definition map_ws_Template (f : PodTemplateApply → PodTemplateApply) (s : WorkloadSpec)
    : WorkloadSpec := mkWorkloadSpec (ws_Replicas s) (f <$> ws_Template s).
Definition map_wl_Template (f : PodTemplateApply → PodTemplateApply) (d : Workload) : Workload :=
  mkWorkload (wl_Meta d) (map_ws_Template f <$> wl_Spec d) (wl_Rest d).
Definition set_wl_Labels (v : option gomap) (d : Workload) : Workload :=
  map_wl_Template (λ t, mkPodTemplateApply v (pt_Spec t)) d.

Definition name_of (d : Workload) : string := default "" (wl_Name d).
Definition namespace_of (d : Workload) : string := default "" (wl_Namespace d).

(** command and ports are in the rest *)
Definition apply_container (c : ContainerApply) : Container :=
  mkContainer (default "" (ca_Name c)) (default "" (ca_Image c))
    (default "" (ca_ImagePullPolicy c)) [] (ca_Args c) [] (ca_Env c) (ca_VolumeMounts c) (ca_Rest c).

Definition workload_meta (d : Workload) : ObjectMeta :=
  set_om_OwnerReferences (wl_OwnerReferences d)
    (set_om_Annotations (wl_Meta d ≫= wm_Annotations) (named (namespace_of d) (name_of d))).

(** The objects that applying a workload asks the server for. *)
Definition as_deployment (d : Workload) : Object :=
  ODeployment (simple_deployment (workload_meta d) (wl_Spec d ≫= ws_Replicas)
    (default None (wl_Labels d))
    (apply_container <$> wl_Containers d) (default [] (pod_Volumes <$> wl_Pod d))
    (mkDeploymentStatus 0 0 0 0)).
Definition as_daemonset (d : Workload) : Object :=
  ODaemonSet (mkDaemonSet (workload_meta d) (default None (wl_Labels d))
    (apply_container <$> wl_Containers d) 0 0 0 0).

Lemma as_deployment_key d :
  obj_key (as_deployment d) = ("Deployment", (namespace_of d, name_of d)).
Proof. done. Qed.

Lemma as_daemonset_key d :
  obj_key (as_daemonset d) = ("DaemonSet", (namespace_of d, name_of d)).
Proof. done. Qed.

Lemma set_wl_Labels_name v d : name_of (set_wl_Labels v d) = name_of d.
Proof. done. Qed.

Lemma set_wl_Labels_namespace v d : namespace_of (set_wl_Labels v d) = namespace_of d.
Proof. done. Qed.

Section resources.
Context {W : Type} `{Client W}.

(** [client.Get] into an object of one of the opaque kinds *)
Definition getResource (kind : string) (r : Resource) : M (World W) Object :=
  getObject (kind, (om_Namespace (rs_Meta r), om_Name (rs_Meta r))).

(** ** pkg/resources *)

Definition SyncServiceAccount (sa : Resource) : M (World W) () :=
  r ← attempt (getResource "ServiceAccount" sa);
  match r with
  | inl err =>
      if IsNotFound err
      then orFail (createObject (OOther sa))
             (λ e, Errorf ("creating serviceaccount: " +:+ error_text e))
      else failM err
  | inr _ => mret ()
  end.

Definition SyncClusterRole (clusterRole : Resource) : M (World W) () :=
  r ← attempt (getResource "ClusterRole" clusterRole);
  match r with
  | inl err =>
      if IsNotFound err
      then _ ← createObject (OOther clusterRole);
           _ ← getResource "ClusterRole" clusterRole;
           mret ()
      else failM err
  | inr _ => updateObject (OOther clusterRole)
  end.

Definition SyncRole (role : Resource) : M (World W) () :=
  if decide (om_Name (rs_Meta role) = "") then mret ()
  else
    r ← attempt (getResource "Role" role);
    match r with
    | inl err =>
        if IsNotFound err
        then _ ← createObject (OOther role);
             _ ← getResource "Role" role;
             mret ()
        else failM err
    | inr _ => updateObject (OOther role)
    end.

Definition SyncClusterRoleBindings (rb : Resource) : M (World W) () :=
  r ← attempt (getResource "ClusterRoleBinding" rb);
  match r with
  | inl err => if IsNotFound err then createObject (OOther rb) else failM err
  | inr _ => updateObject (OOther rb)
  end.

Definition SyncRoleBindings (rb : Resource) : M (World W) () :=
  if decide (om_Name (rs_Meta rb) = "") then mret ()
  else
    r ← attempt (getResource "RoleBinding" rb);
    match r with
    | inl err => if IsNotFound err then createObject (OOther rb) else failM err
    | inr _ => updateObject (OOther rb)
    end.

Definition SyncConfigMap (configMap : ConfigMap) : M (World W) () :=
  r ← attempt (getT ConfigMap (om_Namespace (cm_Meta configMap)) (om_Name (cm_Meta configMap)));
  match r with
  | inl err =>
      if IsNotFound err
      then orFail (createObject (OConfigMap configMap))
             (λ e, Errorf ("creating configmap: " +:+ error_text e))
      else failM err
  | inr found =>
      let configMap := mkConfigMap
        (set_om_ResourceVersion (om_ResourceVersion (cm_Meta found)) (cm_Meta configMap))
        (cm_Data configMap) in
      orFail (updateObject (OConfigMap configMap))
        (λ e, Errorf ("updating configmap: " +:+ error_text e))
  end.

(** The lookup has no namespace, the object has its own. *)
Definition SyncCSIDriver (csi : Resource) : M (World W) () :=
  r ← attempt (getObject ("CSIDriver", ("", om_Name (rs_Meta csi))));
  match r with
  | inl err =>
      if IsNotFound err
      then orFail (createObject (OOther csi))
             (λ e, Errorf ("creating csidriver object: " +:+ error_text e))
      else failM err
  | inr found =>
      let csi := mkResource (rs_Kind csi)
        (set_om_ResourceVersion (om_ResourceVersion (obj_meta found)) (rs_Meta csi))
        (rs_Body csi) in
      orFail (updateObject (OOther csi))
        (λ e, Errorf ("updating csidriver object: " +:+ error_text e))
  end.

(** [Containers[0].Image], which the log line reads *)
Definition first_image (cs : list Container) : outcome string :=
  match cs with
  | c :: _ => Ok (co_Image c)
  | [] => Panic "index out of range [0] with length 0"
  end.

Definition SyncDaemonset (daemonset : Workload) (csmName : string) : M (World W) () :=
  name ← lift (deref (wl_Name daemonset));
  namespace ← lift (deref (wl_Namespace daemonset));
  r ← attempt (getT DaemonSet namespace name);
  _ ← match r with
      | inl err => if IsNotFound err then mret () else failM err
      | inr found => _ ← lift (first_image (dn_Containers found)); mret ()
      end;
  labels ← lift (deref (wl_Labels daemonset));
  let labels := Some (<["csm" := csmName]> (default ∅ labels)) in
  applyObject (as_daemonset (set_wl_Labels (Some labels) daemonset)).

(** A failed lookup is only logged; a nil label map panics. *)
Definition SyncDeployment (deployment : Workload) (csmName : string) : M (World W) () :=
  name ← lift (deref (wl_Name deployment));
  namespace ← lift (deref (wl_Namespace deployment));
  r ← attempt (getT Deployment namespace name);
  _ ← match r with
      | inr found =>
          if decide (om_Name (dp_Meta found) = "") then mret ()
          else _ ← lift (first_image (dp_Containers found)); mret ()
      | inl _ => mret ()
      end;
  labels ← lift (deref (wl_Labels deployment));
  match labels with
  | None => lift (Panic "assignment to entry in nil map")
  | Some labels =>
      applyObject (as_deployment
        (set_wl_Labels (Some (Some (<["csm" := csmName]> labels))) deployment))
  end.

(** ** Generic objects *)

Definition DeleteObject (obj : Object) : M (World W) () :=
  r ← attempt (getObject (obj_key obj));
  match r with
  | inl err => if IsNotFound err then mret () else failM err
  | inr obj =>
      d ← attempt (deleteObject obj);
      match d with
      | inl err => if IsNotFound err then mret () else failM err
      | inr _ => mret ()
      end
  end.

Definition ApplyObject (obj : Object) : M (World W) () :=
  r ← attempt (getObject (obj_key obj));
  match r with
  | inl err => if IsNotFound err then createObject obj else failM err
  | inr k8sObj =>
      u ← attempt (updateObject (json_overlay obj k8sObj));
      match u with
      | inl err => if IsForbidden err || IsInvalid err then mret () else failM err
      | inr _ => mret ()
      end
  end.

Definition ApplyCTRLObject (obj : Object) : M (World W) () :=
  r ← attempt (getObject (obj_key obj));
  match r with
  | inl err => if IsNotFound err then createObject obj else failM err
  | inr _ => updateObject obj
  end.

(** A workload whose lookup fails, for whatever reason, is left where it is. *)
Definition remove_workload (T : Type) `{Kinded T} (wrap : error → error) (d : Workload)
    : M (World W) () :=
  ns ← lift (deref (wl_Namespace d));
  name ← lift (deref (wl_Name d));
  r ← attempt (getT T ns name);
  match r with
  | inl _ => mret ()
  | inr found =>
      d ← attempt (deleteObject (inj_obj found));
      match d with
      | inl err => if IsNotFound err then mret () else failM (wrap err)
      | inr _ => mret ()
      end
  end.

(** ** The secret and the config map of a custom resource *)

(** An error other than "not found" gives an empty secret and no error. *)
Definition GetSecret (name namespace : string) : M (World W) Secret :=
  r ← attempt (getT Secret namespace name);
  match r with
  | inl err =>
      if IsNotFound err
      then failM (Errorf ("no secrets found or error: " +:+ error_text err))
      else mret (mkSecret zero_ObjectMeta None)
  | inr found => mret found
  end.

Definition CSMImages : string := "csm-images".

Definition FetchConfigMap : M (World W) ConfigMap :=
  cmList ← orFail (listT ConfigMap None ∅)
    (λ e, Errorf ("error listing configmaps " +:+ error_text e));
  match list_find (λ c, om_Name (cm_Meta c) = CSMImages) cmList with
  | None => mret (mkConfigMap zero_ObjectMeta None)
  | Some (_, cmns) =>
      orFail (getT ConfigMap (om_Namespace (cm_Meta cmns)) CSMImages)
        (λ e, Errorf ("error fetching configmaps " +:+ error_text e))
  end.

Definition ResolveVersionFromConfigMap `{Host} `{MapOrder} (cr : CSM) : M (World W) VersionSpec :=
  cm ← FetchConfigMap;
  lift (UpdateUsingConfigMap cr (cm_Data cm)).

(** The namespaces that contain a custom resource, each once, in no specified order. *)
Definition GetCSMNamespaces : M (World W) (list string) :=
  csmList ← orFail (listT CSM None ∅)
    (λ e, WrapError ("error listing csm resources: " +:+ error_text e) e);
  mret (elements (list_to_set (cr_Namespace <$> csmList) : gset string)).
End resources.

(** [SetContainerImage] changes deployments in place; the result is the list of objects after
    it. A matching deployment without containers ends the loop. *)
Definition set_image (containerName image : string) (c : Container) : Container :=
  if EqualFold (co_Name c) containerName then set_co_Image image c else c.

Fixpoint set_container_image (objects : list Object) (deploymentName containerName image : string)
    : list Object :=
  match objects with
  | [] => []
  | ODeployment d :: objects' =>
      if EqualFold (om_Name (dp_Meta d)) deploymentName then
        match dp_Containers d with
        | [] => objects
        | cs => ODeployment (set_dp_Containers (set_image containerName image <$> cs) d)
                :: set_container_image objects' deploymentName containerName image
        end
      else ODeployment d :: set_container_image objects' deploymentName containerName image
  | o :: objects' => o :: set_container_image objects' deploymentName containerName image
  end.

Definition SetContainerImage (objects : list Object) (deploymentName containerName image : string)
    : list Object :=
  if decide (deploymentName = "" ∨ containerName = "" ∨ image = "") then objects
  else set_container_image objects deploymentName containerName image.

(** ** What the calls do to the server, under the client's laws *)

Section laws.
Context {W : Type} `{Client W} `{!View W} `{!ClientLaws (W := W)}.
#[local] Set Default Proof Using "All".

Definition seen (w : World W) : gmap Key Object := view (w_api w).

(** [m] touches only objects whose key satisfies [P]. *)
Definition touches (P : Key → Prop) {A} (m : M (World W) A) : Prop :=
  ∀ w r w', m w = (r, w') → ∀ k, ¬ P k → seen w' !! k = seen w !! k.

Lemma touches_mono (P Q : Key → Prop) {A} (m : M (World W) A) :
  touches P m → (∀ k, P k → Q k) → touches Q m.
Proof. intros Hm HPQ w r w' E k Hk. eapply Hm; eauto. Qed.

Lemma touches_ret P {A} (a : A) : touches P (mret a : M (World W) A).
Proof. by intros w r w' [= <- <-]. Qed.

Lemma touches_fail P {A} e : touches P (failM e : M (World W) A).
Proof. by intros w r w' [= <- <-]. Qed.

Lemma touches_lift P {A} (o : outcome A) : touches P (lift o : M (World W) A).
Proof. by intros w r w' [= <- <-]. Qed.

Lemma touches_bind P {A B} (m : M (World W) A) (f : A → M (World W) B) :
  touches P m → (∀ a, touches P (f a)) → touches P (m ≫= f).
Proof.
  intros Hm Hf w r w' E k Hk. unfold mbind, M_bind in E.
  destruct (m w) as [[a|e|y] w1] eqn:E1; [|simplify_eq; by eapply Hm..].
  rewrite (Hf a _ _ _ E k Hk). by eapply Hm.
Qed.

Lemma touches_attempt P {A} (m : M (World W) A) : touches P m → touches P (attempt m).
Proof.
  intros Hm w r w' E k Hk. unfold attempt in E.
  destruct (m w) as [[a|e|y] w1] eqn:E1; simplify_eq; by eapply Hm.
Qed.

Lemma touches_forM P {A} (f : A → M (World W) ()) xs :
  (∀ x, touches P (f x)) → touches P (forM f xs).
Proof.
  intros Hf. induction xs as [|x xs IH]; [apply touches_ret|].
  apply touches_bind; [apply Hf|]. by intros _.
Qed.

Lemma touches_orFail P {A} (m : M (World W) A) wrap : touches P m → touches P (orFail m wrap).
Proof.
  intros Hm w r w' E k Hk. unfold orFail in E.
  destruct (m w) as [[a|e|y] w1] eqn:E1; simplify_eq; by eapply Hm.
Qed.

Lemma touches_ignoreErr P {A} (m : M (World W) A) : touches P m → touches P (ignoreErr m).
Proof.
  intros Hm w r w' E k Hk. unfold ignoreErr in E.
  destruct (m w) as [[a|e|y] w1] eqn:E1; simplify_eq; by eapply Hm.
Qed.

(** A loop over these elements only. *)
Lemma touches_forM_in P {A} (f : A → M (World W) ()) xs :
  (∀ x, x ∈ xs → touches P (f x)) → touches P (forM f xs).
Proof.
  induction xs as [|x xs IH]; intros Hf; [apply touches_ret|].
  apply touches_bind; [apply Hf; by left|]. intros _. apply IH. intros y Hy. apply Hf. by right.
Qed.

(** What follows may rely on how the first call came to its result. *)
Lemma touches_bind_run P {A B} (m : M (World W) A) (f : A → M (World W) B) :
  touches P m → (∀ a w w', m w = (Ok a, w') → touches P (f a)) → touches P (m ≫= f).
Proof.
  intros Hm Hf w r w' E k Hk. unfold mbind, M_bind in E.
  destruct (m w) as [[a|e|y] w1] eqn:E1; [|simplify_eq; by eapply Hm..].
  rewrite (Hf a _ _ E1 _ _ _ E k Hk). by eapply Hm.
Qed.

Lemma touches_lift_bind P {A B} (o : outcome A) (f : A → M (World W) B) :
  (∀ a, o = Ok a → touches P (f a)) → touches P (lift o ≫= f).
Proof.
  intros Hf. apply touches_bind_run; [apply touches_lift|]. intros a w w' [= ? _]. by apply Hf.
Qed.

(** [m] only reads. *)
Definition reads {A} (m : M (World W) A) : Prop := touches (λ _, False) m.

Lemma reads_seen {A} (m : M (World W) A) w r w' : reads m → m w = (r, w') → seen w' = seen w.
Proof. intros Hm E. apply map_eq. intros k. eapply Hm; [done|]. by intros []. Qed.

Lemma reads_touches {A} (m : M (World W) A) P : reads m → touches P m.
Proof. intros Hm. eapply touches_mono; [done|]. by intros k []. Qed.

Lemma call_inv {A} (f : W → (error + A) * W) log w r w' :
  call f log w = (r, w') → ∃ r0, f (w_api w) = (r0, w_api w') ∧ r = res r0.
Proof. unfold call. destruct (f (w_api w)) as [r0 api]. intros [= <- <-]. by exists r0. Qed.

(** *** Single calls *)

Lemma getObject_spec k w r w' : getObject k w = (r, w') →
  seen w' = seen w ∧
  match r with
  | Ok o => seen w !! k = Some o ∧ obj_key o = k
  | Fail e => IsNotFound e = true → seen w !! k = None
  | Panic _ => False
  end.
Proof.
  intros (r0 & E & ->)%call_inv. apply get_reads in E as [E ?]. split; [done|].
  by destruct r0.
Qed.

Lemma getT_spec (T : Type) `{Kinded T} ns name w r w' : getT T ns name w = (r, w') →
  seen w' = seen w ∧
  match r with
  | Ok t => seen w !! (kind_of T, (ns, name)) = Some (inj_obj t)
  | Fail e => e = Errorf "object does not match its kind"
              ∨ (IsNotFound e = true → seen w !! (kind_of T, (ns, name)) = None)
  | Panic _ => False
  end.
Proof.
  unfold getT, mbind, M_bind. destruct (getObject _ w) as [[o|e|y] w1] eqn:E;
    apply getObject_spec in E as [Hs Hr].
  - destruct (proj_obj o) as [t|] eqn:Ep; intros [= <- <-]; split; try done; [|by left].
    destruct Hr as [Hr _]. by apply inj_proj in Ep as <-.
  - intros [= <- <-]. split; [done|]. by right.
  - done.
Qed.

Lemma getT_key (T : Type) `{Kinded T} ns name w t w' :
  getT T ns name w = (Ok t, w') → obj_key (inj_obj t) = (kind_of T, (ns, name)).
Proof.
  unfold getT, mbind, M_bind. destruct (getObject _ w) as [[o|e|y] w1] eqn:E; [|done..].
  apply getObject_spec in E as [_ [_ Hk]].
  destruct (proj_obj o) as [t'|] eqn:Ep; intros [= <- <-].
  by apply inj_proj in Ep as <-.
Qed.

Lemma touches_getObject P k : touches P (getObject k).
Proof. intros w r w' E. apply getObject_spec in E as [E _]. by rewrite E. Qed.

Lemma touches_getT P (T : Type) `{Kinded T} ns name : touches P (getT T ns name).
Proof. intros w r w' E. apply getT_spec in E as [E _]. by rewrite E. Qed.

Lemma touches_listT P (T : Type) `{Kinded T} ns labels : touches P (listT T ns labels).
Proof.
  apply touches_bind; [|intros; apply touches_ret].
  intros w r w' (r0 & E & ->)%call_inv k _. apply list_reads in E. unfold seen. by rewrite E.
Qed.

Lemma createObject_spec o w r w' : createObject o w = (r, w') →
  (∀ k, k ≠ obj_key o → seen w' !! k = seen w !! k)
  ∧ (r = Ok () → is_Some (seen w' !! obj_key o)).
Proof.
  intros (r0 & E & ->)%call_inv. apply create_writes in E as [Hk Hr]. split; [done|].
  destruct r0 as [|[]]; [done|]. intros _. destruct (Hr eq_refl) as [o' Ho]. by exists o'.
Qed.

Lemma updateObject_spec o w r w' : updateObject o w = (r, w') →
  (∀ k, k ≠ obj_key o → seen w' !! k = seen w !! k)
  ∧ (r = Ok () → is_Some (seen w' !! obj_key o) ∨ dying (seen w) (obj_key o))
  ∧ (∀ e, r = Fail e → IsForbidden e = true ∨ IsInvalid e = true → seen w' = seen w).
Proof.
  unfold updateObject, mbind, M_bind. destruct (call _ _ w) as [r1 w1] eqn:E.
  apply call_inv in E as (r0 & E & ->). apply update_writes in E as [Hk Hr].
  destruct r0 as [e|o']; simpl; intros [= <- <-]; split_and!; try done.
  - by intros e' [= <-].
  - intros _. destruct Hr as [_ [Hr|Hr]]; [left; by exists o'|by right].
Qed.

Lemma updateCSM_spec cr w r w' : updateCSM cr w = (r, w') →
  (∀ k, k ≠ obj_key (OCSM cr) → seen w' !! k = seen w !! k)
  ∧ ∀ cr', r = Ok cr' → obj_key (OCSM cr') = obj_key (OCSM cr)
      ∧ (seen w' !! obj_key (OCSM cr) = Some (OCSM cr') ∨ dying (seen w) (obj_key (OCSM cr))).
Proof.
  unfold updateCSM, mbind, M_bind. destruct (call _ _ w) as [r1 w1] eqn:E.
  apply call_inv in E as (r0 & E & ->). apply update_writes in E as [Hk Hr].
  destruct r0 as [e|o']; simpl; [by intros [= <- <-]|].
  destruct o'; intros [= <- <-]; split; try done. by intros cr' [= <-].
Qed.

Lemma statusUpdate_spec o w r w' : statusUpdate o w = (r, w') →
  (∀ k, k ≠ obj_key o → seen w' !! k = seen w !! k)
  ∧ (is_Some (seen w' !! obj_key o) ↔ is_Some (seen w !! obj_key o)).
Proof. intros (r0 & E & ->)%call_inv. by apply status_writes in E. Qed.

Lemma statusUpdate_calls o w w' : statusUpdate o w = (Ok (), w') →
  w_calls w' = w_calls w ++ [CStatusUpdate o true].
Proof.
  unfold statusUpdate, call. destruct (api_StatusUpdate o (w_api w)) as [[e|[]] api];
    by intros [= <-].
Qed.

Lemma applyObject_spec o w r w' : applyObject o w = (r, w') →
  (∀ k, k ≠ obj_key o → seen w' !! k = seen w !! k)
  ∧ (r = Ok () → is_Some (seen w' !! obj_key o) ∨ dying (seen w) (obj_key o)).
Proof.
  intros (r0 & E & ->)%call_inv. apply apply_writes in E as [Hk Hr]. split; [done|].
  destruct r0 as [|[]]; [done|]. intros _. by apply Hr.
Qed.

(** The object is absent, or its deletion has been accepted. *)
Definition removed (m : gmap Key Object) (k : Key) : Prop :=
  ∀ o, m !! k = Some o → is_deleting o = true.

Lemma deleteObject_spec o w r w' : deleteObject o w = (r, w') →
  (∀ k, k ≠ obj_key o → seen w' !! k = seen w !! k)
  ∧ match r with
    | Ok _ => removed (seen w') (obj_key o)
    | Fail e => IsNotFound e = true → removed (seen w') (obj_key o)
    | Panic _ => False
    end.
Proof.
  intros (r0 & E & ->)%call_inv. apply delete_writes in E as [Hk Hr]. split; [done|].
  destruct r0 as [e|[]]; simpl; [|done]. intros He o' Ho.
  unfold seen in Ho. by rewrite Hr in Ho.
Qed.

Lemma touches_createObject (P : Key → Prop) o : P (obj_key o) → touches P (createObject o).
Proof.
  intros HP w r w' E k Hk. apply createObject_spec in E as [E _]. apply E. by intros ->.
Qed.

Lemma touches_updateObject (P : Key → Prop) o : P (obj_key o) → touches P (updateObject o).
Proof.
  intros HP w r w' E k Hk. apply updateObject_spec in E as [E _]. apply E. by intros ->.
Qed.

Lemma touches_updateCSM (P : Key → Prop) cr : P (obj_key (OCSM cr)) → touches P (updateCSM cr).
Proof.
  intros HP w r w' E k Hk. apply updateCSM_spec in E as [E _]. apply E. by intros ->.
Qed.

Lemma touches_statusUpdate (P : Key → Prop) o : P (obj_key o) → touches P (statusUpdate o).
Proof.
  intros HP w r w' E k Hk. apply statusUpdate_spec in E as [E _]. apply E. by intros ->.
Qed.

Lemma touches_applyObject (P : Key → Prop) o : P (obj_key o) → touches P (applyObject o).
Proof.
  intros HP w r w' E k Hk. apply applyObject_spec in E as [E _]. apply E. by intros ->.
Qed.

Lemma touches_deleteObject (P : Key → Prop) o : P (obj_key o) → touches P (deleteObject o).
Proof.
  intros HP w r w' E k Hk. apply deleteObject_spec in E as [E _]. apply E. by intros ->.
Qed.

Lemma touches_recordEvent P t r m : touches P (recordEvent (W := W) t r m).
Proof. by intros w o w' [= <- <-]. Qed.
End laws.

Create HintDb touches.
#[export] Hint Resolve touches_ret touches_fail touches_lift touches_bind touches_attempt
  touches_orFail touches_ignoreErr touches_getObject touches_getT touches_listT
  touches_createObject touches_updateObject touches_updateCSM touches_statusUpdate
  touches_applyObject touches_deleteObject
  touches_recordEvent : touches.

(** Shows what a sequence of calls touches, case by case. *)
Ltac solve_touches :=
  intros;
  repeat first
    [ progress intros
    | lazymatch goal with
      | |- touches _ (_ ≫= _) => apply touches_bind
      | |- touches _ (match _ with _ => _ end) => case_match
      | |- touches _ (getObject _) => apply touches_getObject
      | |- touches _ (getT _ _ _) => apply touches_getT
      | |- touches _ (listT _ _ _) => apply touches_listT
      | |- touches _ (recordEvent _ _ _) => apply touches_recordEvent
      | |- touches _ (createObject _) => apply touches_createObject
      | |- touches _ (updateObject _) => apply touches_updateObject
      | |- touches _ (updateCSM _) => apply touches_updateCSM
      | |- touches _ (statusUpdate _) => apply touches_statusUpdate
      | |- touches _ (applyObject _) => apply touches_applyObject
      | |- touches _ (deleteObject _) => apply touches_deleteObject
      | |- touches _ (attempt _) => apply touches_attempt
      | |- touches _ (orFail _ _) => apply touches_orFail
      | |- touches _ (ignoreErr _) => apply touches_ignoreErr
      | |- touches _ (lift _) => apply touches_lift
      | |- touches _ (failM _) => apply touches_fail
      | |- touches _ (mret _) => apply touches_ret
      end ];
  try done.

(** ** Properties of the operations *)

Section properties.
Context {W : Type} `{Client W} `{!View W} `{!ClientLaws (W := W)}.
#[local] Set Default Proof Using "All".

(** [m] touches only [k], and after success [k] is there, unless it was being deleted. *)
Definition ensures (k : Key) (m : M (World W) ()) : Prop :=
  touches (eq k) m
  ∧ ∀ w w', m w = (Ok (), w') → is_Some (seen w' !! k) ∨ dying (seen w) k.

Lemma dying_eq (m1 m2 : gmap Key Object) k : m1 !! k = m2 !! k → dying m1 k → dying m2 k.
Proof. unfold dying. by intros ->. Qed.

Lemma ensures_create o : ensures (obj_key o) (createObject o).
Proof.
  split; [by apply touches_createObject|]. intros w w' E.
  apply createObject_spec in E as [_ E]. left. by apply E.
Qed.

Lemma ensures_update o : ensures (obj_key o) (updateObject o).
Proof.
  split; [by apply touches_updateObject|]. intros w w' E.
  apply updateObject_spec in E as (_ & E & _). by apply E.
Qed.

Lemma ensures_apply o : ensures (obj_key o) (applyObject o).
Proof.
  split; [by apply touches_applyObject|]. intros w w' E.
  apply applyObject_spec in E as [_ E]. by apply E.
Qed.

Lemma ensures_orFail k m wrap : ensures k m → ensures k (orFail m wrap).
Proof.
  intros [Ht Ho]. split; [by apply touches_orFail|]. intros w w' E%orFail_Ok. by eapply Ho.
Qed.

Lemma ensures_fail k e : ensures k (failM e).
Proof. split; [apply touches_fail|]. intros w w'. by unfold failM. Qed.

Lemma ensures_panic k s : ensures k (lift (Panic s)).
Proof. split; [apply touches_lift|]. intros w w'. by unfold lift. Qed.

Lemma ensures_after {A} k (m : M (World W) A) (f : A → M (World W) ()) :
  (∀ P, touches P m) → (∀ a, ensures k (f a)) → ensures k (m ≫= f).
Proof.
  intros Hm Hf. split; [apply touches_bind; [done|intros a; apply Hf]|].
  intros w w' E. go_inv. match goal with Hw : m w = (Ok ?a, ?w1) |- _ =>
    destruct (Hf a) as [_ Hok]; apply Hok in E as [E|E]; [by left|right];
    apply (dying_eq (seen w1)); [|done]; apply (Hm (λ _, False) _ _ _ Hw k); by intros []
  end.
Qed.

(** A write followed by reads *)
Lemma ensures_then {A} k m (r : M (World W) A) :
  ensures k m → (∀ P, touches P r) → ensures k (_ ← m; _ ← r; mret ()).
Proof.
  intros [Ht Ho] Hr. split; [solve_touches; auto|]. intros w w' E. go_inv.
  match goal with Hw' : r ?w1 = (Ok ?x, ?w2) |- _ =>
    rewrite (Hr (λ _, False) w1 (Ok x) w2 Hw' k ltac:(by intros []))
  end.
  match goal with Hw : m w = (Ok ?a, _) |- _ => destruct a; by apply Ho in Hw end.
Qed.

(** The shape of every Sync operation: look the object up, then create or update. *)
Lemma ensures_lookup k (create : error → M (World W) ()) (update : Object → M (World W) ()) :
  (∀ e, ensures k (create e)) →
  (∀ o w r w', seen w !! k = Some o → obj_key o = k → update o w = (r, w') →
    (∀ k', k ≠ k' → seen w' !! k' = seen w !! k')
    ∧ (r = Ok () → is_Some (seen w' !! k) ∨ dying (seen w) k)) →
  ensures k (r ← attempt (getObject k);
             match r with inl e => create e | inr o => update o end).
Proof.
  intros Hc Hu. unfold ensures, touches, attempt, mbind, M_bind. split.
  - intros w r w' E k' Hk'. destruct (getObject k w) as [[o|e|y] w1] eqn:G.
    + apply getObject_spec in G as [Hs [Ho Hk]]. rewrite <- Hs in Ho.
      destruct (Hu _ _ _ _ Ho Hk E) as [E' _]. rewrite E'; [by rewrite Hs|done].
    + destruct (Hc e) as [Ht _]. apply getObject_spec in G as [Hs _].
      rewrite (Ht _ _ _ E k' Hk'). by rewrite Hs.
    + by apply getObject_spec in G as [_ ?].
  - intros w w' E. destruct (getObject k w) as [[o|e|y] w1] eqn:G; [| |done].
    + apply getObject_spec in G as [Hs [Ho Hk]]. rewrite <- Hs in Ho.
      destruct (Hu _ _ _ _ Ho Hk E) as [_ E']. rewrite <- Hs. by apply E'.
    + destruct (Hc e) as [_ Ho]. apply getObject_spec in G as [Hs _]. rewrite <- Hs.
      by apply Ho.
Qed.

Lemma ensures_updates k (m : M (World W) ()) o w r w' :
  ensures k m → seen w !! k = Some o → m w = (r, w') →
  (∀ k', k ≠ k' → seen w' !! k' = seen w !! k')
  ∧ (r = Ok () → is_Some (seen w' !! k) ∨ dying (seen w) k).
Proof.
  intros [Ht Hok] Ho E. split; [intros k' Hk'; by eapply Ht|]. intros ->. by eapply Hok.
Qed.

Ltac solve_ensures :=
  repeat first
    [ apply ensures_orFail | apply ensures_fail | apply ensures_panic
    | apply ensures_create | apply ensures_update | apply ensures_apply
    | apply ensures_then; [|intros; apply touches_getObject] ].

Lemma SyncServiceAccount_ensures m b :
  ensures ("ServiceAccount", (om_Namespace m, om_Name m))
    (SyncServiceAccount (mkResource "ServiceAccount" m b)).
Proof.
  apply (ensures_lookup _ (λ e, if IsNotFound e then _ else _) (λ _, mret ())).
  - intros e. destruct (IsNotFound e); solve_ensures.
  - intros o w r w' Ho _ [= <- <-]. split; [done|]. left. by exists o.
Qed.

Lemma sync_resource_ensures kind m b (create : M (World W) ()) :
  ensures (kind, (om_Namespace m, om_Name m)) create →
  ensures (kind, (om_Namespace m, om_Name m))
    (r ← attempt (getObject (kind, (om_Namespace m, om_Name m)));
     match r with
     | inl err => if IsNotFound err then create else failM err
     | inr _ => updateObject (OOther (mkResource kind m b))
     end).
Proof.
  intros Hc. apply (ensures_lookup _ (λ e, if IsNotFound e then create else failM e)
    (λ _, updateObject (OOther (mkResource kind m b)))).
  - intros e. destruct (IsNotFound e); [done|apply ensures_fail].
  - intros o w r w' Ho _ E. eapply ensures_updates; [|done|done].
    apply (ensures_update (OOther (mkResource kind m b))).
Qed.

Lemma SyncClusterRole_ensures m b :
  ensures ("ClusterRole", (om_Namespace m, om_Name m))
    (SyncClusterRole (mkResource "ClusterRole" m b)).
Proof. apply sync_resource_ensures. by solve_ensures. Qed.

Lemma SyncRole_ensures m b :
  om_Name m ≠ "" →
  ensures ("Role", (om_Namespace m, om_Name m)) (SyncRole (mkResource "Role" m b)).
Proof.
  intros Hm. unfold SyncRole. rewrite decide_False by done.
  apply sync_resource_ensures. by solve_ensures.
Qed.

Lemma SyncClusterRoleBindings_ensures m b :
  ensures ("ClusterRoleBinding", (om_Namespace m, om_Name m))
    (SyncClusterRoleBindings (mkResource "ClusterRoleBinding" m b)).
Proof. apply sync_resource_ensures. apply (ensures_create (OOther (mkResource _ m b))). Qed.

Lemma SyncRoleBindings_ensures m b :
  om_Name m ≠ "" →
  ensures ("RoleBinding", (om_Namespace m, om_Name m))
    (SyncRoleBindings (mkResource "RoleBinding" m b)).
Proof.
  intros Hm. unfold SyncRoleBindings. rewrite decide_False by done.
  apply sync_resource_ensures. apply (ensures_create (OOther (mkResource _ m b))).
Qed.

Lemma ApplyCTRLObject_ensures o : ensures (obj_key o) (ApplyCTRLObject o).
Proof.
  apply (ensures_lookup _ (λ e, if IsNotFound e then createObject o else failM e)
    (λ _, updateObject o)).
  - intros e. destruct (IsNotFound e); [apply ensures_create|apply ensures_fail].
  - intros o' w r w' Ho _ E. eapply ensures_updates; [|done|done]. apply ensures_update.
Qed.

Lemma ApplyObject_ensures o : ensures (obj_key o) (ApplyObject o).
Proof.
  apply (ensures_lookup _ (λ e, if IsNotFound e then createObject o else failM e)
    (λ k8sObj, u ← attempt (updateObject (json_overlay o k8sObj));
       match u with
       | inl err => if IsForbidden err || IsInvalid err then mret () else failM err
       | inr _ => mret ()
       end)).
  - intros e. destruct (IsNotFound e); [apply ensures_create|apply ensures_fail].
  - intros o' w r w' Ho Hk. unfold attempt, mbind, M_bind.
    destruct (updateObject _ w) as [u w1] eqn:E.
    apply updateObject_spec in E as (Hf & Hok & Hno).
    rewrite overlay_key in Hf, Hok by done.
    destruct u as [[]|e|y].
    + intros [= <- <-]. split; [intros; by apply Hf|]. intros _. by apply Hok.
    + destruct (IsForbidden e || IsInvalid e) eqn:Ei; intros [= <- <-].
      * rewrite (Hno e); [|done|by apply orb_true_iff in Ei as [|]; auto].
        split; [done|]. left. by exists o'.
      * split; [intros; by apply Hf|done].
    + intros [= <- <-]. split; [intros; by apply Hf|done].
Qed.

Lemma touches_attempt_get {A} (m : M (World W) A) :
  (∀ P, touches P m) → ∀ P, touches P (attempt m).
Proof. intros Hm P. by apply touches_attempt. Qed.

Lemma SyncConfigMap_ensures cm :
  ensures (obj_key (OConfigMap cm)) (SyncConfigMap cm).
Proof.
  apply ensures_after; [apply touches_attempt_get; intros; apply touches_getT|].
  intros [e|found].
  - destruct (IsNotFound e); solve_ensures.
  - apply ensures_orFail.
    exact (ensures_update (OConfigMap (mkConfigMap
      (set_om_ResourceVersion (om_ResourceVersion (cm_Meta found)) (cm_Meta cm)) (cm_Data cm)))).
Qed.

Lemma SyncCSIDriver_ensures csi :
  ensures (obj_key (OOther csi)) (SyncCSIDriver csi).
Proof.
  apply ensures_after; [apply touches_attempt_get; intros; apply touches_getObject|].
  intros [e|found].
  - destruct (IsNotFound e); solve_ensures.
  - apply ensures_orFail.
    exact (ensures_update (OOther (mkResource (rs_Kind csi)
      (set_om_ResourceVersion (om_ResourceVersion (obj_meta found)) (rs_Meta csi))
      (rs_Body csi)))).
Qed.

Lemma ensures_lift {A} k (o : outcome A) (f : A → M (World W) ()) :
  (∀ a, o = Ok a → ensures k (f a)) → ensures k (a ← lift o; f a).
Proof.
  destruct o as [a|e|y]; intros Hf.
  - by apply Hf.
  - apply (ensures_fail k e).
  - apply (ensures_panic k y).
Qed.

Lemma SyncDaemonset_ensures d csmName :
  ensures ("DaemonSet", (namespace_of d, name_of d)) (SyncDaemonset d csmName).
Proof.
  unfold SyncDaemonset, namespace_of, name_of.
  apply ensures_lift. intros name En. apply ensures_lift. intros ns Ens.
  destruct (wl_Name d) as [n|] eqn:E1; [|done]. destruct (wl_Namespace d) as [n'|] eqn:E2; [|done].
  injection En as <-. injection Ens as <-. simpl.
  apply ensures_after; [apply touches_attempt_get; intros; apply touches_getT|]. intros r.
  apply ensures_after; [intros; solve_touches|]. intros [].
  apply ensures_lift. intros labels _.
  pose proof (ensures_apply (as_daemonset
    (set_wl_Labels (Some (Some (<["csm":=csmName]> (default ∅ labels)))) d))) as He.
  rewrite as_daemonset_key, set_wl_Labels_name, set_wl_Labels_namespace in He.
  unfold namespace_of, name_of in He. by rewrite E1, E2 in He.
Qed.

Lemma SyncDeployment_ensures d csmName :
  ensures ("Deployment", (namespace_of d, name_of d)) (SyncDeployment d csmName).
Proof.
  unfold SyncDeployment, namespace_of, name_of.
  apply ensures_lift. intros name En. apply ensures_lift. intros ns Ens.
  destruct (wl_Name d) as [n|] eqn:E1; [|done]. destruct (wl_Namespace d) as [n'|] eqn:E2; [|done].
  injection En as <-. injection Ens as <-. simpl.
  apply ensures_after; [apply touches_attempt_get; intros; apply touches_getT|]. intros r.
  apply ensures_after; [intros; solve_touches|]. intros [].
  apply ensures_lift. intros [labels|] _; [|apply ensures_panic].
  pose proof (ensures_apply (as_deployment
    (set_wl_Labels (Some (Some (<["csm":=csmName]> labels))) d))) as He.
  rewrite as_deployment_key, set_wl_Labels_name, set_wl_Labels_namespace in He.
  unfold namespace_of, name_of in He. by rewrite E1, E2 in He.
Qed.

(** C13: every operation that puts a resource on the cluster (the Sync functions of
    pkg/resources, [ApplyObject] and [ApplyCTRLObject]) changes nothing but the object it
    is about, whatever the API server answers, and when it reports success that object is
    there (unless it was already being deleted). A role or role binding without a name is skipped. *)
Theorem sync_ensures :
  (∀ m b, ensures ("ServiceAccount", (om_Namespace m, om_Name m))
            (SyncServiceAccount (mkResource "ServiceAccount" m b)))
  ∧ (∀ m b, ensures ("ClusterRole", (om_Namespace m, om_Name m))
              (SyncClusterRole (mkResource "ClusterRole" m b)))
  ∧ (∀ m b, if decide (om_Name m = "")
            then SyncRole (mkResource "Role" m b) = mret ()
            else ensures ("Role", (om_Namespace m, om_Name m))
                   (SyncRole (mkResource "Role" m b)))
  ∧ (∀ m b, ensures ("ClusterRoleBinding", (om_Namespace m, om_Name m))
              (SyncClusterRoleBindings (mkResource "ClusterRoleBinding" m b)))
  ∧ (∀ m b, if decide (om_Name m = "")
            then SyncRoleBindings (mkResource "RoleBinding" m b) = mret ()
            else ensures ("RoleBinding", (om_Namespace m, om_Name m))
                   (SyncRoleBindings (mkResource "RoleBinding" m b)))
  ∧ (∀ cm, ensures (obj_key (OConfigMap cm)) (SyncConfigMap cm))
  ∧ (∀ csi, ensures (obj_key (OOther csi)) (SyncCSIDriver csi))
  ∧ (∀ d csm, ensures ("DaemonSet", (namespace_of d, name_of d)) (SyncDaemonset d csm))
  ∧ (∀ d csm, ensures ("Deployment", (namespace_of d, name_of d)) (SyncDeployment d csm))
  ∧ (∀ o, ensures (obj_key o) (ApplyObject o))
  ∧ (∀ o, ensures (obj_key o) (ApplyCTRLObject o)).
Proof.
  split_and!; intros.
  - apply SyncServiceAccount_ensures.
  - apply SyncClusterRole_ensures.
  - case_decide; [unfold SyncRole; by rewrite decide_True|by apply SyncRole_ensures].
  - apply SyncClusterRoleBindings_ensures.
  - case_decide; [unfold SyncRoleBindings; by rewrite decide_True|
      by apply SyncRoleBindings_ensures].
  - apply SyncConfigMap_ensures.
  - apply SyncCSIDriver_ensures.
  - apply SyncDaemonset_ensures.
  - apply SyncDeployment_ensures.
  - apply ApplyObject_ensures.
  - apply ApplyCTRLObject_ensures.
Qed.

Lemma DeleteObject_run o w r w' : DeleteObject o w = (r, w') →
  (∀ k, k ≠ obj_key o → seen w' !! k = seen w !! k)
  ∧ (r = Ok () → removed (seen w') (obj_key o))
  ∧ (seen w !! obj_key o = None → seen w' = seen w).
Proof.
  unfold DeleteObject, attempt, mbind, M_bind.
  destruct (getObject _ w) as [[o'|e|y] w1] eqn:G;
    apply getObject_spec in G as [Hs Ho]; [| |done].
  - destruct Ho as [Ho Hk].
    destruct (deleteObject o' w1) as [d w2] eqn:D.
    apply deleteObject_spec in D as [Hf Hd]. rewrite Hk in Hf, Hd.
    intros E. assert (w' = w2) as ->.
    { destruct d as [[]|e|y]; [by injection E| |done].
      destruct (IsNotFound e); by injection E. }
    split_and!.
    + intros k Hk'. by rewrite Hf, Hs.
    + intros ->. destruct d as [[]|e|y]; [done| |done].
      destruct (IsNotFound e) eqn:En; [by apply Hd|]. by unfold failM in E.
    + congruence.
  - destruct (IsNotFound e) eqn:En; intros [= <- <-]; split_and!; try (by rewrite Hs); try done.
    intros _ o' Ho'. by rewrite Hs, (Ho eq_refl) in Ho'.
Qed.

(** *** Several objects, one after the other *)

Lemma DeleteObject_touches o : touches (eq (obj_key o)) (DeleteObject o).
Proof. intros w r w' E k Hk. apply DeleteObject_run in E as (-> & _); [done|congruence]. Qed.

(** A call after whose success what was removed is still removed. *)
Definition keeps_removed (m : M (World W) ()) : Prop :=
  ∀ w w' k, m w = (Ok (), w') → removed (seen w) k → removed (seen w') k.

Lemma removed_eq (m1 m2 : gmap Key Object) k : m1 !! k = m2 !! k → removed m1 k → removed m2 k.
Proof. unfold removed. by intros ->. Qed.

Lemma DeleteObject_keeps o : keeps_removed (DeleteObject o).
Proof.
  intros w w' k E Hk. destruct (decide (k = obj_key o)) as [->|Hne].
  - apply DeleteObject_run in E as (_ & Hr & _). by apply Hr.
  - apply (removed_eq (seen w)); [|done].
    apply DeleteObject_run in E as (Hf & _). symmetry. by apply Hf.
Qed.

Lemma forM_DeleteObject os w w' :
  forM DeleteObject os w = (Ok (), w') →
  (∀ k, k ∉ obj_key <$> os → seen w' !! k = seen w !! k)
  ∧ (∀ k, k ∈ obj_key <$> os ∨ removed (seen w) k → removed (seen w') k).
Proof.
  revert w. induction os as [|o os IH]; intros w E; simpl in E.
  - injection E as <-. split; [done|]. intros k [Hk|Hk]; [by apply not_elem_of_nil in Hk|done].
  - apply M_bind_Ok in E as ([] & w1 & E1 & E). apply IH in E as [Hf Hr].
    pose proof (DeleteObject_keeps o w w1) as Hkeep.
    pose proof (DeleteObject_run _ _ _ _ E1) as (Hf1 & Hr1 & _). simpl. split.
    + intros k Hk. apply not_elem_of_cons in Hk as [Hne Hk]. rewrite Hf by done. by apply Hf1.
    + intros k [Hk|Hk]; apply Hr; [|right; by apply Hkeep].
      apply elem_of_cons in Hk as [->|Hk]; [right; by apply Hr1|by left].
Qed.

Definition workload_key (T : Type) `{Kinded T} (d : Workload) : Key :=
  (kind_of T, (namespace_of d, name_of d)).

(** In [w] the API server does not say whether the workload is there: looking it up fails, and
    not because there is none. *)
Definition lookup_fails (T : Type) `{Kinded T} (d : Workload) (w : World W) : Prop :=
  ∃ e, fst (getT T (namespace_of d) (name_of d) w) = Fail e ∧ IsNotFound e = false.

Lemma getT_absent (T : Type) `{Kinded T} ns name w e w1 :
  getT T ns name w = (Fail e, w1) → IsNotFound e = true → seen w !! (kind_of T, (ns, name)) = None.
Proof.
  intros [_ [->|Hn]]%getT_spec He; [|by apply Hn]. by rewrite plain_error in He.
Qed.

Lemma remove_workload_spec (T : Type) `{Kinded T} wrap d w w' :
  remove_workload T wrap d w = (Ok (), w') →
  (∀ k, k ≠ workload_key T d → seen w' !! k = seen w !! k)
  ∧ (∀ k, removed (seen w) k → removed (seen w') k)
  ∧ (removed (seen w') (workload_key T d) ∨ lookup_fails T d w).
Proof.
  unfold lookup_fails.
  unfold remove_workload, workload_key, namespace_of, name_of. intros E.
  apply M_bind_Ok in E as (ns & w1 & En & E). injection En as En <-.
  apply M_bind_Ok in E as (name & w2 & Em & E). injection Em as Em <-.
  destruct (wl_Namespace d) as [ns'|]; [|done]. destruct (wl_Name d) as [name'|]; [|done].
  injection En as <-. injection Em as <-. simpl.
  apply M_bind_Ok in E as (r & w1 & Er & E). unfold attempt in Er.
  destruct (getT T ns' name' w) as [[found|e|y] w1'] eqn:G; [| |done]; injection Er as <- <-;
    pose proof (getT_spec _ _ _ _ _ _ G) as [Hs _].
  2:{ injection E as <-. rewrite Hs. split_and!; try done.
      destruct (IsNotFound e) eqn:He; [left|right; by exists e].
      apply getT_absent in G; [|done]. intros o Ho. by pose proof (eq_trans (eq_sym Ho) G). }
  apply getT_key in G. apply M_bind_Ok in E as (d' & w2 & Ed & E). unfold attempt in Ed.
  destruct (deleteObject (inj_obj found) w1') as [rd wd] eqn:D.
  apply deleteObject_spec in D as [Hf Hr]. rewrite G in Hf, Hr.
  assert (w' = wd ∧ removed (seen wd) (kind_of T, (ns', name'))) as [-> Hrem].
  { destruct rd as [[]|e|y]; [| |done]; injection Ed as <- <-; [by injection E as <-|].
    destruct (IsNotFound e) eqn:En; [|done]. injection E as <-. split; [done|]. by apply Hr. }
  split_and!; [intros k Hk; by rewrite Hf, Hs| |by left].
  intros k Hk. destruct (decide (k = (kind_of T, (ns', name')))) as [->|Hne]; [done|].
  apply (removed_eq (seen w)); [|done]. by rewrite Hf, Hs.
Qed.

(** [m] touches only [ks], and after success each of them is there, unless it was being
    deleted. *)
Definition ensures_all (ks : list Key) (m : M (World W) ()) : Prop :=
  touches (λ k, k ∈ ks) m
  ∧ ∀ w w', m w = (Ok (), w') → ∀ k, k ∈ ks → is_Some (seen w' !! k) ∨ dying (seen w) k.

Lemma ensures_all_one k m : ensures k m → ensures_all [k] m.
Proof.
  intros [Ht Ho]. split.
  - eapply touches_mono; [exact Ht|]. intros k' <-. by left.
  - intros w w' E k' Hk'. apply list_elem_of_singleton in Hk' as ->. by apply Ho.
Qed.

Lemma ensures_all_app ks1 ks2 (m1 m2 : M (World W) ()) :
  ensures_all ks1 m1 → ensures_all ks2 m2 → (∀ k, k ∈ ks1 → k ∉ ks2) →
  ensures_all (ks1 ++ ks2) (_ ← m1; m2).
Proof.
  intros [T1 O1] [T2 O2] Hd. split.
  - apply touches_bind; [|intros _]; (eapply touches_mono; [eassumption|]);
      intros k Hk; apply elem_of_app; auto.
  - intros w w' E k Hk. apply M_bind_Ok in E as ([] & w1 & E1 & E2).
    apply elem_of_app in Hk as [Hk|Hk].
    + rewrite (T2 _ _ _ E2 k (Hd k Hk)). by eapply O1.
    + destruct (O2 _ _ E2 k Hk) as [|Hdy]; [by left|right].
      eapply dying_eq; [|exact Hdy]. apply (T1 _ _ _ E1). intros Hk1. by eapply Hd.
Qed.

Lemma ensures_all_cons k ks m1 m2 :
  ensures k m1 → ensures_all ks m2 → k ∉ ks → ensures_all (k :: ks) (_ ← m1; m2).
Proof.
  intros E1 E2 Hk. apply (ensures_all_app [k] ks); [by apply ensures_all_one|done|].
  by intros k' ->%list_elem_of_singleton.
Qed.

(** [DeleteObject] changes nothing but the object it is given, leaves the cluster
    unchanged when that object is not there, and when it reports success the object is
    absent or already being deleted; a second call right after a successful one that
    left nothing behind changes nothing. *)
Theorem DeleteObject_spec o w r w' :
  DeleteObject o w = (r, w') →
  touches (eq (obj_key o)) (DeleteObject o)
  ∧ (r = Ok () → removed (seen w') (obj_key o))
  ∧ (seen w !! obj_key o = None → seen w' = seen w)
  ∧ (∀ r2 w2, seen w' !! obj_key o = None → DeleteObject o w' = (r2, w2) → seen w2 = seen w').
Proof.
  intros E. pose proof (DeleteObject_run _ _ _ _ E) as (_ & ? & ?). split_and!; [|done..|].
  - intros w0 r0 w1 E0 k Hk. apply DeleteObject_run in E0 as [E0 _]. apply E0. congruence.
  - intros r2 w2 Hn E2. by apply DeleteObject_run in E2 as (_ & _ & ->).
Qed.
End properties.

Definition demo_role : Resource := mkResource "Role" (named "dell" "csm-role") (Manifest "rules").

Lemma DeleteObject_spec_witness :
  let w := world_of [OOther demo_role] obeys in
  ∃ w', DeleteObject (OOther demo_role) w = (Ok (), w')
        ∧ removed (seen w') (obj_key (OOther demo_role)).
Proof.
  eexists. split; [vm_compute; reflexivity|].
  refine (proj1 (proj2 (DeleteObject_spec (OOther demo_role)
    (world_of [OOther demo_role] obeys) (Ok ()) _ _)) eq_refl).
  vm_compute; reflexivity.
Defined.

Lemma sync_ensures_witness :
  let w := world_of [] obeys in
  fst (SyncRole demo_role w) = Ok ()
  ∧ (is_Some (seen (snd (SyncRole demo_role w)) !! ("Role", ("dell", "csm-role")))
     ∨ dying (seen w) ("Role", ("dell", "csm-role"))).
Proof.
  intros w. assert (fst (SyncRole demo_role w) = Ok ()) as E by (vm_compute; reflexivity).
  split; [exact E|]. apply run_fst in E.
  destruct sync_ensures as (_ & _ & Hrole & _).
  specialize (Hrole (named "dell" "csm-role") (Manifest "rules")). simpl in Hrole.
  exact (proj2 Hrole _ _ E).
Defined.
