(* ===== verification/Status.v ===== *)
(** The status of a custom resource (pkg/operatorutils/status.go): the state of the driver's
    controller and node pods and of the modules, its calculation, and the places that write it
    to the cluster.

    [newStatus] and [oldStatus] are pointers that can point into the custom resource itself:
    [Instance] is the custom resource with the status cells beside it, [StatusPtr] a pointer to
    one of these. The mutex [dMutex] is left out: a call here runs alone. *)

From S2P Require Import Prelude.
From S2P Require Import GoStrings.
From S2P Require Import Types.
From S2P Require Import Versions.
From S2P Require Import Modules.
From S2P Require Import Images.
From S2P Require Import Cluster.
From S2P Require Import Resources.
From stdpp Require Import options.

Local Open Scope stdpp_scope.

(** ** Constants *)

Definition Succeeded : string := "Succeeded".
Definition Failed : string := "Failed".
Definition InvalidConfig : string := "InvalidConfig".
Definition ContainerCreating : string := "ContainerCreating".
Definition PendingCreate : string := "Pending create".
Definition PodStatusRemoveString : string :=
  "rpc error: code = Unknown desc = Error response from daemon:".
Definition DefaultSourceClusterID : string := "default-source-cluster".
Definition ObservabilityNamespace : string := "karavi".
Definition PreviouslyApplied : string := "storage.dell.com/PreviouslyAppliedConfiguration".
Definition kubectlLastApplied : string := "kubectl.kubernetes.io/last-applied-configuration".

(** ** The custom resource in memory and the pointers to a status *)

Record Instance := mkInstance {
  in_cr : CSM;
  in_cells : gmap nat ContainerStorageModuleStatus
}.

(** [&instance.Status], or a status allocated on its own *)
Inductive StatusPtr :=
  | GetCSMStatus
  | Cell (n : nat).

Definition read_status (p : StatusPtr) (h : Instance) : ContainerStorageModuleStatus :=
  match p with
  | GetCSMStatus => cr_Status (in_cr h)
  | Cell n => default zero_Status (in_cells h !! n)
  end.

Definition write_status (p : StatusPtr) (s : ContainerStorageModuleStatus) (h : Instance) : Instance :=
  match p with
  | GetCSMStatus => mkInstance (set_cr_Status s (in_cr h)) (in_cells h)
  | Cell n => mkInstance (in_cr h) (<[n := s]> (in_cells h))
  end.

(** [p.F = v], given as the change of the whole status *)
Definition modify_status (p : StatusPtr) (f : ContainerStorageModuleStatus → ContainerStorageModuleStatus)
    (h : Instance) : Instance :=
  write_status p (f (read_status p h)) h.

Definition isAuthorizationProxyServer (cr : CSM) : bool :=
  match find_module AuthorizationServer (sp_Modules (cr_Spec cr)) with
  | Some _ => true
  | None => false
  end.

(** [json.Marshal] and [json.Unmarshal] of a custom resource: the standard library's encoder
    and decoder, applied to the struct tags of api/v1. *)
Class JSON := {
  json_Marshal : CSM → error + string;
  json_Unmarshal : string → error + CSM
}.

(** client-go and apimachinery helpers that call a function again:
    [retry.RetryOnConflict(retry.DefaultRetry, f)] and
    [wait.PollUntilContextTimeout(ctx, interval, timeout, true, f)]. *)
Class Retry (W : Type) := {
  RetryOnConflict : M (World W) () → M (World W) ();
  PollUntilTimeout : M (World W) bool → M (World W) ()
}.

(** ** The driver's controller and node pods *)

Section pods.
Context {W : Type} `{Client W} `{MapOrder}.

Definition emptyStatus : PodStatus := mkPodStatus "0" "0" "0".

(** The result beside the error is used by the caller. *)
Definition getDeploymentStatus (instance : CSM) : M (World W) (PodStatus * option error) :=
  if decide (cr_Name instance = "" ∨ isAuthorizationProxyServer instance = true)
  then mret (emptyStatus, None)
  else
    r ← attempt (getT Deployment (cr_Namespace instance) (GetControllerName instance));
    match r with
    | inl err => mret (emptyStatus, Some err)
    | inr deployment =>
        let s := dp_Status deployment in
        mret (mkPodStatus (Itoa (dps_AvailableReplicas s)) (Itoa (dps_Replicas s))
                (Itoa (dps_UnavailableReplicas s)), None)
    end.

(** What a waiting container adds to [errMap] *)
Definition waiting_entry (errMap : gmap string string) (cs : option Waiting)
    : gmap string string :=
  match cs with
  | None => errMap
  | Some w =>
      if decide (wt_Reason w = ContainerCreating)
      then <[wt_Reason w := PendingCreate]> errMap
      else <[wt_Reason w := Replace1 (wt_Message w) PodStatusRemoveString ""]> errMap
  end.

(** the status of the last condition of type Ready, "False" without one *)
Definition podReadyCondition (pod : Pod) : string :=
  foldl (λ acc c, if decide (pc_Type c = "Ready") then pc_Status c else acc) "False"
    (po_Conditions pod).

Definition pod_running (pod : Pod) : bool :=
  bool_decide (po_Phase pod = "Running" ∧ podReadyCondition pod = "True").
Definition pod_pending (pod : Pod) : bool := bool_decide (po_Phase pod = "Pending").

(** the loop over the pods: running pods, pending pods, what pending containers wait for *)
Definition count_pod (acc : Z * Z * gmap string string) (pod : Pod)
    : Z * Z * gmap string string :=
  let '(running, failed, errMap) := acc in
  let '(failed, errMap) :=
    if pod_pending pod
    then ((failed + 1)%Z, foldl waiting_entry errMap (po_ContainerStatuses pod))
    else (failed, errMap) in
  (if pod_running pod then (running + 1)%Z else running, failed, errMap).

Definition getDaemonSetStatus (instance : CSM) : M (World W) (Z * PodStatus * option error) :=
  let namespace := cr_Namespace instance in
  r ← attempt (getT DaemonSet namespace (GetNodeName instance));
  match r with
  | inl err => mret (0%Z, zero_PodStatus, Some err)
  | inr ds =>
      l ← attempt (listT Pod (Some namespace) {[ "app" := cr_Name instance +:+ "-node" ]});
      match l with
      | inl err => mret (dn_DesiredNumberScheduled ds, zero_PodStatus, Some err)
      | inr pods =>
          let '(running, failed, errMap) := foldl count_pod (0%Z, 0%Z, ∅) pods in
          let msg := foldl (λ m '(k, v), m +:+ k +:+ "=" +:+ v)
            ("error message for " +:+ DefaultSourceClusterID +:+ " " +:+ String (Ascii.ascii_of_nat 10) "")
            (range errMap) in
          let desired := dn_DesiredNumberScheduled ds in
          mret (desired, mkPodStatus (Itoa running) (Itoa desired) (Itoa failed),
                if decide (0 < failed)%Z then Some (Errorf msg) else None)
      end
  end.
End pods.

(** ** The modules *)

(** [deployment.Status.ReadyReplicas == *deployment.Spec.Replicas] *)
Definition checkFn (d : Deployment) : outcome bool :=
  replicas ← deref (dp_Replicas d);
  Ok (bool_decide (dps_ReadyReplicas (dp_Status d) = replicas)).

(** A loop over deployments that returns [false] at the first one that is watched and not
    ready. *)
Fixpoint check_deployments (watched : string → bool) (ds : list Deployment) : outcome bool :=
  match ds with
  | [] => Ok true
  | d :: ds' =>
      if watched (om_Name (dp_Meta d)) then
        ready ← checkFn d;
        if (ready : bool) then check_deployments watched ds' else Ok false
      else check_deployments watched ds'
  end.

(** [if name(c) && *c.Enabled { flag = true }] over components *)
Definition component_flag (name : string → bool) (flag : bool) (c : ContainerTemplate)
    : outcome bool :=
  if name (ct_Name c) then
    enabled ← deref (ct_Enabled c);
    Ok (flag || enabled)
  else Ok flag.

Record ObservabilityFlags := mkObservabilityFlags {
  of_topology : bool;
  of_otel : bool;
  of_cert : bool;
  of_metrics : bool
}.

Definition is_name (n : string) (s : string) : bool := bool_decide (s = n).

Definition observability_component (driverName : string) (f : ObservabilityFlags)
    (c : ContainerTemplate) : outcome ObservabilityFlags :=
  topology ← component_flag (is_name "topology") (of_topology f) c;
  otel ← component_flag (is_name "otel-collector") (of_otel f) c;
  cert ← component_flag (is_name "cert-manager") (of_cert f) c;
  metrics ← component_flag (is_name ("metrics-" +:+ driverName)) (of_metrics f) c;
  Ok (mkObservabilityFlags topology otel cert metrics).

Definition observability_flags (driverName : string) (ms : list Module)
    : outcome ObservabilityFlags :=
  foldO (λ f m, if decide (m_Name m = Observability)
                then foldO (observability_component driverName) f (m_Components m)
                else Ok f)
    (mkObservabilityFlags false false false false) ms.

(** [PowerScale] is "isilon" in a custom resource and "powerscale" in the files. *)
Definition metrics_driver (cr : CSM) : string :=
  let driverName := GetDriverType cr in
  if decide (driverName = PowerScale) then PowerScaleName else driverName.

Definition observability_watched (driverName : string) (f : ObservabilityFlags) (name : string)
    : bool :=
  if decide (name = "otel-collector") then of_otel f
  else if decide (name = "karavi-metrics-" +:+ driverName) then of_metrics f
  else if decide (name = "karavi-topology") then of_topology f
  else false.

Definition cert_manager_name (name : string) : bool :=
  bool_decide (name ∈ ["cert-manager"; "cert-manager-cainjector"; "cert-manager-webhook"]).

Record AuthFlags := mkAuthFlags { af_nginx : bool; af_gateway : bool; af_cert : bool }.

Definition auth_component (useGatewayAPI : bool) (f : AuthFlags) (c : ContainerTemplate)
    : outcome AuthFlags :=
  nginx ← component_flag (is_name "ingress-nginx") (af_nginx f) c;
  gateway ← component_flag (λ n, is_name "nginx-gateway-fabric" n || is_name "nginx" n) false c;
  cert ← component_flag (is_name "cert-manager") (af_cert f) c;
  Ok (mkAuthFlags nginx (af_gateway f || (gateway && useGatewayAPI)) cert).

Definition auth_flags (useGatewayAPI : bool) (ms : list Module) : outcome AuthFlags :=
  foldO (λ f m, if decide (m_Name m = AuthorizationServer)
                then foldO (auth_component useGatewayAPI) f (m_Components m)
                else Ok f)
    (mkAuthFlags false false false) ms.

(** Only the first authorization module is looked at. *)
Definition auth_useGatewayAPI (ms : list Module) : bool :=
  match find_module AuthorizationServer ms with
  | Some m => okTrue (MinVersionCheck "v2.5.0" (m_ConfigVersion m))
  | None => false
  end.

Definition auth_deployments : list string :=
  ["proxy-server"; "redis-commander"; "redis-primary"; "role-service"; "storage-service";
   "tenant-service"; "authorization-controller"].

Definition auth_watched (ns : string) (f : AuthFlags) (name : string) : bool :=
  if decide (name = ns +:+ "-ingress-nginx-controller") then af_nginx f
  else if decide (name = ns +:+ "-nginx-gateway-controller") then af_gateway f
  else if cert_manager_name name then af_cert f
  else bool_decide (name ∈ auth_deployments).

Section module_status.
Context {W : Type} `{Client W} `{Host}.

Definition observabilityStatusCheck (instance : CSM) (op : OperatorConfig) : M (World W) bool :=
  let driverName := metrics_driver instance in
  flags ← lift (observability_flags driverName (sp_Modules (cr_Spec instance)));
  configVersion ← lift (GetVersion instance op);
  let namespace :=
    if Contains configVersion "v2.13" || Contains configVersion "v2.14"
    then ObservabilityNamespace else cr_Namespace instance in
  deployments ← listT Deployment (Some namespace) ∅;
  ok ← lift (check_deployments (observability_watched driverName flags) deployments);
  if negb ok then mret false
  else
    deployments ← listT Deployment (Some namespace) ∅;
    lift (check_deployments (λ n, cert_manager_name n && of_cert flags) deployments).

Definition authProxyStatusCheck (instance : CSM) : M (World W) bool :=
  let ms := sp_Modules (cr_Spec instance) in
  flags ← lift (auth_flags (auth_useGatewayAPI ms) ms);
  let authNamespace := cr_Namespace instance in
  deployments ← listT Deployment (Some authNamespace) ∅;
  lift (check_deployments (auth_watched authNamespace flags) deployments).

(** [checkModuleStatus[name]] *)
Definition checkModuleStatus (name : string) (instance : CSM) (op : OperatorConfig)
    : option (M (World W) bool) :=
  if decide (name = Observability) then Some (observabilityStatusCheck instance op)
  else if decide (name = AuthorizationServer) then Some (authProxyStatusCheck instance)
  else None.

(** the loop over the modules: [false] at the first one that is not running; a check that
    fails with an error counts as not running *)
Fixpoint modules_running (instance : CSM) (op : OperatorConfig) (ms : list Module)
    : M (World W) bool :=
  match ms with
  | [] => mret true
  | m :: ms' =>
      match checkModuleStatus (m_Name m) instance op with
      | Some check =>
          if m_Enabled m then
            r ← attempt check;
            match r with
            | inr true => modules_running instance op ms'
            | _ => mret false
            end
          else modules_running instance op ms'
      | None => modules_running instance op ms'
      end
  end.

(** ** Ingress controllers *)

Fixpoint any_ready (ds : list Deployment) : outcome bool :=
  match ds with
  | [] => Ok false
  | d :: ds' => ready ← checkFn d; if (ready : bool) then Ok true else any_ready ds'
  end.

Definition getNginxControllerStatus (instance : CSM) : M (World W) bool :=
  let ns := cr_Namespace instance in
  _ ← getT Deployment ns (ns +:+ "-ingress-nginx-controller");
  deployments ← listT Deployment (Some ns) {[ "app.kubernetes.io/name" := "ingress-nginx" ]};
  lift (any_ready deployments).

Definition getGatewayControllerStatus (instance : CSM) : M (World W) bool :=
  let ns := cr_Namespace instance in
  d ← getT Deployment ns (ns +:+ "-nginx-gateway-fabric");
  mret (match dp_Replicas d with
        | Some replicas => bool_decide (dps_ReadyReplicas (dp_Status d) = replicas)
        | None => false
        end).

Definition WaitForNginxController `{!Retry W} (instance : CSM) : M (World W) () :=
  PollUntilTimeout (getNginxControllerStatus instance).

Definition WaitForGatewayController `{!Retry W} (instance : CSM) : M (World W) () :=
  PollUntilTimeout (getGatewayControllerStatus instance).
End module_status.

(** ** Calculating and writing the status *)

Definition SetStatus (h : Instance) (newStatus : StatusPtr) : Instance :=
  let h := modify_status GetCSMStatus (set_st_State (st_State (read_status newStatus h))) h in
  let h := modify_status GetCSMStatus
             (set_st_ControllerStatus (st_ControllerStatus (read_status newStatus h))) h in
  modify_status GetCSMStatus (set_st_NodeStatus (st_NodeStatus (read_status newStatus h))) h.

(** The copy of the custom resource that is kept as the last configuration of an
    authorization server: without the annotation of kubectl, its managed fields and status. *)
Definition configuration_copy (cr : CSM) : CSM :=
  set_cr_Status zero_Status
    (set_cr_Meta
       (set_om_ManagedFields []
          (set_om_Annotations (delete kubectlLastApplied <$> om_Annotations (cr_Meta cr))
             (cr_Meta cr)))
       cr).

Record Result := mkResult { Requeue : bool }.

Section status.
Context {W : Type} `{Client W} `{Host} `{MapOrder} `{JSON} `{!Retry W}.

(** a driver with a daemon set *)
Definition has_node (cr : CSM) : bool :=
  bool_decide (cr_Name cr ≠ "") && negb (isAuthorizationProxyServer cr)
  && bool_decide (GetDriverType cr ≠ Cosi).

(** the status of the controller: from the event that is being handled, or from the
    deployment, whose lookup error is only logged *)
Definition controller_status (cr : CSM) (deploymentStatusOverride : option PodStatus)
    : M (World W) PodStatus :=
  match deploymentStatusOverride with
  | Some s => mret s
  | None => '(s, _) ← getDeploymentStatus cr; mret s
  end.

(** the end of [calculateState]: the state of a failed resource, [SetStatus], and the
    configuration of an authorization server that succeeded *)
Definition finish_state (h : Instance) (newStatus : StatusPtr) (running : bool) : Instance :=
  let h := if running then h else modify_status newStatus (set_st_State Failed) h in
  let h := SetStatus h newStatus in
  if isAuthorizationProxyServer (in_cr h)
     && bool_decide (st_State (cr_Status (in_cr h)) = Succeeded)
  then
    let out := match json_Marshal (configuration_copy (in_cr h)) with
               | inr out => out
               | inl _ => ""
               end in
    modify_status GetCSMStatus (set_st_LastSuccessful out) h
  else h.

Definition calculateState (h : Instance) (newStatus : StatusPtr) (op : OperatorConfig)
    (deploymentStatusOverride : option PodStatus)
    : M (World W) (Instance * bool * option error) :=
  let h := modify_status newStatus (set_st_State Succeeded) h in
  controllerStatus ← controller_status (in_cr h) deploymentStatusOverride;
  '(h, nodeStatusGood, err) ←
    (if has_node (in_cr h) then
       '(expected, nodeStatus, daemonSetErr) ← getDaemonSetStatus (in_cr h);
       mret (modify_status newStatus (set_st_NodeStatus nodeStatus) h,
             bool_decide (Itoa expected = ps_Available nodeStatus), daemonSetErr)
     else mret (h, true, None));
  let h := modify_status newStatus (set_st_ControllerStatus controllerStatus) h in
  running ←
    (if bool_decide (ps_Desired controllerStatus = ps_Available controllerStatus)
        && nodeStatusGood
     then modules_running (in_cr h) op (sp_Modules (cr_Spec (in_cr h)))
     else mret false);
  let h := finish_state h newStatus running in
  mret (h, running, err).

(** the closure that [UpdateStatus] retries *)
Definition put_status (cr : CSM) : M (World W) () :=
  csm ← getT CSM (cr_Namespace cr) (cr_Name cr);
  statusUpdate (OCSM (set_cr_Status (cr_Status cr) csm)).

Definition record_applied (h : Instance) (newStatus : StatusPtr) (running : bool) : Instance :=
  let replicas := d_Replicas (sp_Driver (cr_Spec (in_cr h))) in
  if bool_decide (ps_Desired (st_ControllerStatus (read_status newStatus h)) = Itoa replicas)
     && running
  then
    match om_Annotations (cr_Meta (in_cr h)) with
    | None => h
    | Some lastAnnotations =>
        let lastApplied := lookup_zero lastAnnotations PreviouslyApplied in
        if decide (lastApplied = "") then h
        else modify_status GetCSMStatus (set_st_LastSuccessful lastApplied) h
    end
  else h.

(** The instance after the call is the second result, whatever the error. *)
Definition UpdateStatus (h : Instance) (newStatus : StatusPtr) (op : OperatorConfig)
    (deploymentStatusOverride : option PodStatus) : M (World W) (Instance * option error) :=
  '(h, running, merr) ← calculateState h newStatus op deploymentStatusOverride;
  let h := record_applied h newStatus running in
  r ← attempt (RetryOnConflict (put_status (in_cr h)));
  match r with
  | inl err => mret (h, Some err)
  | inr _ =>
      if (running : bool) then mret (h, merr)
      else mret (h, Some (Errorf "calculateState returned CSM not running"))
  end.

Definition HandleValidationError (instance : CSM) (validationError : error)
    : M (World W) Result :=
  let instance := set_cr_Status (set_st_State Failed (cr_Status instance)) instance in
  _ ← ignoreErr (statusUpdate (OCSM instance));
  failM validationError.

Definition HandleSuccess (h : Instance) (newStatus oldStatus : StatusPtr) (op : OperatorConfig)
    : M (World W) (Instance * Result) :=
  let unitTestRun := DetermineUnitTestRun in
  '(h, running, err) ← calculateState h newStatus op None;
  let h := match err with
           | Some _ => modify_status newStatus (set_st_State Failed) h
           | None => h
           end in
  let h := if (running : bool) then modify_status newStatus (set_st_State Succeeded) h else h in
  mret (h, mkResult (negb running && negb unitTestRun)).
End status.

(** ** Properties *)

(** What [RetryOnConflict] may do: call the function, and again after a conflict. *)
Inductive retried {W} `{Client W} (f : M (World W) ()) : World W → outcome () → World W → Prop :=
  | retried_last w r w' : f w = (r, w') → retried f w r w'
  | retried_again w e w1 r w' :
      f w = (Fail e, w1) → IsConflict e = true → retried f w1 r w' → retried f w r w'.

(** What polling may do: call the condition until it is true, fails or panics, or give up. *)
Inductive polled {W} (f : M (World W) bool) : World W → outcome () → World W → Prop :=
  | polled_done w w' : f w = (Ok true, w') → polled f w (Ok ()) w'
  | polled_fail w e w' : f w = (Fail e, w') → polled f w (Fail e) w'
  | polled_panic w y w' : f w = (Panic y, w') → polled f w (Panic y) w'
  | polled_timeout w e w' : f w = (Ok false, w') → polled f w (Fail e) w'
  | polled_again w w1 r w' : f w = (Ok false, w1) → polled f w1 r w' → polled f w r w'.

Class RetryLaws (W : Type) `{Client W} `{!Retry W} : Prop := {
  retry_runs f w r w' : RetryOnConflict f w = (r, w') → retried f w r w';
  poll_runs f w r w' : PollUntilTimeout f w = (r, w') → polled f w r w'
}.

(** Five attempts, as [retry.DefaultRetry] has; three for polling. *)
Fixpoint retry_loop {W} `{Client W} (fuel : nat) (f : M (World W) ()) : M (World W) () := λ w,
  match f w, fuel with
  | (Fail e, w1), S fuel' => if IsConflict e then retry_loop fuel' f w1 else (Fail e, w1)
  | r, _ => r
  end.

Fixpoint poll_loop {W} (fuel : nat) (f : M (World W) bool) : M (World W) () := λ w,
  match f w with
  | (Ok true, w1) => (Ok (), w1)
  | (Ok false, w1) =>
      match fuel with
      | O => (Fail (Errorf "context deadline exceeded"), w1)
      | S fuel' => poll_loop fuel' f w1
      end
  | (Fail e, w1) => (Fail e, w1)
  | (Panic y, w1) => (Panic y, w1)
  end.

#[export] Instance loop_retry {W} `{Client W} : Retry W | 100 :=
  {| RetryOnConflict := retry_loop 4; PollUntilTimeout := poll_loop 2 |}.

#[export] Instance loop_retry_laws {W} `{Client W} : RetryLaws W.
Proof.
  split; unfold RetryOnConflict, PollUntilTimeout, loop_retry.
  - generalize 4. intros fuel f. induction fuel as [|fuel IH]; intros w r w'; simpl;
      destruct (f w) as [[[]|e|y] w1] eqn:E; try (by intros [= <- <-]; apply retried_last).
    destruct (IsConflict e) eqn:C.
    + intros E'. by eapply retried_again; [..|apply IH].
    + intros [= <- <-]. by apply retried_last.
  - generalize 2. intros fuel f. induction fuel as [|fuel IH]; intros w r w'; simpl;
      destruct (f w) as [[[]|e|y] w1] eqn:E; try intros [= <- <-];
      eauto using polled.
Qed.

Section reading.
Context {W : Type} `{Client W} `{!View W} `{!ClientLaws (W := W)} `{Host} `{MapOrder}.
#[local] Set Default Proof Using "All".

Lemma getDeploymentStatus_reads cr : reads (getDeploymentStatus cr).
Proof. unfold getDeploymentStatus, reads. solve_touches. Qed.

Lemma getDaemonSetStatus_reads cr : reads (getDaemonSetStatus cr).
Proof. unfold getDaemonSetStatus, reads. solve_touches. Qed.

Lemma checkModuleStatus_reads name cr op m :
  checkModuleStatus name cr op = Some m → reads m.
Proof.
  unfold checkModuleStatus, reads. repeat case_decide; intros [= <-].
  - unfold observabilityStatusCheck. solve_touches.
  - unfold authProxyStatusCheck. solve_touches.
Qed.

Lemma modules_running_reads cr op ms : reads (modules_running cr op ms).
Proof.
  induction ms as [|m ms IH]; [apply touches_ret|]. simpl.
  destruct (checkModuleStatus _ _ _) as [c|] eqn:E; [|done].
  destruct (m_Enabled m); [|done]. apply touches_bind.
  - apply touches_attempt. by eapply checkModuleStatus_reads.
  - intros [e|[]]; [apply touches_ret|done|apply touches_ret].
Qed.

Lemma controller_status_reads cr ov : reads (controller_status cr ov).
Proof.
  unfold controller_status. case_match; [apply touches_ret|].
  apply touches_bind; [apply getDeploymentStatus_reads|]. intros []. apply touches_ret.
Qed.

Context `{JSON}.

Lemma calculateState_reads h p op ov : reads (calculateState h p op ov).
Proof.
  unfold calculateState. apply touches_bind; [|intros ?; apply touches_bind; [|intros [[? ?] ?];
    apply touches_bind; [|intros; apply touches_ret]]].
  - apply controller_status_reads.
  - case_match; [|apply touches_ret]. apply touches_bind; [apply getDaemonSetStatus_reads|].
    intros [[]]. apply touches_ret.
  - case_match; [apply modules_running_reads|apply touches_ret].
Qed.
End reading.

(** ** Memory *)

(** Two memories whose custom resources differ at most in the status. *)
Definition same_cr (cr cr' : CSM) : Prop :=
  cr_Kind cr' = cr_Kind cr ∧ cr_Meta cr' = cr_Meta cr ∧ cr_Spec cr' = cr_Spec cr.

Lemma same_cr_refl cr : same_cr cr cr.
Proof. done. Qed.

Lemma same_cr_trans cr1 cr2 cr3 : same_cr cr1 cr2 → same_cr cr2 cr3 → same_cr cr1 cr3.
Proof. unfold same_cr. intros (? & ? & ?) (? & ? & ?). split_and!; congruence. Qed.

Lemma modify_same p f h : same_cr (in_cr h) (in_cr (modify_status p f h)).
Proof. by destruct p. Qed.

Lemma read_modify p f h : read_status p (modify_status p f h) = f (read_status p h).
Proof. destruct p; [done|]. simpl. by rewrite lookup_insert_eq. Qed.

Lemma modify_instance_State p f h :
  (∀ s, st_State (f s) = st_State s) →
  st_State (cr_Status (in_cr (modify_status p f h))) = st_State (cr_Status (in_cr h)).
Proof. intros Hf. destruct p; simpl; [apply Hf|done]. Qed.

Lemma SetStatus_spec h p :
  let s := read_status p h in
  let c := cr_Status (in_cr (SetStatus h p)) in
  st_State c = st_State s ∧ st_ControllerStatus c = st_ControllerStatus s
  ∧ st_NodeStatus c = st_NodeStatus s
  ∧ read_status p (SetStatus h p) = s ∧ same_cr (in_cr h) (in_cr (SetStatus h p)).
Proof. destruct p; [|done]. simpl. by destruct (cr_Status (in_cr h)). Qed.

(** ** Counting pods and deployments *)

Lemma count_pods pods r f em :
  ∃ em', foldl count_pod (r, f, em) pods
         = ((r + Z.of_nat (length (filter pod_running pods)))%Z,
            (f + Z.of_nat (length (filter pod_pending pods)))%Z, em').
Proof.
  revert r f em. induction pods as [|pod pods IH]; intros r f em; simpl.
  - exists em. by rewrite !Z.add_0_r.
  - rewrite !filter_cons.
    destruct (pod_pending pod), (pod_running pod);
      rewrite ?(decide_True (P := Is_true true)), ?(decide_False (P := Is_true false)) by (by simpl; auto);
      cbn [length];
      match goal with |- ∃ _, foldl _ (?r', ?f', ?em') _ = _ =>
        destruct (IH r' f' em') as [em2 ->]; exists em2 end;
      apply (f_equal2 (λ a b, (a, b, em2))); lia.
Qed.

Lemma checkFn_true d :
  checkFn d = Ok true ↔ dp_Replicas d = Some (dps_ReadyReplicas (dp_Status d)).
Proof.
  unfold checkFn. destruct (dp_Replicas d) as [n|]; simpl; [|naive_solver].
  split; [intros [= E]; apply bool_decide_eq_true in E; by subst|].
  intros [= ->]. by rewrite bool_decide_true.
Qed.

Lemma check_deployments_true watched ds :
  check_deployments watched ds = Ok true
  ↔ ∀ d, d ∈ ds → watched (om_Name (dp_Meta d)) = true →
      dp_Replicas d = Some (dps_ReadyReplicas (dp_Status d)).
Proof.
  setoid_rewrite <- checkFn_true.
  induction ds as [|d ds IH]; simpl; [split; [intros _ d Hd; by apply not_elem_of_nil in Hd|done]|].
  setoid_rewrite elem_of_cons.
  destruct (watched (om_Name (dp_Meta d))) eqn:E.
  - destruct (checkFn d) as [[]|e|y] eqn:C; simpl.
    + rewrite IH. split; [|auto]. intros Hd d' [->|Hd']; auto.
    + split; [done|]. intros Hd. specialize (Hd d (or_introl eq_refl) E). congruence.
    + split; [done|]. intros Hd. specialize (Hd d (or_introl eq_refl) E). congruence.
    + split; [done|]. intros Hd. specialize (Hd d (or_introl eq_refl) E). congruence.
  - rewrite IH. split; [|auto]. intros Hd d' [->|Hd']; [congruence|auto].
Qed.

(** ** The calculation of the state *)

Definition State_of (running : bool) : string := if running then Succeeded else Failed.

Lemma same_cr_has_node cr cr' : same_cr cr cr' → has_node cr' = has_node cr.
Proof.
  intros (_ & Em & Es). unfold has_node, isAuthorizationProxyServer, GetDriverType, cr_Name.
  by rewrite Em, Es.
Qed.

(** The part of a status that [SetStatus] copies. *)
Definition same_state (s s' : ContainerStorageModuleStatus) : Prop :=
  st_State s' = st_State s ∧ st_ControllerStatus s' = st_ControllerStatus s
  ∧ st_NodeStatus s' = st_NodeStatus s.

Lemma same_state_refl s : same_state s s.
Proof. done. Qed.

Section state.
Context {W : Type} `{Client W} `{Host} `{MapOrder} `{JSON}.
#[local] Set Default Proof Using "All".

Lemma finish_state_spec h p running :
  st_State (read_status p h) = Succeeded →
  let h' := finish_state h p running in
  same_cr (in_cr h) (in_cr h')
  ∧ same_state (set_st_State (State_of running) (read_status p h)) (cr_Status (in_cr h'))
  ∧ same_state (cr_Status (in_cr h')) (read_status p h').
Proof.
  intros Hs. unfold finish_state.
  set (h1 := if running then h else modify_status p (set_st_State Failed) h).
  assert (same_cr (in_cr h) (in_cr h1)) as C1 by (by destruct running, p).
  assert (read_status p h1 = set_st_State (State_of running) (read_status p h)) as R1.
  { unfold h1. destruct running; [|by rewrite read_modify].
    simpl. rewrite <- Hs. by destruct (read_status p h). }
  destruct (SetStatus_spec h1 p) as (Es & Ec & En & Er & C2). rewrite R1 in *.
  set (h2 := SetStatus h1 p) in *.
  assert (same_cr (in_cr h) (in_cr h2)) as C by (by eapply same_cr_trans).
  case_match; [|by split_and!; [..|rewrite Er]].
  split_and!; try done; destruct p; simpl in *; try done; try (by rewrite Er).
Qed.

Lemma same_cr_reads cr cr' : same_cr cr cr' →
  getDeploymentStatus cr' = getDeploymentStatus cr (W := W)
  ∧ getDaemonSetStatus cr' = getDaemonSetStatus cr (W := W)
  ∧ (∀ name op, checkModuleStatus name cr' op = checkModuleStatus name cr op (W := W))
  ∧ ∀ op ms, modules_running cr' op ms = modules_running cr op ms (W := W).
Proof.
  destruct cr, cr'. unfold same_cr. simpl. intros (-> & -> & ->). split_and!; try done.
  intros op ms. induction ms as [|m ms IH]; [done|]. simpl. by rewrite IH.
Qed.

(** The driver's pods as the calculation saw them. *)
Definition pods_seen (cr : CSM) (ov : option PodStatus) (controller node : PodStatus)
    (good : bool) (err : option error) (w w2 : World W) : Prop :=
  ∃ w1, controller_status cr ov w = (Ok controller, w1) ∧
    if has_node cr
    then ∃ expected, getDaemonSetStatus cr w1 = (Ok (expected, node, err), w2)
                     ∧ good = bool_decide (Itoa expected = ps_Available node)
    else good = true ∧ err = None ∧ w2 = w1.

Lemma calculateState_inv h p op ov w h' running err w' :
  calculateState h p op ov w = (Ok (h', running, err), w') →
  let st := cr_Status (in_cr h') in
  same_cr (in_cr h) (in_cr h') ∧ st_State st = State_of running
  ∧ same_state st (read_status p h')
  ∧ ∃ good w2, pods_seen (in_cr h) ov (st_ControllerStatus st) (st_NodeStatus st) good err w w2
      ∧ (running = true → good = true
           ∧ ps_Desired (st_ControllerStatus st) = ps_Available (st_ControllerStatus st))
      ∧ (good = true → ps_Desired (st_ControllerStatus st) = ps_Available (st_ControllerStatus st) →
         modules_running (in_cr h) op (sp_Modules (cr_Spec (in_cr h))) w2 = (Ok running, w')).
Proof.
  unfold calculateState. intros E.
  set (h1 := modify_status p (set_st_State Succeeded) h) in *.
  assert (same_cr (in_cr h) (in_cr h1)) as S1 by apply modify_same.
  assert (st_State (read_status p h1) = Succeeded) as R1 by (unfold h1; by rewrite read_modify).
  rewrite (same_cr_has_node _ _ S1) in E.
  apply M_bind_Ok in E as (cs & w1 & Ecs & E).
  apply M_bind_Ok in E as ([[h2 good] err2] & w2 & Enode & E).
  apply M_bind_Ok in E as (running' & w3 & Erun & E).
  injection E as Eh' -> -> ->.
  set (h3 := modify_status p (set_st_ControllerStatus cs) h2) in *.
  destruct (same_cr_reads _ _ S1) as (_ & Ed & _). unfold controller_status in Ecs.
  rewrite (proj1 (same_cr_reads _ _ S1)) in Ecs. fold (controller_status (in_cr h) ov) in Ecs.
  assert (same_cr (in_cr h1) (in_cr h2) ∧ st_State (read_status p h2) = Succeeded
    ∧ if has_node (in_cr h)
      then ∃ expected, getDaemonSetStatus (in_cr h) w1
             = (Ok (expected, st_NodeStatus (read_status p h2), err), w2)
           ∧ good = bool_decide (Itoa expected = ps_Available (st_NodeStatus (read_status p h2)))
      else good = true ∧ err = None ∧ w2 = w1) as (S2 & R2 & N).
  { destruct (has_node (in_cr h)); [|by injection Enode as <- <- <- <-].
    apply M_bind_Ok in Enode as ([[expected ns] e] & w4 & En & Enode).
    injection Enode as <- <- -> ->. rewrite read_modify, <- Ed.
    split_and!; [apply modify_same|done|]. by exists expected. }
  assert (same_cr (in_cr h2) (in_cr h3)) as S3 by apply modify_same.
  assert (read_status p h3 = set_st_ControllerStatus cs (read_status p h2)) as R3
    by apply read_modify.
  destruct (finish_state_spec h3 p running) as (S4 & Q1 & Q2); [by rewrite R3|].
  rewrite Eh' in *. destruct Q1 as (Q1 & Q3 & Q4). rewrite R3 in *. simpl in Q1, Q3, Q4.
  assert (same_cr (in_cr h) (in_cr h3)) as S13 by eauto using same_cr_trans.
  split_and!; [by eapply same_cr_trans|done|done|].
  rewrite Q3, Q4. exists good, w2. split_and!.
  - by exists w1.
  - intros ->. destruct (bool_decide (ps_Desired cs = ps_Available cs)) eqn:B, good;
      simpl in Erun; try discriminate. by apply bool_decide_eq_true in B.
  - intros -> B. rewrite bool_decide_true in Erun by done. simpl in Erun.
    destruct (same_cr_reads _ _ S13) as (_ & _ & _ & Em). rewrite Em in Erun.
    destruct S13 as (_ & _ & Es). by rewrite Es in Erun.
Qed.
End state.

Lemma Itoa_not_empty n : Itoa n ≠ "".
Proof.
  unfold Itoa. destruct n as [|p|p]; [done| |done].
  change (pretty (Npos p) ≠ ""). destruct (pretty_N_head (Npos p)) as (c & s & _ & E).
  by rewrite E.
Qed.

Definition auth_counts (ns : string) (f : AuthFlags) (n : string) : Prop :=
  n ∈ auth_deployments
  ∨ n ∈ ["cert-manager"; "cert-manager-cainjector"; "cert-manager-webhook"] ∧ af_cert f = true
  ∨ n = ns +:+ "-ingress-nginx-controller" ∧ af_nginx f = true
  ∨ n = ns +:+ "-nginx-gateway-controller" ∧ af_gateway f = true.

(** The names in the switch are told apart. *)
Lemma auth_watched_true ns f n : auth_watched ns f n = true ↔ auth_counts ns f n.
Proof.
  assert (∀ l m, Forall (λ x, String.length x < 25) l → String.length m = 25 →
    ns +:+ m ∉ l) as Hlong.
  { intros l m Hl Hm Hin. rewrite Forall_forall in Hl. apply Hl in Hin.
    rewrite length_append in Hin. lia. }
  assert (∀ m, String.length m = 25 → ns +:+ m ∉ auth_deployments) as H1
    by (intros; apply Hlong; [repeat constructor|done]).
  assert (∀ m, String.length m = 25 →
    ns +:+ m ∉ ["cert-manager"; "cert-manager-cainjector"; "cert-manager-webhook"]) as H2
    by (intros; apply Hlong; [repeat constructor|done]).
  unfold auth_watched, cert_manager_name, auth_counts.
  case_decide as E1; [subst|case_decide as E2; [subst|]].
  - split; [auto|]. intros [Hn|[[Hn _]|[[_ ?]|[Hn _]]]]; [| |done|by apply (inj _) in Hn].
    + by apply H1 in Hn.
    + by apply H2 in Hn.
  - split; [auto|]. intros [Hn|[[Hn _]|[[Hn _]|[_ ?]]]]; [| |by apply (inj _) in Hn|done].
    + by apply H1 in Hn.
    + by apply H2 in Hn.
  - destruct (bool_decide_reflect
      (n ∈ ["cert-manager"; "cert-manager-cainjector"; "cert-manager-webhook"])) as [Hc|Hc].
    + split; [auto|]. intros [Hn|[[_ ?]|[[? _]|[? _]]]]; [|done..].
      exfalso. rewrite !elem_of_cons in Hc. apply (bool_decide_eq_true_2 _) in Hn.
      destruct Hc as [->|[->|[->|Hc]]]; [vm_compute in Hn; done..|].
      by apply not_elem_of_nil in Hc.
    + rewrite bool_decide_eq_true. split; [auto|]. intros [?|[[? _]|[[? _]|[? _]]]]; done.
Qed.

Section claims.
Context {W : Type} `{Client W} `{!View W} `{!ClientLaws (W := W)} `{Host} `{MapOrder} `{JSON}.

(** The pods of the driver's daemon set are all running and ready. *)
Definition node_pods_ready (cr : CSM) (w : World W) : Prop :=
  ∃ ds pods w1 w2,
    seen w !! ("DaemonSet", (cr_Namespace cr, GetNodeName cr)) = Some (ODaemonSet ds)
    ∧ listT Pod (Some (cr_Namespace cr)) {[ "app" := cr_Name cr +:+ "-node" ]} w1 = (Ok pods, w2)
    ∧ Z.of_nat (length (filter pod_running pods)) = dn_DesiredNumberScheduled ds.

(** The controller as the calculation counts it: the event that is handled says so; or it is no
    driver that has one; or its deployment has as many pods available as it has; or looking the
    deployment up failed in [w], absence included, which counts as none of none. *)
Definition controller_up (cr : CSM) (ov : option PodStatus) (w : World W) : Prop :=
  match ov with
  | Some s => ps_Desired s = ps_Available s
  | None =>
      cr_Name cr = "" ∨ isAuthorizationProxyServer cr = true
      ∨ (∃ d, seen w !! ("Deployment", (cr_Namespace cr, GetControllerName cr))
                = Some (ODeployment d)
              ∧ dps_AvailableReplicas (dp_Status d) = dps_Replicas (dp_Status d))
      ∨ ∃ e, fst (getT Deployment (cr_Namespace cr) (GetControllerName cr) w) = Fail e
  end.

#[local] Set Default Proof Using "All".

Lemma controller_status_up cr ov w s w' :
  controller_status cr ov w = (Ok s, w') → ps_Desired s = ps_Available s → controller_up cr ov w.
Proof.
  unfold controller_status, controller_up. destruct ov as [s'|]; [by intros [= -> _]|].
  intros E Hs. apply M_bind_Ok in E as ([s' err] & w1 & E & E2). injection E2 as -> _.
  unfold getDeploymentStatus in E. case_decide as Hc; [destruct Hc; auto|].
  apply M_bind_Ok in E as (r & w2 & Er & E). unfold attempt in Er. right. right.
  destruct (getT Deployment _ _ w) as [[d|e|y] w3] eqn:G; [| |done]; injection Er as <- _.
  - left. apply getT_spec in G as [_ G]. exists d. split; [exact G|].
    injection E as <- _ _. simpl in Hs. symmetry. by apply (inj pretty) in Hs.
  - right. by exists e.
Qed.

Lemma getDaemonSetStatus_good cr w expected ns err w' :
  getDaemonSetStatus cr w = (Ok (expected, ns, err), w') →
  Itoa expected = ps_Available ns → node_pods_ready cr w.
Proof.
  unfold getDaemonSetStatus. intros E Hg.
  apply M_bind_Ok in E as (r & w1 & Er & E). unfold attempt in Er.
  destruct (getT DaemonSet _ _ w) as [[ds|e|y] w1'] eqn:G; [| |done].
  2:{ injection Er as <- <-. injection E as <- <- <- <-. by apply Itoa_not_empty in Hg. }
  injection Er as <- <-. apply getT_spec in G as [_ G].
  apply M_bind_Ok in E as (l & w2 & El & E). unfold attempt in El.
  destruct (listT Pod _ _ w1') as [[pods|e|y] w2'] eqn:L; [| |done].
  2:{ injection El as <- <-. injection E as <- <- <- <-. by apply Itoa_not_empty in Hg. }
  injection El as <- <-. exists ds, pods, w1', w2'. split_and!; [done|done|].
  destruct (count_pods pods 0 0 ∅) as [em C]. rewrite C in E.
  injection E as <- <- <- <-. simpl in Hg. unfold Itoa in Hg.
  apply (inj pretty) in Hg. by rewrite Z.add_0_l in Hg.
Qed.

Lemma same_cr_node_pods cr cr' w :
  same_cr cr cr' → node_pods_ready cr' w → node_pods_ready cr w.
Proof.
  intros (_ & Em & _). unfold node_pods_ready, GetNodeName, cr_Name, cr_Namespace.
  by rewrite Em.
Qed.

Lemma modules_running_true cr op ms w w' :
  modules_running cr op ms w = (Ok true, w') →
  ∀ m c, m ∈ ms → m_Enabled m = true → checkModuleStatus (m_Name m) cr op = Some c →
    ∃ w1 w2, c w1 = (Ok true, w2) ∧ seen w1 = seen w.
Proof.
  revert w. induction ms as [|m ms IH]; intros w E m' c Hm He Hc;
    [by apply not_elem_of_nil in Hm|].
  simpl in E. apply elem_of_cons in Hm as [->|Hm].
  - rewrite Hc, He in E. apply M_bind_Ok in E as (r & w1 & Er & E). unfold attempt in Er.
    destruct (c w) as [[b|e|y] w1'] eqn:C; [|by injection Er as <- <-|done].
    injection Er as <- <-. destruct b; [|done]. by exists w, w1'.
  - destruct (checkModuleStatus (m_Name m) cr op) as [c'|] eqn:Hc'; [|by eapply IH].
    destruct (m_Enabled m); [|by eapply IH].
    apply M_bind_Ok in E as (r & w1 & Er & E).
    assert (seen w1 = seen w) as Hs.
    { eapply (reads_seen (attempt c')); [|done].
      apply touches_attempt. by eapply checkModuleStatus_reads. }
    destruct r as [e|[]]; [done| |done].
    destruct (IH _ E m' c Hm He Hc) as (w2 & w3 & ? & Hs'). exists w2, w3. split; congruence.
Qed.


(** The lookup of the controller's deployment can fail without the state becoming
    Failed: a COSI driver without modules that are checked is Succeeded then. *)
Theorem calculateState_ignores_deployment_error h p op w e w1 :
  cr_Name (in_cr h) ≠ "" → GetDriverType (in_cr h) = Cosi →
  (∀ m, m ∈ sp_Modules (cr_Spec (in_cr h)) → m_Name m ≠ AuthorizationServer
                                             ∧ m_Name m ≠ Observability) →
  getT Deployment (cr_Namespace (in_cr h)) (cr_Name (in_cr h)) w = (Fail e, w1) →
  ∃ h', calculateState h p op None w = (Ok (h', true, None), w1)
        ∧ st_State (cr_Status (in_cr h')) = Succeeded.
Proof.
  intros Hn Hc Hm Hg.
  assert (isAuthorizationProxyServer (in_cr h) = false) as Ha.
  { unfold isAuthorizationProxyServer. destruct (find_module _ _) as [m|] eqn:F; [|done].
    apply find_module_Some in F as [F Hin]. by destruct (Hm m Hin). }
  assert (has_node (in_cr h) = false) as Hno.
  { unfold has_node. rewrite Hc, (bool_decide_false (Cosi ≠ Cosi)) by naive_solver.
    by rewrite andb_false_r. }
  set (h1 := modify_status p (set_st_State Succeeded) h).
  assert (same_cr (in_cr h) (in_cr h1)) as S1 by apply modify_same.
  assert (controller_status (in_cr h1) None w = (Ok emptyStatus, w1)) as Ec.
  { unfold controller_status. rewrite (proj1 (same_cr_reads _ _ S1)). unfold getDeploymentStatus.
    rewrite decide_False by (intros [?|?]; congruence). unfold GetControllerName. rewrite decide_True by done.
    unfold attempt, mbind, M_bind. by rewrite Hg. }
  assert (∀ cr ms v, (∀ m, m ∈ ms → m_Name m ≠ AuthorizationServer ∧ m_Name m ≠ Observability) →
    modules_running cr op ms v = (Ok true, v)) as Hmods.
  { intros cr ms v. induction ms as [|m ms IH]; intros Hms; [done|]. simpl.
    unfold checkModuleStatus. destruct (Hms m) as [? ?]; [by left|].
    rewrite !decide_False by done. apply IH. intros m' ?. apply Hms. by right. }
  destruct (calculateState h p op None w) as [r w'] eqn:E. revert E. unfold calculateState.
  fold h1. erewrite M_bind_step by exact Ec. rewrite (same_cr_has_node _ _ S1), Hno.
  erewrite M_bind_step by done. rewrite bool_decide_true by done. simpl andb. cbv iota.
  destruct S1 as (_ & _ & Es).
  erewrite M_bind_step; [|apply Hmods]; last first.
  { rewrite (proj2 (proj2 (modify_same p _ h1))), Es. apply Hm. }
  intros [= <- <-]. eexists. split; [done|].
  destruct (finish_state_spec (modify_status p (set_st_ControllerStatus emptyStatus) h1) p true)
    as (_ & (Q & _) & _); [unfold h1; by rewrite !read_modify|]. by rewrite Q.
Qed.

(** The check of an authorization server reads the deployments of its namespace and
    says running exactly when each one that counts has as many ready replicas as its spec
    asks for: the authorization services always, the ingress controller, the gateway
    controller and cert-manager when their component is enabled. Deployments of other names
    do not count. *)
Theorem authProxyStatusCheck_spec cr w b w' :
  authProxyStatusCheck cr w = (Ok b, w') →
  seen w' = seen w ∧
  ∃ f ds, listT Deployment (Some (cr_Namespace cr)) ∅ w = (Ok ds, w')
    ∧ auth_flags (auth_useGatewayAPI (sp_Modules (cr_Spec cr))) (sp_Modules (cr_Spec cr)) = Ok f
    ∧ (b = true ↔ ∀ d, d ∈ ds → auth_counts (cr_Namespace cr) f (om_Name (dp_Meta d)) →
         dp_Replicas d = Some (dps_ReadyReplicas (dp_Status d))).
Proof.
  intros E. split.
  { apply (reads_seen (authProxyStatusCheck cr) w (Ok b) w'); [|done].
    by apply (checkModuleStatus_reads AuthorizationServer cr (mkOperatorConfig false
      (mkK8sImagesConfig "" (mkK8sImages "" "" "" "" "" "" "" "" "" "")) "")). }
  unfold authProxyStatusCheck in E.
  apply M_bind_Ok in E as (f & w1 & Ef & E). injection Ef as Ef <-.
  apply M_bind_Ok in E as (ds & w2 & El & E). injection E as E <-.
  exists f, ds. split_and!; [done..|].
  setoid_rewrite <- auth_watched_true. rewrite <- check_deployments_true, E.
  destruct b; naive_solver.
Qed.

Context `{!Retry W} `{!RetryLaws W}.

Lemma retried_touches P f w r w' :
  touches P f → retried f w r w' → ∀ k, ¬ P k → seen w' !! k = seen w !! k.
Proof.
  intros Hf. induction 1 as [w r w' E|w e w1 r w' E _ _ IH]; intros k Hk; [by eapply Hf|].
  rewrite IH by done. by eapply Hf.
Qed.

Lemma touches_RetryOnConflict P f : touches P f → touches P (RetryOnConflict f).
Proof. intros Hf w r w' E. apply retry_runs in E. by eapply (retried_touches P f). Qed.

Lemma retried_Ok f w w' : retried f w (Ok ()) w' → ∃ w1, f w1 = (Ok (), w').
Proof.
  remember (Ok ()) as r eqn:Er. induction 1 as [w r w' E|]; subst; eauto.
Qed.

Lemma put_status_touches cr : touches (eq (obj_key (OCSM cr))) (put_status cr).
Proof.
  intros w r w' E k Hk. unfold put_status, mbind, M_bind in E.
  destruct (getT CSM _ _ w) as [[csm|e|y] w1] eqn:G;
    pose proof (getT_spec _ _ _ _ _ _ G) as [Hs _]; [|by injection E as <- <-; rewrite Hs..].
  apply getT_key in G. apply statusUpdate_spec in E as [E _]. rewrite E, Hs; [done|].
  intros ->. apply Hk. symmetry. exact G.
Qed.

Lemma put_status_Ok cr w w' : put_status cr w = (Ok (), w') →
  ∃ csm calls, w_calls w' = calls ++ [CStatusUpdate (OCSM csm) true]
    ∧ cr_Status csm = cr_Status cr ∧ obj_key (OCSM csm) = obj_key (OCSM cr).
Proof.
  unfold put_status. intros E. apply M_bind_Ok in E as (csm & w1 & G & E).
  apply getT_key in G. apply statusUpdate_calls in E.
  by exists (set_cr_Status (cr_Status cr) csm), (w_calls w1).
Qed.

Lemma record_applied_spec h p running :
  same_cr (in_cr h) (in_cr (record_applied h p running))
  ∧ st_State (cr_Status (in_cr (record_applied h p running))) = st_State (cr_Status (in_cr h)).
Proof. unfold record_applied. by repeat case_match. Qed.

Lemma UpdateStatus_run h p op ov w h' err w' :
  UpdateStatus h p op ov w = (Ok (h', err), w') →
  let key := obj_key (OCSM (in_cr h)) in
  (∀ k, key ≠ k → seen w' !! k = seen w !! k)
  ∧ same_cr (in_cr h) (in_cr h')
  ∧ (err = None →
       st_State (cr_Status (in_cr h')) = Succeeded
       ∧ ∃ csm calls, w_calls w' = calls ++ [CStatusUpdate (OCSM csm) true]
           ∧ cr_Status csm = cr_Status (in_cr h') ∧ obj_key (OCSM csm) = key).
Proof.
  unfold UpdateStatus. intros E. apply M_bind_Ok in E as ([[h1 running] merr] & w1 & C & E).
  pose proof (calculateState_reads h p op ov _ _ _ C) as Hr.
  apply calculateState_inv in C as (S1 & Q & _).
  destruct (record_applied_spec h1 p running) as [S2 Q2].
  set (h2 := record_applied h1 p running) in *.
  assert (same_cr (in_cr h) (in_cr h2)) as S by (by eapply same_cr_trans).
  assert (obj_key (OCSM (in_cr h2)) = obj_key (OCSM (in_cr h))) as K.
  { destruct S as (_ & Em & _). unfold obj_key. simpl. by rewrite Em. }
  apply M_bind_Ok in E as (r & w2 & U & E). unfold attempt in U.
  destruct (RetryOnConflict _ w1) as [ru wu] eqn:R.
  pose proof (touches_RetryOnConflict _ _ (put_status_touches (in_cr h2)) _ _ _ R) as Hf.
  apply retry_runs in R. rewrite K in Hf.
  assert (h' = h2 ∧ w' = wu) as [-> ->].
  { destruct ru; [..|done]; injection U as <- <-; [destruct running|]; by injection E. }
  split; [|split; [done|]].
  { intros k Hk. rewrite Hf by done. apply Hr. by intros []. }
  intros ->. destruct ru as [[]|e|y]; [|by injection U as <- <-|done]. injection U as <- <-.
  destruct running; [|done]. rewrite Q2, Q. split; [done|].
  apply retried_Ok in R as [w3 R]. apply put_status_Ok in R. by rewrite <- K.
Qed.

(** [UpdateStatus] changes nothing on the cluster but the custom resource, and in memory
    nothing of it but the status. When it reports no error the state is Succeeded and the
    last call was a successful update of the status subresource with exactly the status in
    memory; a state other than Succeeded is always reported as an error. *)
Theorem UpdateStatus_spec h p op ov w h' err w' :
  UpdateStatus h p op ov w = (Ok (h', err), w') →
  let key := obj_key (OCSM (in_cr h)) in
  (∀ k, key ≠ k → seen w' !! k = seen w !! k)
  ∧ same_cr (in_cr h) (in_cr h')
  ∧ (err = None →
       st_State (cr_Status (in_cr h')) = Succeeded
       ∧ ∃ csm calls, w_calls w' = calls ++ [CStatusUpdate (OCSM csm) true]
           ∧ cr_Status csm = cr_Status (in_cr h') ∧ obj_key (OCSM csm) = key).
Proof. apply UpdateStatus_run. Qed.

(** C40: [HandleValidationError] always gives the validation error back, and what it writes is the status of the custom resource, in state Failed
    whatever state was set before it. *)
Theorem HandleValidationError_spec cr e w r w' :
  HandleValidationError cr e w = (r, w') →
  r = Fail e
  ∧ (∀ k, obj_key (OCSM cr) ≠ k → seen w' !! k = seen w !! k)
  ∧ ∃ ok, w_calls w' = w_calls w
      ++ [CStatusUpdate (OCSM (set_cr_Status (set_st_State Failed (cr_Status cr)) cr)) ok].
Proof.
  unfold HandleValidationError, ignoreErr, statusUpdate, mbind, M_bind.
  set (o := OCSM (set_cr_Status _ cr)).
  destruct (call (api_StatusUpdate o) (CStatusUpdate o) w) as [r1 w1] eqn:E. intros E'.
  pose proof (statusUpdate_spec o w r1 w1 E) as [Hf _].
  assert (w' = w1 ∧ r = Fail e) as [-> ->].
  { pose proof (call_inv _ _ _ _ _ E) as (r0 & _ & Hr0). subst r1.
    by destruct r0; injection E' as <- <-. }
  split_and!; [done| |].
  - intros k Hk. by rewrite Hf.
  - revert E. unfold call. destruct (api_StatusUpdate o (w_api w)) as [r0 api].
    intros [= <- <-]. by eexists.
Qed.

(** [HandleSuccess] changes nothing on the cluster, asks for another reconciliation
    exactly when the resource is not running (and no unit test runs), and leaves the status
    that [newStatus] points to Succeeded when it runs and Failed when not, whatever error
    the calculation met. *)
Theorem HandleSuccess_spec h p q op w h' res w' :
  HandleSuccess h p q op w = (Ok (h', res), w') →
  seen w' = seen w ∧ same_cr (in_cr h) (in_cr h')
  ∧ ∃ running : bool,
      st_State (read_status p h') = (if running then Succeeded else Failed)
      ∧ Requeue res = negb running && negb DetermineUnitTestRun.
Proof.
  unfold HandleSuccess. intros E. apply M_bind_Ok in E as ([[h1 running] err] & w1 & C & E).
  pose proof (reads_seen _ _ _ _ (calculateState_reads h p op None) C) as Hr.
  apply calculateState_inv in C as (S1 & Q & (Qs & _) & _).
  injection E as <- <- <-. split; [done|]. split.
  - repeat case_match; eauto using same_cr_trans, modify_same.
  - exists running. split; [|done].
    unfold State_of in *. destruct running, err; rewrite ?read_modify; simpl; congruence.
Qed.
End claims.

(** ** A cluster on which the hypotheses hold *)

Definition demo_driver (driverType : string) : Driver :=
  {| d_CSIDriverType := driverType; d_CSIDriverSpec := None; d_ConfigVersion := "v2.17.0";
     d_Replicas := 1; d_DNSPolicy := ""; d_Common := None; d_Controller := None;
     d_Node := None; d_SideCars := []; d_InitContainers := []; d_SnapshotClass := [];
     d_AuthSecret := ""; d_TLSCertSecret := ""; d_ForceRemoveDriver := Some true;
     d_Metrics := None |}.

Definition demo_cr (driverType : string) (modules : list Module) : CSM :=
  mkCSM "ContainerStorageModule" (named "dell" "csm")
    (mkSpec "" (demo_driver driverType) modules "" false) zero_Status.

Definition demo_deployment (name : string) (ready : Z) : Object :=
  ODeployment (simple_deployment (named "dell" name) (Some 1%Z) None [container "main" "img"] []
    (mkDeploymentStatus 1 ready ready (1 - ready))).

Definition demo_daemonset : Object :=
  ODaemonSet (mkDaemonSet (named "dell" "csm-node") None [container "driver" "img"] 1 1 1 0).

Definition demo_pod : Object :=
  OPod (mkPod {| om_Name := "csm-node-x"; om_Namespace := "dell"; om_UID := "";
                 om_ResourceVersion := ""; om_Generation := 0; om_Deleting := false;
                 om_Labels := Some {[ "app" := "csm-node" ]}; om_Annotations := None;
                 om_Finalizers := []; om_OwnerReferences := None; om_ManagedFields := [] |}
          "Running" [None] [mkPodCondition "Ready" "True"]).

Definition demo_world (cr : CSM) : World Store :=
  world_of [OCSM cr; demo_deployment "csm-controller" 1; demo_daemonset; demo_pod] obeys.

Definition demo_json : JSON := {|
  json_Marshal cr := inr (cr_Name cr);
  json_Unmarshal s := inl (Errorf "invalid character")
|}.

Section witnesses.
#[local] Existing Instance demo_host.
#[local] Existing Instance demo_json.

Definition demo_instance (driverType : string) (ms : list Module) : Instance :=
  mkInstance (demo_cr driverType ms) ∅.


Lemma calculateState_ignores_deployment_error_witness :
  ∃ h', fst (calculateState (demo_instance Cosi []) GetCSMStatus demo_config None
             (demo_world (demo_cr Cosi []))) = Ok (h', true, None)
    ∧ st_State (cr_Status (in_cr h')) = Succeeded.
Proof.
  destruct (calculateState_ignores_deployment_error (demo_instance Cosi []) GetCSMStatus
    demo_config (demo_world (demo_cr Cosi []))
    (NotFound ("Deployment", ("dell", "csm"))) (snd (getT Deployment "dell" "csm"
      (demo_world (demo_cr Cosi []))))) as (h' & E & Hs).
  - by vm_compute.
  - reflexivity.
  - intros m Hm. by apply not_elem_of_nil in Hm.
  - vm_compute; reflexivity.
  - exists h'. split; [exact (f_equal fst E)|exact Hs].
Defined.

Definition demo_auth_module : Module :=
  mkModule AuthorizationServer true "v2.5.0" [] false [].

Lemma authProxyStatusCheck_spec_witness :
  let cr := demo_cr "" [demo_auth_module] in
  let w := world_of [demo_deployment "proxy-server" 0] obeys in
  authProxyStatusCheck cr w = (Ok false, snd (authProxyStatusCheck cr w))
  ∧ seen (snd (authProxyStatusCheck cr w)) = seen w.
Proof.
  intros cr w.
  assert (authProxyStatusCheck cr w = (Ok false, snd (authProxyStatusCheck cr w))) as E
    by (vm_compute; reflexivity).
  split; [exact E|]. exact (proj1 (authProxyStatusCheck_spec cr w false _ E)).
Defined.

Lemma UpdateStatus_spec_witness :
  ∃ h' w', UpdateStatus (demo_instance PowerFlex []) (Cell 0) demo_config None
             (demo_world (demo_cr PowerFlex [])) = (Ok (h', None), w')
    ∧ st_State (cr_Status (in_cr h')) = Succeeded.
Proof.
  assert (match fst (UpdateStatus (demo_instance PowerFlex []) (Cell 0) demo_config None
    (demo_world (demo_cr PowerFlex []))) with Ok (_, None) => true | _ => false end = true)
    as Ef by (vm_compute; reflexivity).
  destruct (UpdateStatus _ _ _ _ _) as [[[h' []]|e|y] w'] eqn:E; try discriminate Ef.
  exists h', w'. split; [reflexivity|].
  destruct (UpdateStatus_spec _ _ _ _ _ _ _ _ E) as (_ & _ & Hs).
  exact (proj1 (Hs eq_refl)).
Defined.

Lemma HandleValidationError_spec_witness :
  let cr := demo_cr PowerFlex [] in
  fst (HandleValidationError cr (Errorf "bad") (demo_world cr)) = Fail (Errorf "bad").
Proof.
  intros cr.
  exact (proj1 (HandleValidationError_spec cr (Errorf "bad") (demo_world cr) _ _
    (surjective_pairing _))).
Defined.

Lemma HandleSuccess_spec_witness :
  ∃ h' w', HandleSuccess (demo_instance PowerFlex []) GetCSMStatus GetCSMStatus demo_config
             (world_of [] obeys) = (Ok (h', mkResult true), w')
    ∧ seen w' = seen (world_of [] obeys).
Proof.
  assert (match fst (HandleSuccess (demo_instance PowerFlex []) GetCSMStatus GetCSMStatus
    demo_config (world_of [] obeys)) with Ok (_, r) => Requeue r | _ => false end = true)
    as Ef by (vm_compute; reflexivity).
  destruct (HandleSuccess _ _ _ _ _) as [[[h' [[]]]|e|y] w'] eqn:E; try discriminate Ef.
  exists h', w'. split; [reflexivity|].
  exact (proj1 (HandleSuccess_spec _ _ _ _ _ _ _ _ E)).
Defined.
End witnesses.
