(* ===== verification/Packages.v ===== *)
(** The interfaces between the reconciler and the packages it calls: pkg/drivers
    ([DriverPackage]), pkg/modules ([ModulePackage]) and k8s ([Discovery]). Each operation is a
    call of the function of that name; what it returns is what the caller uses of it. The
    theorems about the reconciler hold for every implementation of the interfaces. *)

From S2P Require Import Prelude.
From S2P Require Import GoStrings.
From S2P Require Import Types.
From S2P Require Import Versions.
From S2P Require Import Cluster.
From S2P Require Import Resources.
From stdpp Require Import options.

Local Open Scope stdpp_scope.

(** ** The manifests of a driver (pkg/operatorutils/utils.go, controllers) *)

Record RbacYAML := mkRbacYAML {
  rb_ServiceAccount : Resource;
  rb_ClusterRole : Resource;
  rb_ClusterRoleBinding : Resource;
  rb_Role : Resource;
  rb_RoleBinding : Resource
}.

Record ControllerYAML := mkControllerYAML { cy_Deployment : Workload; cy_Rbac : RbacYAML }.

Record NodeYAML := mkNodeYAML { ny_DaemonSet : Workload; ny_Rbac : RbacYAML }.

(** Driver and node are nil for a COSI driver. *)
Record DriverConfig := mkDriverConfig {
  dc_Driver : option Resource;
  dc_ConfigMap : ConfigMap;
  dc_Node : option NodeYAML;
  dc_Controller : ControllerYAML
}.

Definition set_rb_ClusterRole (v : Resource) (r : RbacYAML) : RbacYAML :=
  mkRbacYAML (rb_ServiceAccount r) v (rb_ClusterRoleBinding r) (rb_Role r) (rb_RoleBinding r).
Definition set_rb_Role (v : Resource) (r : RbacYAML) : RbacYAML :=
  mkRbacYAML (rb_ServiceAccount r) (rb_ClusterRole r) (rb_ClusterRoleBinding r) v (rb_RoleBinding r).

(** ** pkg/drivers

    Templates, modules and the images of a version are slices, pointers and maps that a callee
    shares with its caller: where a function writes to them, the result holds the custom
    resource, or the version, as the caller finds it afterwards; for a check also when it
    fails, with the error beside it. *)

Class DriverPackage (W : Type) := {
  GetCSIDriver : CSM → OperatorConfig → string → outcome Resource;
  GetConfigMap : CSM → OperatorConfig → string → outcome ConfigMap;
  GetNode : CSM → OperatorConfig → string → string → VersionSpec →
    M (World W) (NodeYAML * CSM * VersionSpec);
  GetController : CSM → OperatorConfig → string → VersionSpec →
    outcome (ControllerYAML * VersionSpec);
  PrecheckPowerScale : CSM → OperatorConfig → M (World W) (CSM * option error);
  PrecheckPowerFlex : CSM → OperatorConfig → M (World W) (CSM * option error);
  PrecheckPowerStore : CSM → OperatorConfig → M (World W) (CSM * option error);
  PrecheckUnity : CSM → OperatorConfig → M (World W) (CSM * option error);
  PrecheckPowerMax : CSM → OperatorConfig → M (World W) (CSM * option error);
  PrecheckCosi : CSM → OperatorConfig → M (World W) (CSM * option error);
  ValidateZones : CSM → M (World W) ();
  (** an error these return is dropped by their callers *)
  DynamicallyMountPowermaxContent : Workload → CSM → outcome Workload;
  RemoveVolume : Workload → string → outcome Workload;
  RemoveInitVolume : Workload → string → outcome Workload
}.

(** ** pkg/modules

    The names of the components of modules, and the package's functions. *)

Definition ObservabilityOtelCollectorName : string := "otel-collector".
Definition ObservabilityTopologyName : string := "topology".
Definition ObservabilityCertManagerComponent : string := "cert-manager".
Definition ObservabilityMetricsPowerScaleName : string := "metrics-powerscale".
Definition ObservabilityMetricsPowerFlexName : string := "metrics-powerflex".
Definition ObservabilityMetricsPowerMaxName : string := "metrics-powermax".
Definition ObservabilityMetricsPowerStoreName : string := "metrics-powerstore".
Definition AuthProxyServerComponent : string := "proxy-server".
Definition AuthNginxIngressComponent : string := "nginx".
Definition AuthGatewayComponent : string := "nginx-gateway-fabric".
Definition AuthCertManagerComponent : string := "cert-manager".

Class ModulePackage (W : Type) := {
  (* reverse proxy *)
  ReverseProxyServer : bool → OperatorConfig → CSM → M (World W) ();
  ReverseProxyStartService : bool → OperatorConfig → CSM → M (World W) ();
  ReverseProxyInjectDeployment :
    Workload → CSM → OperatorConfig → VersionSpec → M (World W) Workload;
  AddReverseProxyServiceName : Workload → outcome Workload;
  UpdatePowerMaxConfigMap : ConfigMap → CSM → outcome ConfigMap;
  ReverseProxyPrecheck : OperatorConfig → Module → CSM → M (World W) (CSM * option error);
  (* authorization *)
  AuthInjectDeployment : Workload → CSM → OperatorConfig → M (World W) (Workload * CSM);
  AuthInjectDaemonset : Workload → CSM → OperatorConfig → M (World W) (Workload * CSM);
  AuthorizationPrecheck : OperatorConfig → Module → CSM → M (World W) (CSM * option error);
  AuthorizationServerPrecheck : OperatorConfig → Module → CSM → M (World W) (CSM * option error);
  AuthCrdDeploy : OperatorConfig → CSM → M (World W) ();
  AuthorizationServerDeployment :
    bool → OperatorConfig → CSM → VersionSpec → M (World W) ();
  InstallPolicies : bool → OperatorConfig → CSM → M (World W) ();
  NginxIngressControllerCleanup : OperatorConfig → CSM → M (World W) ();
  NginxIngressController : bool → OperatorConfig → CSM → M (World W) ();
  GatewayController : bool → OperatorConfig → CSM → M (World W) ();
  AuthorizationIngress : bool → bool → CSM → M (World W) ();
  InstallWithCerts : bool → OperatorConfig → CSM → M (World W) ();
  (* resiliency *)
  ResiliencyInjectDeployment :
    Workload → CSM → OperatorConfig → string → VersionSpec → M (World W) Workload;
  ResiliencyInjectDaemonset :
    Workload → CSM → OperatorConfig → string → VersionSpec → M (World W) Workload;
  ResiliencyInjectClusterRole : Resource → CSM → OperatorConfig → string → M (World W) Resource;
  ResiliencyInjectRole : Resource → CSM → OperatorConfig → string → M (World W) Resource;
  ResiliencyPrecheck : OperatorConfig → Module → CSM → M (World W) (CSM * option error);
  (* replication *)
  ReplicationInjectDeployment :
    Workload → CSM → OperatorConfig → VersionSpec → M (World W) Workload;
  ReplicationInjectClusterRole : Resource → CSM → OperatorConfig → M (World W) Resource;
  ReplicationManagerController : bool → OperatorConfig → CSM → M (World W) ();
  CreateReplicationConfigmap : CSM → OperatorConfig → M (World W) ();
  DeleteReplicationConfigmap : M (World W) ();
  ReplicationCrdDeploy : OperatorConfig → CSM → M (World W) ();
  DeleteReplicationCrds : OperatorConfig → CSM → M (World W) ();
  ReplicationPrecheck : OperatorConfig → Module → CSM → M (World W) (CSM * option error);
  (* observability *)
  OtelCollector : bool → OperatorConfig → CSM → VersionSpec → M (World W) ();
  ObservabilityTopology : bool → OperatorConfig → CSM → VersionSpec → M (World W) ();
  PowerScaleMetrics : bool → OperatorConfig → CSM → M (World W) ();
  PowerFlexMetrics : bool → OperatorConfig → CSM → M (World W) ();
  PowerMaxMetrics : bool → OperatorConfig → CSM → M (World W) ();
  PowerStoreMetrics : bool → OperatorConfig → CSM → M (World W) ();
  IssuerCertServiceObs : bool → OperatorConfig → CSM → M (World W) ();
  ObservabilityPrecheck : OperatorConfig → Module → CSM → M (World W) (CSM * option error);
  (* shared *)
  CommonCertManager : bool → OperatorConfig → CSM → VersionSpec → M (World W) ();
  PatchCSMDRCRDs : bool → OperatorConfig → M (World W) ()
}.

(** ** What the checks may change

    A check leaves the request as it is, but for the components of modules; the check of a
    driver may also enable a module ([PrecheckPowerMax] does). [flag] relates the [Enabled] of a
    module before and after. *)

Definition module_keeps (flag : relation bool) (m m' : Module) : Prop :=
  m_Name m' = m_Name m ∧ m_ConfigVersion m' = m_ConfigVersion m
  ∧ flag (m_Enabled m) (m_Enabled m').

Record keeps (flag : relation bool) (cr cr' : CSM) : Prop := mkKeeps {
  keeps_meta : cr_Meta cr' = cr_Meta cr;
  keeps_version : sp_Version (cr_Spec cr') = sp_Version (cr_Spec cr);
  keeps_driver : sp_Driver (cr_Spec cr') = sp_Driver (cr_Spec cr);
  keeps_registry : sp_CustomRegistry (cr_Spec cr') = sp_CustomRegistry (cr_Spec cr);
  keeps_modules :
    Forall2 (module_keeps flag) (sp_Modules (cr_Spec cr)) (sp_Modules (cr_Spec cr'))
}.

(** An enabled module stays enabled. *)
Definition stays : relation bool := λ b b', b = true → b' = true.

#[export] Instance stays_preorder : PreOrder stays.
Proof. split; unfold stays; [by intros b|by intros b c d; auto]. Qed.

#[export] Instance keeps_preorder flag `{!PreOrder flag} : PreOrder (keeps flag).
Proof.
  split.
  - intros cr. split; [done..|]. apply Forall_Forall2_diag, Forall_forall. intros m _.
    by split_and!.
  - intros cr1 cr2 cr3 [] []. split; try congruence. eapply Forall2_trans; [|done..].
    intros m1 m2 m3 (? & ? & ?) (? & ? & ?). split_and!; try congruence. by etrans.
Qed.

Lemma keeps_weaken (flag flag' : relation bool) cr cr' :
  (∀ b b', flag b b' → flag' b b') → keeps flag cr cr' → keeps flag' cr cr'.
Proof.
  intros Hf []. split; try done. eapply Forall2_impl; [done|].
  intros m m' (? & ? & ?). split_and!; auto.
Qed.

Lemma keeps_find_module flag t ms ms' :
  Forall2 (module_keeps flag) ms ms' →
  m_ConfigVersion <$> find_module t ms' = m_ConfigVersion <$> find_module t ms.
Proof.
  induction 1 as [|m m' ms ms' (Hn & Hv & _) _ IH]; [done|]. simpl. rewrite Hn.
  case_decide; [|done]. simpl. by rewrite Hv.
Qed.

Lemma keeps_HasModule flag cr cr' t : keeps flag cr cr' → HasModule cr' t = HasModule cr t.
Proof.
  intros []. pose proof (keeps_find_module flag t _ _ keeps_modules0) as E.
  unfold HasModule. by destruct (find_module t (sp_Modules (cr_Spec cr'))),
    (find_module t (sp_Modules (cr_Spec cr))).
Qed.

Lemma keeps_GetVersion `{Host} `{MapOrder} flag cr cr' op :
  keeps flag cr cr' → GetVersion cr' op = GetVersion cr op.
Proof.
  intros []. pose proof (keeps_find_module flag AuthorizationServer _ _ keeps_modules0) as E.
  unfold GetVersion. rewrite keeps_version0, keeps_driver0.
  destruct (find_module _ (sp_Modules (cr_Spec cr'))), (find_module _ (sp_Modules (cr_Spec cr)));
    simpl in E; simplify_eq; [by rewrite E|done].
Qed.

Section laws.
Context {W : Type}.

Definition check_keeps (flag : relation bool)
    (f : CSM → OperatorConfig → M (World W) (CSM * option error)) : Prop :=
  ∀ cr op w cr' err w', f cr op w = (Ok (cr', err), w') → keeps flag cr cr'.

Class DriverLaws `{!DriverPackage W} : Prop := {
  driver_checks : Forall (check_keeps stays)
    [PrecheckPowerScale; PrecheckPowerFlex; PrecheckPowerStore; PrecheckUnity; PrecheckPowerMax;
     PrecheckCosi]
}.

Class ModuleLaws `{!ModulePackage W} : Prop := {
  module_checks : Forall (λ f, ∀ m, check_keeps eq (λ cr op, f op m cr))
    [AuthorizationPrecheck; AuthorizationServerPrecheck; ReplicationPrecheck; ResiliencyPrecheck;
     ObservabilityPrecheck; ReverseProxyPrecheck]
}.
End laws.

(** The API groups of the cluster, through client-go's discovery. *)
Class Discovery (W : Type) := { ServerGroups : M (World W) (list string) }.

Section packages.
Context {W : Type}.

(** k8s/client.go *)
Definition IsHarvester `{!Discovery W} : M (World W) bool :=
  groups ← ServerGroups;
  mret (existsb (λ g, HasSuffix g "harvesterhci.io") groups).

(** [_ = f(&d)]: an error is dropped and leaves [d] as it is *)
Definition dropErr {A} (m : outcome A) (a : A) : M (World W) A :=
  lift (match m with
        | Fail _ => Ok a
        | _ => m
        end).

(** [IsReverseProxySidecar]: the variable [deployAsSidecar] *)
Definition IsReverseProxySidecar : M (World W) bool := λ w, (Ok (w_deployAsSidecar w), w).
End packages.

(** [GetDriverCommonEnv] of pkg/drivers/commonconfig.go *)
Definition GetDriverCommonEnv (cr : CSM) (envName defaultValue : string) : string :=
  match d_Common (sp_Driver (cr_Spec cr)) with
  | None => defaultValue
  | Some common =>
      match list_find (λ env, ev_Name env = envName ∧ ev_Value env ≠ "")
              (default [] (ct_Envs common)) with
      | Some (_, env) => ev_Value env
      | None => defaultValue
      end
  end.
