(* ===== verification/Manifests.v ===== *)
(** Reading the manifests of the operator's configuration (pkg/operatorutils/utils.go):
    [SplitYaml], [GetCTRLObject], [GetModuleComponentObj], [GetDriverYaml] and the
    substitutions of [ModifyCommonCR].

    The YAML packages are the parameter [ManifestCodec]. *)

From S2P Require Import Prelude.
From S2P Require Import GoStrings.
From S2P Require Import Types.
From S2P Require Import Versions.
From S2P Require Import Images.
From S2P Require Import Cluster.
From S2P Require Import Resources.
From S2P Require Import Packages.
From Stdlib Require Import Ascii.
From stdpp Require Import options.

Local Open Scope stdpp_scope.

(** ** Decoding *)

Class ManifestCodec := {
  Value : Type;
  (** what the calls of a decoder's [Decode] return one after the other, up to [io.EOF] *)
  goYAML_Decode : string → list (error + Value);
  goYAML_Marshal : Value → error + string;
  (** [yamlUnmarshal] into a [TypeMeta] (its kind) and into the Go types of the manifests; of a
      type that the operator only passes on, named by its kind, the metadata and the rest *)
  yaml_TypeMeta : string → error + string;
  yaml_Resource : string → string → error + ObjectMeta * string;
  (** metadata, file system group policy and the rest of a CSIDriver *)
  yaml_CSIDriver : string → error + ObjectMeta * option string * string;
  (** metadata, rules and the rest of a Role or ClusterRole *)
  yaml_Role : string → error + ObjectMeta * list PolicyRule * string;
  yaml_Deployment : string → error + Deployment;
  yaml_DaemonSet : string → error + DaemonSet;
  yaml_ConfigMap : string → error + ConfigMap;
  yaml_Secret : string → error + Secret;
  yaml_Workload : string → error + Workload;
  (** parts of manifests: the rules, the container and the volumes that a module adds *)
  yaml_Rules : string → error + list PolicyRule;
  yaml_Container : string → error + ContainerApply;
  yaml_Volumes : string → error + list VolumeApply;
  (** [yaml.Marshal] of an object, and the node selector and tolerations set in a deployment *)
  yaml_MarshalObject : Object → error + string;
  with_placement : gomap → list Toleration → Deployment → Deployment
}.

Section manifests.
Context `{ManifestCodec}.

(** the encoding of an empty document *)
Definition nullByte : string := "null" +:+ String newline "".

Definition SplitYaml (gaintYAML : string) : outcome (list string) :=
  foldO (λ docs value,
      value ← res value;
      valueBytes ← res (goYAML_Marshal value);
      Ok (if decide (valueBytes = nullByte) then docs else docs ++ [valueBytes]))
    [] (goYAML_Decode gaintYAML).

(** [yamlUnmarshal] into the type of that kind *)
Definition decode_resource (kind raw : string) : outcome Resource :=
  if decide (kind ∈ ["Role"; "ClusterRole"]) then
    '(meta, rules, rest) ← res (yaml_Role raw);
    Ok (mkResource kind meta (RulesBody rules rest))
  else
    '(meta, rest) ← res (yaml_Resource kind raw);
    Ok (mkResource kind meta (Manifest rest)).

Definition decode_object (kind raw : string) : outcome Object :=
  if decide (kind = "Deployment") then ODeployment <$> res (yaml_Deployment raw)
  else if decide (kind = "DaemonSet") then ODaemonSet <$> res (yaml_DaemonSet raw)
  else if decide (kind = "ConfigMap") then OConfigMap <$> res (yaml_ConfigMap raw)
  else if decide (kind = "Secret") then OSecret <$> res (yaml_Secret raw)
  else OOther <$> decode_resource kind raw.

(** The loop over the documents: a document of no known kind is left out. *)
Definition decode_step (kinds : list string) (objs : list Object) (raw : string)
    : outcome (list Object) :=
  kind ← res (yaml_TypeMeta raw);
  if decide (kind ∈ kinds) then
    o ← decode_object kind raw;
    Ok (objs ++ [o])
  else Ok objs.

Definition ctrl_kinds : list string :=
  ["ServiceAccount"; "ClusterRole"; "ClusterRoleBinding"; "Service"; "ConfigMap"; "Deployment"].

Definition GetCTRLObject (CtrlBuf : string) : outcome (list Object) :=
  bufs ← SplitYaml CtrlBuf;
  foldO (decode_step ctrl_kinds) [] bufs.

Definition module_kinds : list string :=
  ["CustomResourceDefinition"; "ServiceAccount"; "ClusterRole"; "ClusterRoleBinding"; "Role";
   "RoleBinding"; "Service"; "PersistentVolumeClaim"; "Job"; "IngressClass"; "Ingress";
   "ValidatingWebhookConfiguration"; "MutatingWebhookConfiguration"; "ConfigMap"; "Secret";
   "Deployment"; "DaemonSet"; "Issuer"; "Certificate"; "StatefulSet"; "StorageClass";
   "PersistentVolume"; "Namespace"; "GatewayClass"; "Gateway"; "HTTPRoute"; "NginxGateway";
   "NginxProxy"].

Definition GetModuleComponentObj (CtrlBuf : string) : outcome (list Object) :=
  bufs ← SplitYaml CtrlBuf;
  foldO (decode_step module_kinds) [] bufs.

(** ** The manifest of a driver *)

(** the [interface{}] that [GetDriverYaml] returns *)
Inductive DriverYaml :=
  | ControllerManifest (y : ControllerYAML)
  | NodeManifest (y : NodeYAML).

Definition zero_Resource (kind : string) (b : Body) : Resource := mkResource kind zero_ObjectMeta b.

Definition zero_RbacYAML : RbacYAML :=
  mkRbacYAML (zero_Resource "ServiceAccount" (Manifest ""))
    (zero_Resource "ClusterRole" (RulesBody [] ""))
    (zero_Resource "ClusterRoleBinding" (Manifest ""))
    (zero_Resource "Role" (RulesBody [] "")) (zero_Resource "RoleBinding" (Manifest "")).

(** Later documents of a kind replace earlier ones. *)
Definition driver_step (kind : string) (st : RbacYAML * string) (raw : string)
    : outcome (RbacYAML * string) :=
  let '(rbac, podBuf) := st in
  let '(mkRbacYAML sa cr crb role rb) := rbac in
  metaKind ← res (yaml_TypeMeta raw);
  if decide (metaKind = kind) then Ok (rbac, raw)
  else if decide (metaKind = "ServiceAccount") then
    sa ← decode_resource "ServiceAccount" raw; Ok (mkRbacYAML sa cr crb role rb, podBuf)
  else if decide (metaKind = "ClusterRole") then
    cr ← decode_resource "ClusterRole" raw; Ok (mkRbacYAML sa cr crb role rb, podBuf)
  else if decide (metaKind = "ClusterRoleBinding") then
    crb ← decode_resource "ClusterRoleBinding" raw; Ok (mkRbacYAML sa cr crb role rb, podBuf)
  else if decide (metaKind = "Role") then
    role ← decode_resource "Role" raw; Ok (mkRbacYAML sa cr crb role rb, podBuf)
  else if decide (metaKind = "RoleBinding") then
    rb ← decode_resource "RoleBinding" raw; Ok (mkRbacYAML sa cr crb role rb, podBuf)
  else Ok (rbac, podBuf).

Definition GetDriverYaml (YamlString kind : string) : outcome DriverYaml :=
  bufs ← SplitYaml YamlString;
  '(rbac, podBuf) ← foldO (driver_step kind) (zero_RbacYAML, "") bufs;
  if decide (kind = "Deployment") then
    dp ← res (yaml_Workload podBuf);
    Ok (ControllerManifest (mkControllerYAML dp rbac))
  else if decide (kind = "DaemonSet") then
    dsac ← res (yaml_Workload podBuf);
    Ok (NodeManifest (mkNodeYAML dsac rbac))
  else Fail (Errorf ("unsupported kind " +:+ kind)).
End manifests.

(** ** Substitution *)

Definition DefaultReleaseName : string := "<DriverDefaultReleaseName>".
Definition DefaultReleaseNamespace : string := "<DriverDefaultReleaseNamespace>".
Definition DefaultImagePullPolicy : string := "IfNotPresent".
Definition KubeletConfigDir : string := "<KUBELET_CONFIG_DIR>".
Definition DefaultKubeletConfigDir : string := "/var/lib/kubelet".

(** the first variable of that name, as a loop with [break] finds it *)
Definition first_env (name : string) (envs : list EnvVar) : option EnvVar :=
  snd <$> list_find (λ env, ev_Name env = name) envs.

Definition ModifyCommonCR (YamlString : string) (cr : CSM) : string :=
  let y := YamlString in
  let y := if decide (cr_Name cr ≠ "") then ReplaceAll y DefaultReleaseName (cr_Name cr) else y in
  let y := if decide (cr_Namespace cr ≠ "")
           then ReplaceAll y DefaultReleaseNamespace (cr_Namespace cr) else y in
  let '(y, path) :=
    match d_Common (sp_Driver (cr_Spec cr)) with
    | Some common =>
        (if decide (ct_ImagePullPolicy common ≠ "")
         then ReplaceAll y DefaultImagePullPolicy (ct_ImagePullPolicy common) else y,
         match first_env "KUBELET_CONFIG_DIR" (default [] (ct_Envs common)) with
         | Some env => ev_Value env
         | None => DefaultKubeletConfigDir
         end)
    | None => (y, DefaultKubeletConfigDir)
    end in
  ReplaceAll y KubeletConfigDir path.

(** ** Properties *)

Section claims.
Context `{ManifestCodec}.

Lemma decode_resource_kind kind raw r : decode_resource kind raw = Ok r → rs_Kind r = kind.
Proof.
  unfold decode_resource. case_decide; intros E; apply outcome_bind_Ok in E as (x & _ & E).
  - destruct x as [[meta rules] rest]. by injection E as <-.
  - destruct x as [meta rest]. by injection E as <-.
Qed.

Lemma decode_object_kind kind raw o : decode_object kind raw = Ok o → obj_kind o = kind.
Proof.
  unfold decode_object. repeat (case_decide; [subst|]).
  1-4: match goal with |- context [res ?x] => destruct x end; intros E; by simplify_eq/=.
  destruct (decode_resource kind raw) as [r|e|p] eqn:Er; intros E; simplify_eq/=.
  by eapply decode_resource_kind.
Qed.

(** A document and its kind. *)
Definition has_kind (raw kind : string) : Prop := yaml_TypeMeta raw = inr kind.

Lemma decode_step_Ok kinds objs raw objs' :
  decode_step kinds objs raw = Ok objs' ↔
  ∃ k, has_kind raw k
    ∧ if decide (k ∈ kinds) then ∃ o, decode_object k raw = Ok o ∧ objs' = objs ++ [o]
      else objs' = objs.
Proof.
  unfold decode_step, has_kind. rewrite outcome_bind_Ok. split.
  - intros (k & Ek & E). destruct (yaml_TypeMeta raw) as [e|k']; [done|]. simplify_eq/=.
    exists k. split; [done|]. case_decide; [|by simplify_eq].
    apply outcome_bind_Ok in E as (o & Eo & E). simplify_eq. eauto.
  - intros (k & Ek & E). exists k. rewrite Ek. split; [done|]. case_decide; [|by subst].
    destruct E as (o & Eo & ->). by rewrite Eo.
Qed.

(** What the loop keeps: the documents of a known kind, decoded, in their order. *)
Lemma decode_fold kinds objs0 raws objs :
  foldO (decode_step kinds) objs0 raws = Ok objs ↔
  ∃ ks new, Forall2 has_kind raws ks
    ∧ Forall2 (λ p o, decode_object p.2 p.1 = Ok o) (filter (λ p, p.2 ∈ kinds) (zip raws ks)) new
    ∧ objs = objs0 ++ new.
Proof.
  revert objs0. induction raws as [|raw raws IH]; intros objs0.
  - split; [intros [= <-]; exists [], []; by rewrite app_nil_r|].
    intros (ks & new & Hk & Hn & ->). apply Forall2_nil_inv_l in Hk as ->.
    apply Forall2_nil_inv_l in Hn as ->. by rewrite app_nil_r.
  - cbn [foldO]. rewrite outcome_bind_Ok. setoid_rewrite decode_step_Ok. split.
    + intros (objs1 & (k & Hk & E1) & E). apply IH in E as (ks & new & Hks & Hn & ->).
      destruct (decide (k ∈ kinds)) as [Hin|Hin].
      * destruct E1 as (o & Eo & ->). exists (k :: ks), (o :: new). cbn [zip zip_with].
        rewrite filter_cons_True by done. rewrite <- app_assoc.
        split_and!; [by constructor..|done].
      * subst. exists (k :: ks), new. cbn [zip zip_with]. rewrite filter_cons_False by done.
        split_and!; [by constructor|done|done].
    + intros (ks' & new & Hk & Hn & ->).
      apply Forall2_cons_inv_l in Hk as (k & ks & Hk & Hks & ->). cbn [zip zip_with] in Hn.
      destruct (decide (k ∈ kinds)) as [Hin|Hin].
      * rewrite filter_cons_True in Hn by done.
        apply Forall2_cons_inv_l in Hn as (o & new' & Ho & Hn & ->).
        exists (objs0 ++ [o]). split; [exists k; rewrite decide_True by done; eauto|].
        apply IH. exists ks, new'. by rewrite <- app_assoc.
      * rewrite filter_cons_False in Hn by done. exists objs0. split.
        { exists k. by rewrite decide_False. }
        apply IH. by exists ks, new.
Qed.

Lemma ctrl_kinds_known kind : kind ∈ ctrl_kinds → kind ∈ module_kinds.
Proof.
  assert (Forall (λ k, k ∈ module_kinds) ctrl_kinds) as Hf by decide_goal.
  rewrite Forall_forall in Hf. apply Hf.
Qed.

Lemma GetModuleComponentObj_iff CtrlBuf objs :
  GetModuleComponentObj CtrlBuf = Ok objs ↔
    ∃ docs ks, SplitYaml CtrlBuf = Ok docs ∧ Forall2 has_kind docs ks
      ∧ Forall2 (λ p o, decode_object p.2 p.1 = Ok o)
          (filter (λ p, p.2 ∈ module_kinds) (zip docs ks)) objs.
Proof.
  unfold GetModuleComponentObj. rewrite outcome_bind_Ok. split.
  - intros (docs & Hs & E). apply decode_fold in E as (ks & new & ? & ? & ->). eauto.
  - intros (docs & ks & Hs & Hk & Hn). exists docs. split; [done|].
    apply decode_fold. by exists ks, objs.
Qed.

Lemma GetModuleComponentObj_kinds CtrlBuf objs :
  GetModuleComponentObj CtrlBuf = Ok objs → Forall (λ o, obj_kind o ∈ module_kinds) objs.
Proof.
  intros (docs & ks & Hs & Hk & Hn)%GetModuleComponentObj_iff.
  apply Forall_forall. intros o Ho. apply list_elem_of_lookup in Ho as [i Hi].
  destruct (Forall2_lookup_r _ _ _ _ _ Hn Hi) as ([raw k] & Hp & Ho).
  apply list_elem_of_lookup_2, list_elem_of_filter in Hp as [Hp _].
  by apply decode_object_kind in Ho as ->.
Qed.

(** C20: the objects of a manifest are its documents of the known kinds, in their order, each
    decoded as the type of its kind; documents of other kinds are dropped without an error; an
    error in the kind of any document, or in the content of a known one, fails the whole
    manifest. [GetCTRLObject] gives the part of it whose kinds it knows. *)
Theorem GetModuleComponentObj_spec CtrlBuf :
  (∀ objs, GetModuleComponentObj CtrlBuf = Ok objs ↔
     ∃ docs ks, SplitYaml CtrlBuf = Ok docs ∧ Forall2 has_kind docs ks
       ∧ Forall2 (λ p o, decode_object p.2 p.1 = Ok o)
           (filter (λ p, p.2 ∈ module_kinds) (zip docs ks)) objs)
  ∧ (∀ objs, GetModuleComponentObj CtrlBuf = Ok objs →
       Forall (λ o, obj_kind o ∈ module_kinds) objs
       ∧ GetCTRLObject CtrlBuf = Ok (filter (λ o, obj_kind o ∈ ctrl_kinds) objs)).
Proof.
  pose proof (GetModuleComponentObj_iff CtrlBuf) as Hiff.
  split; [exact Hiff|]. intros objs E. split; [by eapply GetModuleComponentObj_kinds|].
  apply Hiff in E as (docs & ks & Hs & Hk & Hn).
  unfold GetCTRLObject. rewrite Hs. apply decode_fold.
  eexists ks, _. split_and!; [done| |reflexivity].
  apply (Forall2_filter _ (λ p, p.2 ∈ ctrl_kinds) (λ o, obj_kind o ∈ ctrl_kinds)) in Hn.
  - rewrite list_filter_filter_l in Hn; [exact Hn|].
    intros p. by apply ctrl_kinds_known.
  - intros [raw k] o Ho. by apply decode_object_kind in Ho as ->.
Qed.

(** The last document of a kind. *)
Fixpoint last_doc (kind : string) (raws : list string) : option string :=
  match raws with
  | [] => None
  | raw :: raws' =>
      match last_doc kind raws' with
      | Some r => Some r
      | None => if decide (yaml_TypeMeta raw = inr kind) then Some raw else None
      end
  end.

Definition rbac_fields : list (string * (RbacYAML → Resource)) :=
  [("ServiceAccount", rb_ServiceAccount); ("ClusterRole", rb_ClusterRole);
   ("ClusterRoleBinding", rb_ClusterRoleBinding); ("Role", rb_Role);
   ("RoleBinding", rb_RoleBinding)].

Lemma driver_step_Ok kind rbac pod raw rbac' pod' :
  kind ∉ rbac_fields.*1 →
  driver_step kind (rbac, pod) raw = Ok (rbac', pod') →
  pod' = (if decide (yaml_TypeMeta raw = inr kind) then raw else pod)
  ∧ ∀ k f, (k, f) ∈ rbac_fields →
      if decide (yaml_TypeMeta raw = inr k) then decode_resource k raw = Ok (f rbac')
      else f rbac' = f rbac.
Proof.
  intros Hkind. unfold driver_step. destruct rbac as [sa cr crb role rb].
  destruct (yaml_TypeMeta raw) as [e|mk]; [done|]. cbn [res mbind outcome_bind].
  destruct (decide (mk = kind)) as [->|Hk].
  { intros [= <- <-]. rewrite decide_True by done. split; [done|]. intros k f Hf.
    rewrite decide_False; [done|]. intros [= ->]. apply Hkind.
    apply list_elem_of_fmap. by exists (k, f). }
  rewrite (decide_False (P := inr mk = inr kind)) by congruence.
  intros E. assert (pod' = pod) as ->.
  { repeat (case_decide; [apply outcome_bind_Ok in E as (? & _ & E); by injection E|]).
    by injection E. }
  split; [done|]. unfold rbac_fields. intros k f. rewrite !elem_of_cons, elem_of_nil.
  intros Hf. destruct_or! Hf; try done; injection Hf as -> ->;
    repeat (case_decide; [try (apply outcome_bind_Ok in E as (x & Ex & E));
      try (injection E as <-); simplify_eq/=; try done|]);
    try (injection E as <-); congruence.
Qed.

Lemma driver_fold kind raws : kind ∉ rbac_fields.*1 → ∀ rbac pod rbac' pod',
  foldO (driver_step kind) (rbac, pod) raws = Ok (rbac', pod') →
  pod' = default pod (last_doc kind raws)
  ∧ ∀ k f, (k, f) ∈ rbac_fields →
      match last_doc k raws with
      | Some raw => decode_resource k raw = Ok (f rbac')
      | None => f rbac' = f rbac
      end.
Proof.
  intros Hkind. induction raws as [|raw raws IH]; intros rbac pod rbac' pod' E; cbn [foldO] in E.
  - by injection E as <- <-.
  - apply outcome_bind_Ok in E as ([rbac1 pod1] & E1 & E).
    apply driver_step_Ok in E1 as [-> Hf1]; [|done]. apply IH in E as [-> Hf].
    cbn [last_doc]. split; [destruct (last_doc kind raws); [done|by case_decide]|].
    intros k f Hkf. specialize (Hf1 k f Hkf). specialize (Hf k f Hkf).
    destruct (last_doc k raws); [done|]. rewrite Hf. by case_decide.
Qed.

(** The manifest that [GetDriverYaml] makes of a file holds, for the workload and each of
    the five RBAC kinds, the last document of that kind, and the zero value of the type when the
    file has none; a kind other than Deployment and DaemonSet is never accepted. *)
Theorem GetDriverYaml_spec y kind d :
  GetDriverYaml y kind = Ok d →
  ∃ docs wl rbac, SplitYaml y = Ok docs
    ∧ (kind = "Deployment" ∧ d = ControllerManifest (mkControllerYAML wl rbac)
       ∨ kind = "DaemonSet" ∧ d = NodeManifest (mkNodeYAML wl rbac))
    ∧ yaml_Workload (default "" (last_doc kind docs)) = inr wl
    ∧ ∀ k f, (k, f) ∈ rbac_fields →
        match last_doc k docs with
        | Some raw => decode_resource k raw = Ok (f rbac)
        | None => f rbac = f zero_RbacYAML
        end.
Proof.
  unfold GetDriverYaml. intros E. apply outcome_bind_Ok in E as (docs & Hs & E).
  apply outcome_bind_Ok in E as ([rbac pod] & Hf & E).
  assert (kind = "Deployment" ∨ kind = "DaemonSet") as Hkind.
  { repeat (case_decide; [by auto|]). done. }
  apply driver_fold in Hf as [-> Hf];
    [|by destruct Hkind as [-> | ->]; apply (bool_decide_unpack _); vm_compute].
  exists docs. destruct Hkind as [-> | ->]; cbn in E;
    destruct (yaml_Workload _) as [e|wl] eqn:Ew; try done; injection E as <-;
    exists wl, rbac; eauto 10.
Qed.
End claims.

(** ** A codec on which the hypotheses hold

    A document is a line with its kind, a space and a name; a line of dashes separates. *)

Definition line_kind (raw : string) : error + string :=
  match SplitN2 raw " "%char with
  | Some (kind, _) => inr kind
  | None => inl (Errorf "no kind")
  end.

Definition line_meta (raw : string) : ObjectMeta :=
  named "dell" (match SplitN2 raw " "%char with Some (_, name) => name | None => "" end).

Definition line_workload (raw : string) : Workload :=
  mkWorkload (Some (mkWorkloadMeta (Some (om_Name (line_meta raw))) (Some "dell") None None))
    (Some (mkWorkloadSpec None (Some (mkPodTemplateApply (Some (Some ∅))
       (Some (mkPodSpecApply [] [] [] [] None None "")))))) "".

Definition line_container (raw : string) : ContainerApply :=
  mkContainerApply (Some (om_Name (line_meta raw))) (Some raw) None [] [] [] "".

Definition codec_with (workload : string → Workload) (container : string → ContainerApply)
    : ManifestCodec := {|
  Value := string;
  goYAML_Decode y := inr <$> filter (λ line, line ≠ "---") (Split y newline);
  goYAML_Marshal v := inr (if decide (v = "") then nullByte else v);
  yaml_TypeMeta := line_kind;
  yaml_Resource kind raw := inr (line_meta raw, raw);
  yaml_CSIDriver raw := inr (line_meta raw, None, raw);
  yaml_Role raw := inr (line_meta raw, [], raw);
  yaml_Deployment raw :=
    inr (simple_deployment (line_meta raw) None None [] [] (mkDeploymentStatus 0 0 0 0));
  yaml_DaemonSet raw := inr (mkDaemonSet (line_meta raw) None [] 0 0 0 0);
  yaml_ConfigMap raw := inr (mkConfigMap (line_meta raw) None);
  yaml_Secret raw := inr (mkSecret (line_meta raw) None);
  yaml_Workload raw := inr (workload raw);
  yaml_Rules raw := inr ((λ line, mkPolicyRule [line] [] "") <$> Split raw newline);
  yaml_Container raw := inr (container raw);
  yaml_Volumes raw := inr ((λ line, mkVolumeApply (Some line) None None None NoSource) <$> Split raw newline);
  yaml_MarshalObject o := inr (obj_kind o +:+ " " +:+ om_Name (obj_meta o));
  with_placement selector tolerations d := d
|}.

Definition codec_of (workload : string → Workload) : ManifestCodec :=
  codec_with workload line_container.

Definition demo_codec : ManifestCodec := codec_of line_workload.

Definition demo_manifest (lines : list string) : string := Join lines (String newline "").

Section witnesses.
#[local] Existing Instance demo_codec.

Lemma GetModuleComponentObj_spec_witness :
  let y := demo_manifest ["Role r"; "Widget w"; ""; "Deployment d"] in
  ∃ objs, GetModuleComponentObj y = Ok objs
    ∧ obj_key <$> objs = [("Role", ("dell", "r")); ("Deployment", ("dell", "d"))]
    ∧ GetCTRLObject y = Ok (filter (λ o, obj_kind o ∈ ctrl_kinds) objs).
Proof.
  intros y. destruct (GetModuleComponentObj y) as [objs|e|p] eqn:E;
    [|vm_compute in E; discriminate E..].
  exists objs. split; [done|]. split; [by vm_compute in E; injection E as <-|].
  exact (proj2 (proj2 (GetModuleComponentObj_spec y) objs E)).
Defined.

Lemma GetDriverYaml_spec_witness :
  let y := demo_manifest ["Role a"; "Deployment d"; "Role b"] in
  ∃ d docs, GetDriverYaml y "Deployment" = Ok d ∧ SplitYaml y = Ok docs
    ∧ last_doc "Role" docs = Some "Role b".
Proof.
  intros y. destruct (GetDriverYaml y "Deployment") as [d|e|p] eqn:E;
    [|vm_compute in E; discriminate E..].
  destruct (GetDriverYaml_spec _ _ _ E) as (docs & wl & rbac & Hs & _).
  exists d, docs. split; [done|]. split; [done|]. vm_compute in Hs. by injection Hs as <-.
Defined.
End witnesses.
