(* ===== verification/Drivers.v ===== *)
(** The parts of pkg/drivers that check a request and read the driver's secrets: the
    [Precheck] functions, certificate secrets and volumes, the arrays of a PowerFlex secret
    ([GetMDMFromSecret], [ValidateZonesInSecret]); and what they write into manifests
    (the [Modify] functions, [GetCSIDriver], [GetConfigMap]).

    The decoding of secrets is the parameter [SecretCodec]. *)

From S2P Require Import Prelude.
From S2P Require Import GoStrings.
From S2P Require Import Types.
From S2P Require Import Versions.
From S2P Require Import Modules.
From S2P Require Import Images.
From S2P Require Import Cluster.
From S2P Require Import Resources.
From S2P Require Import Packages.
From S2P Require Import Manifests.
From Stdlib Require Import Ascii.
From stdpp Require Import options.

Local Open Scope stdpp_scope.

(** ** Environment variables of the request *)

Definition envs_of (t : option ContainerTemplate) : list EnvVar :=
  match t with
  | Some t => default [] (ct_Envs t)
  | None => []
  end.
Definition common_envs (cr : CSM) : list EnvVar := envs_of (d_Common (sp_Driver (cr_Spec cr))).
Definition controller_envs (cr : CSM) : list EnvVar :=
  envs_of (d_Controller (sp_Driver (cr_Spec cr))).
Definition node_envs (cr : CSM) : list EnvVar := envs_of (d_Node (sp_Driver (cr_Spec cr))).

(** what a loop over the variables leaves in a local variable: the last value *)
Definition env_value (name dflt : string) (envs : list EnvVar) : string :=
  foldl (λ acc env, if decide (ev_Name env = name) then ev_Value env else acc) dflt envs.

(** ** Certificates *)

(** [skipCertValid] and [certCount] after the loop over the variables; [invalid] words an error
    from the name, the value and the error of the parser *)
Definition cert_settings (invalid : string → string → error → error) (skipName : string)
    (st : bool * Z) (envs : list EnvVar) : outcome (bool * Z) :=
  foldO (λ st env,
      let '(skipCertValid, certCount) := st in
      skipCertValid ←
        (if decide (ev_Name env = skipName)
         then wrapErr (ParseBool (ev_Value env)) (invalid skipName (ev_Value env))
         else Ok skipCertValid);
      certCount ←
        (if decide (ev_Name env = "CERT_SECRET_COUNT")
         then wrapErr (ParseInt8 (ev_Value env)) (invalid "CERT_SECRET_COUNT" (ev_Value env))
         else Ok certCount);
      Ok (skipCertValid, certCount))
    st envs.

Definition is_an_invalid_value (name value : string) (err : error) : error :=
  errorf (value +:+ " is an invalid value for " +:+ name) err.
Definition invalid_value_for (name value : string) (err : error) : error :=
  Errorf ("invalid value for " +:+ name +:+ ": " +:+ value +:+ " (" +:+ error_text err +:+ ")").

Definition cert_secret (cr : CSM) (i : nat) : string :=
  cr_Name cr +:+ "-certs-" +:+ Itoa (Z.of_nat i).

(** [for i := 0; i < certCount; i++], unless validation is skipped *)
Definition cert_range (st : bool * Z) : list nat :=
  let '(skipCertValid, certCount) := st in
  if (skipCertValid : bool) then [] else seq 0 (Z.to_nat certCount).

(** the projected volume of the certificates *)
Definition cert_projection (cr : CSM) (i : nat) : SecretProjection :=
  let value := "cert-" +:+ Itoa (Z.of_nat i) in
  mkSecretProjection (Some (cert_secret cr i)) [(value, value)].

Definition cert_volume (cr : CSM) (st : bool * Z) : VolumeApply :=
  mkVolumeApply (Some "certs") None None (Some (cert_projection cr <$> cert_range st)) NoSource.

Definition SkipIsilon : string := "X_CSI_ISI_SKIP_CERTIFICATE_VALIDATION".
Definition SkipPowerStore : string := "X_CSI_POWERSTORE_SKIP_CERTIFICATE_VALIDATION".
Definition SkipUnity : string := "X_CSI_UNITY_SKIP_CERTIFICATE_VALIDATION".

(** a [Common] section with no variable but perhaps one that is not the count *)
Definition lone_env (envs : list EnvVar) : bool :=
  match envs with
  | [] => true
  | [env] => bool_decide (ev_Name env ≠ "CERT_SECRET_COUNT")
  | _ => false
  end.

Definition getApplyCertVolume (cr : CSM) : outcome VolumeApply :=
  st ← match d_Common (sp_Driver (cr_Spec cr)) with
       | Some common =>
           let envs := default [] (ct_Envs common) in
           cert_settings is_an_invalid_value SkipIsilon
             (false, if lone_env envs then 0 else 1)%Z envs
       | None => Ok (true, 0%Z)
       end;
  Ok (cert_volume cr st).

Definition getApplyCertVolumePowerstore (cr : CSM) : outcome VolumeApply :=
  st ← match d_Common (sp_Driver (cr_Spec cr)) with
       | Some common =>
           let envs := default [] (ct_Envs common) in
           cert_settings is_an_invalid_value SkipPowerStore
             (true, if lone_env envs then 0 else 1)%Z envs
       | None => Ok (true, 0%Z)
       end;
  Ok (cert_volume cr st).

Definition getApplyCertVolumeUnity (cr : CSM) : outcome VolumeApply :=
  st ← match d_Common (sp_Driver (cr_Spec cr)) with
       | Some common =>
           cert_settings is_an_invalid_value SkipUnity (true, 1%Z) (default [] (ct_Envs common))
       | None => Ok (true, 0%Z)
       end;
  Ok (cert_volume cr st).

Definition getApplyCertVolumePowermax (cr : CSM) : outcome VolumeApply :=
  Ok (mkVolumeApply (Some "certs")
        (Some (mkSecretVolume (Some (cr_Name cr +:+ "-certs")) (Some true))) None None NoSource).

(** ** Arrays of a PowerFlex secret *)

Record StorageArrayConfig := mkStorageArrayConfig {
  ac_Username : string;
  ac_Password : string;
  ac_SystemID : string;
  ac_Endpoint : string;
  ac_IsDefault : bool;
  ac_MDM : string
}.

Record Zone := mkZone { zo_Name : string; zo_LabelKey : string }.
#[export] Instance Zone_eq_dec : EqDecision Zone.
Proof. solve_decision. Defined.
Definition zero_Zone : Zone := mkZone "" "".

Record ZoneConfig := mkZoneConfig { zc_SystemID : string; zc_Zone : Zone }.

Class SecretCodec := {
  yaml_JSONToYAML : string → error + string;
  (** what is decoded, also beside an error *)
  yaml_ArrayConfigs : string → list StorageArrayConfig * option error;
  yaml_ZoneConfigs : string → error + list ZoneConfig
}.

(** *** IP addresses *)

Definition digit_in (lo hi : ascii) (c : ascii) : bool :=
  (nat_of_ascii lo <=? nat_of_ascii c)%nat && (nat_of_ascii c <=? nat_of_ascii hi)%nat.

(** [[0-9]|[1-9][0-9]|1[0-9]{2}|2[0-4][0-9]|25[0-5]], anchored *)
Definition octet (s : string) : bool :=
  match s with
  | String a "" => digit_in "0" "9" a
  | String a (String b "") => digit_in "1" "9" a && digit_in "0" "9" b
  | String a (String b (String c "")) =>
      digit_in "1" "1" a && digit_in "0" "9" b && digit_in "0" "9" c
      || digit_in "2" "2" a && digit_in "0" "4" b && digit_in "0" "9" c
      || digit_in "2" "2" a && digit_in "5" "5" b && digit_in "0" "5" c
  | _ => false
  end.

(** [ipRegex]: four octets separated by dots *)
Definition IsIpv4Regex (ipAddress : string) : bool :=
  match Split ipAddress "." with
  | [a; b; c; d] => octet a && octet b && octet c && octet d
  | _ => false
  end.

(** The loop of [ValidateIPAddress]: [done] is trimmed already. *)
Fixpoint validate_ips (newIP : string) (trimmed rest : list string) : string * bool :=
  match rest with
  | [] => (newIP, true)
  | ip :: rest' =>
      let ip := TrimSpace ip in
      let trimmed := trimmed ++ [ip] in
      if IsIpv4Regex ip then validate_ips (Join (trimmed ++ rest') ",") trimmed rest'
      else (newIP, false)
  end.

Definition ValidateIPAddress (ipAdd : string) : string * bool :=
  validate_ips "" [] (Split ipAdd ",").

(** *** MDM *)

Record MDMState := mkMDMState {
  md_Val : string;
  md_Seen : gset string;               (* [tempMapToFindDuplicates] *)
  md_Defaults : nat                    (* [noOfDefaultArrays] *)
}.

(** [mdmVal] with the addresses of the [i]-th array *)
Definition add_mdm (i : nat) (config : StorageArrayConfig) (mdmVal : string) : outcome string :=
  if decide (ac_MDM config ≠ "") then
    let '(mdmFin, ismdmip) := ValidateIPAddress (ac_MDM config) in
    if negb ismdmip
    then Fail (Errorf ("Invalid MDM value. Ip address should be numeric and comma "
                       +:+ "separated without space"))
    else Ok (if decide (i = 0) then mdmVal +:+ mdmFin else mdmVal +:+ "&" +:+ mdmFin)
  else Ok mdmVal.

Definition mdm_step (i : nat) (config : StorageArrayConfig) (st : MDMState) : outcome MDMState :=
  let at_index what := "invalid value for " +:+ what +:+ " at index [" +:+ Itoa (Z.of_nat i) +:+ "]" in
  if decide (ac_SystemID config = "") then Fail (Errorf (at_index "SystemID"))
  else if decide (ac_Username config = "") then Fail (Errorf (at_index "Username"))
  else if decide (ac_Password config = "") then Fail (Errorf (at_index "Password"))
  else if decide (ac_Endpoint config = "") then Fail (Errorf (at_index "RestGateway"))
  else
    mdmVal ← add_mdm i config (md_Val st);
    if decide (ac_SystemID config ∈ md_Seen st)
    then Fail (Errorf ("Duplicate SystemID [" +:+ ac_SystemID config
                       +:+ "] found in storageArrayList parameter"))
    else
      let defaults := if ac_IsDefault config then S (md_Defaults st) else md_Defaults st in
      if decide (1 < defaults)
      then Fail (Errorf ("'isDefaultArray' parameter located in multiple places SystemID: "
             +:+ ac_SystemID config +:+ ". 'isDefaultArray' parameter should present only once "
             +:+ "in the storageArrayList"))
      else Ok (mkMDMState mdmVal ({[ac_SystemID config]} ∪ md_Seen st) defaults).

Fixpoint mdm_loop (i : nat) (configs : list StorageArrayConfig) (st : MDMState)
    : outcome MDMState :=
  match configs with
  | [] => Ok st
  | config :: configs' => st ← mdm_step i config st; mdm_loop (S i) configs' st
  end.

Definition mdm_of_arrays (configs : list StorageArrayConfig) : outcome string :=
  st ← mdm_loop 0 configs (mkMDMState "" ∅ 0);
  Ok (md_Val st).

(** *** Zones *)

Record ZoneState := mkZoneState { zs_LabelKey : string; zs_WithZone : nat }.

Definition zone_step (st : ZoneState) (configParam : ZoneConfig) : outcome ZoneState :=
  let id := zc_SystemID configParam in
  let zone := zc_Zone configParam in
  if decide (id = "") then Fail (Errorf "invalid value for SystemID")
  else if decide (zone = zero_Zone) then Ok st
  else if decide (zo_LabelKey zone = "")
  then Fail (Errorf ("zone LabelKey is empty or not specified for SystemID: " +:+ id))
  else
    labelKey ← (if decide (zs_LabelKey st = "") then Ok (zo_LabelKey zone)
                else if decide (zs_LabelKey st ≠ zo_LabelKey zone)
                then Fail (Errorf "labelKey is not consistent across all arrays in secret")
                else Ok (zs_LabelKey st));
    if decide (zo_Name zone = "")
    then Fail (Errorf ("zone name is empty or not specified for SystemID: " +:+ id))
    else Ok (mkZoneState labelKey (S (zs_WithZone st))).

Definition validate_zones (configs : list ZoneConfig) : outcome () :=
  st ← foldO zone_step (mkZoneState "" 0) configs;
  if decide (0 < zs_WithZone st ∧ length configs ≠ zs_WithZone st)
  then Fail (Errorf ("not all arrays have zoning configured. Check the array info secret, "
                     +:+ "zone key should be the same for all arrays"))
  else Ok ().

(** ** Checks of a request *)

Section checks.
Context {W : Type} `{Client W} `{Host} `{MapOrder} `{SecretCodec}.

(** a check that changes nothing of the request *)
Definition reading_check (cr : CSM) (m : M (World W) ()) : M (World W) (CSM * option error) :=
  r ← attempt m;
  mret (cr, match r with inl err => Some err | inr _ => None end).

(** [ct.Get] of a secret: an error other than "not found" is only logged *)
Definition require_secret (cr : CSM) (name : string) : M (World W) () :=
  r ← attempt (getT Secret (cr_Namespace cr) name);
  match r with
  | inl err => if IsNotFound err then failM (Errorf ("failed to find secret " +:+ name)) else mret ()
  | inr _ => mret ()
  end.

(** the version of the request, if the operator has a configuration for it in [dir] *)
Definition supported_version (cr : CSM) (op : OperatorConfig) (dir label : string)
    : outcome string :=
  version ← GetVersion cr op;
  if FileExists (oc_ConfigDirectory op +:+ "/driverconfig/" +:+ dir +:+ "/" +:+ version
                 +:+ "/upgrade-path.yaml")
  then Ok version
  else Fail (Errorf (label +:+ " " +:+ version +:+ " not supported")).

(** [cr.Name + suffix], or the [AuthSecret] of the request *)
Definition auth_secret (cr : CSM) (suffix : string) : string :=
  let given := d_AuthSecret (sp_Driver (cr_Spec cr)) in
  if decide (given ≠ "") then given else cr_Name cr +:+ suffix.

(** the secrets of the certificates that the variables ask for *)
Definition cert_secrets (invalid : string → string → error → error) (skipName : string)
    (skip : bool) (cr : CSM) : outcome (list string) :=
  st ← cert_settings invalid skipName (skip, 1%Z) (common_envs cr);
  Ok (cert_secret cr <$> cert_range st).

Definition PrecheckPowerScale (cr : CSM) (op : OperatorConfig) : M (World W) (CSM * option error) :=
  reading_check cr
    (_ ← lift (supported_version cr op PowerScaleName PowerScaleName);
     certs ← lift (cert_secrets is_an_invalid_value SkipIsilon false cr);
     forM (require_secret cr) (auth_secret cr "-creds" :: certs)).

Definition PrecheckPowerStore (cr : CSM) (op : OperatorConfig) : M (World W) (CSM * option error) :=
  reading_check cr
    (_ ← lift (supported_version cr op "powerstore" PowerStore);
     certs ← lift (cert_secrets invalid_value_for SkipPowerStore true cr);
     forM (require_secret cr) (auth_secret cr "-config" :: certs)).

Definition PrecheckUnity (cr : CSM) (op : OperatorConfig) : M (World W) (CSM * option error) :=
  reading_check cr
    (_ ← lift (supported_version cr op "unity" Unity);
     certs ← lift (cert_secrets is_an_invalid_value SkipUnity true cr);
     forM (require_secret cr) ((cr_Name cr +:+ "-creds") :: certs)).

Definition PrecheckCosi (cr : CSM) (op : OperatorConfig) : M (World W) (CSM * option error) :=
  reading_check cr
    (version ← lift (wrapErr (GetVersion cr op) (λ e, WrapError ("getting COSI version: "
                                                                 +:+ error_text e) e));
     _ ← lift (if FileExists (oc_ConfigDirectory op +:+ "/driverconfig/" +:+ Cosi +:+ "/"
                              +:+ version +:+ "/upgrade-path.yaml")
               then Ok () else Fail (Errorf (Cosi +:+ " " +:+ version +:+ " not supported")));
     let secretName := cr_Name cr +:+ "-config" in
     _ ← orFail (GetSecret secretName (cr_Namespace cr))
           (λ e, WrapError ("reading secret [" +:+ secretName +:+ "]: " +:+ error_text e) e);
     mret ()).

(** the loop that switches the first reverse proxy on *)
Fixpoint enable_reverse_proxy (ms : list Module) : list Module :=
  match ms with
  | [] => []
  | m :: ms' =>
      if decide (m_Name m = ReverseProxy)
      then mkModule (m_Name m) true (m_ConfigVersion m) (m_Components m) true (m_InitContainer m)
             :: ms'
      else m :: enable_reverse_proxy ms'
  end.

Definition PrecheckPowerMax (cr : CSM) (op : OperatorConfig) : M (World W) (CSM * option error) :=
  r ← attempt (_ ← lift (supported_version cr op "powermax" PowerMax);
               require_secret cr (auth_secret cr "-creds"));
  match r with
  | inl err => mret (cr, Some err)
  | inr _ => mret (set_cr_Modules (enable_reverse_proxy (sp_Modules (cr_Spec cr))) cr, None)
  end.

Definition isModuleEnabled (modules : list Module) (name : string) : bool :=
  existsb (λ m, bool_decide (m_Name m = name) && m_Enabled m) modules.

(** the first argument with the prefix, of the sidecars of that name in their order *)
Definition getVolumeNamePrefix (sideCars : list ContainerTemplate) : string :=
  let args := mjoin (ct_Args <$> filter (λ sc, ct_Name sc = "provisioner") sideCars) in
  match list_find (λ arg, HasPrefix arg "--volume-name-prefix=" = true) args with
  | Some (_, arg) => TrimPrefix arg "--volume-name-prefix="
  | None => ""
  end.

Definition GetMDMFromSecret (cr : CSM) : M (World W) string :=
  let secretName := cr_Name cr +:+ "-config" in
  credSecret ← orFail (GetSecret secretName (cr_Namespace cr))
    (λ e, Errorf ("reading secret [" +:+ secretName +:+ "] error [" +:+ error_text e +:+ "]"));
  let configBytes := map_get (se_Data credSecret) "config" in
  if decide (configBytes = "")
  then failM (Errorf "Arrays details are not provided in vxflexos-config secret")
  else
    configs ← orFail (lift (res (yaml_JSONToYAML configBytes)))
      (λ e, Errorf ("unable to parse multi-array configuration[" +:+ error_text e +:+ "]"));
    lift (mdm_of_arrays (fst (yaml_ArrayConfigs configs))).

Definition isDriverMetricsTLSEnabled (cr : CSM) : bool :=
  match d_Metrics (sp_Driver (cr_Spec cr)) with
  | Some m => dm_Enabled m && bool_decide (dm_TLSCertSecret m ≠ "")
  | None => false
  end.

Definition metrics_secret (cr : CSM) : string :=
  match d_Metrics (sp_Driver (cr_Spec cr)) with
  | Some m => dm_TLSCertSecret m
  | None => ""
  end.

Definition PrecheckPowerFlex (cr : CSM) (op : OperatorConfig) : M (World W) (CSM * option error) :=
  reading_check cr
    (let modules := sp_Modules (cr_Spec cr) in
     let prefix := getVolumeNamePrefix (d_SideCars (sp_Driver (cr_Spec cr))) in
     if isModuleEnabled modules Authorization && isModuleEnabled modules Replication
        && bool_decide (5 < String.length prefix)
     then failM (Errorf ("volume name prefix '" +:+ prefix +:+ "' cannot exceed 5 characters when "
                   +:+ "both Authorization and Replication modules are enabled"))
     else
       _ ← lift (supported_version cr op PowerFlex "vxflexos");
       _ ← GetMDMFromSecret cr;
       if isDriverMetricsTLSEnabled cr then require_secret cr (metrics_secret cr) else mret ()).

Definition ValidateZonesInSecret (namespace secret : string) : M (World W) () :=
  arraySecret ← orFail (GetSecret secret namespace)
    (λ e, Errorf ("reading secret [" +:+ secret +:+ "] error " +:+ error_text e));
  let configBytes := map_get (se_Data arraySecret) "config" in
  if decide (configBytes = "") then failM (Errorf "array details are not provided in secret")
  else
    configs ← orFail (lift (res (yaml_JSONToYAML configBytes)))
      (λ e, Errorf ("malformed json in array secret - unable to parse multi-array configuration "
                    +:+ error_text e));
    yamlConfig ← orFail (lift (res (yaml_ZoneConfigs configs)))
      (λ e, Errorf ("unable to unmarshal array secret " +:+ error_text e));
    lift (validate_zones yamlConfig).

Definition ValidateZones (cr : CSM) : M (World W) () :=
  ValidateZonesInSecret (cr_Namespace cr) (cr_Name cr +:+ "-config").
End checks.

(** ** Manifests of the drivers

    A template names its parameters by placeholders; the [Modify] functions replace them by
    the values that the request gives, or by defaults. *)

Definition substitute (yamlString : string) (params : list (string * string)) : string :=
  foldl (λ y '(placeholder, value), ReplaceAll y placeholder value) yamlString params.

Definition EnvToPlaceholder (envName : string) : string := "<" +:+ envName +:+ ">".
Definition SubstituteEnvVar (yamlString varName value : string) : string :=
  ReplaceAll yamlString (EnvToPlaceholder varName) value.

Definition CSMNameSpace : string := "<CSM_NAMESPACE>".
Definition OtelCollectorAddress : string := "<OTEL_COLLECTOR_ADDRESS>".
Definition CsiHealthMonitorEnabled : string := "<X_CSI_HEALTH_MONITOR_ENABLED>".
Definition CsiStorageCapacityEnabled : string := "false".

(** the file system check and space reclamation parameters of the node manifests *)
Definition common_params (cr : CSM) : list (string * string) :=
  (λ '(name, dflt), (name, GetDriverCommonEnv cr name dflt)) <$>
    [("X_CSI_FS_CHECK_ENABLED", "false"); ("X_CSI_FS_CHECK_MODE", "checkOnly");
     ("X_CSI_SPACE_RECLAMATION_ENABLED", "false"); ("X_CSI_SPACE_RECLAMATION_SCHEDULE", "");
     ("X_CSI_SPACE_RECLAMATION_MAX_CONCURRENT", ""); ("X_CSI_SPACE_RECLAMATION_TIMEOUT", "")].

Definition substitute_common (yamlString : string) (cr : CSM) : string :=
  foldl (λ y '(name, value), SubstituteEnvVar y name value) yamlString (common_params cr).

Definition storage_capacity (dflt : string) (cr : CSM) : string :=
  match d_CSIDriverSpec (sp_Driver (cr_Spec cr)) with
  | Some spec => if cd_StorageCapacity spec then "true" else dflt
  | None => dflt
  end.

Inductive FileType := FController | FNode | FCSIDriverSpec.

(** *** PowerScale *)

Definition ModifyPowerScaleCR (yamlString : string) (cr : CSM) (fileType : FileType) : string :=
  let debug := env_value "GOISILON_DEBUG" "false" (common_envs cr) in
  match fileType with
  | FCSIDriverSpec =>
      substitute yamlString [(CsiStorageCapacityEnabled, storage_capacity "false" cr)]
  | FController =>
      substitute yamlString
        [(CsiHealthMonitorEnabled,
          env_value "X_CSI_HEALTH_MONITOR_ENABLED" "false" (controller_envs cr));
         (CSMNameSpace, cr_Namespace cr); ("<GOISILON_DEBUG>", debug);
         ("<CSI_VOL_PREFIX>", env_value "X_CSI_VOL_PREFIX" "csivol" (controller_envs cr))]
  | FNode =>
      substitute yamlString
        [(CsiHealthMonitorEnabled, env_value "X_CSI_HEALTH_MONITOR_ENABLED" "false" (node_envs cr));
         (CSMNameSpace, cr_Namespace cr); ("<GOISILON_DEBUG>", debug)]
  end.

(** *** Unity *)

Definition ModifyUnityCR (yamlString : string) (cr : CSM) (fileType : FileType) : string :=
  let debug := env_value "GOUNITY_DEBUG" "false" (common_envs cr) in
  let showHTTP := env_value "GOUNITY_SHOWHTTP" "false" (common_envs cr) in
  match fileType with
  | FNode =>
      substitute yamlString
        [(CsiHealthMonitorEnabled, env_value "X_CSI_HEALTH_MONITOR_ENABLED" "false" (node_envs cr));
         ("<X_CSI_ALLOWED_NETWORKS>", env_value "X_CSI_ALLOWED_NETWORKS" "" (node_envs cr));
         (CSMNameSpace, cr_Namespace cr); ("<GOUNITY_DEBUG>", debug);
         ("<GOUNITY_SHOWHTTP>", showHTTP)]
  | FController =>
      substitute yamlString
        [(CsiHealthMonitorEnabled,
          env_value "X_CSI_HEALTH_MONITOR_ENABLED" "false" (controller_envs cr));
         (CSMNameSpace, cr_Namespace cr); ("<GOUNITY_DEBUG>", debug);
         ("<GOUNITY_SHOWHTTP>", showHTTP)]
  | FCSIDriverSpec =>
      substitute yamlString [(CsiStorageCapacityEnabled, storage_capacity "false" cr)]
  end.

(** the line of one variable, if it is one of those that the config map takes *)
Definition unity_line (env : EnvVar) : string :=
  let line name := String newline "" +:+ " " +:+ name +:+ ": " +:+ ev_Value env in
  if decide (ev_Name env = "X_CSI_UNITY_ALLOW_MULTI_POD_ACCESS") then line "ALLOW_MULTI_POD_ACCESS"
  else if decide (ev_Name env = "MAX_UNITY_VOLUMES_PER_NODE") then line (ev_Name env)
  else if decide (ev_Name env = "X_CSI_UNITY_SYNC_NODEINFO_INTERVAL")
  then line "SYNC_NODE_INFO_TIME_INTERVAL"
  else if decide (ev_Name env = "TENANT_NAME") then line (ev_Name env)
  else if decide (ev_Name env = "CSI_LOG_LEVEL") then line (ev_Name env)
  else "".

Definition ModifyUnityConfigMap (cr : CSM) : gmap string string :=
  {[ "driver-config-params.yaml" :=
       foldl (λ acc env, acc +:+ unity_line env) "" (common_envs cr) ]}.

(** *** PowerFlex *)

Definition metrics_params (cr : CSM) : list (string * string) :=
  let metrics := d_Metrics (sp_Driver (cr_Spec cr)) in
  let enabled := match metrics with Some m => dm_Enabled m | None => false end in
  let port := match metrics with
              | Some m => if decide (dm_Port m ≠ 0%Z) then Itoa (dm_Port m) else "9090"
              | None => "9090"
              end in
  let gm := metrics ≫= dm_GatewayMonitoring in
  [("<X_CSI_METRICS_ENABLED>", if enabled then "true" else "false");
   ("<X_CSI_METRICS_PORT>", port);
   ("<X_CSI_GATEWAY_MONITORING_ENABLED>",
    match gm with
    | Some gm => if enabled && gm_Enabled gm then "true" else "false"
    | None => "false"
    end);
   ("<X_CSI_GATEWAY_MONITORING_LEADER_ELECTION_ENABLED>",
    match gm with
    | Some gm => match gm_LeaderElectionEnabled gm with Some false => "false" | _ => "true" end
    | None => "true"
    end);
   ("<X_CSI_GATEWAY_MONITORING_POLL_INTERVAL>",
    match gm with
    | Some gm => if decide (gm_PollInterval gm ≠ "") then gm_PollInterval gm else "30s"
    | None => "30s"
    end)].

Definition ModifyPowerflexCR (yamlString : string) (cr : CSM) (fileType : FileType) : string :=
  let common name dflt := env_value name dflt (common_envs cr) in
  let node name dflt := env_value name dflt (node_envs cr) in
  let controller name dflt := env_value name dflt (controller_envs cr) in
  let debug := ("<GOSCALEIO_DEBUG>", common "GOSCALEIO_DEBUG" "false") in
  let showHTTP := ("<GOSCALEIO_SHOWHTTP>", common "GOSCALEIO_SHOWHTTP" "false") in
  let probeTimeout := ("<X_CSI_PROBE_TIMEOUT>", common "X_CSI_PROBE_TIMEOUT" "10s") in
  let authType := ("<X_CSI_AUTH_TYPE>", common "X_CSI_AUTH_TYPE" "") in
  match fileType with
  | FController =>
      substitute yamlString
        ([(CsiHealthMonitorEnabled, controller "X_CSI_HEALTH_MONITOR_ENABLED" "false");
          ("<X_CSI_POWERFLEX_EXTERNAL_ACCESS>", controller "X_CSI_POWERFLEX_EXTERNAL_ACCESS" "");
          (CSMNameSpace, cr_Namespace cr); debug; showHTTP; probeTimeout; authType]
         ++ metrics_params cr)
  | FNode =>
      substitute_common
        (substitute yamlString
           [("<X_CSI_SDC_ENABLED>", node "X_CSI_SDC_ENABLED" "true");
            ("<X_CSI_APPROVE_SDC_ENABLED>", node "X_CSI_APPROVE_SDC_ENABLED" "");
            ("<X_CSI_RENAME_SDC_ENABLED>", node "X_CSI_RENAME_SDC_ENABLED" "");
            ("<X_CSI_RENAME_SDC_PREFIX>", node "X_CSI_RENAME_SDC_PREFIX" "");
            ("<X_CSI_MAX_VOLUMES_PER_NODE>", node "X_CSI_MAX_VOLUMES_PER_NODE" "");
            (CsiHealthMonitorEnabled, node "X_CSI_HEALTH_MONITOR_ENABLED" "false");
            (CSMNameSpace, cr_Namespace cr); debug; showHTTP;
            ("<X_CSI_SFTP_REPO_ADDRESS>", node "REPO_ADDRESS" "sftp://0.0.0.0");
            ("<X_CSI_SFTP_REPO_USER>", node "REPO_USER" "");
            ("<X_CSI_SDC_SFTP_REPO_ENABLED>", node "X_CSI_SDC_SFTP_REPO_ENABLED" "");
            probeTimeout; authType])
        cr
  | FCSIDriverSpec =>
      substitute yamlString
        [(CsiStorageCapacityEnabled, storage_capacity "false" cr); ("<X_CSI_QUOTA_ENABLED>", "")]
  end.

(** *** PowerMax *)

Definition ReverseProxyServerComponent : string := "csipowermax-reverseproxy".
Definition RevProxyTLSSecretDefaultName : string := "csirevproxy-tls-secret".

Definition proxyTLSSecret (cr : CSM) : string :=
  let components := filter (λ c, ct_Name c = ReverseProxyServerComponent)
                      (m_Components (GetModule cr ReverseProxy)) in
  env_value "X_CSI_REVPROXY_TLS_SECRET" RevProxyTLSSecretDefaultName
    (mjoin ((λ c, default [] (ct_Envs c)) <$> components)).

Definition ModifyPowermaxCR (yamlString : string) (cr : CSM) (fileType : FileType) : string :=
  let common name dflt := env_value name dflt (common_envs cr) in
  let node name dflt := env_value name dflt (node_envs cr) in
  let array_params healthMonitor topology chap :=
    [("<X_CSI_MANAGED_ARRAY>", common "X_CSI_MANAGED_ARRAYS" "");
     ("<X_CSI_POWERMAX_ENDPOINT>", common "X_CSI_POWERMAX_ENDPOINT" "");
     ("<X_CSI_POWERMAX_DEBUG>", common "X_CSI_POWERMAX_DEBUG" "false");
     ("<X_CSI_POWERMAX_PORTGROUPS>", common "X_CSI_POWERMAX_PORTGROUPS" "");
     ("<X_CSI_TRANSPORT_PROTOCOL>", common "X_CSI_TRANSPORT_PROTOCOL" "");
     ("<X_CSI_IG_NODENAME_TEMPLATE>", common "X_CSI_IG_NODENAME_TEMPLATE" "");
     ("<X_CSI_IG_MODIFY_HOSTNAME>", common "X_CSI_IG_MODIFY_HOSTNAME" "false");
     (CsiHealthMonitorEnabled, healthMonitor);
     ("<X_CSI_TOPOLOGY_CONTROL_ENABLED>", topology);
     ("<X_CSI_VSPHERE_ENABLED>", common "X_CSI_VSPHERE_ENABLED" "false");
     ("<X_CSI_VSPHERE_PORTGROUP>", common "X_CSI_VSPHERE_PORTGROUP" "");
     ("<X_CSI_VSPHERE_HOSTNAME>", common "X_CSI_VSPHERE_HOSTNAME" "");
     ("<X_CSI_VCENTER_HOST>", common "X_CSI_VCENTER_HOST" "");
     ("<X_CSI_POWERMAX_ISCSI_ENABLE_CHAP>", chap)] in
  let proxy_params :=
    [("<X_CSI_REVPROXY_TLS_SECRET>", proxyTLSSecret cr); (CSMNameSpace, cr_Namespace cr);
     ("<X_CSI_DYNAMIC_SG_ENABLED>", common "X_CSI_DYNAMIC_SG_ENABLED" "false")] in
  match fileType with
  | FNode =>
      substitute_common
        (substitute yamlString
           (array_params (node "X_CSI_HEALTH_MONITOR_ENABLED" "false")
              (node "X_CSI_TOPOLOGY_CONTROL_ENABLED" "false")
              (node "X_CSI_POWERMAX_ISCSI_ENABLE_CHAP" "false")
            ++ ("<X_CSI_MAX_VOLUMES_PER_NODE>", node "X_CSI_MAX_VOLUMES_PER_NODE" "")
               :: proxy_params))
        cr
  | FController =>
      substitute yamlString
        (array_params (env_value "X_CSI_HEALTH_MONITOR_ENABLED" "false" (controller_envs cr))
           "false" "false" ++ proxy_params)
  | FCSIDriverSpec =>
      substitute yamlString [(CsiStorageCapacityEnabled, storage_capacity "true" cr)]
  end.

(** *** PowerStore *)

(** the last value that is not empty *)
Definition env_nonempty (name dflt : string) (envs : list EnvVar) : string :=
  env_value name dflt (filter (λ env, ev_Value env ≠ "") envs).

Definition FormatBool (b : bool) : string := if b then "true" else "false".

Fixpoint set_first_env (name value : string) (envs : list EnvVar) : list EnvVar :=
  match envs with
  | [] => []
  | env :: envs' =>
      if decide (ev_Name env = name) then mkEnvVar (ev_Name env) value :: envs'
      else env :: set_first_env name value envs'
  end.

(** The node variable that says whether authorization is enabled is set, or added; the section
    of the node is a pointer that the caller shares, unless there is none. *)
Definition set_auth_env (cr : CSM) : CSM * string :=
  match find_module Authorization (sp_Modules (cr_Spec cr)) with
  | None => (cr, "")
  | Some mod_ =>
      let authEnabled := FormatBool (m_Enabled mod_) in
      match d_Node (sp_Driver (cr_Spec cr)) with
      | None => (cr, authEnabled)
      | Some node =>
          let envs := default [] (ct_Envs node) in
          let envs :=
            if existsb (λ env, bool_decide (ev_Name env = "X_CSM_AUTH_ENABLED")) envs
            then set_first_env "X_CSM_AUTH_ENABLED" authEnabled envs
            else envs ++ [mkEnvVar "X_CSM_AUTH_ENABLED" authEnabled] in
          (set_cr_Driver (set_d_Node (Some (set_ct_Envs (Some envs) node))
                            (sp_Driver (cr_Spec cr))) cr, authEnabled)
      end
  end.

(** with the custom resource as the caller finds it afterwards *)
Definition ModifyPowerstoreCR (yamlString : string) (cr : CSM) (fileType : FileType)
    : string * CSM :=
  let common := common_envs cr in
  let node name dflt := env_value name dflt (node_envs cr) in
  let controller name dflt := env_value name dflt (controller_envs cr) in
  let debug := ("<GOPOWERSTORE_DEBUG>", env_value "GOPOWERSTORE_DEBUG" "false" common) in
  let timeouts_and_nfs :=
    [("<X_CSI_POWERSTORE_API_TIMEOUT>", env_nonempty "X_CSI_POWERSTORE_API_TIMEOUT" "120s" common);
     ("<X_CSI_PODMON_ARRAY_CONNECTIVITY_TIMEOUT>",
      env_nonempty "X_CSI_PODMON_ARRAY_CONNECTIVITY_TIMEOUT" "10s" common);
     ("<X_CSI_NFS_CLIENT_PORT>", "unused"); ("<X_CSI_NFS_SERVER_PORT>", "unused");
     ("<X_CSI_NFS_EXPORT_DIRECTORY>", "/var/lib/dell/nfs");
     ("<X_CSM_DR_ENABLED>", GetDriverCommonEnv cr "X_CSM_DR_ENABLED" "true");
     ("<X_CSM_DR_BIND_PORT>", GetDriverCommonEnv cr "X_CSM_DR_BIND_PORT" "8082")] in
  match fileType with
  | FNode =>
      let '(cr', authEnabled) := set_auth_env cr in
      (substitute_common
         (substitute yamlString
            ([("<X_CSI_POWERSTORE_NODE_NAME_PREFIX>",
               env_value "X_CSI_POWERSTORE_NODE_NAME_PREFIX" "" common);
              ("<X_CSI_FC_PORTS_FILTER_FILE_PATH>",
               env_value "X_CSI_FC_PORTS_FILTER_FILE_PATH" "" common);
              ("<X_CSI_POWERSTORE_ENABLE_CHAP>", node "X_CSI_POWERSTORE_ENABLE_CHAP" "");
              (CsiHealthMonitorEnabled, node "X_CSI_HEALTH_MONITOR_ENABLED" "");
              ("<X_CSI_POWERSTORE_MAX_VOLUMES_PER_NODE>",
               node "X_CSI_POWERSTORE_MAX_VOLUMES_PER_NODE" "");
              ("<X_CSI_VOLUME_DISCONNECT_MAX_RETRIES>",
               node "X_CSI_VOLUME_DISCONNECT_MAX_RETRIES" "5");
              ("<X_CSI_VOLUME_DISCONNECT_RETRY_INTERVAL>",
               node "X_CSI_VOLUME_DISCONNECT_RETRY_INTERVAL" "5s");
              ("<X_CSI_VOLUME_DISCONNECT_TIMEOUT_SECONDS>",
               node "X_CSI_VOLUME_DISCONNECT_TIMEOUT_SECONDS" "120s");
              (CSMNameSpace, cr_Namespace cr); debug; ("<X_CSM_AUTH_ENABLED>", authEnabled)]
             ++ timeouts_and_nfs))
         cr, cr')
  | FController =>
      (substitute yamlString
         ([("<X_CSI_NFS_ACLS>", controller "X_CSI_NFS_ACLS" "");
           (CsiHealthMonitorEnabled, controller "X_CSI_HEALTH_MONITOR_ENABLED" "");
           ("<X_CSI_POWERSTORE_EXTERNAL_ACCESS>", controller "X_CSI_POWERSTORE_EXTERNAL_ACCESS" "");
           ("<X_CSI_POWERSTORE_EXCLUSIVE_ACCESS>",
            controller "X_CSI_POWERSTORE_EXCLUSIVE_ACCESS" "false");
           (CSMNameSpace, cr_Namespace cr); debug]
          ++ timeouts_and_nfs), cr)
  | FCSIDriverSpec =>
      (substitute yamlString [(CsiStorageCapacityEnabled, storage_capacity "false" cr)], cr)
  end.

(** *** COSI *)

Section cosi.
Context `{ManifestCodec}.

(** the first deployment among the objects, with its placement set *)
Fixpoint place_deployment (selector : gomap) (tolerations : list Toleration) (objs : list Object)
    : option (list Object) :=
  match objs with
  | [] => None
  | ODeployment d :: objs' => Some (ODeployment (with_placement selector tolerations d) :: objs')
  | o :: objs' => cons o <$> place_deployment selector tolerations objs'
  end.

Definition marshal_objects (objs : list Object) : outcome (list string) :=
  foldO (λ acc o,
      b ← wrapErr (res (yaml_MarshalObject o))
            (λ e, WrapError ("marshalling object " +:+ Itoa (Z.of_nat (length acc)) +:+ ": "
                             +:+ error_text e) e);
      Ok (acc ++ [b])) [] objs.

Definition yaml_separator : string := "---" +:+ String newline "".

(** Only the Controller file is ever modified. *)
Definition ModifyCosiCR (yamlString : string) (cr : CSM) : outcome string :=
  let yamlString :=
    substitute yamlString
      [(CSMNameSpace, cr_Namespace cr);
       (OtelCollectorAddress, env_value "OTEL_COLLECTOR_ADDRESS" "" (common_envs cr))] in
  match d_Common (sp_Driver (cr_Spec cr)) with
  | None => Ok yamlString
  | Some common =>
      let selector := ct_NodeSelector common in
      let tolerations := ct_Tolerations common in
      if decide (default ∅ selector = (∅ : gmap string string) ∧ tolerations = [])
      then Ok yamlString
      else
        objects ← wrapErr (GetCTRLObject yamlString)
          (λ e, WrapError ("parsing controller objects: " +:+ error_text e) e);
        match place_deployment selector tolerations objects with
        | None => Fail (Errorf "failed to find cosi controller deployment object")
        | Some objects =>
            bs ← marshal_objects objects;
            Ok (Join bs yaml_separator)
        end
  end.
End cosi.

(** ** The config map and the CSIDriver of a driver *)

Section manifest_files.
Context `{Host} `{MapOrder} `{ManifestCodec}.

(** the file of the driver's configuration, for the version of the request *)
Definition driver_file (cr : CSM) (op : OperatorConfig) (driverName filename : string)
    : outcome string :=
  version ← GetVersion cr op;
  res (ReadFile (Clean (oc_ConfigDirectory op +:+ "/driverconfig/" +:+ driverName +:+ "/"
                        +:+ version +:+ "/" +:+ filename))).

Definition nl (s : string) : string := String newline s.

(** one variable of the log settings; the level and the format are kept for podmon *)
Definition log_step (st : string * string * string) (env : EnvVar) : string * string * string :=
  let '(cmValue, podmanLogLevel, podmanLogFormat) := st in
  let line := nl (ev_Name env +:+ ": " +:+ ev_Value env) in
  let '(cmValue, podmanLogLevel) :=
    if decide (ev_Name env = "CSI_LOG_LEVEL" ∨ ev_Name env = "COSI_LOG_LEVEL")
    then (cmValue +:+ line, ev_Value env) else (cmValue, podmanLogLevel) in
  if decide (ev_Name env = "CSI_LOG_FORMAT" ∨ ev_Name env = "COSI_LOG_FORMAT")
  then (cmValue +:+ line, podmanLogLevel, ev_Value env)
  else (cmValue, podmanLogLevel, podmanLogFormat).

Definition podmon_lines (level format : string) : string :=
  nl ("PODMON_CONTROLLER_LOG_LEVEL: " +:+ level)
  +:+ nl ("PODMON_CONTROLLER_LOG_FORMAT: " +:+ format)
  +:+ nl ("PODMON_NODE_LOG_LEVEL: " +:+ level)
  +:+ nl ("PODMON_NODE_LOG_FORMAT: " +:+ format).

Definition interface_lines (env : EnvVar) : string :=
  if decide (ev_Name env = "INTERFACE_NAMES")
  then nl "interfaceNames: "
       +:+ foldl (λ acc v, acc +:+ nl ("  " +:+ v +:+ " ")) "" (Split (ev_Value env) ",")
  else "".

Definition az_line (env : EnvVar) : string :=
  if decide (ev_Name env = "AZ_RECONCILE_INTERVAL")
  then nl (ev_Name env +:+ ": " +:+ ev_Value env) else "".

Definition concat_str (ss : list string) : string := foldl (λ acc s, acc +:+ s) "" ss.

(** the value of [driver-config-params.yaml] *)
Definition config_params (cr : CSM) : string :=
  let '(cmValue, level, format) := foldl log_step ("", "", "") (common_envs cr) in
  let podmon := concat_str
    ((λ m, podmon_lines level format)
       <$> filter (λ m, m_Name m = Resiliency ∧ m_Enabled m = true) (sp_Modules (cr_Spec cr))) in
  let interfaces := if decide (GetDriverType cr = PowerFlex)
                    then concat_str (interface_lines <$> common_envs cr) else "" in
  let az := if decide (GetDriverType cr = PowerScale)
            then concat_str (az_line <$> common_envs cr) else "" in
  cmValue +:+ podmon +:+ interfaces +:+ az.

Definition GetConfigMap (cr : CSM) (op : OperatorConfig) (driverName : string)
    : outcome ConfigMap :=
  buf ← driver_file cr op driverName "driver-config-params.yaml";
  configMap ← res (yaml_ConfigMap (ModifyCommonCR buf cr));
  let data := if decide (GetDriverType cr = Unity) then ModifyUnityConfigMap cr
              else {[ "driver-config-params.yaml" := config_params cr ]} in
  Ok (mkConfigMap (cm_Meta configMap) (Some data)).

(** the substitutions that belong to the type of the driver, if any *)
Definition modify_csidriver (yamlString : string) (cr : CSM) : string :=
  let t := GetDriverType cr in
  if decide (t = PowerStore) then fst (ModifyPowerstoreCR yamlString cr FCSIDriverSpec)
  else if decide (t = PowerScale) then ModifyPowerScaleCR yamlString cr FCSIDriverSpec
  else if decide (t = PowerMax) then ModifyPowermaxCR yamlString cr FCSIDriverSpec
  else if decide (t = PowerFlex) then ModifyPowerflexCR yamlString cr FCSIDriverSpec
  else if decide (t = Unity) then ModifyUnityCR yamlString cr FCSIDriverSpec
  else yamlString.

(** a policy other than the two known ones counts as None *)
Definition fs_group_policy (given : string) : string :=
  if decide (given ∈ ["ReadWriteOnceWithFSType"; "File"]) then given else "None".

Definition GetCSIDriver (cr : CSM) (op : OperatorConfig) (driverName : string)
    : outcome Resource :=
  buf ← driver_file cr op driverName "csidriver.yaml";
  '(meta, policy, rest) ← res (yaml_CSIDriver (modify_csidriver (ModifyCommonCR buf cr) cr));
  let policy := match d_CSIDriverSpec (sp_Driver (cr_Spec cr)) with
                | Some spec => if decide (cd_FSGroupPolicy spec ≠ "")
                               then Some (fs_group_policy (cd_FSGroupPolicy spec)) else policy
                | None => policy
                end in
  Ok (mkResource "CSIDriver" meta (CSIDriverBody policy rest)).
End manifest_files.

(** ** Properties *)

(** *** Addresses *)

Definition digit_chars : list ascii := ["0"; "1"; "2"; "3"; "4"; "5"; "6"; "7"; "8"; "9"]%char.

#[local] Arguments digit_in : simpl never.

Lemma digit_in_weaken lo hi c :
  digit_in "0" lo lo = true → digit_in hi "9" hi = true → digit_in lo hi c = true →
  digit_in "0" "9" c = true.
Proof.
  unfold digit_in. rewrite !andb_true_iff, !Nat.leb_le. intros [? ?] [? ?] [? ?]. lia.
Qed.

Lemma digit_char c : digit_in "0" "9" c = true → c ∈ digit_chars.
Proof.
  assert (Forall (λ n, digit_in "0" "9" (ascii_of_nat n) = true → ascii_of_nat n ∈ digit_chars)
    (seq 0 256)) as Hall by decide_goal.
  rewrite Forall_forall in Hall. rewrite <- (ascii_nat_embedding c).
  apply Hall, elem_of_seq. pose proof (nat_ascii_bounded c). lia.
Qed.

Lemma digit_in_chars lo hi c :
  digit_in lo hi c = true →
  digit_in "0" lo lo = true → digit_in hi "9" hi = true → c ∈ digit_chars.
Proof. intros. eapply digit_char, digit_in_weaken; eassumption. Qed.

Definition octets : list string := (λ n, Itoa (Z.of_nat n)) <$> seq 0 256.

Definition digit_words : list string :=
  ((λ a, String a "") <$> digit_chars)
  ++ (a ← digit_chars; (λ b, String a (String b "")) <$> digit_chars)
  ++ (a ← digit_chars; b ← digit_chars; (λ c, String a (String b (String c ""))) <$> digit_chars).

Lemma octet_word s : octet s = true → s ∈ digit_words.
Proof.
  intros Ho.
  unfold digit_words. rewrite !elem_of_app.
  destruct s as [|a [|b [|c [|]]]]; simpl in Ho; try done.
  - left. apply list_elem_of_fmap. exists a. split; [done|]. by eapply digit_in_chars.
  - right. left. apply andb_true_iff in Ho as [H1 H2].
    apply list_elem_of_bind. exists a. split.
    + apply list_elem_of_fmap. exists b. split; [done|]. by eapply digit_in_chars.
    + by eapply digit_in_chars.
  - right. right. apply list_elem_of_bind. exists a.
    assert (a ∈ digit_chars ∧ b ∈ digit_chars ∧ c ∈ digit_chars) as (? & ? & ?).
    { apply orb_true_iff in Ho as [Ho|Ho]; [apply orb_true_iff in Ho as [Ho|Ho]|];
        apply andb_true_iff in Ho as [Ho H3]; apply andb_true_iff in Ho as [H1 H2];
        split_and!; by eapply digit_in_chars. }
    split; [|done]. apply list_elem_of_bind. exists b. split; [|done].
    apply list_elem_of_fmap. by exists c.
Qed.

(** An octet is the numeral of a number up to 255, without leading zeros. *)
Lemma octet_spec s : octet s = true ↔ ∃ n, n < 256 ∧ s = Itoa (Z.of_nat n).
Proof.
  split.
  - intros Ho. assert (Forall (λ s, octet s = true → s ∈ octets) digit_words) as Hall by decide_goal.
    rewrite Forall_forall in Hall. specialize (Hall s (octet_word s Ho) Ho).
    unfold octets in Hall. apply list_elem_of_fmap in Hall as (n & -> & Hn).
    apply elem_of_seq in Hn. exists n. split; [lia|done].
  - intros (n & Hn & ->).
    assert (Forall (λ n, octet (Itoa (Z.of_nat n)) = true) (seq 0 256)) as Hall by decide_goal.
    rewrite Forall_forall in Hall. apply Hall, elem_of_seq. lia.
Qed.

Lemma validate_ips_spec newIP trimmed rest ips :
  validate_ips newIP trimmed rest = (ips, true) ↔
  Forall (λ ip, IsIpv4Regex (TrimSpace ip) = true) rest
  ∧ ips = match rest with [] => newIP | _ => Join (trimmed ++ (TrimSpace <$> rest)) "," end.
Proof.
  revert newIP trimmed. induction rest as [|ip rest IH]; intros newIP trimmed; simpl.
  - split; [by intros [= ->]|by intros [_ ->]].
  - destruct (IsIpv4Regex (TrimSpace ip)) eqn:Ei.
    + rewrite IH, Forall_cons, Ei.
      destruct rest; simpl; rewrite ?app_nil_r, <- ?app_assoc; simpl; tauto.
    + rewrite Forall_cons, Ei. split; [by intros [= <-]|by intros [[? _] _]].
Qed.

Lemma ValidateIPAddress_spec ipAdd ips :
  ValidateIPAddress ipAdd = (ips, true) ↔
  Forall (λ ip, IsIpv4Regex (TrimSpace ip) = true) (Split ipAdd ",")
  ∧ ips = Join (TrimSpace <$> Split ipAdd ",") ",".
Proof.
  unfold ValidateIPAddress. rewrite validate_ips_spec. pose proof (Split_not_nil ipAdd ",").
  by destruct (Split ipAdd ",").
Qed.

(** *** Arrays *)

(** What an array of the secret must have. *)
Definition complete (c : StorageArrayConfig) : Prop :=
  (ac_SystemID c ≠ "" ∧ ac_Username c ≠ "" ∧ ac_Password c ≠ "" ∧ ac_Endpoint c ≠ "")
  ∧ (ac_MDM c ≠ "" →
     Forall (λ ip, IsIpv4Regex (TrimSpace ip) = true) (Split (ac_MDM c) ",")).

(** The addresses of the [i]-th array: trimmed, and after ["&"] unless the array is the first. *)
Definition mdm_part (i : nat) (c : StorageArrayConfig) : string :=
  if decide (ac_MDM c = "") then ""
  else (if decide (i = 0) then "" else "&") +:+ Join (TrimSpace <$> Split (ac_MDM c) ",") ",".

Fixpoint mdm_join (i : nat) (configs : list StorageArrayConfig) : string :=
  match configs with
  | [] => ""
  | c :: configs' => mdm_part i c +:+ mdm_join (S i) configs'
  end.

Definition defaults (configs : list StorageArrayConfig) : nat :=
  length (filter (λ c, ac_IsDefault c = true) configs).

Lemma add_mdm_Ok i c v0 v :
  add_mdm i c v0 = Ok v ↔
  (ac_MDM c ≠ "" → Forall (λ ip, IsIpv4Regex (TrimSpace ip) = true) (Split (ac_MDM c) ","))
  ∧ v = v0 +:+ mdm_part i c.
Proof.
  unfold add_mdm, mdm_part. destruct (decide (ac_MDM c = "")) as [E|E].
  { rewrite decide_False by naive_solver. rewrite append_nil_r. naive_solver. }
  rewrite decide_True by done. destruct (ValidateIPAddress (ac_MDM c)) as [ips valid] eqn:V.
  destruct valid; simpl.
  - apply ValidateIPAddress_spec in V as [V ->].
    case_decide; rewrite ?append_assoc; naive_solver.
  - split; [done|]. intros [Hv _]. pose proof (proj2 (ValidateIPAddress_spec _ _) (conj (Hv E) eq_refl)).
    congruence.
Qed.

Lemma mdm_step_Ok i c st st' :
  mdm_step i c st = Ok st' ↔
  complete c ∧ (ac_SystemID c ∉ md_Seen st)
  ∧ st' = mkMDMState (md_Val st +:+ mdm_part i c) ({[ac_SystemID c]} ∪ md_Seen st)
              (if ac_IsDefault c then S (md_Defaults st) else md_Defaults st)
  ∧ md_Defaults st' ≤ 1.
Proof.
  unfold mdm_step, complete.
  do 4 (case_decide; [split; [done|naive_solver]|]).
  rewrite outcome_bind_Ok. setoid_rewrite add_mdm_Ok. split.
  - intros (v & [Hm ->] & E). case_decide; [done|]. case_decide; [done|].
    injection E as <-. split_and!; try done. simpl. lia.
  - intros ([_ Hm] & Hs & -> & Hd). simpl in Hd. eexists. split; [done|].
    rewrite decide_False by done. by rewrite decide_False by lia.
Qed.

Lemma mdm_loop_Ok i configs st st' :
  mdm_loop i configs st = Ok st' → md_Defaults st ≤ 1 →
  Forall complete configs ∧ NoDup (ac_SystemID <$> configs)
  ∧ Forall (λ c, ac_SystemID c ∉ md_Seen st) configs
  ∧ md_Defaults st + defaults configs ≤ 1
  ∧ md_Val st' = md_Val st +:+ mdm_join i configs.
Proof.
  revert i st. induction configs as [|c configs IH]; intros i st E Hst; cbn [mdm_loop] in E.
  { injection E as <-. rewrite append_nil_r. split_and!; try done; [constructor|]. unfold defaults. simpl. lia. }
  apply outcome_bind_Ok in E as (st1 & E1 & E).
  apply mdm_step_Ok in E1 as (Hc & Hs & -> & Hd).
  destruct (IH _ _ E Hd) as (Hcs & Hnd & Hseen & Hdef & Hv). simpl in *. split_and!.
  - by constructor.
  - apply NoDup_cons. split; [|done]. intros (c' & Heq & Hin)%list_elem_of_fmap.
    rewrite Forall_forall in Hseen. specialize (Hseen c' Hin). set_solver.
  - constructor; [done|]. eapply Forall_impl; [exact Hseen|]. set_solver.
  - unfold defaults in *. destruct (ac_IsDefault c) eqn:Ed;
      [rewrite filter_cons_True by done; simpl; lia|].
    rewrite filter_cons_False by congruence. lia.
  - by rewrite Hv, append_assoc.
Qed.

Lemma mdm_loop_complete i configs st :
  Forall complete configs → NoDup (ac_SystemID <$> configs) →
  Forall (λ c, ac_SystemID c ∉ md_Seen st) configs →
  md_Defaults st + defaults configs ≤ 1 →
  ∃ st', mdm_loop i configs st = Ok st'.
Proof.
  revert i st. induction configs as [|c configs IH]; intros i st Hc Hn Hs Hd; [by eexists|].
  apply Forall_cons in Hc as [Hc Hcs], Hs as [Hs Hss]. simpl in Hn.
  apply NoDup_cons in Hn as [Hnin Hn].
  assert (md_Defaults st + (if ac_IsDefault c then 1 else 0) + defaults configs ≤ 1) as Hd'.
  { unfold defaults in *. destruct (ac_IsDefault c) eqn:Ed;
      [rewrite filter_cons_True in Hd by done; simpl in Hd; lia|].
    rewrite filter_cons_False in Hd by congruence. lia. }
  set (st1 := mkMDMState (md_Val st +:+ mdm_part i c) ({[ac_SystemID c]} ∪ md_Seen st)
                (if ac_IsDefault c then S (md_Defaults st) else md_Defaults st)).
  assert (mdm_step i c st = Ok st1) as E1.
  { apply mdm_step_Ok. split_and!; try done. subst st1. simpl. destruct (ac_IsDefault c); lia. }
  destruct (IH (S i) st1) as [st' E]; [done..| | |].
  - rewrite Forall_forall in Hss |- *. intros c' Hin. subst st1. simpl.
    apply not_elem_of_union. split; [|by apply Hss].
    intros Heq%elem_of_singleton. apply Hnin, list_elem_of_fmap. by exists c'.
  - subst st1. simpl. destruct (ac_IsDefault c); lia.
  - exists st'. cbn [mdm_loop]. by rewrite E1.
Qed.

(** C18: the arrays of a PowerFlex secret are accepted exactly when each names a system, a user,
    a password and an endpoint, its MDM addresses (if any) are IPv4 addresses, no system occurs
    twice and at most one array is the default; the MDM value is then made of the addresses of
    the arrays in their order, trimmed, those of every array but the first after "&". *)
Theorem mdm_of_arrays_spec configs mdm :
  mdm_of_arrays configs = Ok mdm ↔
  Forall complete configs ∧ NoDup (ac_SystemID <$> configs) ∧ defaults configs ≤ 1
  ∧ mdm = mdm_join 0 configs.
Proof.
  unfold mdm_of_arrays. rewrite outcome_bind_Ok. split.
  - intros (st & E & Ev). injection Ev as <-.
    apply mdm_loop_Ok in E as (? & ? & _ & ? & ->); [|simpl; lia]. by simpl in *.
  - intros (Hc & Hn & Hd & ->).
    destruct (mdm_loop_complete 0 configs (mkMDMState "" ∅ 0)) as [st E]; [done..| |done|].
    + apply Forall_forall. intros c _. simpl. set_solver.
    + exists st. split; [done|]. apply mdm_loop_Ok in E as (_ & _ & _ & _ & ->); [done|simpl; lia].
Qed.

(** *** Zones *)

(** Arrays whose zones agree: all have a name, and the label key is the same everywhere. *)
Definition zoned (key : string) (c : ZoneConfig) : Prop :=
  zo_LabelKey (zc_Zone c) = key ∧ zo_Name (zc_Zone c) ≠ "".

Definition with_zone (configs : list ZoneConfig) : list ZoneConfig :=
  filter (λ c, zc_Zone c ≠ zero_Zone) configs.

Lemma zone_fold configs key n st' :
  (key = "" → n = 0) →
  foldO zone_step (mkZoneState key n) configs = Ok st' ↔
  Forall (λ c, zc_SystemID c ≠ "") configs
  ∧ zs_WithZone st' = n + length (with_zone configs)
  ∧ if decide (with_zone configs = []) then zs_LabelKey st' = key
    else zs_LabelKey st' ≠ "" ∧ (key = "" ∨ zs_LabelKey st' = key)
         ∧ Forall (zoned (zs_LabelKey st')) (with_zone configs).
Proof.
  revert key n. induction configs as [|c configs IH]; intros key n Hkn; cbn [foldO].
  { split; [intros [= <-]; split_and!; simpl; [constructor|lia|done]|].
    destruct st' as [k m]. simpl. intros (_ & -> & ->). do 2 f_equal. lia. }
  rewrite outcome_bind_Ok. unfold zone_step at 1, with_zone. simpl.
  destruct (decide (zc_SystemID c = "")) as [Hid|Hid].
  { rewrite Forall_cons. split; [by intros (? & ? & _)|by intros ([? _] & _)]. }
  destruct (decide (zc_Zone c = zero_Zone)) as [Hz|Hz].
  { rewrite filter_cons_False by (rewrite Hz; naive_solver).
    rewrite Forall_cons. fold (with_zone configs). specialize (IH key n Hkn). split.
    - intros (st1 & [= <-] & E). apply IH in E. tauto.
    - intros HH. eexists. split; [done|]. apply IH. tauto. }
  rewrite filter_cons_True by done. rewrite (decide_False (P := _ :: _ = [])) by done.
  rewrite !Forall_cons. unfold zoned at 1.
  destruct (decide (zo_LabelKey (zc_Zone c) = "")) as [Hl|Hl].
  { split; [by intros (? & ? & _)|]. intros (_ & _ & Hne & _ & [[Hlk _] _]). congruence. }
  set (lk := zo_LabelKey (zc_Zone c)) in *. fold (with_zone configs).
  split.
  - intros (st1 & E1 & E). apply outcome_bind_Ok in E1 as (k1 & Ek & E1).
    case_decide as Hn; [done|]. injection E1 as <-.
    assert (k1 = lk ∧ (key = "" ∨ key = lk)) as [-> Hk].
    { destruct (decide (key = "")); [injection Ek as <-; by auto|].
      destruct (decide (key ≠ lk)); [done|]. injection Ek as <-.
      split; [|right]; by apply dec_stable. }
    apply IH in E as (Hids & Hw & Hrest); [|done].
    destruct (decide (with_zone configs = [])) as [Hnil|Hnil].
    + rewrite Hnil in *. simpl in *. rewrite Hrest. assert (key = "" ∨ lk = key) by (destruct Hk; auto).
      split_and!; (done || lia || constructor).
    + destruct Hrest as (? & [?|?] & ?); [done|]. simpl in *.
      assert (key = "" ∨ zs_LabelKey st' = key) by (destruct Hk; [by left|right; congruence]).
      split_and!; (done || lia || congruence).
  - intros ([_ Hids] & Hw & Hne & Hk & [[Hlk Hn] Hall]). simpl in Hw.
    exists (mkZoneState lk (S n)). split.
    + apply outcome_bind_Ok. exists lk. split.
      * destruct (decide (key = "")); [done|]. destruct Hk as [?|Hk]; [done|].
        rewrite decide_False by (intros H'; apply H'; congruence). congruence.
      * by rewrite decide_False.
    + apply IH; [done|]. split_and!; [done|lia|].
      case_decide; [done|]. split_and!; [done|by right|done].
Qed.

(** The zones of a PowerFlex secret are accepted exactly when every array has a system ID
    and either none has a zone, or all have one, with a name each and one and the same
    non-empty label key. *)
Theorem validate_zones_spec configs :
  validate_zones configs = Ok () ↔
  Forall (λ c, zc_SystemID c ≠ "") configs
  ∧ (Forall (λ c, zc_Zone c = zero_Zone) configs
     ∨ ∃ key, key ≠ "" ∧ Forall (zoned key) configs).
Proof.
  unfold validate_zones. rewrite outcome_bind_Ok. split.
  - intros (st & E & Ez). apply zone_fold in E as (Hids & Hw & Hz); [|done]. split; [done|].
    case_decide as Hc; [done|]. clear Ez.
    destruct (decide (with_zone configs = [])) as [Hnil|Hnil].
    + left. apply Forall_forall. intros c Hc'. apply dec_stable. intros Hne.
      assert (c ∈ with_zone configs) as Hin by (by apply list_elem_of_filter).
      rewrite Hnil in Hin. by apply elem_of_nil in Hin.
    + right. exists (zs_LabelKey st). destruct Hz as (? & _ & Hall). split; [done|].
      assert (with_zone configs = configs) as <-; [|done].
      apply filter_full. fold (with_zone configs). assert (0 < length (with_zone configs)).
      { destruct (with_zone configs); [done|simpl; lia]. }
      destruct (decide (length configs = zs_WithZone st)); [simpl in *; lia|].
      exfalso. apply Hc. simpl in *. lia.
  - intros (Hids & Hz).
    assert (∃ st, foldO zone_step (mkZoneState "" 0) configs = Ok st
      ∧ ¬ (0 < zs_WithZone st ∧ length configs ≠ zs_WithZone st)) as (st & E & Hst).
    { destruct Hz as [Hz|(key & Hkey & Hz)].
      - assert (with_zone configs = []) as Hnil.
        { apply filter_none. eapply Forall_impl; [exact Hz|]. naive_solver. }
        exists (mkZoneState "" 0). split; [|simpl; lia]. apply zone_fold; [done|].
        rewrite Hnil. by split_and!.
      - assert (with_zone configs = configs) as Hall.
        { apply filter_all. eapply Forall_impl; [exact Hz|]. intros c [Hk _] Heq.
          rewrite Heq in Hk. by subst. }
        destruct (decide (configs = [])) as [->|Hne].
        { exists (mkZoneState "" 0). split; [done|]. intros [? _]. simpl in *. lia. }
        exists (mkZoneState key (length configs)). split; [|simpl; lia]. apply zone_fold; [done|].
        rewrite Hall, decide_False by done. split_and!; try done; by left. }
    exists st. split; [done|]. by rewrite decide_False.
Qed.

(** *** Certificates *)

(** The secrets that a volume projects. *)
Definition projected (v : VolumeApply) : list string :=
  (λ p, default "" (pj_Name p)) <$> default [] (va_Projected v).

Lemma projected_cert_volume cr st : projected (cert_volume cr st) = cert_secret cr <$> cert_range st.
Proof.
  unfold projected, cert_volume. simpl. by rewrite <- list_fmap_compose.
Qed.

Lemma cert_settings_Ok invalid invalid' skipName st envs st' :
  cert_settings invalid skipName st envs = Ok st' → cert_settings invalid' skipName st envs = Ok st'.
Proof.
  unfold cert_settings. revert st. induction envs as [|env envs IH]; intros st; cbn [foldO]; [done|].
  rewrite !outcome_bind_Ok. intros (st1 & E1 & E). exists st1. split; [|by apply IH].
  destruct st as [skip count]. revert E1. rewrite !outcome_bind_Ok.
  intros (s & Es & E1). exists s. split.
  - revert Es. destruct (decide (ev_Name env = skipName)); [|done]. by destruct (ParseBool (ev_Value env)).
  - revert E1. rewrite !outcome_bind_Ok. intros (n & En & E1). exists n. split; [|done].
    revert En. destruct (decide (ev_Name env = "CERT_SECRET_COUNT")); [|done]. by destruct (ParseInt8 (ev_Value env)).
Qed.

Lemma cert_secrets_Ok invalid invalid' skipName skip cr names :
  cert_secrets invalid skipName skip cr = Ok names → cert_secrets invalid' skipName skip cr = Ok names.
Proof.
  unfold cert_secrets. rewrite !outcome_bind_Ok. intros (st & E & ?). exists st.
  split; [by eapply cert_settings_Ok|done].
Qed.

(** The volume [m] projects exactly the secrets that the check demands, and is refused when the
    request is. *)
Definition mounts_demanded (m : outcome VolumeApply) (demanded : outcome (list string)) : Prop :=
  ∀ names, projected <$> m = Ok names ↔ demanded = Ok names.

(** The requests that validate certificates without more to say: with one variable at most,
    which is not the number of secrets, and validation on, by that variable or by the default
    [skip]. *)
Definition lone_validation (skipName : string) (skip : bool) (cr : CSM) : Prop :=
  (common_envs cr = [] ∧ skip = false)
  ∨ ∃ env, common_envs cr = [env] ∧ ev_Name env ≠ "CERT_SECRET_COUNT"
      ∧ if decide (ev_Name env = skipName) then ParseBool (ev_Value env) = Ok false
        else skip = false.

Lemma cert_volume_mounts invalid invalid' skipName st cr :
  mounts_demanded
    (st ← cert_settings invalid skipName st (common_envs cr); Ok (cert_volume cr st))
    (st ← cert_settings invalid' skipName st (common_envs cr); Ok (cert_secret cr <$> cert_range st)).
Proof.
  intros names. rewrite outcome_bind_Ok. split.
  - intros E. destruct (cert_settings invalid _ _ _) as [st'|e|y] eqn:Es; [|done..].
    exists st'. split; [by eapply cert_settings_Ok|]. injection E as <-. by rewrite projected_cert_volume.
  - intros (st' & E & [= <-]). rewrite (cert_settings_Ok _ invalid _ _ _ _ E). simpl.
    by rewrite projected_cert_volume.
Qed.

(** The reading of the settings that the volumes of PowerScale and PowerStore use: it starts
    from no secret when there is one variable at most, where the check starts from one. *)
Lemma cert_readings invalid invalid' skipName skip cr :
  let volume := st ← cert_settings invalid' skipName
                       (skip, if lone_env (common_envs cr) then 0 else 1)%Z (common_envs cr);
                Ok (cert_volume cr st) in
  let demanded := cert_secrets invalid skipName skip cr in
  (¬ lone_validation skipName skip cr → mounts_demanded volume demanded)
  ∧ (lone_validation skipName skip cr →
     demanded = Ok [cert_secret cr 0] ∧ projected <$> volume = Ok []).
Proof.
  cbv zeta. destruct (lone_env (common_envs cr)) eqn:L.
  - unfold cert_secrets, lone_validation, mounts_demanded, cert_settings.
    destruct (common_envs cr) as [|env [|? ?]]; [| |done]; simpl.
    + destruct skip; simpl; split; try done; [by intros [[_ ?]|(? & ? & _)]|intros []; by left].
    + simpl in L. apply bool_decide_eq_true in L.
      rewrite !(decide_False (P := _ = "CERT_SECRET_COUNT")) by done.
      split; [intros Hv|intros [[? _]|(env' & [= <-] & _ & E)]; [done|]].
      * destruct (decide (ev_Name env = skipName)) as [Hs|Hs].
        -- destruct (ParseBool (ev_Value env)) as [[]|e|y] eqn:Ep; [done| |by split..].
           destruct Hv. right. exists env. by rewrite decide_True.
        -- destruct skip; [done|]. destruct Hv. right. exists env. by rewrite decide_False.
      * destruct (decide (ev_Name env = skipName)); [by rewrite E|by subst skip].
  - split; [intros _; apply cert_volume_mounts|].
    intros [[Henv _]|(env & Henv & Hn & _)]; rewrite Henv in L; simpl in L; [done|].
    by apply bool_decide_eq_false in L.
Qed.

(** C19: the volume of the certificates projects exactly the secrets that the check of the
    request demands, and is refused exactly when the check refuses the settings: always for a
    Unity driver, and for PowerScale and PowerStore unless the request validates certificates
    with one variable at most, which is not CERT_SECRET_COUNT. Such a request has to come with
    its first certificate secret, which is then not mounted. A PowerScale driver validates by
    default, the other two do not. *)
Theorem cert_volume_spec cr :
  let scale := cert_secrets is_an_invalid_value SkipIsilon false cr in
  let store := cert_secrets invalid_value_for SkipPowerStore true cr in
  mounts_demanded (getApplyCertVolumeUnity cr) (cert_secrets is_an_invalid_value SkipUnity true cr)
  ∧ (¬ lone_validation SkipIsilon false cr → mounts_demanded (getApplyCertVolume cr) scale)
  ∧ (lone_validation SkipIsilon false cr →
     scale = Ok [cert_secret cr 0] ∧ projected <$> getApplyCertVolume cr = Ok [])
  ∧ (¬ lone_validation SkipPowerStore true cr →
     mounts_demanded (getApplyCertVolumePowerstore cr) store)
  ∧ (lone_validation SkipPowerStore true cr →
     store = Ok [cert_secret cr 0] ∧ projected <$> getApplyCertVolumePowerstore cr = Ok []).
Proof.
  cbv zeta.
  assert (∀ invalid skipName skip, projected <$> (st ← match d_Common (sp_Driver (cr_Spec cr)) with
       | Some common =>
           cert_settings invalid skipName
             (skip, if lone_env (default [] (ct_Envs common)) then 0 else 1)%Z
             (default [] (ct_Envs common))
       | None => Ok (true, 0%Z)
       end;
       Ok (cert_volume cr st)) =
    projected <$> (st ← cert_settings invalid skipName
                       (skip, if lone_env (common_envs cr) then 0 else 1)%Z (common_envs cr);
                   Ok (cert_volume cr st))) as Hread.
  { intros invalid skipName skip. unfold common_envs, envs_of.
    destruct (d_Common (sp_Driver (cr_Spec cr))); [done|]. by destruct skip. }
  destruct (cert_readings is_an_invalid_value is_an_invalid_value SkipIsilon false cr) as [Hs1 Hs2].
  destruct (cert_readings invalid_value_for is_an_invalid_value SkipPowerStore true cr) as [Ht1 Ht2].
  unfold mounts_demanded, getApplyCertVolume, getApplyCertVolumePowerstore in *.
  setoid_rewrite Hread. split_and!; [|assumption..].
  pose proof (cert_volume_mounts is_an_invalid_value is_an_invalid_value SkipUnity (true, 1%Z) cr) as Hu.
  unfold getApplyCertVolumeUnity, cert_secrets, mounts_demanded, common_envs, envs_of in *.
  by destruct (d_Common (sp_Driver (cr_Spec cr))).
Qed.

(** *** The checks *)

Section check_claims.
Context {W : Type} `{Client W} `{!View W} `{!ClientLaws}.
#[local] Set Default Proof Using "All".

(** A secret was looked up, and the server did not say that it is absent. *)
Definition found (cr : CSM) (w : World W) (name : string) : Prop :=
  ∃ w1 r w2, seen w1 = seen w ∧ getT Secret (cr_Namespace cr) name w1 = (r, w2)
    ∧ ∀ e, r = Fail e → IsNotFound e = false.

Lemma found_seen cr w1 w2 name : seen w1 = seen w2 → found cr w1 name → found cr w2 name.
Proof. intros Es (w3 & r & w4 & Hs & ?). exists w3, r, w4. by rewrite Hs, Es. Qed.

Lemma reads_require_secret cr name : reads (require_secret cr name).
Proof. unfold reads, require_secret. solve_touches. Qed.

Lemma reads_GetSecret name ns : reads (GetSecret name ns).
Proof. unfold reads, GetSecret. solve_touches. Qed.

Lemma require_secret_Ok cr name w w' : require_secret cr name w = (Ok (), w') → found cr w name.
Proof.
  unfold require_secret, attempt, mbind, M_bind.
  destruct (getT Secret _ name w) as [r w1] eqn:E. intros E1. exists w, r, w1. split; [done|].
  split; [done|]. intros e ->. destruct (IsNotFound e); [done|done].
Qed.

Lemma GetSecret_Ok name cr w s w' : GetSecret name (cr_Namespace cr) w = (Ok s, w') → found cr w name.
Proof.
  unfold GetSecret, attempt, mbind, M_bind.
  destruct (getT Secret _ name w) as [r w1] eqn:E. intros E1. exists w, r, w1. split; [done|].
  split; [done|]. intros e ->. destruct (IsNotFound e); [done|done].
Qed.

Lemma require_secrets_Ok cr names w w' :
  forM (require_secret cr) names w = (Ok (), w') → Forall (found cr w) names.
Proof.
  revert w. induction names as [|name names IH]; intros w E; [constructor|].
  apply M_bind_Ok in E as ([] & w1 & E1 & E). constructor; [by eapply require_secret_Ok|].
  apply reads_seen in E1 as Hs; [|apply reads_require_secret].
  eapply Forall_impl; [by apply IH|]. intros name'. by apply found_seen.
Qed.

Context `{Host} `{MapOrder} `{SecretCodec}.

Lemma reading_check_inv cr (m : M (World W) ()) w cr' err w' :
  reading_check cr m w = (Ok (cr', err), w') →
  cr' = cr ∧ ∃ r, m w = (r, w') ∧ r = match err with None => Ok () | Some e => Fail e end.
Proof using.
  unfold reading_check, attempt, mbind, M_bind.
  destruct (m w) as [[[]|e|y] w1] eqn:E; intros E1; [| |done];
    injection E1 as <- <- <-; split; [done|eauto|done|eauto].
Qed.

Lemma reads_reading_check cr (m : M (World W) ()) : reads m → reads (reading_check cr m).
Proof. intros Hm. unfold reading_check. apply touches_bind; [by apply touches_attempt|]. solve_touches. Qed.

(** A configuration for the version of the request exists in the driver's directory. *)
Definition configured (cr : CSM) (op : OperatorConfig) (dir : string) : Prop :=
  ∃ version, GetVersion cr op = Ok version
    ∧ FileExists (oc_ConfigDirectory op +:+ "/driverconfig/" +:+ dir +:+ "/" +:+ version
                  +:+ "/upgrade-path.yaml") = true.

Lemma supported_version_Ok cr op dir label version :
  supported_version cr op dir label = Ok version → configured cr op dir.
Proof.
  unfold supported_version. intros E. apply outcome_bind_Ok in E as (v & Ev & E).
  destruct (FileExists _) eqn:Ef; [|done]. by exists v.
Qed.

(** A check: what it runs, the directory of the driver, the secrets it asks for, and what it
    does to the request. *)
Record Check := mkCheck {
  ck_run : CSM → OperatorConfig → M (World W) (CSM * option error);
  ck_dir : string;
  ck_secrets : CSM → outcome (list string);
  ck_effect : CSM → CSM
}.

Definition cert_check run dir invalid skipName skip (secret : CSM → string) : Check :=
  mkCheck run dir
    (λ cr, certs ← cert_secrets invalid skipName skip cr; Ok (secret cr :: certs)) id.

Definition checks : list Check :=
  [cert_check PrecheckPowerScale PowerScaleName is_an_invalid_value SkipIsilon false
     (λ cr, auth_secret cr "-creds");
   cert_check PrecheckPowerStore "powerstore" invalid_value_for SkipPowerStore true
     (λ cr, auth_secret cr "-config");
   cert_check PrecheckUnity "unity" is_an_invalid_value SkipUnity true
     (λ cr, cr_Name cr +:+ "-creds");
   mkCheck PrecheckCosi Cosi (λ cr, Ok [cr_Name cr +:+ "-config"]) id;
   mkCheck PrecheckPowerMax "powermax" (λ cr, Ok [auth_secret cr "-creds"])
     (λ cr, set_cr_Modules (enable_reverse_proxy (sp_Modules (cr_Spec cr))) cr);
   mkCheck PrecheckPowerFlex PowerFlex
     (λ cr, Ok ((cr_Name cr +:+ "-config")
                :: if isDriverMetricsTLSEnabled cr then [metrics_secret cr] else [])) id].

(** What the specification of a check says of a run. *)
Definition check_meets (c : Check) : Prop := ∀ cr op w cr' err w',
  ck_run c cr op w = (Ok (cr', err), w') →
  seen w' = seen w
  ∧ cr' = match err with None => ck_effect c cr | Some _ => cr end
  ∧ (err = None → configured cr op (ck_dir c)
       ∧ ∃ names, ck_secrets c cr = Ok names ∧ Forall (found cr w) names).

Lemma cert_check_meets run dir label invalid skipName skip secret :
  (∀ cr op, run cr op = reading_check cr
     (_ ← lift (supported_version cr op dir label);
      certs ← lift (cert_secrets invalid skipName skip cr);
      forM (require_secret cr) (secret cr :: certs))) →
  check_meets (cert_check run dir invalid skipName skip secret).
Proof.
  intros Hrun cr op w cr' err w' E. simpl in E. rewrite Hrun in E. split.
  { eapply reads_seen; [|exact E]. apply reads_reading_check. unfold reads.
    apply touches_bind; [apply touches_lift|]. intros _.
    apply touches_bind; [apply touches_lift|]. intros certs. apply touches_forM.
    intros name. apply reads_require_secret. }
  apply reading_check_inv in E as (-> & r & E & ->). destruct err as [e|]; [by split|].
  split; [done|]. intros _.
  apply M_bind_Ok in E as (version & w1 & Ev & E). injection Ev as Ev <-.
  apply M_bind_Ok in E as (certs & w2 & Ec & E). injection Ec as Ec <-.
  split; [by eapply supported_version_Ok|]. exists (secret cr :: certs).
  split; [simpl; by rewrite Ec|]. by eapply require_secrets_Ok.
Qed.

Lemma PrecheckCosi_meets : check_meets
  (mkCheck PrecheckCosi Cosi (λ cr, Ok [cr_Name cr +:+ "-config"]) id).
Proof.
  intros cr op w cr' err w' E. simpl in *. unfold PrecheckCosi in E. split.
  { eapply reads_seen; [|exact E]. apply reads_reading_check. unfold reads.
    apply touches_bind; [apply touches_lift|]. intros version.
    apply touches_bind; [apply touches_lift|]. intros _.
    apply touches_bind; [apply touches_orFail, reads_GetSecret|]. intros s. apply touches_ret. }
  apply reading_check_inv in E as (-> & r & E & ->). destruct err as [e|]; [by split|].
  split; [done|]. intros _.
  apply M_bind_Ok in E as (version & w1 & Ev & E). injection Ev as Ev <-.
  apply M_bind_Ok in E as ([] & w2 & Ef & E). injection Ef as Ef <-.
  apply M_bind_Ok in E as (s & w3 & Es & E). apply orFail_Ok, GetSecret_Ok in Es. split.
  - exists version. split; [by destruct (GetVersion cr op)|]. by destruct (FileExists _).
  - eexists. split; [done|]. by repeat constructor.
Qed.

Lemma PrecheckPowerMax_meets : check_meets
  (mkCheck PrecheckPowerMax "powermax" (λ cr, Ok [auth_secret cr "-creds"])
     (λ cr, set_cr_Modules (enable_reverse_proxy (sp_Modules (cr_Spec cr))) cr)).
Proof.
  intros cr op w cr' err w' E. simpl in *. unfold PrecheckPowerMax in E. split.
  { eapply reads_seen; [|exact E]. unfold reads. apply touches_bind.
    - apply touches_attempt, touches_bind; [apply touches_lift|]. intros _.
      apply reads_require_secret.
    - intros [e|[]]; apply touches_ret. }
  unfold attempt, mbind, M_bind, lift in E.
  destruct (supported_version cr op "powermax" PowerMax) as [v|e|y] eqn:Ev;
    [|by injection E as <- <- <-|done].
  destruct (require_secret cr (auth_secret cr "-creds") w) as [[[]|e|y] w1] eqn:Er;
    [|by injection E as <- <- <-|done].
  injection E as <- <- <-. split; [done|]. intros _. split; [by eapply supported_version_Ok|].
  eexists. split; [done|]. repeat constructor. by eapply require_secret_Ok.
Qed.

Lemma reads_GetMDMFromSecret cr : reads (GetMDMFromSecret cr).
Proof.
  unfold reads, GetMDMFromSecret. apply touches_bind; [apply touches_orFail, reads_GetSecret|].
  intros s. case_decide; [apply touches_fail|].
  apply touches_bind; [apply touches_orFail, touches_lift|]. intros y. apply touches_lift.
Qed.

Lemma PrecheckPowerFlex_meets : check_meets
  (mkCheck PrecheckPowerFlex PowerFlex
     (λ cr, Ok ((cr_Name cr +:+ "-config")
                :: if isDriverMetricsTLSEnabled cr then [metrics_secret cr] else [])) id).
Proof.
  intros cr op w cr' err w' E. simpl in *. unfold PrecheckPowerFlex in E. split.
  { eapply reads_seen; [|exact E]. apply reads_reading_check. unfold reads. case_match.
    - apply touches_fail.
    - apply touches_bind; [apply touches_lift|]. intros _.
      apply touches_bind; [apply reads_GetMDMFromSecret|]. intros _.
      case_match; [apply reads_require_secret|apply touches_ret]. }
  apply reading_check_inv in E as (-> & r & E & ->). destruct err as [e|]; [by split|].
  split; [done|]. intros _. destruct (_ && _) in E; [done|].
  apply M_bind_Ok in E as (version & w1 & Ev & E). injection Ev as Ev <-.
  apply M_bind_Ok in E as (mdm & w2 & Em & E).
  split; [by eapply supported_version_Ok|]. eexists. split; [done|].
  apply reads_seen in Em as Hs; [|apply reads_GetMDMFromSecret]. constructor.
  - unfold GetMDMFromSecret in Em. apply M_bind_Ok in Em as (s & w3 & Es & _).
    by apply orFail_Ok, GetSecret_Ok in Es.
  - destruct (isDriverMetricsTLSEnabled cr); [|constructor]. repeat constructor.
    apply require_secret_Ok in E. by eapply found_seen.
Qed.

Lemma checks_meet : Forall check_meets checks.
Proof.
  unfold checks. repeat (apply Forall_cons; split); [| | | | | |by apply Forall_nil].
  - by eapply cert_check_meets.
  - by eapply cert_check_meets.
  - by eapply cert_check_meets.
  - apply PrecheckCosi_meets.
  - apply PrecheckPowerMax_meets.
  - apply PrecheckPowerFlex_meets.
Qed.

(** C17: the check of each driver reads the cluster and changes nothing on it; it changes the
    request in one case only (a PowerMax request that passes has its reverse proxy enabled);
    when it passes, the operator has a configuration for the version of the request, and each
    secret that the request needs (the credentials, the certificates that its variables ask
    for, the metrics certificate) was looked up and is not known to be absent. *)
Theorem prechecks_spec : Forall check_meets checks.
Proof. apply checks_meet. Qed.

Lemma enable_reverse_proxy_keeps ms : Forall2 (module_keeps stays) ms (enable_reverse_proxy ms).
Proof.
  assert (∀ l, Forall2 (module_keeps stays) l l) as Hrefl.
  { intros l. apply Forall_Forall2_diag, Forall_forall. intros m _. by split_and!. }
  induction ms as [|m ms IH]; simpl; [constructor|]. case_decide.
  - constructor; [by split_and!|apply Hrefl].
  - constructor; [by split_and!|done].
Qed.
End check_claims.

(** ** Witnesses *)

Definition no_secrets : SecretCodec := {|
  yaml_JSONToYAML y := inr y;
  yaml_ArrayConfigs y := ([], None);
  yaml_ZoneConfigs y := inr []
|}.

Section witnesses.
#[local] Existing Instances demo_host no_secrets.

Definition powermax_cr (proxy : bool) : CSM :=
  mkCSM "ContainerStorageModule" (named "dell" "csm")
    (mkSpec "" (mkDriver PowerMax None "v2.17.0" 2 "" None None None [] [] [] "" "" None None)
       [mkModule ReverseProxy proxy "" [] proxy []] "" false) zero_Status.

Definition powermax_world : World Store :=
  world_of [OSecret (mkSecret (named "dell" "csm-creds") None)] obeys.

Lemma prechecks_spec_witness :
  fst (PrecheckPowerMax (powermax_cr false) demo_config powermax_world)
    = Ok (powermax_cr true, None)
  ∧ found (powermax_cr false) powermax_world "csm-creds".
Proof.
  assert (fst (PrecheckPowerMax (powermax_cr false) demo_config powermax_world)
    = Ok (powermax_cr true, None)) as E by (vm_compute; reflexivity).
  split; [exact E|]. apply run_fst in E.
  pose proof (prechecks_spec (W := Store)) as Hall. unfold checks in Hall.
  do 4 apply Forall_inv_tail in Hall. apply Forall_inv in Hall.
  destruct (Hall _ _ _ _ _ _ E) as (_ & _ & Hr).
  destruct (Hr eq_refl) as (_ & names & Hn & Hf). injection Hn as <-.
  exact (Forall_inv Hf).
Defined.
End witnesses.
