(* ===== verification/Pods.v ===== *)
(** The pods of a driver (pkg/drivers): [GetController], [GetNode] and what they make of
    containers and volumes (commonconfig.go), [SetSDCinitContainers], [RemoveVolume] and
    [RemoveInitVolume] (powerflex.go), [DynamicallyMountPowermaxContent] (powermax.go).

    The last section puts the package together: [driver_package] is the implementation of
    the interface [DriverPackage], and it obeys the laws of the interface. *)

From S2P Require Import Prelude.
From S2P Require Import GoStrings.
From S2P Require Import Types.
From S2P Require Import Versions.
From S2P Require Import Modules.
From S2P Require Import Images.
From S2P Require Import Cluster.
From S2P Require Import Resources.
From S2P Require Import Packages.
From S2P Require Import Manifests.
From S2P Require Import Drivers.
From Stdlib Require Import Ascii.
From stdpp Require Import options.

Local Open Scope stdpp_scope.

(** ** Pod specifications *)

(** [d.Spec.Template.Spec], through three pointers *)
Definition pod_spec (d : Workload) : outcome PodSpecApply := deref (wl_Pod d).

Definition set_pod (p : PodSpecApply) (d : Workload) : Workload :=
  map_wl_Template (λ t, mkPodTemplateApply (pt_Labels t) (Some p)) d.

Definition set_pod_Containers (v : list ContainerApply) (p : PodSpecApply) : PodSpecApply :=
  mkPodSpecApply v (pod_InitContainers p) (pod_Volumes p) (pod_Tolerations p)
    (pod_NodeSelector p) (pod_DNSPolicy p) (pod_Rest p).
Definition set_pod_InitContainers (v : list ContainerApply) (p : PodSpecApply) : PodSpecApply :=
  mkPodSpecApply (pod_Containers p) v (pod_Volumes p) (pod_Tolerations p)
    (pod_NodeSelector p) (pod_DNSPolicy p) (pod_Rest p).
Definition set_pod_Volumes (v : list VolumeApply) (p : PodSpecApply) : PodSpecApply :=
  mkPodSpecApply (pod_Containers p) (pod_InitContainers p) v (pod_Tolerations p)
    (pod_NodeSelector p) (pod_DNSPolicy p) (pod_Rest p).
Definition set_pod_Tolerations (v : list TolerationApply) (p : PodSpecApply) : PodSpecApply :=
  mkPodSpecApply (pod_Containers p) (pod_InitContainers p) (pod_Volumes p) v
    (pod_NodeSelector p) (pod_DNSPolicy p) (pod_Rest p).
Definition set_pod_NodeSelector (v : gomap) (p : PodSpecApply) : PodSpecApply :=
  mkPodSpecApply (pod_Containers p) (pod_InitContainers p) (pod_Volumes p) (pod_Tolerations p)
    v (pod_DNSPolicy p) (pod_Rest p).
Definition set_pod_DNSPolicy (v : option string) (p : PodSpecApply) : PodSpecApply :=
  mkPodSpecApply (pod_Containers p) (pod_InitContainers p) (pod_Volumes p) (pod_Tolerations p)
    (pod_NodeSelector p) v (pod_Rest p).

Definition apply_toleration (t : Toleration) : TolerationApply :=
  mkTolerationApply (Some (to_Key t)) (Some (to_Operator t)) (Some (to_Value t))
    (Some (to_Effect t)) (to_TolerationSeconds t).

(** the tolerations and the node selector of a section of the request *)
Definition place_pod (section : option ContainerTemplate) (p : PodSpecApply) : PodSpecApply :=
  match section with
  | None => p
  | Some t =>
      let p := match ct_Tolerations t with
               | [] => p
               | tols => set_pod_Tolerations (apply_toleration <$> tols) p
               end in
      match ct_NodeSelector t with
      | None => p
      | Some _ => set_pod_NodeSelector (ct_NodeSelector t) p
      end
  end.

(** ** Containers *)

(** [slices.ContainsFunc(xs, func(x) { return *x.Name == name })]: a name that is nil panics,
    unless an earlier one matches *)
Fixpoint contains_name {A} (get : A → option string) (name : string) (xs : list A)
    : outcome bool :=
  match xs with
  | [] => Ok false
  | x :: xs' =>
      n ← deref (get x);
      if decide (n = name) then Ok true else contains_name get name xs'
  end.

Definition dynamicallyMountVolume (c : ContainerApply) (mount : VolumeMountApply)
    : outcome ContainerApply :=
  name ← deref (vm_Name mount);
  contains ← contains_name vm_Name name (ca_VolumeMounts c);
  Ok (if (contains : bool) then c else set_ca_VolumeMounts (ca_VolumeMounts c ++ [mount]) c).

Definition dynamicallyAddEnvironmentVariable (c : ContainerApply) (envVar : EnvVarApply)
    : outcome ContainerApply :=
  name ← deref (ea_Name envVar);
  contains ← contains_name ea_Name name (ca_Env c);
  Ok (if (contains : bool) then c else set_ca_Env (ca_Env c ++ [envVar]) c).

Definition dynamicallyAddVolume (volumes : list VolumeApply) (vol : VolumeApply)
    : outcome (list VolumeApply) :=
  name ← deref (va_Name vol);
  contains ← contains_name va_Name name volumes;
  Ok (if (contains : bool) then volumes else volumes ++ [vol]).

Definition env_apply (name value : string) : EnvVarApply :=
  mkEnvVarApply (Some name) (Some value) None.

Definition SetDriverMetrics (cr : CSM) (c : ContainerApply) : outcome ContainerApply :=
  if decide (GetDriverType cr = PowerFlex) then
    if isDriverMetricsTLSEnabled cr then
      c ← dynamicallyMountVolume c
            (mkVolumeMountApply (Some "metrics-tls") (Some "/etc/metrics-tls") (Some true) "");
      c ← dynamicallyAddEnvironmentVariable c
            (env_apply "X_CSI_METRICS_TLS_CERT_FILE" "/etc/metrics-tls/tls.crt");
      dynamicallyAddEnvironmentVariable c
        (env_apply "X_CSI_METRICS_TLS_KEY_FILE" "/etc/metrics-tls/tls.key")
    else Ok c
  else Ok c.

(** [matched.Images[name] = image], in the map that the caller shares *)
Definition recordMatchedContainerImage (matched : VersionSpec) (containerName image : string)
    : VersionSpec :=
  if decide (containerName = "" ∨ image = "") then matched
  else mkVersionSpec (vs_Version matched) (<[containerName := image]> (vs_Images matched)).

(** the image of the Common section, if it names one *)
Definition common_image (cr : CSM) (c : ContainerApply) : ContainerApply :=
  match d_Common (sp_Driver (cr_Spec cr)) with
  | Some common => if decide (ct_Image common ≠ "") then set_ca_Image (Some (ct_Image common)) c else c
  | None => c
  end.

(** [resolved := ResolveImage( *c.Image, cr); c.Image = &resolved] *)
Definition registry_image (cr : CSM) (c : ContainerApply) : outcome ContainerApply :=
  image ← deref (ca_Image c);
  Ok (set_ca_Image (Some (ResolveImage image cr)) c).

(** Whether the sidecars of the request remove a container: those of [optional] are removed
    unless they are enabled, others are kept unless they are disabled. *)
Definition removed_container (optional : list string) (sideCars : list ContainerTemplate)
    (name : string) : bool :=
  match list_find (λ s, ct_Name s = name) sideCars with
  | Some (_, s) =>
      match ct_Enabled s with
      | None => bool_decide (name ∈ optional)
      | Some enabled => negb enabled
      end
  | None => bool_decide (name ∈ optional)
  end.

Definition driver_names : list string := ["driver"; "objectstorage-provisioner"].

(** ** GetController *)

Definition controller_optional : list string :=
  ["csi-external-health-monitor-controller"; "external-health-monitor"].

(** what is left of the matched image of the driver, and the version with what was recorded *)
Definition ControllerState : Type := string * VersionSpec.

(** the image of a driver's container: that of the version, once; the registry's; the request's *)
Definition driver_image (cr : CSM) (st : ControllerState) (name : string) (c : ContainerApply)
    : outcome (ControllerState * ContainerApply) :=
  let '(matchedDriverImage, matched) := st in
  if decide (matchedDriverImage ≠ "") then
    Ok ("", recordMatchedContainerImage matched name matchedDriverImage,
        set_ca_Image (Some matchedDriverImage) c)
  else if decide (sp_CustomRegistry (cr_Spec cr) ≠ "") then
    c ← registry_image cr c; Ok (st, c)
  else Ok (st, common_image cr c).

(** one container: [None] when it is removed *)
Definition controller_container (cr : CSM) (op : OperatorConfig) (st : ControllerState)
    (c : ContainerApply) : outcome (ControllerState * option ContainerApply) :=
  let sideCars := d_SideCars (sp_Driver (cr_Spec cr)) in
  name ← deref (ca_Name c);
  '(st, c) ← (if decide (name ∈ driver_names) then
                '(st, c) ← driver_image cr st name c;
                env ← ReplaceAllApplyCustomEnvs (ca_Env c) (common_envs cr) (controller_envs cr);
                c ← SetDriverMetrics cr (set_ca_Env env c);
                Ok (st, c)
              else Ok (st, c));
  if removed_container controller_optional sideCars name then Ok (st, None)
  else
    c ← ReplaceAllContainerImageApply (oc_K8sVersion op) c;
    c ← (if decide (name ∈ driver_names) then Ok c
         else UpdateSideCarApply sideCars c cr (snd st));
    Ok (st, Some c).

Definition controller_containers (cr : CSM) (op : OperatorConfig) (st : ControllerState)
    (cs : list ContainerApply) : outcome (ControllerState * list ContainerApply) :=
  collect (controller_container cr op) st cs.

(** *** Volumes *)

Definition defaultVolumeConfigName (driverName : string) : string :=
  if decide (driverName = PowerScaleName) then "isilon-configs" else "".

(** the volume of the certificates for the type of the driver; a new, empty one for a type
    without any *)
Definition cert_volume_of (cr : CSM) : outcome VolumeApply :=
  let t := GetDriverType cr in
  if decide (t = PowerScale ∨ t = PowerFlex) then getApplyCertVolume cr
  else if decide (t = Unity) then getApplyCertVolumeUnity cr
  else if decide (t = PowerMax) then getApplyCertVolumePowermax cr
  else if decide (t = PowerStore) then getApplyCertVolumePowerstore cr
  else Ok (mkVolumeApply None None None None NoSource).

Definition update_volume (cr : CSM) (driverName : string) (v : VolumeApply)
    : outcome VolumeApply :=
  name ← deref (va_Name v);
  let secret := d_AuthSecret (sp_Driver (cr_Spec cr)) in
  newV ← (if decide (name = "certs") then cert_volume_of cr else Ok v);
  if decide (name = defaultVolumeConfigName driverName ∧ secret ≠ "") then
    s ← deref (va_Secret newV);
    Ok (mkVolumeApply (va_Name newV) (Some (mkSecretVolume (Some secret) (sv_Optional s)))
          (va_ConfigMap newV) (va_Projected newV) (va_Rest newV))
  else Ok newV.

Definition update_volumes (cr : CSM) (driverName : string) (vs : list VolumeApply)
    : outcome (list VolumeApply) :=
  snd <$> collect (λ _ v, v ← update_volume cr driverName v; Ok ((), Some v)) () vs.

Definition metrics_volume (cr : CSM) : VolumeApply :=
  mkVolumeApply (Some "metrics-tls") (Some (mkSecretVolume (Some (metrics_secret cr)) None)) None None NoSource.

Definition controller_volumes (cr : CSM) (driverName : string) (vs : list VolumeApply)
    : outcome (list VolumeApply) :=
  vs ← update_volumes cr driverName vs;
  if bool_decide (GetDriverType cr = PowerFlex) && isDriverMetricsTLSEnabled cr
  then dynamicallyAddVolume vs (metrics_volume cr) else Ok vs.

(** *** The owner *)

Definition owner_of (cr : CSM) : OwnerReference :=
  mkOwnerReference "storage.dell.com/v1" (cr_Kind cr) (cr_Name cr) (om_UID (cr_Meta cr))
    (Some true)
    (Some match d_ForceRemoveDriver (sp_Driver (cr_Spec cr)) with
          | Some force => negb force
          | None => false
          end).

(** an assignment through the embedded metadata *)
Definition set_owner (cr : CSM) (d : Workload) : outcome Workload :=
  m ← deref (wl_Meta d);
  Ok (mkWorkload (Some (mkWorkloadMeta (wm_Name m) (wm_Namespace m) (wm_Annotations m) (Some [owner_of cr])))
        (wl_Spec d) (wl_Rest d)).

(** without a number in the request the manifest's stays *)
Definition set_replicas (cr : CSM) (d : Workload) : outcome Workload :=
  let replicas := d_Replicas (sp_Driver (cr_Spec cr)) in
  if decide (replicas ≠ 0%Z) then
    s ← deref (wl_Spec d);
    Ok (mkWorkload (wl_Meta d) (Some (mkWorkloadSpec (Some replicas) (ws_Template s))) (wl_Rest d))
  else Ok d.

Section package.
Context `{Host} `{MapOrder} `{ManifestCodec}.

Definition modify_controller (y : string) (cr : CSM) : outcome string :=
  let t := GetDriverType cr in
  if decide (t = PowerStore) then Ok (fst (ModifyPowerstoreCR y cr FController))
  else if decide (t = Unity) then Ok (ModifyUnityCR y cr FController)
  else if decide (t = PowerFlex) then Ok (ModifyPowerflexCR y cr FController)
  else if decide (t = PowerMax) then Ok (ModifyPowermaxCR y cr FController)
  else if decide (t = PowerScale) then Ok (ModifyPowerScaleCR y cr FController)
  else if decide (t = Cosi) then ModifyCosiCR y cr
  else Ok y.

(** what [GetController] makes of the deployment of the manifest; the pod is read only where
    the code reads it *)
Definition controller_deployment (cr : CSM) (op : OperatorConfig) (driverName : string)
    (matched : VersionSpec) (d : Workload) : outcome (Workload * VersionSpec) :=
  d ← set_replicas cr d;
  p ← pod_spec d;
  let p := place_pod (d_Controller (sp_Driver (cr_Spec cr))) p in
  '(_, matched, containers) ←
    controller_containers cr op (matched_image matched (GetDriverType cr), matched)
      (pod_Containers p);
  volumes ← controller_volumes cr driverName (pod_Volumes p);
  d ← set_owner cr (set_pod (set_pod_Volumes volumes (set_pod_Containers containers p)) d);
  Ok (d, matched).

Definition GetController (cr : CSM) (op : OperatorConfig) (driverName : string)
    (matched : VersionSpec) : outcome (ControllerYAML * VersionSpec) :=
  buf ← driver_file cr op driverName "controller.yaml";
  y ← modify_controller (ModifyCommonCR buf cr) cr;
  driverYAML ← GetDriverYaml y "Deployment";
  match driverYAML with
  | ControllerManifest controllerYAML =>
      '(d, matched) ← controller_deployment cr op driverName matched (cy_Deployment controllerYAML);
      Ok (mkControllerYAML d (cy_Rbac controllerYAML), matched)
  | NodeManifest _ => Panic "interface conversion"
  end.

(** ** GetNode

    The loop over the containers appends its copy [c] of a container and changes
    [containers[i]]: what is written through a pointer or into an array that both have reaches
    the copy, what is assigned to a field of [containers[i]] does not. *)

Definition node_optional : list string := ["sdc-monitor"].

Definition node_driver_image (cr : CSM) (image : option string) (matched : VersionSpec)
    (c : ContainerApply) : outcome (VersionSpec * ContainerApply) :=
  match image with
  | Some image =>
      Ok (recordMatchedContainerImage matched "driver" image, set_ca_Image (Some image) c)
  | None =>
      if decide (sp_CustomRegistry (cr_Spec cr) ≠ "") then
        c ← registry_image cr c; Ok (matched, c)
      else Ok (matched, common_image cr c)
  end.

(** The array that [args] had at first, after [ReplaceAllArgs] with each of the [updates]:
    arguments are replaced in it until an [append] exceeds its capacity. *)
Fixpoint written_args (capacity : nat) (args : list string) (updates : list (list string))
    : list string :=
  match updates with
  | [] => args
  | update :: updates' =>
      let '(defaultArgs, merge) := foldl replace_arg (args, []) update in
      if decide (capacity < length (defaultArgs ++ merge) ∧ merge ≠ []) then defaultArgs
      else written_args capacity (defaultArgs ++ merge) updates'
  end.

(** the copy of [c] once the original has become [original] *)
Definition seen_copy (capacity : nat) (sideCars : list ContainerTemplate) (name : string)
    (c original : ContainerApply) : ContainerApply :=
  let updates := ct_Args <$> filter (λ s, ct_Name s = name) sideCars in
  set_ca_Image (ca_Image original)
    (set_ca_ImagePullPolicy (ca_ImagePullPolicy original)
       (set_ca_Args (take (length (ca_Args c)) (written_args capacity (ca_Args c) updates)) c)).

(** one container, [None] when it is removed. [ReplaceAllContainerImageApply] has no image for
    a container named driver. *)
Definition node_container (capacity : list string → nat) (cr : CSM) (op : OperatorConfig)
    (image : option string) (matched : VersionSpec) (c : ContainerApply)
    : outcome (VersionSpec * option ContainerApply) :=
  let sideCars := d_SideCars (sp_Driver (cr_Spec cr)) in
  name ← deref (ca_Name c);
  let removed := removed_container node_optional sideCars name in
  if decide (name = "driver") then
    '(matched, c) ← node_driver_image cr image matched c;
    env ← ReplaceAllApplyCustomEnvs (ca_Env c) (common_envs cr) (node_envs cr);
    Ok (matched, if removed then None else Some (set_ca_Env env c))
  else if removed then Ok (matched, None)
  else
    original ← ReplaceAllContainerImageApply (oc_K8sVersion op) c;
    if decide (name = "objectstorage-provisioner") then Ok (matched, Some original)
    else
      original ← UpdateSideCarApply sideCars original cr matched;
      Ok (matched, Some (seen_copy (capacity (ca_Args c)) sideCars name c original)).

Definition node_containers (capacity : list string → nat) (cr : CSM) (op : OperatorConfig)
    (image : option string) (matched : VersionSpec) (cs : list ContainerApply)
    : outcome (VersionSpec * list ContainerApply) :=
  collect (node_container capacity cr op image) matched cs.

(** *** Init containers *)

Definition sdc_disabled (cr : CSM) : bool :=
  existsb (λ env, bool_decide (ev_Name env = "X_CSI_SDC_ENABLED" ∧ ev_Value env = "false"))
    (node_envs cr).

Definition has_mdm (t : ContainerTemplate) : bool :=
  existsb (λ env, bool_decide (ev_Name env = "MDM")) (default [] (ct_Envs t)).

(** the variable is set in place where there is one, else appended *)
Definition set_mdm (mdmVar : string) (t : ContainerTemplate) : ContainerTemplate :=
  let envs := default [] (ct_Envs t) in
  set_ct_Envs (Some (if has_mdm t then set_first_env "MDM" mdmVar envs
                     else envs ++ [mkEnvVar "MDM" mdmVar])) t.

(** a new template *)
Definition mdm_template (name mdmVar : string) : ContainerTemplate :=
  set_ct_Envs (Some [mkEnvVar "MDM" mdmVar]) (set_ct_Name name zero_ContainerTemplate).

(** each template of that name *)
Definition give_mdm (name mdmVar : string) (ts : list ContainerTemplate)
    : list ContainerTemplate :=
  (λ t, if decide (ct_Name t = name) then set_mdm mdmVar t else t) <$> ts.

Definition or_template (name mdmVar : string) (ts : list ContainerTemplate)
    : list ContainerTemplate :=
  match ts with
  | [] => [mdm_template name mdmVar]
  | _ => ts
  end.

(** what [SetSDCinitContainers] returns, and the request as its caller finds it: of an init
    container, the copy is changed, so that only a variable set in place is seen; of a sidecar,
    the element itself; new lists are not seen *)
Definition sdc_containers (cr : CSM) (mdmVar : string) : CSM * CSM :=
  let d := sp_Driver (cr_Spec cr) in
  let inits := d_InitContainers d in
  let sideCars := give_mdm "sdc-monitor" mdmVar (d_SideCars d) in
  let with_containers inits sideCars :=
    set_cr_Driver (set_d_InitContainers inits (set_d_SideCars sideCars d)) cr in
  (with_containers (if sdc_disabled cr then inits
                    else or_template "sdc" mdmVar (give_mdm "sdc" mdmVar inits))
     (or_template "sdc-monitor" mdmVar sideCars),
   with_containers (if sdc_disabled cr then inits
                    else (λ t, if decide (ct_Name t = "sdc" ∧ has_mdm t = true)
                               then set_mdm mdmVar t else t) <$> inits)
     sideCars).

Definition keep_init (sdcEnabled : bool) (ics : list ContainerApply)
    : outcome (list ContainerApply) :=
  snd <$> collect (λ _ ic,
      name ← deref (ca_Name ic);
      Ok ((), if bool_decide (name ≠ "sdc") || sdcEnabled then Some ic else None)) () ics.

Definition init_image (cr updatedCr : CSM) (image : string) (matched : VersionSpec)
    (name : string) (ic : ContainerApply) : outcome (VersionSpec * ContainerApply) :=
  if decide (name = "mdm-container") then
    let ic := common_image cr ic in
    if decide (image ≠ "") then
      Ok (recordMatchedContainerImage matched name image, set_ca_Image (Some image) ic)
    else if decide (sp_CustomRegistry (cr_Spec updatedCr) ≠ "") then
      ic ← registry_image cr ic; Ok (matched, ic)
    else Ok (matched, ic)
  else if decide (name = "sdc") then
    match vs_Images matched !! "sdc" with
    | Some sdcImage =>
        Ok (recordMatchedContainerImage matched name sdcImage, set_ca_Image (Some sdcImage) ic)
    | None =>
        if decide (sp_CustomRegistry (cr_Spec updatedCr) ≠ "") then
          ic ← registry_image cr ic; Ok (matched, ic)
        else Ok (matched, ic)
    end
  else Ok (matched, ic).

Definition init_container (cr updatedCr : CSM) (op : OperatorConfig) (image : string)
    (matched : VersionSpec) (ic : ContainerApply) : outcome (VersionSpec * ContainerApply) :=
  ic ← ReplaceAllContainerImageApply (oc_K8sVersion op) ic;
  ic ← UpdateInitContainerApply (d_InitContainers (sp_Driver (cr_Spec updatedCr))) ic cr matched;
  name ← deref (ca_Name ic);
  init_image cr updatedCr image matched name ic.

Definition init_containers (cr updatedCr : CSM) (op : OperatorConfig) (image : string)
    (matched : VersionSpec) (ics : list ContainerApply)
    : outcome (VersionSpec * list ContainerApply) :=
  ics ← keep_init (negb (sdc_disabled updatedCr)) ics;
  collect (λ matched ic,
      '(matched, ic) ← init_container cr updatedCr op image matched ic; Ok (matched, Some ic))
    matched ics.

(** *** The daemon set *)

(** with the request as the caller finds it *)
Definition modify_node (y : string) (cr : CSM) : string * CSM :=
  let t := GetDriverType cr in
  if decide (t = PowerStore) then ModifyPowerstoreCR y cr FNode
  else if decide (t = PowerFlex) then (ModifyPowerflexCR y cr FNode, cr)
  else if decide (t = Unity) then (ModifyUnityCR y cr FNode, cr)
  else if decide (t = PowerMax) then (ModifyPowermaxCR y cr FNode, cr)
  else if decide (t = PowerScale) then (ModifyPowerScaleCR y cr FNode, cr)
  else (y, cr).

Definition dns_policy (cr : CSM) : string :=
  let given := d_DNSPolicy (sp_Driver (cr_Spec cr)) in
  if decide (given = "") then "ClusterFirstWithHostNet" else given.

Section node.
Context {W : Type} `{Client W} `{!SecretCodec} (capacity : list string → nat).

Definition SetSDCinitContainers (cr : CSM) : M (World W) (CSM * CSM) :=
  r ← attempt (GetMDMFromSecret cr);
  mret (sdc_containers cr (match r with inl _ => "" | inr mdmVar => mdmVar end)).

Definition GetNode (cr : CSM) (op : OperatorConfig) (driverType filename : string)
    (matched : VersionSpec) : M (World W) (NodeYAML * CSM * VersionSpec) :=
  buf ← lift (driver_file cr op driverType filename);
  let '(y, cr) := modify_node (ModifyCommonCR buf cr) cr in
  driverYAML ← lift (GetDriverYaml y "DaemonSet");
  match driverYAML with
  | NodeManifest nodeYaml =>
      let ds := ny_DaemonSet nodeYaml in
      p ← lift (pod_spec ds);
      let p := place_pod (d_Node (sp_Driver (cr_Spec cr)))
                 (set_pod_DNSPolicy (Some (dns_policy cr)) p) in
      let image := vs_Images matched !! GetDriverType cr in
      '(matched, containers) ←
        lift (node_containers capacity cr op image matched (pod_Containers p));
      '(updatedCr, cr) ← (if decide (GetDriverType cr = PowerFlex) then SetSDCinitContainers cr
                          else mret (zero_CSM, cr));
      '(matched, initcontainers) ←
        lift (init_containers cr updatedCr op (default "" image) matched (pod_InitContainers p));
      volumes ← lift (update_volumes cr driverType (pod_Volumes p));
      let p := set_pod_Volumes volumes
                 (set_pod_InitContainers initcontainers (set_pod_Containers containers p)) in
      mret (mkNodeYAML (set_pod p ds) (ny_Rbac nodeYaml), cr, matched)
  | ControllerManifest _ => lift (Panic "interface conversion")
  end.
End node.

(** ** PowerMax: credentials in the containers *)

(** the last value; one that is not a boolean means no *)
Fixpoint use_secret (useSecret : bool) (envs : list EnvVar) : bool :=
  match envs with
  | [] => useSecret
  | env :: envs' =>
      if decide (ev_Name env = "X_CSI_REVPROXY_USE_SECRET") then
        match ParseBool (ev_Value env) with
        | Ok ok => use_secret ok envs'
        | _ => false
        end
      else use_secret useSecret envs'
  end.

Definition UseReverseProxySecret (cr : CSM) : bool := use_secret false (common_envs cr).

Definition MountCredentialsEnvs : list (string * string) :=
  [("X_CSI_REVPROXY_SECRET_FILEPATH", "/etc/powermax/config");
   ("X_CSI_REVPROXY_USE_SECRET", "true");
   ("X_CSI_POWERMAX_CONFIG_PATH", "/powermax-config-params/driver-config-params.yaml")].

Definition MountCredentialsVolumeMounts : list (string * string) :=
  [("powermax-reverseproxy-secret", "/etc/powermax");
   ("powermax-config-params", "powermax-config-params")].

Definition setPowermaxMountCredentialContent (c : ContainerApply) : outcome ContainerApply :=
  c ← foldO (λ c '(name, value),
          dynamicallyMountVolume c (mkVolumeMountApply (Some name) (Some value) None ""))
        c MountCredentialsVolumeMounts;
  foldO (λ c '(name, value), dynamicallyAddEnvironmentVariable c (env_apply name value))
    c MountCredentialsEnvs.

Definition secret_env (name secretName key : string) : EnvVarApply :=
  mkEnvVarApply (Some name) None
    (Some (mkEnvVarSource None (Some (mkSecretKeySelector (Some secretName) (Some key) None))
             None None)).

Definition SetPowermaxConfigContent (secretName : string) (c : ContainerApply)
    : outcome ContainerApply :=
  c ← dynamicallyAddEnvironmentVariable c (secret_env "X_CSI_POWERMAX_USER" secretName "username");
  dynamicallyAddEnvironmentVariable c (secret_env "X_CSI_POWERMAX_PASSWORD" secretName "password").

(** [f] on each container with one of the names, or on the first one ([break]) *)
Fixpoint on_named (names : list string) (once : bool)
    (f : ContainerApply → outcome ContainerApply) (cs : list ContainerApply)
    : outcome (list ContainerApply) :=
  match cs with
  | [] => Ok []
  | c :: cs' =>
      name ← deref (ca_Name c);
      if decide (name ∈ names) then
        c ← f c;
        if once then Ok (c :: cs')
        else cs' ← on_named names once f cs'; Ok (c :: cs')
      else cs' ← on_named names once f cs'; Ok (c :: cs')
  end.

Definition credential_containers : list string :=
  ["driver"; "reverseproxy"; "karavi-metrics-powermax"].

Definition mount_credentials (cr : CSM) (p : PodSpecApply) : outcome PodSpecApply :=
  let given := d_AuthSecret (sp_Driver (cr_Spec cr)) in
  let secretName := if decide (given = "") then cr_Name cr +:+ "-creds" else given in
  if UseReverseProxySecret cr then
    let v := mkVolumeApply (Some "powermax-reverseproxy-secret")
               (Some (mkSecretVolume (Some secretName) (Some false))) None None NoSource in
    cs ← on_named credential_containers false setPowermaxMountCredentialContent
           (pod_Containers p);
    Ok (set_pod_Containers cs (set_pod_Volumes (pod_Volumes p ++ [v]) p))
  else
    cs ← on_named ["driver"] true (SetPowermaxConfigContent secretName) (pod_Containers p);
    Ok (set_pod_Containers cs p).

(** [Spec] is read through, a missing template is an error *)
Definition DynamicallyMountPowermaxContent (d : Workload) (cr : CSM) : outcome Workload :=
  s ← deref (wl_Spec d);
  match ws_Template s with
  | None => Fail (Errorf "invalid type passed through")
  | Some t =>
      p ← deref (pt_Spec t);
      p ← mount_credentials cr p;
      Ok (set_pod p d)
  end.

(** ** PowerFlex: removed volumes *)

(** without the first element that the condition holds of *)
Fixpoint remove_first {A} (hit : A → bool) (xs : list A) : list A :=
  match xs with
  | [] => []
  | x :: xs' => if hit x then xs' else x :: remove_first hit xs'
  end.

Definition mounts (volumeName : string) (m : VolumeMountApply) : bool :=
  bool_decide (vm_Name m = Some volumeName).

(** the first mount of the first container that has one *)
Fixpoint remove_mount (volumeName : string) (cs : list ContainerApply) : list ContainerApply :=
  match cs with
  | [] => []
  | c :: cs' =>
      if existsb (mounts volumeName) (ca_VolumeMounts c)
      then set_ca_VolumeMounts (remove_first (mounts volumeName) (ca_VolumeMounts c)) c :: cs'
      else c :: remove_mount volumeName cs'
  end.

Definition remove_pod_volume (volumeName : string) (p : PodSpecApply) : PodSpecApply :=
  set_pod_Volumes (remove_first (λ v, bool_decide (va_Name v = Some volumeName)) (pod_Volumes p)) p.

Definition RemoveVolume (configuration : Workload) (volumeName : string) : outcome Workload :=
  p ← pod_spec configuration;
  let p := remove_pod_volume volumeName p in
  Ok (set_pod (set_pod_Containers (remove_mount volumeName (pod_Containers p)) p) configuration).

Definition RemoveInitVolume (configuration : Workload) (volumeName : string) : outcome Workload :=
  p ← pod_spec configuration;
  let p := remove_pod_volume volumeName p in
  Ok (set_pod (set_pod_InitContainers (remove_mount volumeName (pod_InitContainers p)) p)
        configuration).
End package.

(** ** Facts *)

(** *** What the changes of a container keep *)

(** only the image is changed *)
Definition only_image (c c' : ContainerApply) : Prop := c' = set_ca_Image (ca_Image c') c.

Lemma only_image_refl c : only_image c c.
Proof. by destruct c. Qed.

Lemma only_image_set v c : only_image c (set_ca_Image v c).
Proof. done. Qed.

Lemma only_image_trans c1 c2 c3 : only_image c1 c2 → only_image c2 c3 → only_image c1 c3.
Proof. unfold only_image. intros -> ->. done. Qed.

Lemma store_Image_keeps img c c' : store_Image img c = Ok c' → c' = set_ca_Image (Some img) c.
Proof. unfold store_Image. by destruct (ca_Image c); intros [= <-]. Qed.

Lemma ReplaceAllContainerImageApply_keeps img c c' :
  ReplaceAllContainerImageApply img c = Ok c' → only_image c c'.
Proof.
  unfold ReplaceAllContainerImageApply. intros E. go_inv.
  repeat case_decide; first [by apply store_Image_keeps in E as ->|by injection E as <-; apply only_image_refl].
Qed.

(** the name, the mounts and the rest stay *)
Definition same_frame (c c' : ContainerApply) : Prop :=
  ca_Name c' = ca_Name c ∧ ca_VolumeMounts c' = ca_VolumeMounts c ∧ ca_Rest c' = ca_Rest c.

#[export] Instance same_frame_preorder : PreOrder same_frame.
Proof. split; [done|]. intros c1 c2 c3 (? & ? & ?) (? & ? & ?). split_and!; congruence. Qed.

Lemma only_image_frame c c' : only_image c c' → same_frame c c'.
Proof. by intros ->. Qed.

Lemma apply_template_frame cr matched b c ctr b' c' :
  apply_template cr matched (b, c) ctr = Ok (b', c') → same_frame c c'.
Proof.
  unfold apply_template. intros E. apply outcome_bind_Ok in E as (name & _ & E).
  case_decide; [|by injection E as <- <-].
  apply outcome_bind_Ok in E as (c1 & E1 & E). apply outcome_bind_Ok in E as (c2 & E2 & E).
  apply outcome_bind_Ok in E as (env & _ & E). injection E as <- <-.
  assert (same_frame c c1) as H1.
  { repeat case_decide; go_inv; repeat match goal with
    | E : store_Image _ _ = Ok _ |- _ => apply store_Image_keeps in E as ->
    end; done. }
  assert (same_frame c1 c2) as H2 by (case_decide; go_inv; done).
  destruct H1 as (? & ? & ?), H2 as (? & ? & ?). split_and!; simpl; congruence.
Qed.

#[local] Arguments apply_template : simpl never.

Lemma apply_templates_frame cr matched ctrs b c b' c' :
  foldO (apply_template cr matched) (b, c) ctrs = Ok (b', c') → same_frame c c'.
Proof.
  revert b c. induction ctrs as [|ctr ctrs IH]; intros b c E; simpl in E.
  - by injection E as <- <-.
  - apply outcome_bind_Ok in E as ([b2 c2] & E2 & E). apply IH in E.
    apply apply_template_frame in E2. by etrans.
Qed.

Lemma UpdateContainerApply_frame toBeApplied c cr matched c' :
  UpdateContainerApply toBeApplied c cr matched = Ok c' → same_frame c c'.
Proof.
  unfold UpdateContainerApply. intros E. apply outcome_bind_Ok in E as ([b c1] & E1 & E).
  apply apply_templates_frame in E1. etrans; [exact E1|]. destruct b; [by injection E as <-|].
  apply outcome_bind_Ok in E as (img & _ & E).
  repeat case_decide; go_inv; repeat match goal with
    | E : store_Image _ _ = Ok _ |- _ => apply store_Image_keeps in E as ->
    end; done.
Qed.

Lemma apply_template_matched cr matched matched' name b c ctr :
  ca_Name c = Some name → vs_Version matched' = vs_Version matched →
  vs_Images matched' !! name = vs_Images matched !! name →
  apply_template cr matched' (b, c) ctr = apply_template cr matched (b, c) ctr.
Proof.
  intros Hn Hv Hi. unfold apply_template. rewrite Hn. simpl.
  destruct (decide (name = ct_Name ctr)) as [<-|]; [|done].
  unfold matched_image, lookup_zero. by rewrite Hv, Hi.
Qed.

(** The result depends on the version only through the image for the container. *)
Lemma UpdateContainerApply_matched toBeApplied c cr matched matched' name :
  ca_Name c = Some name → vs_Version matched' = vs_Version matched →
  vs_Images matched' !! name = vs_Images matched !! name →
  UpdateContainerApply toBeApplied c cr matched' = UpdateContainerApply toBeApplied c cr matched.
Proof.
  intros Hn Hv Hi. unfold UpdateContainerApply.
  assert (∀ b c0, ca_Name c0 = Some name →
    foldO (apply_template cr matched') (b, c0) toBeApplied
    = foldO (apply_template cr matched) (b, c0) toBeApplied) as Hfold.
  { induction toBeApplied as [|ctr rest IH]; intros b c0 Hc0; simpl; [done|].
    rewrite (apply_template_matched cr matched matched' name) by done.
    destruct (apply_template cr matched (b, c0) ctr) as [[b1 c1]| |] eqn:E; simpl; [|done..].
    apply IH. apply apply_template_frame in E as (-> & _). done. }
  rewrite Hfold by done.
  destruct (foldO _ (false, c) toBeApplied) as [[b c1]| |] eqn:E; simpl; [|done..].
  apply apply_templates_frame in E as (Hc1 & _). destruct b; [done|].
  rewrite Hv, Hc1, Hn. simpl. unfold lookup_zero. by rewrite Hi.
Qed.

(** Environment and mounts are extended, nothing else is changed. *)
Record extends (c c' : ContainerApply) : Prop := mkExtends {
  ex_rest : c' = set_ca_VolumeMounts (ca_VolumeMounts c') (set_ca_Env (ca_Env c') c);
  ex_mounts : ca_VolumeMounts c `prefix_of` ca_VolumeMounts c';
  ex_env : ca_Env c `prefix_of` ca_Env c'
}.

#[export] Instance extends_preorder : PreOrder extends.
Proof.
  split; [intros c; split; [by destruct c|done..]|].
  intros c1 c2 c3 [E12 ? ?] [E23 ? ?]. split; [|by etrans..].
  rewrite E23 at 1. by rewrite E12.
Qed.

Lemma dynamicallyMountVolume_extends c m c' :
  dynamicallyMountVolume c m = Ok c' → extends c c'.
Proof.
  unfold dynamicallyMountVolume. intros E. go_inv. case_match; [done|].
  split; [by destruct c|by apply prefix_app_r|done].
Qed.

Lemma dynamicallyAddEnvironmentVariable_extends c e c' :
  dynamicallyAddEnvironmentVariable c e = Ok c' → extends c c'.
Proof.
  unfold dynamicallyAddEnvironmentVariable. intros E. go_inv. case_match; [done|].
  split; [by destruct c|done|by apply prefix_app_r].
Qed.

Lemma SetDriverMetrics_extends cr c c' : SetDriverMetrics cr c = Ok c' → extends c c'.
Proof.
  unfold SetDriverMetrics. intros E. repeat case_decide; [case_match|]; go_inv; try done.
  etrans; [by eapply dynamicallyMountVolume_extends|].
  etrans; by eapply dynamicallyAddEnvironmentVariable_extends.
Qed.

(** *** The containers of the controller *)

(** the image where the version's list has none for the driver *)
Definition fallback_image (cr : CSM) (image : string) : string :=
  if decide (sp_CustomRegistry (cr_Spec cr) ≠ "") then ResolveImage image cr
  else match d_Common (sp_Driver (cr_Spec cr)) with
       | Some common => if decide (ct_Image common ≠ "") then ct_Image common else image
       | None => image
       end.

Lemma registry_image_Ok cr c c' :
  registry_image cr c = Ok c' → only_image c c' ∧
  ∃ image, ca_Image c = Some image ∧ ca_Image c' = Some (ResolveImage image cr).
Proof.
  unfold registry_image. intros E. go_inv. split; [done|].
  by destruct (ca_Image c); simplify_eq/=; eauto.
Qed.

Lemma common_image_keeps cr c : only_image c (common_image cr c).
Proof. unfold common_image. repeat case_match; first [done|apply only_image_refl]. Qed.

Lemma fallback_image_Ok cr c c' image :
  ca_Image c = Some image →
  (if decide (sp_CustomRegistry (cr_Spec cr) ≠ "") then registry_image cr c
   else Ok (common_image cr c)) = Ok c' →
  ca_Image c' = Some (fallback_image cr image).
Proof.
  intros Hi E. unfold fallback_image. case_decide.
  - apply registry_image_Ok in E as (_ & i & ? & ->). congruence.
  - injection E as <-. unfold common_image. repeat case_match; simpl; congruence.
Qed.

Lemma driver_name_no_image img c name :
  ca_Name c = Some name → name ∈ driver_names → ReplaceAllContainerImageApply img c = Ok c.
Proof.
  intros Hn Hin. unfold ReplaceAllContainerImageApply. rewrite Hn. simpl.
  unfold driver_names in Hin. rewrite !elem_of_cons, elem_of_nil in Hin.
  destruct Hin as [->|[->|[]]]; done.
Qed.

(** What [GetController] makes of a container that it keeps. *)
Definition controller_kept (cr : CSM) (op : OperatorConfig) (matched : VersionSpec)
    (c c' : ContainerApply) : Prop :=
  ∃ name, ca_Name c = Some name ∧
  if decide (name ∈ driver_names) then
    ∃ image env, ReplaceAllApplyCustomEnvs (ca_Env c) (common_envs cr) (controller_envs cr) = Ok env
      ∧ extends (set_ca_Env env (set_ca_Image image c)) c'
  else
    ∃ base, ReplaceAllContainerImageApply (oc_K8sVersion op) c = Ok base
      ∧ UpdateSideCarApply (d_SideCars (sp_Driver (cr_Spec cr))) base cr matched = Ok c'.

Lemma controller_kept_name cr op matched c c' :
  controller_kept cr op matched c c' → ca_Name c' = ca_Name c ∧ ca_Rest c' = ca_Rest c.
Proof.
  intros (name & Hn & E). case_decide.
  - destruct E as (image & env & _ & []). by rewrite ex_rest0.
  - destruct E as (base & E1 & E2). apply ReplaceAllContainerImageApply_keeps, only_image_frame in E1.
    assert (same_frame c c') as (? & _ & ?) by (etrans; [done|by eapply UpdateContainerApply_frame]).
    done.
Qed.

(** the version with images recorded for the driver's containers *)
Definition recorded (matched matched' : VersionSpec) : Prop :=
  vs_Version matched' = vs_Version matched
  ∧ ∀ name, name ∉ driver_names → vs_Images matched' !! name = vs_Images matched !! name.

Lemma recorded_record matched matched' name image :
  name ∈ driver_names → recorded matched matched' →
  recorded matched (recordMatchedContainerImage matched' name image).
Proof.
  intros Hn [Hv Hi]. unfold recordMatchedContainerImage. case_decide; [done|].
  split; [done|]. intros n Hout. simpl. rewrite lookup_insert_ne; [by apply Hi|congruence].
Qed.

Lemma driver_image_Ok cr st name c st' c' :
  name ∈ driver_names → driver_image cr st name c = Ok (st', c') →
  only_image c c' ∧ (∀ matched, recorded matched st.2 → recorded matched st'.2)
  ∧ ∀ image, ca_Image c = Some image →
      ca_Image c' = Some (if decide (st.1 ≠ "") then st.1 else fallback_image cr image).
Proof.
  intros Hin E. unfold driver_image in E. destruct st as [img matched]. simpl.
  destruct (decide (img ≠ "")).
  - injection E as <- <-. split_and!; [done|intros; by apply recorded_record|done].
  - assert (st' = (img, matched) ∧
      (if decide (sp_CustomRegistry (cr_Spec cr) ≠ "") then registry_image cr c
       else Ok (common_image cr c)) = Ok c') as [-> Hc].
    { case_decide; [|by injection E as <- <-]. go_inv. by split. }
    split_and!; [|done|intros image Hi; by eapply fallback_image_Ok].
    case_decide; [by apply registry_image_Ok in Hc as [? _]|].
    injection Hc as <-. apply common_image_keeps.
Qed.

Lemma controller_container_Ok cr op matched st c st' o :
  recorded matched st.2 → controller_container cr op st c = Ok (st', o) →
  recorded matched st'.2 ∧
  match o with
  | None => removed_container controller_optional (d_SideCars (sp_Driver (cr_Spec cr)))
              (default "" (ca_Name c)) = true
  | Some c' => removed_container controller_optional (d_SideCars (sp_Driver (cr_Spec cr)))
                 (default "" (ca_Name c)) = false ∧ controller_kept cr op matched c c'
  end.
Proof.
  intros Hr E. unfold controller_container in E.
  apply outcome_bind_Ok in E as (name & Hn & E).
  assert (ca_Name c = Some name) as Hname by (destruct (ca_Name c); simpl in Hn; congruence).
  rewrite Hname. simpl. apply outcome_bind_Ok in E as ([st1 c1] & E1 & E).
  unfold controller_kept. destruct (decide (name ∈ driver_names)) as [Hd|Hd].
  - apply outcome_bind_Ok in E1 as ([st2 c2] & Ei & E1).
    apply outcome_bind_Ok in E1 as (env & Ee & E1).
    apply outcome_bind_Ok in E1 as (c3 & Em & E1). injection E1 as <- <-.
    apply driver_image_Ok in Ei as (Ho & Hrec & _); [|done].
    assert (ca_Name c3 = Some name) as Hn3.
    { apply SetDriverMetrics_extends in Em as []. rewrite ex_rest0. simpl. by rewrite Ho. }
    destruct (removed_container _ _ name) eqn:Hrm; [injection E as <- <-; eauto|].
    rewrite (driver_name_no_image _ _ name) in E by done. simpl in E. injection E as <- <-.
    split; [eauto|]. split; [done|]. exists name. split; [done|]. rewrite decide_True by done.
    exists (ca_Image c2), env. split.
    + by rewrite Ho in Ee.
    + rewrite <- Ho. by eapply SetDriverMetrics_extends.
  - injection E1 as <- <-. destruct (removed_container _ _ name) eqn:Hrm;
      [injection E as <- <-; eauto|].
    apply outcome_bind_Ok in E as (base & Eb & E). apply outcome_bind_Ok in E as (c2 & Eu & E).
    injection E as <- <-. split; [done|]. split; [done|]. exists name. split; [done|].
    rewrite decide_False by done. exists base. split; [done|]. rewrite <- Eu. symmetry.
    destruct Hr as [Hv Hi]. apply (UpdateContainerApply_matched _ _ _ _ _ name); [|done|by apply Hi].
    apply ReplaceAllContainerImageApply_keeps in Eb as ->. done.
Qed.

(** the containers that the sidecars of the request leave in a pod *)
Definition selected (optional : list string) (cr : CSM) (c : ContainerApply) : Prop :=
  removed_container optional (d_SideCars (sp_Driver (cr_Spec cr))) (default "" (ca_Name c)) = false.

#[export] Instance selected_dec optional cr c : Decision (selected optional cr c).
Proof. unfold selected. apply _. Defined.

Lemma controller_containers_Ok cr op matched img st cs cs' :
  controller_containers cr op (img, matched) cs = Ok (st, cs') →
  recorded matched st.2
  ∧ Forall2 (controller_kept cr op matched) (filter (selected controller_optional cr) cs) cs'.
Proof.
  intros E. apply (collect_Ok (controller_container cr op) (λ st, recorded matched st.2)
    (selected controller_optional cr) (controller_kept cr op matched)) in E; [done| |done].
  intros st1 c st2 o _ Hr Ec. apply (controller_container_Ok _ _ matched) in Ec as [? Ho]; [|done].
  split; [done|]. unfold selected. destruct o as [c'|]; [done|]. by rewrite Ho.
Qed.

(** *** Volumes *)

Definition cert_types : list string := [PowerScale; PowerFlex; Unity; PowerMax; PowerStore].

Lemma cert_volume_of_name cr v :
  GetDriverType cr ∈ cert_types → cert_volume_of cr = Ok v → va_Name v = Some "certs".
Proof.
  unfold cert_types, cert_volume_of. intros Ht E.
  repeat case_decide; first
    [by go_inv|unfold getApplyCertVolume, getApplyCertVolumePowerstore, getApplyCertVolumeUnity,
       getApplyCertVolumePowermax in E; repeat case_match; by go_inv|set_solver].
Qed.

Lemma update_volume_name cr driverName v v' :
  GetDriverType cr ∈ cert_types → update_volume cr driverName v = Ok v' → va_Name v' = va_Name v.
Proof.
  intros Ht E. unfold update_volume in E. apply outcome_bind_Ok in E as (name & Hn & E).
  apply outcome_bind_Ok in E as (v1 & E1 & E).
  assert (va_Name v1 = va_Name v) as <-.
  { destruct (decide (name = "certs")) as [->|]; [|by injection E1 as <-].
    apply cert_volume_of_name in E1 as ->; [|done].
    destruct (va_Name v); simpl in Hn; congruence. }
  case_decide; go_inv; done.
Qed.

Lemma update_volumes_names cr driverName vs vs' :
  GetDriverType cr ∈ cert_types → update_volumes cr driverName vs = Ok vs' →
  va_Name <$> vs' = va_Name <$> vs.
Proof.
  intros Ht E. unfold update_volumes in E.
  destruct (collect _ () vs) as [[u ws]| |] eqn:Ec; simpl in E; [|done..]. injection E as <-.
  apply (collect_Ok _ (λ _, True) (λ _, True) (λ v v', va_Name v' = va_Name v)) in Ec
    as [_ HR]; [| |done].
  - rewrite filter_all in HR by (by apply Forall_true). clear -HR. induction HR; [done|].
    rewrite !fmap_cons. by f_equal.
  - intros u1 v u2 o _ _ E. go_inv. split; [done|]. split; [done|]. by eapply update_volume_name.
Qed.
Lemma controller_volumes_names cr driverName vs vs' :
  GetDriverType cr ∈ cert_types → controller_volumes cr driverName vs = Ok vs' →
  (va_Name <$> vs) `prefix_of` (va_Name <$> vs').
Proof.
  intros Ht E. unfold controller_volumes in E. apply outcome_bind_Ok in E as (ws & Ew & E).
  apply update_volumes_names in Ew as <-; [|done].
  case_match; [|by injection E as <-]. unfold dynamicallyAddVolume in E. go_inv.
  case_match; [done|]. rewrite fmap_app. by apply prefix_app_r.
Qed.

Lemma place_pod_keeps section p :
  pod_Containers (place_pod section p) = pod_Containers p
  ∧ pod_InitContainers (place_pod section p) = pod_InitContainers p
  ∧ pod_Volumes (place_pod section p) = pod_Volumes p
  ∧ pod_DNSPolicy (place_pod section p) = pod_DNSPolicy p.
Proof. unfold place_pod. repeat case_match; by simplify_eq/=. Qed.

Lemma set_pod_fields p d :
  wl_Meta (set_pod p d) = wl_Meta d ∧ (is_Some (wl_Pod d) → wl_Pod (set_pod p d) = Some p)
  ∧ ws_Replicas <$> wl_Spec (set_pod p d) = ws_Replicas <$> wl_Spec d.
Proof.
  destruct d as [m [[r [t|]]|] rest]; unfold wl_Pod; simpl; split_and!; try done;
    by intros [? ?].
Qed.

Definition given_replicas (cr : CSM) (manifest : option (option Z)) : option (option Z) :=
  let replicas := d_Replicas (sp_Driver (cr_Spec cr)) in
  if decide (replicas = 0%Z) then manifest else Some (Some replicas).

Lemma set_replicas_Ok cr d d' :
  set_replicas cr d = Ok d' →
  wl_Meta d' = wl_Meta d ∧ wl_Pod d' = wl_Pod d
  ∧ ws_Replicas <$> wl_Spec d' = given_replicas cr (ws_Replicas <$> wl_Spec d).
Proof.
  unfold set_replicas, given_replicas. intros E.
  destruct (decide (d_Replicas (sp_Driver (cr_Spec cr)) = 0%Z)) as [Hz|Hz].
  - rewrite decide_False in E by tauto. by injection E as <-.
  - rewrite decide_True in E by done. destruct d as [m [s|] rest]; [|done]. by injection E as <-.
Qed.

(** C15: the deployment of a driver's controller is that of the manifest, read for the version of
    the request and with its parameters put in: under the manifest's name and namespace, owned
    by the request and by nothing else, with the number of replicas of the request where it
    gives one. It has the manifest's containers in their order, less those that the request's
    sidecars remove; each driver container has its variables replaced, each sidecar is what
    [UpdateSideCarApply] makes of it. The init containers and the names of the volumes are the
    manifest's. *)
Theorem GetController_spec `{Host} `{MapOrder} `{ManifestCodec} cr op driverName matched y matched' :
  GetController cr op driverName matched = Ok (y, matched') →
  ∃ buf text d p p', let d' := cy_Deployment y in
    driver_file cr op driverName "controller.yaml" = Ok buf
    ∧ modify_controller (ModifyCommonCR buf cr) cr = Ok text
    ∧ GetDriverYaml text "Deployment" = Ok (ControllerManifest (mkControllerYAML d (cy_Rbac y)))
    ∧ wl_Pod d = Some p ∧ wl_Pod d' = Some p'
    ∧ wl_Name d' = wl_Name d ∧ wl_Namespace d' = wl_Namespace d
    ∧ wl_OwnerReferences d' = Some [owner_of cr]
    ∧ ws_Replicas <$> wl_Spec d' = given_replicas cr (ws_Replicas <$> wl_Spec d)
    ∧ Forall2 (controller_kept cr op matched)
        (filter (selected controller_optional cr) (pod_Containers p)) (pod_Containers p')
    ∧ pod_InitContainers p' = pod_InitContainers p
    ∧ (GetDriverType cr ∈ cert_types →
         (va_Name <$> pod_Volumes p) `prefix_of` (va_Name <$> pod_Volumes p')).
Proof.
  unfold GetController. intros E. apply outcome_bind_Ok in E as (buf & Eb & E).
  apply outcome_bind_Ok in E as (text & Et & E). apply outcome_bind_Ok in E as (dy & Ey & E).
  destruct dy as [[d rbac]|]; [|done]. apply outcome_bind_Ok in E as ([d' m'] & Ed & E).
  injection E as <- <-. simpl in *. unfold controller_deployment in Ed.
  apply outcome_bind_Ok in Ed as (d1 & E1 & Ed). apply set_replicas_Ok in E1 as (Hm & Hp & Hr).
  apply outcome_bind_Ok in Ed as (p & Ep & Ed).
  apply outcome_bind_Ok in Ed as ([[img m1] cs] & Ec & Ed).
  apply outcome_bind_Ok in Ed as (vs & Ev & Ed). apply outcome_bind_Ok in Ed as (d2 & Eo & Ed).
  injection Ed as <- <-.
  destruct (place_pod_keeps (d_Controller (sp_Driver (cr_Spec cr))) p) as (Hc & Hi & Hv & _).
  apply controller_containers_Ok in Ec as [_ Hcs]. rewrite Hc in Hcs. rewrite Hv in Ev.
  unfold pod_spec in Ep. destruct (wl_Pod d1) as [p1|] eqn:Hp1; [|done]. injection Ep as ->.
  unfold set_owner in Eo. apply outcome_bind_Ok in Eo as (meta & Em & Eo). injection Eo as <-.
  match type of Em with context [set_pod ?q d1] =>
    destruct (set_pod_fields q d1) as (Hm2 & Hp2 & Hr2) end.
  rewrite Hm2, Hm in Em. unfold wl_Name, wl_Namespace.
  destruct (wl_Meta d) as [meta'|] eqn:Hd; [|done]. injection Em as ->.
  exists buf, text, d, p, (set_pod_Volumes vs (set_pod_Containers cs
    (place_pod (d_Controller (sp_Driver (cr_Spec cr))) p))). split_and!; try done.
  - apply Hp2. by rewrite Hp1.
  - simpl. by rewrite Hd.
  - simpl. by rewrite Hd.
  - exact (eq_trans Hr2 Hr).
  - intros Ht. by eapply controller_volumes_names.
Qed.

(** *** The containers of the node *)

Lemma apply_template_args cr matched name b c ctr b' c' :
  ca_Name c = Some name → apply_template cr matched (b, c) ctr = Ok (b', c') →
  ca_Args c' = if decide (ct_Name ctr = name) then ReplaceAllArgs (ca_Args c) (ct_Args ctr)
               else ca_Args c.
Proof.
  intros Hn E. unfold apply_template in E. rewrite Hn in E. simpl in E.
  destruct (decide (name = ct_Name ctr)) as [<-|Hd].
  - rewrite decide_True by done. apply outcome_bind_Ok in E as (c1 & E1 & E).
    apply outcome_bind_Ok in E as (c2 & E2 & E). apply outcome_bind_Ok in E as (env & _ & E).
    injection E as <- <-. simpl. f_equal.
    assert (ca_Args c1 = ca_Args c) as <-.
    { repeat case_decide; go_inv; repeat match goal with
      | E : store_Image _ _ = Ok _ |- _ => apply store_Image_keeps in E as ->
      end; done. }
    case_decide; go_inv; done.
  - injection E as <- <-. by rewrite decide_False.
Qed.

Lemma apply_templates_args cr matched name ctrs b c b' c' :
  ca_Name c = Some name → foldO (apply_template cr matched) (b, c) ctrs = Ok (b', c') →
  ca_Args c' = foldl ReplaceAllArgs (ca_Args c)
                 (ct_Args <$> filter (λ t, ct_Name t = name) ctrs).
Proof.
  revert b c. induction ctrs as [|ctr ctrs IH]; intros b c Hn E; simpl in E.
  - by injection E as <- <-.
  - apply outcome_bind_Ok in E as ([b2 c2] & E2 & E).
    assert (ca_Name c2 = Some name) as Hn2 by (apply apply_template_frame in E2 as (-> & _); done).
    apply IH in E as ->; [|done]. apply (apply_template_args _ _ name) in E2 as ->; [|done].
    rewrite filter_cons. by case_decide.
Qed.

Lemma UpdateContainerApply_args toBeApplied c cr matched c' name :
  ca_Name c = Some name → UpdateContainerApply toBeApplied c cr matched = Ok c' →
  ca_Args c' = foldl ReplaceAllArgs (ca_Args c)
                 (ct_Args <$> filter (λ t, ct_Name t = name) toBeApplied).
Proof.
  intros Hn E. unfold UpdateContainerApply in E. apply outcome_bind_Ok in E as ([b c1] & E1 & E).
  apply (apply_templates_args _ _ name) in E1 as <-; [|done].
  destruct b; [by injection E as <-|]. apply outcome_bind_Ok in E as (img & _ & E).
  repeat case_decide; go_inv; repeat match goal with
    | E : store_Image _ _ = Ok _ |- _ => apply store_Image_keeps in E as ->
    end; done.
Qed.

Lemma ReplaceAllArgs_split args update :
  ∃ replaced merge, foldl replace_arg (args, []) update = (replaced, merge)
    ∧ ReplaceAllArgs args update = replaced ++ merge ∧ length replaced = length args.
Proof.
  unfold ReplaceAllArgs.
  assert (length (foldl replace_arg (args, []) update).1 = length args) as Hl
    by apply (replace_args_length update (args, [])).
  destruct (foldl replace_arg (args, []) update) as [replaced merge]. eauto.
Qed.

Lemma written_args_length capacity args updates :
  length args ≤ length (written_args capacity args updates).
Proof.
  revert args. induction updates as [|update updates IH]; intros args; simpl; [done|].
  destruct (ReplaceAllArgs_split args update) as (replaced & merge & -> & _ & Hl).
  case_decide; [lia|]. specialize (IH (replaced ++ merge)). rewrite length_app in IH. lia.
Qed.

(** With at most one template for a container, what is seen are the first arguments of the
    result; those that [append] adds are not. *)
Lemma written_args_take capacity args updates :
  length updates ≤ 1 →
  take (length args) (written_args capacity args updates)
  = take (length args) (foldl ReplaceAllArgs args updates).
Proof.
  destruct updates as [|update [|? ?]]; simpl; [done| |lia]. intros _.
  destruct (ReplaceAllArgs_split args update) as (replaced & merge & -> & -> & Hl).
  case_decide; [|done]. by rewrite <- Hl, take_app_length, firstn_all.
Qed.

(** What [GetNode] makes of a container that it keeps: of a sidecar's template only the image,
    the pull policy and replacements of arguments are seen. *)
Definition node_kept (cr : CSM) (op : OperatorConfig) (matched : VersionSpec)
    (c c' : ContainerApply) : Prop :=
  ∃ name, ca_Name c = Some name ∧
  if decide (name = "driver") then
    ∃ image env, ReplaceAllApplyCustomEnvs (ca_Env c) (common_envs cr) (node_envs cr) = Ok env
      ∧ c' = set_ca_Env env (set_ca_Image image c)
  else if decide (name = "objectstorage-provisioner") then c' = c
  else
    ∃ base applied, ReplaceAllContainerImageApply (oc_K8sVersion op) c = Ok base
      ∧ UpdateSideCarApply (d_SideCars (sp_Driver (cr_Spec cr))) base cr matched = Ok applied
      ∧ same_frame c c' ∧ ca_Image c' = ca_Image applied
      ∧ ca_ImagePullPolicy c' = ca_ImagePullPolicy applied
      ∧ ca_Env c' = ca_Env c ∧ length (ca_Args c') = length (ca_Args c)
      ∧ (length (filter (λ s, ct_Name s = name) (d_SideCars (sp_Driver (cr_Spec cr)))) ≤ 1 →
           ca_Args c' = take (length (ca_Args c)) (ca_Args applied)).

Lemma seen_copy_fields capacity sideCars name c original applied :
  ca_Args original = ca_Args c → ca_Name original = ca_Name c → ca_Name c = Some name →
  (∃ cr matched, UpdateSideCarApply sideCars original cr matched = Ok applied) →
  let c' := seen_copy capacity sideCars name c applied in
  same_frame c c' ∧ ca_Image c' = ca_Image applied
  ∧ ca_ImagePullPolicy c' = ca_ImagePullPolicy applied ∧ ca_Env c' = ca_Env c
  ∧ length (ca_Args c') = length (ca_Args c)
  ∧ (length (filter (λ s, ct_Name s = name) sideCars) ≤ 1 →
       ca_Args c' = take (length (ca_Args c)) (ca_Args applied)).
Proof.
  intros Ha Hn Hname (cr & matched & E). split_and!; try done; simpl.
  - rewrite length_take. pose proof (written_args_length capacity (ca_Args c)
      (ct_Args <$> filter (λ s, ct_Name s = name) sideCars)). lia.
  - intros Hone. apply (UpdateContainerApply_args _ _ _ _ _ name) in E as ->; [|congruence].
    rewrite Ha. apply written_args_take. by rewrite length_fmap.
Qed.

Lemma node_container_Ok capacity cr op image matched st c st' o :
  recorded matched st → node_container capacity cr op image st c = Ok (st', o) →
  recorded matched st' ∧
  match o with
  | None => removed_container node_optional (d_SideCars (sp_Driver (cr_Spec cr)))
              (default "" (ca_Name c)) = true
  | Some c' => removed_container node_optional (d_SideCars (sp_Driver (cr_Spec cr)))
                 (default "" (ca_Name c)) = false ∧ node_kept cr op matched c c'
  end.
Proof.
  intros Hr E. unfold node_container in E. apply outcome_bind_Ok in E as (name & Hn & E).
  assert (ca_Name c = Some name) as Hname by (destruct (ca_Name c); simpl in Hn; congruence).
  rewrite Hname. simpl. unfold node_kept. destruct (decide (name = "driver")) as [->|Hd].
  - apply outcome_bind_Ok in E as ([m1 c1] & Ei & E). apply outcome_bind_Ok in E as (env & Ee & E).
    injection E as <- <-.
    assert (recorded matched m1 ∧ only_image c c1) as [Hr1 Ho].
    { unfold node_driver_image in Ei. destruct image as [image|].
      - injection Ei as <- <-. split; [by apply recorded_record; [left|]|done].
      - case_decide; go_inv; split; try done; [|apply common_image_keeps].
        by eapply registry_image_Ok. }
    split; [done|]. destruct (removed_container _ _ "driver"); [done|]. split; [done|].
    exists "driver". split; [done|]. rewrite decide_True by done.
    exists (ca_Image c1), env. rewrite <- Ho. split; [|done]. by rewrite Ho in Ee.
  - destruct (removed_container _ _ name) eqn:Hrm; [by injection E as <- <-|].
    apply outcome_bind_Ok in E as (base & Eb & E).
    destruct (decide (name = "objectstorage-provisioner")) as [Ho|Ho].
    + injection E as <- <-. split; [done|]. split; [done|]. exists name. split; [done|].
      rewrite decide_False, decide_True by done.
      rewrite (driver_name_no_image _ _ name) in Eb by (done || (subst; right; left)).
      by injection Eb as ->.
    + apply outcome_bind_Ok in E as (applied & Eu & E). injection E as <- <-.
      split; [done|]. split; [done|]. exists name. split; [done|].
      rewrite !decide_False by done. exists base, applied.
      apply ReplaceAllContainerImageApply_keeps in Eb as Hb.
      assert (ca_Args base = ca_Args c ∧ ca_Name base = ca_Name c) as [Ha Hnb] by by rewrite Hb.
      split_and!; [done| |by eapply seen_copy_fields; eauto..].
      rewrite <- Eu. symmetry. destruct Hr as [Hv Hi].
      apply (UpdateContainerApply_matched _ _ _ _ _ name); [congruence|done|].
      apply Hi. unfold driver_names. set_solver.
Qed.

Lemma node_containers_Ok capacity cr op image matched st cs cs' :
  node_containers capacity cr op image matched cs = Ok (st, cs') →
  recorded matched st
  ∧ Forall2 (node_kept cr op matched) (filter (selected node_optional cr) cs) cs'.
Proof.
  intros E. apply (collect_Ok (node_container capacity cr op image) (recorded matched)
    (selected node_optional cr) (node_kept cr op matched)) in E; [done| |done].
  intros st1 c st2 o _ Hr Ec. apply (node_container_Ok _ _ _ _ matched) in Ec as [? Ho]; [|done].
  split; [done|]. unfold selected. destruct o as [c'|]; [done|]. by rewrite Ho.
Qed.

(** *** Init containers *)

Lemma init_container_name cr updatedCr op image matched ic st ic' :
  init_container cr updatedCr op image matched ic = Ok (st, ic') → ca_Name ic' = ca_Name ic.
Proof.
  unfold init_container. intros E. apply outcome_bind_Ok in E as (ic1 & E1 & E).
  apply outcome_bind_Ok in E as (ic2 & E2 & E). apply outcome_bind_Ok in E as (name & _ & E).
  apply ReplaceAllContainerImageApply_keeps, only_image_frame in E1 as (<- & _).
  apply UpdateContainerApply_frame in E2 as (<- & _).
  assert (only_image ic2 ic') as ->; [|done].
  unfold init_image in E. repeat first [case_decide|case_match]; go_inv;
    repeat match goal with
    | E : registry_image _ _ = Ok _ |- _ => apply registry_image_Ok in E as [E _]
    end; first [done|apply only_image_refl|apply common_image_keeps
               |eapply only_image_trans; [apply common_image_keeps|done]].
Qed.

Definition not_sdc (ic : ContainerApply) : Prop := ca_Name ic ≠ Some "sdc".

#[export] Instance not_sdc_dec ic : Decision (not_sdc ic).
Proof. unfold not_sdc. apply _. Defined.

Lemma keep_init_Ok sdcEnabled ics ics' :
  keep_init sdcEnabled ics = Ok ics' →
  ics' = if sdcEnabled then ics else filter not_sdc ics.
Proof.
  unfold keep_init. intros E. destruct (collect _ () ics) as [[u ws]| |] eqn:Ec; simpl in E;
    [|done..]. injection E as <-.
  apply (collect_Ok _ (λ _, True) (λ ic, not_sdc ic ∨ sdcEnabled = true) eq) in Ec
    as [_ HR]; [| |done].
  - apply list_eq_Forall2 in HR as <-. destruct sdcEnabled.
    + apply filter_all, Forall_forall. by right.
    + apply list_filter_iff. intros ic. split; [by intros [?|?]|by left].
  - intros u1 ic u2 o _ _ Ei. apply outcome_bind_Ok in Ei as (name & Hn & Ei).
    injection Ei as <- <-. split; [done|]. unfold not_sdc.
    destruct (ca_Name ic) as [n|]; [|done]. injection Hn as ->.
    case_bool_decide as Hd; simpl.
    + split; [left; congruence|done].
    + subst name. destruct sdcEnabled; simpl; [by split; [right|]|].
      intros [?|?]; done.
Qed.

Lemma init_containers_names cr updatedCr op image matched ics st ics' :
  init_containers cr updatedCr op image matched ics = Ok (st, ics') →
  ca_Name <$> ics' = ca_Name <$> (if sdc_disabled updatedCr then filter not_sdc ics else ics).
Proof.
  unfold init_containers. intros E. apply outcome_bind_Ok in E as (kept & Ek & E).
  apply keep_init_Ok in Ek as ->.
  apply (collect_Ok _ (λ _, True) (λ _, True) (λ ic ic', ca_Name ic' = ca_Name ic)) in E
    as [_ HR]; [| |done].
  - rewrite filter_all in HR by (by apply Forall_true).
    destruct (sdc_disabled updatedCr); simpl in HR; clear -HR;
      (induction HR; [done|]; rewrite !fmap_cons; by f_equal).
  - intros u1 ic u2 o _ _ Ei. apply outcome_bind_Ok in Ei as ([m1 ic1] & E1 & Ei).
    injection Ei as <- <-. split; [done|]. split; [done|]. by eapply init_container_name.
Qed.
(** ** GetNode *)

Section node_claims.
Context {W : Type} `{Client W} `{!View W} `{!ClientLaws} `{Host} `{MapOrder} `{ManifestCodec}
  `{SecretCodec} (capacity : list string → nat).
#[local] Set Default Proof Using "All".

Lemma reads_SetSDCinitContainers cr : reads (SetSDCinitContainers cr).
Proof.
  unfold reads, SetSDCinitContainers.
  apply touches_bind; [apply touches_attempt, reads_GetMDMFromSecret|]. intros r. apply touches_ret.
Qed.

(** what the rest of [GetNode] works with, and what its caller sees of the request *)
Lemma GetNode_sdc cr w upd seen_cr w' :
  (if decide (GetDriverType cr = PowerFlex) then SetSDCinitContainers cr
   else mret (zero_CSM, cr)) w = (Ok (upd, seen_cr), w') →
  seen w' = seen w
  ∧ sdc_disabled upd = bool_decide (GetDriverType cr = PowerFlex) && sdc_disabled cr
  ∧ if decide (GetDriverType cr = PowerFlex) then ∃ mdm, (upd, seen_cr) = sdc_containers cr mdm
    else seen_cr = cr.
Proof.
  intros E. case_decide as Ht.
  - split; [eapply reads_seen; [apply reads_SetSDCinitContainers|exact E]|].
    unfold SetSDCinitContainers in E. apply M_bind_Ok in E as (r & w1 & _ & E).
    injection E as <- <- <-.
    rewrite (bool_decide_eq_true_2 (GetDriverType cr = PowerFlex)) by done. split; [done|].
    by exists (match r with inl _ => "" | inr mdmVar => mdmVar end).
  - injection E as <- <- <-. by rewrite bool_decide_eq_false_2 by done.
Qed.

(** C16: the daemon set of a driver is that of the manifest, read for the version of the request
    and with its parameters put in, under the manifest's name and with its pods' DNS policy set.
    It has the manifest's containers in their order, less those that the request's sidecars
    remove. The driver's variables are replaced. A sidecar keeps its variables, and as many
    arguments as it had: of the template that the request has for it, [UpdateSideCarApply]
    gives the image, the pull policy and replaced arguments, while its variables and further
    arguments are lost. The init containers are the manifest's, less the sdc container when
    PowerFlex has it disabled; the volumes have the manifest's names. The cluster is only
    read. *)
Theorem GetNode_spec cr op driverType filename matched w y cr' matched' w' :
  GetNode capacity cr op driverType filename matched w = (Ok (y, cr', matched'), w') →
  seen w' = seen w
  ∧ ∃ buf text crN d p p', let d' := ny_DaemonSet y in
    driver_file cr op driverType filename = Ok buf
    ∧ modify_node (ModifyCommonCR buf cr) cr = (text, crN)
    ∧ GetDriverYaml text "DaemonSet" = Ok (NodeManifest (mkNodeYAML d (ny_Rbac y)))
    ∧ wl_Pod d = Some p ∧ wl_Pod d' = Some p' ∧ wl_Meta d' = wl_Meta d
    ∧ pod_DNSPolicy p' = Some (dns_policy crN)
    ∧ Forall2 (node_kept crN op matched)
        (filter (selected node_optional crN) (pod_Containers p)) (pod_Containers p')
    ∧ ca_Name <$> pod_InitContainers p'
      = ca_Name <$> (if bool_decide (GetDriverType crN = PowerFlex) && sdc_disabled crN
                     then filter not_sdc (pod_InitContainers p) else pod_InitContainers p)
    ∧ (GetDriverType crN ∈ cert_types →
         va_Name <$> pod_Volumes p' = va_Name <$> pod_Volumes p)
    ∧ if decide (GetDriverType crN = PowerFlex) then ∃ mdm, cr' = snd (sdc_containers crN mdm)
      else cr' = crN.
Proof.
  unfold GetNode. intros E. apply M_bind_Ok in E as (buf & w1 & Eb & E). injection Eb as Eb <-.
  destruct (modify_node (ModifyCommonCR buf cr) cr) as [text crN] eqn:Em.
  apply M_bind_Ok in E as (dy & w1 & Ey & E). injection Ey as Ey <-.
  destruct dy as [|[d rbac]]; [done|]. simpl in E.
  apply M_bind_Ok in E as (p & w1 & Ep & E). injection Ep as Ep <-.
  apply M_bind_Ok in E as ([m1 cs] & w1 & Ec & E). injection Ec as Ec <-.
  apply M_bind_Ok in E as ([upd seen_cr] & w1 & Es & E).
  apply M_bind_Ok in E as ([m2 ics] & w2 & Ei & E). injection Ei as Ei <-.
  apply M_bind_Ok in E as (vs & w3 & Ev & E). injection Ev as Ev <-. injection E as <- <- <- <-.
  apply GetNode_sdc in Es as (Hseen & Hsdc & Hcr). split; [done|].
  set (q := set_pod_DNSPolicy (Some (dns_policy crN)) p) in *.
  destruct (place_pod_keeps (d_Node (sp_Driver (cr_Spec crN))) q) as (Hc & Hi & Hv & Hdns).
  rewrite Hc in Ec. rewrite Hi in Ei. rewrite Hv in Ev.
  apply node_containers_Ok in Ec as [_ Hcs]. apply init_containers_names in Ei.
  rewrite Hsdc in Ei. unfold pod_spec in Ep. destruct (wl_Pod d) as [p1|] eqn:Hp; [|done].
  injection Ep as ->. simpl.
  match goal with |- context [set_pod ?q d] =>
    destruct (set_pod_fields q d) as (Hm2 & Hp2 & _) end.
  eexists buf, text, crN, d, p, _. split_and!; [done..| | | | | | |].
  - apply Hp2. by rewrite Hp.
  - done.
  - exact Hdns.
  - exact Hcs.
  - exact Ei.
  - intros Ht. eapply update_volumes_names; [|exact Ev].
    assert (GetDriverType seen_cr = GetDriverType crN) as ->; [|done].
    case_decide; [|by rewrite Hcr]. by destruct Hcr as [mdm [= -> ->]].
  - case_decide; [|done]. destruct Hcr as [mdm Hcr]. exists mdm. exact (f_equal snd Hcr).
Qed.
End node_claims.

(** ** The image of the driver *)

(** no version means no images, and no image is empty *)
Definition matched_wf (matched : VersionSpec) : Prop :=
  (vs_Version matched = "" → vs_Images matched = ∅)
  ∧ map_Forall (λ _ image, image ≠ "") (vs_Images matched).

Lemma matched_wf_image matched name :
  matched_wf matched → matched_image matched name = default "" (vs_Images matched !! name)
    ∧ vs_Images matched !! name ≠ Some "".
Proof.
  intros [Hv Hi]. split; [|intros E; by specialize (Hi _ _ E)].
  unfold matched_image. destruct (decide (vs_Version matched = "")) as [Hz|Hz].
  - by rewrite (Hv Hz), lookup_empty, decide_False by tauto.
  - by rewrite decide_True.
Qed.

Lemma controller_skip cr op img matched pre st cs :
  Forall (λ x, default "" (ca_Name x) ∉ driver_names) pre →
  collect (controller_container cr op) (img, matched) pre = Ok (st, cs) → st = (img, matched).
Proof.
  intros Hpre E. apply (collect_state _ (λ st, st = (img, matched))) in E; [done| |done].
  rewrite Forall_forall in Hpre. intros st1 x st2 o Hx -> Ex. specialize (Hpre x Hx).
  unfold controller_container in Ex. apply outcome_bind_Ok in Ex as (name & Hn & Ex).
  destruct (ca_Name x) as [n|]; [|done]. injection Hn as ->. simpl in Hpre.
  rewrite !(decide_False (P := name ∈ driver_names)) in Ex by done. simpl in Ex.
  destruct (removed_container _ _ name); go_inv; done.
Qed.

Lemma removed_driver optional sideCars :
  bool_decide ("driver" ∈ optional) = false →
  removed_container optional sideCars "driver" = removed_container [] sideCars "driver".
Proof. unfold removed_container. intros ->. by repeat case_match. Qed.

(** The image of the driver's container is chosen in the same way in the controller and on the
    nodes: that of the version's list for the type of the driver; else the manifest's, from the
    custom registry; else that of the Common section; else the manifest's. *)
Theorem driver_image_priority capacity cr op matched pre c post image :
  matched_wf matched → ca_Name c = Some "driver" → ca_Image c = Some image →
  Forall (λ x, default "" (ca_Name x) ∉ driver_names) pre →
  removed_container [] (d_SideCars (sp_Driver (cr_Spec cr))) "driver" = false →
  let listed := vs_Images matched !! GetDriverType cr in
  let has_driver cs := ∃ c', c' ∈ cs ∧ ca_Name c' = Some "driver"
                       ∧ ca_Image c' = Some (default (fallback_image cr image) listed) in
  (∀ st cs, controller_containers cr op (matched_image matched (GetDriverType cr), matched)
              (pre ++ c :: post) = Ok (st, cs) → has_driver cs)
  ∧ (∀ st cs, node_containers capacity cr op listed matched (pre ++ c :: post) = Ok (st, cs) →
       has_driver cs).
Proof.
  intros Hwf Hn Hi Hpre Hkeep listed has_driver.
  destruct (matched_wf_image _ (GetDriverType cr) Hwf) as [Hm Hne]. split; intros st cs E.
  - apply collect_at in E as (st1 & cs1 & st2 & o & cs2 & Ep & Ec & ->).
    apply controller_skip in Ep as ->; [|done].
    unfold controller_container in Ec. rewrite Hn in Ec. simpl in Ec.
    apply outcome_bind_Ok in Ec as ([st3 c3] & E3 & Ec).
    apply outcome_bind_Ok in E3 as ([st4 c4] & E4 & E3).
    apply outcome_bind_Ok in E3 as (env & _ & E3). apply outcome_bind_Ok in E3 as (c5 & E5 & E3).
    injection E3 as <- <-. apply SetDriverMetrics_extends in E5 as [].
    apply (driver_image_Ok cr (_, _) "driver") in E4 as (Ho & _ & Himg); [|by left].
    specialize (Himg _ Hi).
    rewrite (removed_driver controller_optional), Hkeep in Ec by done.
    assert (ca_Name c5 = Some "driver") as Hn5 by (rewrite ex_rest0; simpl; by rewrite Ho).
    rewrite (driver_name_no_image _ _ "driver") in Ec by (done || by left).
    simpl in Ec. injection Ec as <- <-. exists c5. split; [set_solver|]. split; [done|].
    rewrite ex_rest0. simpl. rewrite Himg. simpl. unfold listed. rewrite Hm.
    destruct (vs_Images matched !! GetDriverType cr) as [i|]; simpl; [|done].
    rewrite decide_True; [done|]. by intros ->.
  - apply collect_at in E as (st1 & cs1 & st2 & o & cs2 & _ & Ec & ->).
    unfold node_container in Ec. rewrite Hn in Ec. simpl in Ec.
    apply outcome_bind_Ok in Ec as ([m1 c1] & E1 & Ec).
    apply outcome_bind_Ok in Ec as (env & _ & Ec).
    rewrite (removed_driver node_optional), Hkeep in Ec by done. injection Ec as <- <-. exists (set_ca_Env env c1).
    split; [set_solver|]. simpl. unfold node_driver_image in E1.
    destruct listed as [i|]; simpl.
    + by injection E1 as <- <-.
    + assert ((if decide (sp_CustomRegistry (cr_Spec cr) ≠ "") then registry_image cr c
               else Ok (common_image cr c)) = Ok c1) as Hc by (case_decide; by go_inv).
      split; [|by eapply fallback_image_Ok]. rewrite <- Hn.
      assert (only_image c c1) as ->; [|done].
      case_decide; [by apply registry_image_Ok in Hc as [? _]|].
      injection Hc as <-. apply common_image_keeps.
Qed.

(** ** The MDM of the init containers *)

Lemma set_first_env_first name value envs :
  existsb (λ env, bool_decide (ev_Name env = name)) envs = true →
  first_env name (set_first_env name value envs) = Some (mkEnvVar name value).
Proof.
  unfold first_env. induction envs as [|env envs IH]; simpl; [done|]. intros Hex.
  case_decide as Hd; simpl; [by rewrite decide_True by done; rewrite Hd|].
  rewrite decide_False by done. rewrite bool_decide_eq_false_2 in Hex by done.
  specialize (IH Hex). by destruct (list_find _ _) as [[]|].
Qed.

Lemma set_first_env_twice name value envs :
  set_first_env name value (set_first_env name value envs) = set_first_env name value envs.
Proof.
  induction envs as [|env envs IH]; simpl; [done|].
  destruct (decide (ev_Name env = name)) as [Hd|Hd]; simpl.
  - by rewrite decide_True.
  - rewrite decide_False by done. by f_equal.
Qed.

Lemma has_env_set name value envs :
  existsb (λ env, bool_decide (ev_Name env = name)) (set_first_env name value envs)
  = existsb (λ env, bool_decide (ev_Name env = name)) envs.
Proof.
  induction envs as [|env envs IH]; simpl; [done|]. case_decide as Hd; simpl; [done|].
  by rewrite IH.
Qed.

Lemma has_mdm_set mdm t : has_mdm (set_mdm mdm t) = true.
Proof.
  unfold set_mdm. destruct (has_mdm t) eqn:E; unfold has_mdm in *; simpl.
  - by rewrite has_env_set.
  - rewrite existsb_app. simpl. by rewrite orb_true_r.
Qed.

Definition mdm_of (t : ContainerTemplate) : option EnvVar :=
  first_env "MDM" (default [] (ct_Envs t)).

Lemma mdm_of_set mdm t : mdm_of (set_mdm mdm t) = Some (mkEnvVar "MDM" mdm).
Proof.
  unfold mdm_of, set_mdm. simpl. destruct (has_mdm t) eqn:E.
  - by apply set_first_env_first.
  - unfold has_mdm in E. unfold first_env. revert E. generalize (default [] (ct_Envs t)).
    intros envs. induction envs as [|env envs IH]; simpl; [done|].
    intros [E1 E2]%orb_false_iff. rewrite bool_decide_eq_false in E1.
    rewrite decide_False by done. specialize (IH E2). by destruct (list_find _ _) as [[]|].
Qed.

Lemma set_mdm_twice mdm t : set_mdm mdm (set_mdm mdm t) = set_mdm mdm t.
Proof.
  unfold set_mdm at 1. rewrite has_mdm_set. destruct t. unfold set_mdm. simpl.
  unfold set_ct_Envs. simpl. do 2 f_equal. case_match; [apply set_first_env_twice|].
  unfold has_mdm in *. simpl in *. revert H. generalize (default [] ct_Envs). intros envs.
  induction envs as [|env envs IH]; simpl; [done|].
  intros [E1 E2]%orb_false_iff. rewrite bool_decide_eq_false in E1.
  rewrite decide_False by done. by rewrite IH.
Qed.

Lemma set_mdm_name mdm t : ct_Name (set_mdm mdm t) = ct_Name t.
Proof. done. Qed.

Definition has_addresses (name mdm : string) (ts : list ContainerTemplate) : Prop :=
  Forall (λ t, ct_Name t = name → mdm_of t = Some (mkEnvVar "MDM" mdm)) ts.

Lemma give_mdm_addresses name mdm ts :
  has_addresses name mdm (or_template name mdm (give_mdm name mdm ts)).
Proof.
  assert (has_addresses name mdm (give_mdm name mdm ts)) as Hg.
  { apply Forall_fmap, Forall_true. intros t. simpl. case_decide; [|done].
    intros _. apply mdm_of_set. }
  unfold or_template. destruct (give_mdm name mdm ts); [|done]. by repeat constructor.
Qed.

Lemma or_template_nonempty name mdm ts : or_template name mdm ts ≠ [].
Proof. by destruct ts. Qed.

Lemma give_mdm_twice name mdm ts :
  give_mdm name mdm (give_mdm name mdm ts) = give_mdm name mdm ts.
Proof.
  unfold give_mdm. rewrite <- list_fmap_compose. apply list_fmap_ext. intros _ t _. simpl.
  destruct (decide (ct_Name t = name)) as [Hd|Hd]; [|by rewrite decide_False].
  by rewrite set_mdm_name, decide_True, set_mdm_twice.
Qed.

Lemma or_give_mdm_twice name mdm ts :
  or_template name mdm (give_mdm name mdm (or_template name mdm (give_mdm name mdm ts)))
  = or_template name mdm (give_mdm name mdm ts).
Proof.
  destruct ts as [|t ts].
  - simpl. rewrite decide_True by done. done.
  - assert (∀ us, us ≠ [] → or_template name mdm us = us) as Hne by by intros [].
    rewrite !(Hne (give_mdm name mdm (t :: ts))) by done.
    rewrite give_mdm_twice. by apply Hne.
Qed.

(** [SetSDCinitContainers] gives every sdc init container, and every sdc-monitor sidecar, the
    MDM addresses: unless SDC is disabled there is an init container, and each one named sdc
    has the variable MDM with these addresses; disabled, the init containers stay as they are.
    There is always a sidecar, and each one named sdc-monitor has the variable. To do it again
    changes nothing more, so that a second reconciliation of the same request gives the same
    containers. *)
Theorem sdc_containers_spec cr mdm :
  let d' := sp_Driver (cr_Spec (fst (sdc_containers cr mdm))) in
  (if sdc_disabled cr then d_InitContainers d' = d_InitContainers (sp_Driver (cr_Spec cr))
   else d_InitContainers d' ≠ [] ∧ has_addresses "sdc" mdm (d_InitContainers d'))
  ∧ d_SideCars d' ≠ [] ∧ has_addresses "sdc-monitor" mdm (d_SideCars d')
  ∧ fst (sdc_containers (fst (sdc_containers cr mdm)) mdm) = fst (sdc_containers cr mdm).
Proof.
  intros d'. assert (sdc_disabled (fst (sdc_containers cr mdm)) = sdc_disabled cr) as Hd by done.
  split_and!.
  - unfold d', sdc_containers. simpl. destruct (sdc_disabled cr); [done|].
    split; [apply or_template_nonempty|apply give_mdm_addresses].
  - apply or_template_nonempty.
  - apply give_mdm_addresses.
  - unfold sdc_containers at 1. rewrite Hd. unfold sdc_containers. simpl.
    destruct (sdc_disabled cr); simpl; by rewrite !or_give_mdm_twice.
Qed.

(** ** The package *)

Definition driver_package {W : Type} `{Client W} `{Host} `{MapOrder} `{ManifestCodec}
    `{SecretCodec} (capacity : list string → nat) : DriverPackage W := {|
  Packages.GetCSIDriver := GetCSIDriver;
  Packages.GetConfigMap := GetConfigMap;
  Packages.GetNode := GetNode capacity;
  Packages.GetController := GetController;
  Packages.PrecheckPowerScale := PrecheckPowerScale;
  Packages.PrecheckPowerFlex := PrecheckPowerFlex;
  Packages.PrecheckPowerStore := PrecheckPowerStore;
  Packages.PrecheckUnity := PrecheckUnity;
  Packages.PrecheckPowerMax := PrecheckPowerMax;
  Packages.PrecheckCosi := PrecheckCosi;
  Packages.ValidateZones := ValidateZones;
  Packages.DynamicallyMountPowermaxContent := DynamicallyMountPowermaxContent;
  Packages.RemoveVolume := RemoveVolume;
  Packages.RemoveInitVolume := RemoveInitVolume
|}.

Section laws.
Context {W : Type} `{Client W} `{!View W} `{!ClientLaws} `{Host} `{MapOrder} `{ManifestCodec}
  `{SecretCodec} (capacity : list string → nat).

#[local] Set Default Proof Using "All".

(** what a check makes of the request keeps it *)
Lemma check_meets_keeps c :
  check_meets c → (∀ cr, keeps stays cr (ck_effect c cr)) → check_keeps stays (ck_run c).
Proof.
  intros Hc Hk cr op w cr' err w' E. destruct (Hc _ _ _ _ _ _ E) as (_ & -> & _).
  by destruct err.
Qed.

Lemma effects_keep : Forall (λ c, ∀ cr, keeps stays cr (ck_effect c cr)) checks.
Proof.
  unfold checks. repeat (apply Forall_cons; split; [intros cr; try done|]); [|by apply Forall_nil].
  split; [done..|apply enable_reverse_proxy_keeps].
Qed.

Lemma driver_package_laws : DriverLaws (DriverPackage0 := driver_package capacity).
Proof.
  split. assert (Forall (λ c, check_keeps stays (ck_run c)) checks) as Hall.
  { apply (Forall_impl (λ c, check_meets c ∧ ∀ cr, keeps stays cr (ck_effect c cr))).
    - apply Forall_and. split; [apply checks_meet|apply effects_keep].
    - intros c [Hc Hk]. by apply check_meets_keeps. }
  unfold checks in Hall. rewrite !Forall_cons in Hall. simpl in Hall.
  destruct Hall as (? & ? & ? & ? & ? & ? & _). by repeat (apply Forall_cons; split; [done|]).
Qed.
End laws.

(** ** Witnesses

    A manifest whose pods have the containers of a PowerFlex node. *)

Definition demo_container (name : string) : ContainerApply :=
  mkContainerApply (Some name) (Some ("quay.io/" +:+ name +:+ ":v1")) (Some "IfNotPresent")
    ["--v=5"] [env_apply "MDM" ""] [] "".

Definition pods_workload (raw : string) : Workload :=
  set_pod (mkPodSpecApply (demo_container <$> ["driver"; "registrar"; "sdc-monitor"])
      (demo_container <$> ["sdc"]) [mkVolumeApply (Some "certs") None None None NoSource] [] None None "")
    (line_workload raw).

Definition pods_codec : ManifestCodec := codec_of pods_workload.

Definition pods_host : Host := host_of
  {[ "/cfg/driverconfig/powerflex/v2.17.0/controller.yaml"
       := demo_manifest ["Role r"; "Deployment csm-controller"];
     "/cfg/driverconfig/powerflex/v2.17.0/node.yaml"
       := demo_manifest ["Role r"; "DaemonSet csm-node"] ]}
  ∅ ∅.

Definition pods_cr : CSM :=
  mkCSM "ContainerStorageModule" (named "dell" "csm")
    (mkSpec "" (mkDriver PowerFlex None "v2.17.0" 2 "" None None None
        [set_ct_Envs (Some [mkEnvVar "MDM" "10.0.0.1"])
           (set_ct_Name "registrar" zero_ContainerTemplate)]
        [] [] "" "" None None) [] "" false)
    zero_Status.

Definition pods_config : OperatorConfig :=
  mkOperatorConfig false (mkK8sImagesConfig "" (mkK8sImages "" "" "" "registry.k8s.io/registrar:v2"
    "" "" "" "" "" "")) "/cfg".

Definition pods_version : VersionSpec :=
  mkVersionSpec "v2.17.0" {[ PowerFlex := "quay.io/dell/csi-vxflexos:v2.17.0" ]}.

Section witnesses.
#[local] Existing Instances pods_host pods_codec no_secrets.

Lemma GetController_spec_witness : ∃ y matched' d p p',
  GetController pods_cr pods_config PowerFlex pods_version = Ok (y, matched')
  ∧ wl_Pod d = Some p ∧ wl_Pod (cy_Deployment y) = Some p'
  ∧ wl_OwnerReferences (cy_Deployment y) = Some [owner_of pods_cr]
  ∧ Forall2 (controller_kept pods_cr pods_config pods_version)
      (filter (selected controller_optional pods_cr) (pod_Containers p)) (pod_Containers p').
Proof.
  destruct (GetController pods_cr pods_config PowerFlex pods_version) as [[y matched']|e|e] eqn:E;
    [|vm_compute in E; discriminate E..].
  destruct (GetController_spec _ _ _ _ _ _ E) as (buf & text & d & p & p' & H).
  destruct H as (_ & _ & _ & Hp & Hp' & _ & _ & Ho & _ & Hc & _).
  by exists y, matched', d, p, p'.
Defined.

Lemma GetNode_spec_witness :
  let w := world_of [] obeys in
  ∃ y cr' matched' d p p',
    fst (GetNode length pods_cr pods_config PowerFlex "node.yaml" pods_version w)
      = Ok (y, cr', matched')
    ∧ wl_Pod d = Some p ∧ wl_Pod (ny_DaemonSet y) = Some p'
    ∧ ca_Name <$> pod_Containers p' = [Some "driver"; Some "registrar"]
    ∧ ca_Env <$> pod_Containers p' = [[env_apply "MDM" ""]; [env_apply "MDM" ""]]
    ∧ Forall2 (node_kept pods_cr pods_config pods_version)
        (filter (selected node_optional pods_cr) (pod_Containers p)) (pod_Containers p').
Proof.
  intros w.
  destruct (GetNode length pods_cr pods_config PowerFlex "node.yaml" pods_version w)
    as [[[[y cr'] matched']|e|e] w'] eqn:E; [|vm_compute in E; discriminate E..].
  destruct (GetNode_spec length _ _ _ _ _ _ _ _ _ _ E) as (_ & buf & text & crN & d & p & p' & H).
  destruct H as (_ & Hm & _ & Hp & Hp' & _ & _ & Hc & _).
  exists y, cr', matched', d, p, p'. split; [done|]. split; [done|]. split; [done|].
  injection Hm as _ <-. apply (f_equal fst) in E. vm_compute in E. injection E as <- <- <-.
  vm_compute in Hp'. injection Hp' as <-. split; [done|]. split; [done|]. exact Hc.
Defined.

Lemma driver_image_priority_witness :
  ∃ st cs c', node_containers length pods_cr pods_config
      (vs_Images pods_version !! GetDriverType pods_cr) pods_version
      ([demo_container "registrar"] ++ demo_container "driver" :: []) = Ok (st, cs)
    ∧ c' ∈ cs ∧ ca_Image c' = Some "quay.io/dell/csi-vxflexos:v2.17.0".
Proof.
  destruct (node_containers length pods_cr pods_config
      (vs_Images pods_version !! GetDriverType pods_cr) pods_version
      ([demo_container "registrar"] ++ demo_container "driver" :: [])) as [[st cs]|e|e] eqn:E;
    [|vm_compute in E; discriminate E..].
  destruct (driver_image_priority length pods_cr pods_config pods_version
    [demo_container "registrar"] (demo_container "driver") [] "quay.io/driver:v1") as [_ Hn].
  - split; [done|]. decide_goal.
  - reflexivity.
  - reflexivity.
  - decide_goal.
  - reflexivity.
  - destruct (Hn st cs E) as (c' & Hin & _ & Hi). exists st, cs, c'.
    split; [done|]. split; [done|]. rewrite Hi. vm_compute. reflexivity.
Defined.
End witnesses.
