(* ===== verification/ModCommon.v ===== *)
(** What the modules share (pkg/modules/commonconfig.go): the versions that a module has, its
    files in the configuration directory, and the manifests that are applied or deleted as a
    whole (cert-manager, disaster recovery). *)

From S2P Require Import Prelude.
From S2P Require Import GoStrings.
From S2P Require Import Types.
From S2P Require Import Versions.
From S2P Require Import Images.
From S2P Require Import Cluster.
From S2P Require Import Resources.
From S2P Require Import Packages.
From S2P Require Import Manifests.
From S2P Require Import Drivers.
From S2P Require Import Pods.
From stdpp Require Import options.

Local Open Scope stdpp_scope.

(** [os.ReadDir]: the names of the entries, sorted; and whether an entry is a directory *)
Class Directory := {
  ReadDir : string → error + list string;
  IsDir : string → string → bool
}.

Definition DefaultPluginIdentifier : string := "<DriverPluginIdentifier>".
Definition DefaultDriverConfigParamsVolumeMount : string := "<DriverConfigParamsVolumeMount>".
Definition CertManagerManifest : string := "cert-manager.yaml".
Definition CertManagerCRDsManifest : string := "cert-manager-crds.yaml".
Definition CommonNamespace : string := "<NAMESPACE>".
Definition CSMName : string := "<NAME>".
Definition ComConfigCSMNameSpace : string := "<CSM_NAMESPACE>".
Definition CSMDRCRDsManifest : string := "dr-crds.yaml".
Definition CertManagerCaInjector : string := "<CERT_MANAGER_CAINJECTOR_IMAGE>".
Definition CertManagerController : string := "<CERT_MANAGER_CONTROLLER_IMAGE>".
Definition CertManagerWebhook : string := "<CERT_MANAGER_WEBHOOK_IMAGE>".
Definition CertManagerCaInjectorImage : string := "quay.io/jetstack/cert-manager-cainjector:v1.11.0".
Definition CertManagerControllerImage : string := "quay.io/jetstack/cert-manager-controller:v1.11.0".
Definition CertManagerWebhookImage : string := "quay.io/jetstack/cert-manager-webhook:v1.11.0".

Record SupportedDriverParam := mkSupportedDriverParam {
  PluginIdentifier : string;
  DriverConfigParamsVolumeMount : string;
  DriverConfigVolumeMount : string
}.

(** the drivers that replication and resiliency support *)
Definition supported_params : gmap string SupportedDriverParam :=
  {[ PowerStore := mkSupportedDriverParam "powerstore" "powerstore-config-params" "";
     PowerScaleName := mkSupportedDriverParam "powerscale" "csi-isilon-config-params" "";
     PowerScale := mkSupportedDriverParam "powerscale" "csi-isilon-config-params" "";
     PowerFlex := mkSupportedDriverParam "powerflex" "vxflexos-config-params" "";
     PowerFlexName := mkSupportedDriverParam "powerflex" "vxflexos-config-params" "";
     PowerMax := mkSupportedDriverParam "powermax" "powermax-config-params" "" ]}.

(** ** Versions and files of a module *)

Section files.
Context `{Directory}.

(** A directory without entries makes the slice expression of the message panic. *)
Definition checkVersion (moduleType givenVersion configPath : string) : outcome () :=
  files ← res (ReadDir (configPath +:+ "/moduleconfig/" +:+ moduleType +:+ "/"));
  let supportedVersions := foldl (λ acc name, acc +:+ (name +:+ ",")) "" files in
  if decide (givenVersion ∈ files) then Ok ()
  else if decide (supportedVersions = "") then Panic "slice bounds out of range [:-1]"
  else Fail (Errorf ("CSM " +:+ moduleType +:+ " does not have " +:+ givenVersion
         +:+ " version. The following are supported versions: "
         +:+ String.substring 0 (String.length supportedVersions - 1) supportedVersions)).
End files.

Section config.
Context `{Host} `{MapOrder}.

(** the version whose files a module uses *)
Definition module_version (module : Module) (cr : CSM) (op : OperatorConfig) : outcome string :=
  if decide (m_ConfigVersion module = "") then
    version ← GetVersion cr op;
    authAtLeast22 ← MinVersionCheck "v2.2.0" version;
    if (authAtLeast22 : bool) && bool_decide (m_Name module = AuthorizationServer)
    then Ok version
    else GetModuleDefaultVersion version (d_CSIDriverType (sp_Driver (cr_Spec cr)))
           (m_Name module) (oc_ConfigDirectory op)
  else Ok (m_ConfigVersion module).

Definition module_path (op : OperatorConfig) (name version filename : string) : string :=
  oc_ConfigDirectory op +:+ "/moduleconfig/" +:+ name +:+ "/" +:+ version +:+ "/" +:+ filename.

Definition readConfigFile (module : Module) (cr : CSM) (op : OperatorConfig) (filename : string)
    : outcome string :=
  moduleConfigVersion ← module_version module cr op;
  let name := if decide (m_Name module = AuthorizationServer) then Authorization
              else m_Name module in
  res (ReadFile (Clean (module_path op name moduleConfigVersion filename))).

(** ** Cert-manager and disaster recovery *)

Definition certManagerImages : list (string * (string * string)) :=
  [("cert-manager-cainjector", (CertManagerCaInjector, CertManagerCaInjectorImage));
   ("cert-manager-controller", (CertManagerController, CertManagerControllerImage));
   ("cert-manager-webhook", (CertManagerWebhook, CertManagerWebhookImage))].

(** the image of one of the three containers: listed, else of the registry, else the default *)
Definition cert_manager_image (cr : CSM) (matched : VersionSpec) (key defaultImg : string)
    : string :=
  let resolved := if decide (vs_Version matched = "") then "" else lookup_zero (vs_Images matched) key in
  let resolved :=
    if decide (resolved = "" ∧ sp_CustomRegistry (cr_Spec cr) ≠ "")
    then ResolveImage defaultImg cr else resolved in
  if decide (resolved = "") then defaultImg else resolved.

Definition getCertManager (op : OperatorConfig) (cr : CSM) (matched : VersionSpec)
    : outcome string :=
  buf ← res (ReadFile (Clean (oc_ConfigDirectory op +:+ "/moduleconfig/common/cert-manager/"
                              +:+ CertManagerManifest)));
  let y := foldl (λ y '(key, (placeholder, defaultImg)),
             ReplaceAll y placeholder (cert_manager_image cr matched key defaultImg))
             buf certManagerImages in
  let y := ReplaceAll y CommonNamespace (cr_Namespace cr) in
  let y := ReplaceAll y CSMName (cr_Name cr) in
  Ok (ReplaceAll y ComConfigCSMNameSpace (cr_Namespace cr)).

Definition getCertManagerCRDs (op : OperatorConfig) : outcome string :=
  res (ReadFile (Clean (oc_ConfigDirectory op +:+ "/moduleconfig/common/cert-manager/"
                        +:+ CertManagerCRDsManifest))).

Definition getCSMDRCRDs (op : OperatorConfig) : outcome string :=
  res (ReadFile (Clean (oc_ConfigDirectory op +:+ "/moduleconfig/common/disaster-recovery/"
                        +:+ CSMDRCRDsManifest))).
End config.

Section apply.
Context {W : Type} `{Client W} `{Host} `{MapOrder} `{ManifestCodec}.

(** The loop over the objects of a manifest, for one of the two ways to apply an object. *)
Definition each_object (apply : Object → M (World W) ()) (isDeleting : bool) (objs : list Object)
    : M (World W) () :=
  forM (λ ctrlObj, if isDeleting then DeleteObject ctrlObj else apply ctrlObj) objs.

Definition apply_or_delete : bool → list Object → M (World W) () := each_object ApplyObject.

Definition applyDeleteObjects (yamlString : string) (isDeleting : bool) : M (World W) () :=
  ctrlObjects ← lift (GetModuleComponentObj yamlString);
  apply_or_delete isDeleting ctrlObjects.

(** the objects of cert-manager: its own and the resource definitions *)
Definition cert_manager_objects (op : OperatorConfig) (cr : CSM) (matched : VersionSpec)
    : outcome (list Object * list Object) :=
  YamlString ← getCertManager op cr matched;
  crdYamlString ← getCertManagerCRDs op;
  ctrlObjects ← GetModuleComponentObj YamlString;
  crdObjects ← GetModuleComponentObj crdYamlString;
  Ok (ctrlObjects, crdObjects).

(** The resource definitions stay when cert-manager is removed. *)
Definition CommonCertManager (isDeleting : bool) (op : OperatorConfig) (cr : CSM)
    (matched : VersionSpec) : M (World W) () :=
  '(ctrlObjects, crdObjects) ← lift (cert_manager_objects op cr matched);
  _ ← forM (λ crdObj, when (negb isDeleting) (ApplyObject crdObj)) crdObjects;
  apply_or_delete isDeleting ctrlObjects.

Definition PatchCSMDRCRDs (isDeleting : bool) (op : OperatorConfig) : M (World W) () :=
  crdYamlString ← lift (getCSMDRCRDs op);
  crdObjects ← lift (GetModuleComponentObj crdYamlString);
  apply_or_delete isDeleting crdObjects.
End apply.

(** ** Tables of settings

    A manifest has a placeholder for each setting; the request names it without the brackets. *)

Definition setting (settings : list (string * string)) (placeholder : string) : string :=
  default "" (snd <$> (snd <$> list_find (λ s, s.1 = placeholder) settings)).

(** the name that the documentation of a setting gives: its placeholder without brackets *)
Definition bare (placeholder : string) : string :=
  String.substring 1 (String.length placeholder - 2) placeholder.

(** ** Injection *)

(** [role.Rules = append(role.Rules, rules...)] *)
Definition add_rules (rules : list PolicyRule) (r : Resource) : Resource :=
  mkResource (rs_Kind r) (rs_Meta r)
    match rs_Body r with
    | RulesBody old rest => RulesBody (old ++ rules) rest
    | b => b
    end.

Definition add_envs (envs : list EnvVarApply) (c : ContainerApply) : ContainerApply :=
  set_ca_Env (ca_Env c ++ envs) c.

(** the variables of the first container named "driver" *)
Definition add_driver_envs (envs : list EnvVarApply) (cs : list ContainerApply)
    : outcome (list ContainerApply) :=
  on_named ["driver"] true (λ c, Ok (add_envs envs c)) cs.

Section inject.
Context `{Host} `{MapOrder} `{ManifestCodec}.

Definition inject_rules (module : Module) (cr : CSM) (op : OperatorConfig) (filename : string)
    (r : Resource) : outcome Resource :=
  buf ← readConfigFile module cr op filename;
  rules ← res (yaml_Rules buf);
  Ok (add_rules rules r).
End inject.

(** ** Properties *)

(** What [on_named] does to the first container of one of the names. *)
Lemma on_named_once names f cs cs' :
  on_named names true f cs = Ok cs' →
  (cs' = cs ∧ Forall (λ c, ∃ n, ca_Name c = Some n ∧ n ∉ names) cs)
  ∨ ∃ pre c c' post n, cs = pre ++ c :: post ∧ cs' = pre ++ c' :: post ∧ f c = Ok c'
      ∧ ca_Name c = Some n ∧ n ∈ names
      ∧ Forall (λ c, ∃ n, ca_Name c = Some n ∧ n ∉ names) pre.
Proof.
  revert cs'. induction cs as [|c cs IH]; intros cs' E; simpl in E.
  { injection E as <-. by left. }
  apply outcome_bind_Ok in E as (n & En & E). destruct (ca_Name c) as [n'|] eqn:Hn; [|done].
  injection En as ->. destruct (decide (n ∈ names)) as [Hin|Hin].
  - apply outcome_bind_Ok in E as (c' & Ec & E). injection E as <-.
    right. by exists [], c, c', cs, n.
  - apply outcome_bind_Ok in E as (cs1 & Ec & E). injection E as <-.
    destruct (IH _ Ec) as [[-> Hf]|(pre & d & d' & post & m & -> & -> & ? & ? & ? & Hf)].
    + left. split; [done|]. constructor; [by exists n|done].
    + right. exists (c :: pre), d, d', post, m. split_and!; try done.
      constructor; [by exists n|done].
Qed.

(** [cs'] is [cs] with [envs] added to the first container named "driver", if there is one. *)
Definition driver_gets (envs : list EnvVarApply) (cs cs' : list ContainerApply) : Prop :=
  (cs' = cs ∧ Forall (λ c, ca_Name c ≠ Some "driver") cs)
  ∨ ∃ pre c post, cs = pre ++ c :: post ∧ cs' = pre ++ add_envs envs c :: post
      ∧ ca_Name c = Some "driver" ∧ Forall (λ c, ca_Name c ≠ Some "driver") pre.

Lemma add_driver_envs_Ok envs cs cs' :
  add_driver_envs envs cs = Ok cs' → driver_gets envs cs cs'.
Proof.
  intros E. assert (∀ c, (∃ n, ca_Name c = Some n ∧ n ∉ ["driver"]) → ca_Name c ≠ Some "driver") as Hn.
  { intros c (n & -> & Hn) [= ->]. apply Hn. by left. }
  apply on_named_once in E as [[-> Hf]|(pre & c & c' & post & n & -> & -> & Ec & En & Hin & Hf)].
  - left. split; [done|]. by eapply Forall_impl.
  - right. injection Ec as <-. apply list_elem_of_singleton in Hin as ->.
    exists pre, c, post. split_and!; try done. by eapply Forall_impl.
Qed.

Lemma concat_commas names :
  foldl (λ acc name, acc +:+ (name +:+ ",")) "" names = ""%string ↔ names = [].
Proof.
  split; [|by intros ->]. destruct names as [|n names] using rev_ind; [done|].
  rewrite foldl_app. simpl. destruct (foldl _ _ names); [by destruct n|done].
Qed.

(** A version is accepted exactly when the module's directory has an entry of that name; an
    empty directory panics, so that every refusal names the versions there are. *)
Lemma checkVersion_spec `{Directory} t v path :
  let dir := ReadDir (path +:+ "/moduleconfig/" +:+ t +:+ "/") in
  (checkVersion t v path = Ok () ↔ ∃ files, dir = inr files ∧ v ∈ files)
  ∧ ((∃ why, checkVersion t v path = Panic why) ↔ dir = inr []).
Proof.
  intros dir. unfold checkVersion, dir. destruct (ReadDir _) as [e|files]; simpl.
  { split; split; try done; [by intros (? & ? & _)|by intros [? ?]]. }
  destruct (decide (v ∈ files)) as [Hin|Hin].
  - split; split; try done; [by exists files|by intros [? ?]|].
    intros [= ->]. by apply not_elem_of_nil in Hin.
  - destruct (decide (foldl _ "" files = "")) as [E|E].
    + apply concat_commas in E as ->. split; split; try done; [|by eauto].
      by intros (? & [= <-] & ?%not_elem_of_nil).
    + split; split; try done; [by intros (? & [= <-] & ?)|by intros [? ?]|].
      intros [= ->]. by destruct E.
Qed.

Section claims.
Context {W : Type} `{Client W} `{!View W} `{!ClientLaws (W := W)}.
#[local] Set Default Proof Using "All".

(** All objects of a manifest are there, and nothing else changed. *)
Lemma each_object_ensures apply objs :
  (∀ o, ensures (obj_key o) (apply o)) → NoDup (obj_key <$> objs) →
  ensures_all (obj_key <$> objs) (each_object apply false objs).
Proof.
  intros Ha. induction objs as [|o objs IH]; simpl; intros Hd.
  - split; [apply touches_ret|]. intros w w' _ k Hk. by apply not_elem_of_nil in Hk.
  - apply NoDup_cons in Hd as [Hk Hd].
    apply ensures_all_cons; [apply Ha|by apply IH|done].
Qed.

Lemma apply_objects_ensures objs :
  NoDup (obj_key <$> objs) →
  ensures_all (obj_key <$> objs) (apply_or_delete false objs).
Proof. apply each_object_ensures, ApplyObject_ensures. Qed.

Lemma delete_objects_removes objs (w w' : World W) :
  apply_or_delete true objs w = (Ok (), w') →
  (∀ k, k ∉ obj_key <$> objs → seen w' !! k = seen w !! k)
  ∧ (∀ k, k ∈ obj_key <$> objs ∨ removed (seen w) k → removed (seen w') k).
Proof. apply forM_DeleteObject. Qed.

Lemma each_object_touches apply b objs :
  (∀ o, ensures (obj_key o) (apply o)) →
  touches (λ k, k ∈ obj_key <$> objs) (each_object apply b objs).
Proof.
  intros Ha. unfold each_object. induction objs as [|o objs IH]; simpl; [apply touches_ret|].
  apply touches_bind; [|intros _; eapply touches_mono; [apply IH|];
                        intros k Hk; apply elem_of_cons; by right].
  destruct b.
  - eapply touches_mono; [apply DeleteObject_touches|]. intros k <-. by left.
  - destruct (Ha o) as [Ht _]. eapply touches_mono; [exact Ht|].
    intros k <-. by left.
Qed.

Lemma apply_or_delete_touches b objs :
  touches (λ k, k ∈ obj_key <$> objs) (apply_or_delete b objs).
Proof. apply each_object_touches, ApplyObject_ensures. Qed.

(** A loop that changes each object before it applies or deletes it. *)
Lemma prepared_run (isDeleting : bool) (prep : Object → outcome Object) objs (w w' : World W) :
  forM (λ o, o ← lift (prep o); if isDeleting then DeleteObject o else ApplyObject o) objs w
    = (Ok (), w') →
  ∃ objs', Forall2 (λ o o', prep o = Ok o') objs objs'
    ∧ apply_or_delete isDeleting objs' w = (Ok (), w').
Proof.
  revert w. induction objs as [|o objs IH]; intros w E; cbn [forM] in E; [by exists []|].
  apply M_bind_Ok in E as ([] & w1 & E1 & E). apply M_bind_Ok in E1 as (o' & w2 & Eo & E1).
  injection Eo as Eo <-. apply IH in E as (objs' & Hf & E). exists (o' :: objs').
  split; [by constructor|]. unfold apply_or_delete, each_object. cbn [forM]. by rewrite (M_bind_step _ _ _ _ _ E1).
Qed.

(** What a manifest leaves behind: applied, every object is there; deleted, none is; nothing
    else has changed. *)
Definition manifest_effect (isDeleting : bool) (keys : list Key) (w w' : World W) : Prop :=
  (∀ k, k ∉ keys → seen w' !! k = seen w !! k)
  ∧ (isDeleting = true → ∀ k, k ∈ keys → removed (seen w') k)
  ∧ (isDeleting = false → NoDup keys → ∀ k, k ∈ keys → is_Some (seen w' !! k) ∨ dying (seen w) k).

Lemma each_object_effect apply isDeleting objs (w w' : World W) :
  (∀ o, ensures (obj_key o) (apply o)) → each_object apply isDeleting objs w = (Ok (), w') →
  manifest_effect isDeleting (obj_key <$> objs) w w'.
Proof.
  intros Ha E. split_and!.
  - by apply (each_object_touches apply isDeleting objs Ha _ _ _ E).
  - intros -> k Hk. apply delete_objects_removes in E as [_ Hr]. apply Hr. by left.
  - intros -> Hd. by apply (each_object_ensures apply objs Ha Hd).
Qed.

Lemma apply_or_delete_effect isDeleting objs (w w' : World W) :
  apply_or_delete isDeleting objs w = (Ok (), w') →
  manifest_effect isDeleting (obj_key <$> objs) w w'.
Proof. apply each_object_effect, ApplyObject_ensures. Qed.

Lemma manifest_effect_seen isDeleting keys (w1 w2 w' : World W) :
  seen w1 = seen w2 → manifest_effect isDeleting keys w1 w' → manifest_effect isDeleting keys w2 w'.
Proof. unfold manifest_effect. by intros ->. Qed.

Lemma skip_crds (crds : list Object) (w : World W) :
  forM (λ crdObj, when (negb true) (ApplyObject crdObj)) crds w = (Ok (), w).
Proof. induction crds as [|o crds IH]; [done|]. exact IH. Qed.

Lemma dying_is_some (m : gmap Key Object) k : dying m k → is_Some (m !! k).
Proof. intros (o & Ho & _). by exists o. Qed.

Section cert_manager.
Context `{Host} `{MapOrder} `{ManifestCodec}.

Lemma reads_ResolveVersion cr : reads (ResolveVersionFromConfigMap cr).
Proof. unfold ResolveVersionFromConfigMap, FetchConfigMap, reads. solve_touches. Qed.

(** the version that a module looks up for a request that names one *)
Lemma matched_seen cr w matched w' :
  (if decide (sp_Version (cr_Spec cr) = "") then mret zero_VersionSpec
   else ResolveVersionFromConfigMap cr) w = (Ok matched, w') → seen w' = seen w.
Proof.
  case_decide; [by intros [= _ <-]|]. intros E. eapply reads_seen; [apply reads_ResolveVersion|done].
Qed.

(** C21: cert-manager. Installing it touches its own objects and the resource definitions
    only, and on success all of them are there, unless they were being deleted. Removing it
    touches its own objects only, and on success they are absent or being deleted: after an
    installation and a removal, whatever images each of them chose, the resource definitions
    are left and nothing else has changed. *)
Theorem CommonCertManager_roundtrip op cr m1 m2 objs1 objs2 crds w w1 w2 :
  cert_manager_objects op cr m1 = Ok (objs1, crds) →
  cert_manager_objects op cr m2 = Ok (objs2, crds) →
  obj_key <$> objs1 = obj_key <$> objs2 →
  NoDup ((obj_key <$> crds) ++ (obj_key <$> objs1)) →
  CommonCertManager false op cr m1 w = (Ok (), w1) →
  CommonCertManager true op cr m2 w1 = (Ok (), w2) →
  (∀ k, k ∈ (obj_key <$> crds) ++ (obj_key <$> objs1) → is_Some (seen w1 !! k) ∨ dying (seen w) k)
  ∧ (∀ k, k ∈ obj_key <$> crds → seen w2 !! k = seen w1 !! k)
  ∧ (∀ k, k ∈ obj_key <$> objs1 → removed (seen w2) k)
  ∧ (∀ k, k ∉ (obj_key <$> crds) ++ (obj_key <$> objs1) → seen w2 !! k = seen w !! k).
Proof.
  intros E1 E2 Hkeys Hd Ei Er. unfold CommonCertManager in Ei, Er.
  rewrite E1 in Ei. rewrite E2 in Er. unfold lift in Ei, Er.
  apply M_bind_Ok in Ei as (? & ? & [= <- <-] & Ei).
  apply M_bind_Ok in Er as (? & ? & [= <- <-] & Er). cbv beta iota in Ei, Er.
  rewrite (M_bind_step _ _ _ _ _ (skip_crds crds w1)) in Er.
  apply delete_objects_removes in Er as [Fr Rr]. rewrite <- Hkeys in Fr, Rr.
  assert (Hd' := Hd). apply NoDup_app in Hd' as (Hd1 & Hdisj & Hd2).
  assert (ensures_all ((obj_key <$> crds) ++ (obj_key <$> objs1))
    (_ ← forM (λ o, when (negb false) (ApplyObject o)) crds; apply_or_delete false objs1)) as [Ht Ho].
  { apply ensures_all_app; [by apply (apply_objects_ensures crds)
                           |by apply apply_objects_ensures|done]. }
  split_and!.
  - by apply (Ho w w1).
  - intros k Hk. apply Fr. by apply Hdisj.
  - intros k Hk. apply Rr. by left.
  - intros k Hk. rewrite Fr by (intros ?; apply Hk, elem_of_app; by right).
    by apply (Ht _ _ _ Ei).
Qed.
End cert_manager.
End claims.

(** ** Witnesses *)

Definition modules_host : Host := host_of
  {[ "/cfg/moduleconfig/common/cert-manager/cert-manager.yaml"
       := demo_manifest ["Deployment cert-manager"; "Service cert-manager"];
     "/cfg/moduleconfig/common/cert-manager/cert-manager-crds.yaml"
       := demo_manifest ["CustomResourceDefinition issuers"] ]}
  ∅ ∅.

Definition modules_config : OperatorConfig :=
  mkOperatorConfig false (mkK8sImagesConfig "" (mkK8sImages "" "" "" "" "" "" "" "" "" "")) "/cfg".

Section witnesses.
#[local] Existing Instances modules_host demo_codec.

Lemma CommonCertManager_roundtrip_witness :
  let w := world_of [] obeys in
  let w1 := snd (CommonCertManager false modules_config zero_CSM zero_VersionSpec w) in
  let w2 := snd (CommonCertManager true modules_config zero_CSM zero_VersionSpec w1) in
  seen w1 !! ("Deployment", ("dell", "cert-manager")) ≠ None
  ∧ removed (seen w2) ("Deployment", ("dell", "cert-manager"))
  ∧ seen w2 !! ("CustomResourceDefinition", ("dell", "issuers")) ≠ None.
Proof.
  intros w w1 w2.
  destruct (cert_manager_objects modules_config zero_CSM zero_VersionSpec) as [[objs crds]|e|e] eqn:E;
    [|vm_compute in E; discriminate E..].
  assert (E1 : fst (CommonCertManager false modules_config zero_CSM zero_VersionSpec w) = Ok ())
    by (vm_compute; reflexivity).
  assert (E2 : fst (CommonCertManager true modules_config zero_CSM zero_VersionSpec w1) = Ok ())
    by (vm_compute; reflexivity).
  destruct (CommonCertManager_roundtrip modules_config zero_CSM zero_VersionSpec zero_VersionSpec
    objs objs crds w w1 w2 E E eq_refl) as (_ & Hc & Hr & _).
  - vm_compute in E. injection E as <- <-. decide_goal.
  - exact (run_fst _ _ E1).
  - exact (run_fst _ _ E2).
  - vm_compute in E. injection E as <- <-. split_and!.
    + vm_compute. discriminate.
    + apply Hr. left.
    + rewrite Hc by left. vm_compute. discriminate.
Defined.
End witnesses.
