(* ===== verification/Resiliency.v ===== *)
(** The resiliency module (pkg/modules/resiliency.go): the podmon container that is put before
    the containers of controller and nodes, the variables of the driver that go with it, and
    the rules of its roles. *)

From S2P Require Import Prelude.
From S2P Require Import GoStrings.
From S2P Require Import Types.
From S2P Require Import Versions.
From S2P Require Import Images.
From S2P Require Import Cluster.
From S2P Require Import Resources.
From S2P Require Import Packages.
From S2P Require Import Manifests.
From S2P Require Import Drivers.
From S2P Require Import Pods.
From S2P Require Import ModCommon.
From Stdlib Require Import Ascii.
From stdpp Require Import options.

Local Open Scope stdpp_scope.

Definition XCSIPodmonArrayConnectivityPollRate : string := "X_CSI_PODMON_ARRAY_CONNECTIVITY_POLL_RATE".
Definition XCSIPodmonAPIPort : string := "X_CSI_PODMON_API_PORT".
Definition XCSIPodmonEnabled : string := "X_CSI_PODMON_ENABLED".
Definition PodmonControllerComponent : string := "podmon-controller".
Definition PodmonNodeComponent : string := "podmon-node".
Definition controllerMode : string := "controller".
Definition nodeMode : string := "node".

Definition ResiliencySupportedDrivers : gmap string SupportedDriverParam := supported_params.

Definition getResiliencyModule (cr : CSM) : outcome Module :=
  match find_module Resiliency (sp_Modules (cr_Spec cr)) with
  | Some m => Ok m
  | None => Fail (Errorf "could not find resiliency module")
  end.

(** the first such variable of the components for the nodes *)
Definition getResiliencyEnv (resiliencyModule : Module) : string :=
  default ""
    (head (omap (λ component,
       if decide (ct_Name component = PodmonNodeComponent)
       then ev_Value <$> first_env XCSIPodmonAPIPort (default [] (ct_Envs component))
       else None) (m_Components resiliencyModule))).

(** ** The podmon container *)

Definition modifyPodmon (component : ContainerTemplate) (container : ContainerApply)
    (matched : VersionSpec) (cr : CSM) : outcome ContainerApply :=
  img ← (if decide (vs_Version matched ≠ "") then
           containerName ← deref (ca_Name container);
           Ok (lookup_zero (vs_Images matched) containerName)
         else Ok "");
  container ← (if decide (img ≠ "") then store_Image img container
               else if decide (sp_CustomRegistry (cr_Spec cr) ≠ "") then
                 image ← deref (ca_Image container);
                 store_Image (ResolveImage image cr) container
               else if decide (ct_Image component ≠ "")
               then Ok (set_ca_Image (Some (ct_Image component)) container)
               else Ok container);
  let container :=
    if decide (ct_ImagePullPolicy component ≠ "")
    then set_ca_ImagePullPolicy (Some (ct_ImagePullPolicy component)) container else container in
  env ← ReplaceAllApplyCustomEnvs (ca_Env container) [] (default [] (ct_Envs component));
  Ok (set_ca_Args (ReplaceAllArgs (ca_Args container) (ct_Args component))
        (set_ca_Env env container)).

(** the component whose settings go to the container of a mode *)
Definition podmon_component (mode : string) : option string :=
  if decide (mode = controllerMode) then Some PodmonControllerComponent
  else if decide (mode = nodeMode) then Some PodmonNodeComponent
  else None.

(** Without components in the request an empty one stands for the missing. *)
Definition setResiliencyArgs (m : Module) (mode : string) (container : ContainerApply)
    (matched : VersionSpec) (cr : CSM) : outcome ContainerApply :=
  match podmon_component mode with
  | None => Ok container
  | Some name =>
      container ← match m_Components m with
                  | [] => modifyPodmon (set_ct_Name name zero_ContainerTemplate) container matched cr
                  | _ => Ok container
                  end;
      foldO (λ container component,
          if decide (ct_Name component = name) then modifyPodmon component container matched cr
          else Ok container)
        container (m_Components m)
  end.

(** the value of the first argument of that name that has exactly one "=" *)
Fixpoint getPollRateFromArgs (args : list string) : string :=
  match args with
  | [] => ""
  | arg :: args' =>
      if Contains arg "arrayConnectivityPollRate" then
        match Split arg "="%char with
        | [_; value] => value
        | _ => getPollRateFromArgs args'
        end
      else getPollRateFromArgs args'
  end.

Section inject.
Context `{Host} `{MapOrder} `{ManifestCodec}.

Definition container_file (driverType mode : string) : string :=
  let driverType := if decide (driverType = PowerScale) then PowerScaleName else driverType in
  let driverType := if decide (driverType = PowerFlexName) then PowerFlex else driverType in
  "container-" +:+ driverType +:+ "-" +:+ mode +:+ ".yaml".

Definition getResiliencyApplyCR (cr : CSM) (op : OperatorConfig) (driverType mode : string)
    (matched : VersionSpec) : outcome (Module * ContainerApply) :=
  let resiliencyModule := GetModule cr Resiliency in
  buf ← readConfigFile resiliencyModule cr op (container_file driverType mode);
  container ← res (yaml_Container (ModifyCommonCR buf cr));
  container ← setResiliencyArgs resiliencyModule mode container matched cr;
  Ok (resiliencyModule, container).

(** [append([]ContainerApplyConfiguration{podmon}, containers...)] *)
Definition prepend_container (c : ContainerApply) (p : PodSpecApply) : PodSpecApply :=
  set_pod_Containers (c :: pod_Containers p) p.

(** a variable that is only set when it has a value *)
Definition env_unless_empty (name value : string) : list EnvVarApply :=
  if decide (value = "") then [] else [env_apply name value].

Definition podmon_drivers : list string := [PowerScaleName; PowerStore; PowerMax; PowerFlex].

Definition inject_deployment (dp : Workload) (cr : CSM) (op : OperatorConfig)
    (driverType : string) (matched : VersionSpec) : outcome Workload :=
  '(resiliencyModule, podmon) ← getResiliencyApplyCR cr op driverType controllerMode matched;
  p ← pod_spec dp;
  let p := prepend_container podmon p in
  let driverType := if decide (driverType = PowerScale) then PowerScaleName else driverType in
  cs ← (if decide (driverType ∈ podmon_drivers) then
          add_driver_envs
            (env_apply XCSIPodmonEnabled "true"
             :: env_unless_empty XCSIPodmonArrayConnectivityPollRate
                  (getPollRateFromArgs (ca_Args podmon))
             ++ env_unless_empty XCSIPodmonAPIPort (getResiliencyEnv resiliencyModule))
            (pod_Containers p)
        else Ok (pod_Containers p));
  Ok (set_pod (set_pod_Containers cs p) dp).

Definition inject_daemonset (ds : Workload) (cr : CSM) (op : OperatorConfig)
    (driverType : string) (matched : VersionSpec) : outcome Workload :=
  '(resiliencyModule, podmon) ← getResiliencyApplyCR cr op driverType nodeMode matched;
  p ← pod_spec ds;
  let p := prepend_container podmon p in
  cs ← add_driver_envs
         [env_apply XCSIPodmonArrayConnectivityPollRate (getPollRateFromArgs (ca_Args podmon));
          env_apply XCSIPodmonAPIPort (getResiliencyEnv resiliencyModule);
          env_apply XCSIPodmonEnabled "true"]
         (pod_Containers p);
  Ok (set_pod (set_pod_Containers cs p) ds).

(** ** Roles *)

Definition inject_cluster_role (clusterRole : Resource) (cr : CSM) (op : OperatorConfig)
    (mode : string) : outcome Resource :=
  resiliencyModule ← getResiliencyModule cr;
  inject_rules resiliencyModule cr op (mode +:+ "-clusterroles.yaml") clusterRole.

(** The controller has no roles, and versions up to v1.12 have none. *)
Definition inject_role (role : Resource) (cr : CSM) (op : OperatorConfig) (mode : string)
    : outcome Resource :=
  if decide (mode = controllerMode) then Ok role
  else
    resiliencyModule ← getResiliencyModule cr;
    resiliencyVersion ←
      (if decide (m_ConfigVersion resiliencyModule = "") then
         version ← GetVersion cr op;
         GetModuleDefaultVersion version (d_CSIDriverType (sp_Driver (cr_Spec cr)))
           (m_Name resiliencyModule) (oc_ConfigDirectory op)
       else Ok (m_ConfigVersion resiliencyModule));
    isOldResiliencyVersion ← MinVersionCheck resiliencyVersion "v1.12.0";
    if (isOldResiliencyVersion : bool) then Ok role
    else inject_rules resiliencyModule cr op (mode +:+ "-roles.yaml") role.
End inject.

(** ** The operations of the interface *)

Section module.
Context {W : Type} `{Host} `{MapOrder} `{ManifestCodec} `{Directory}.

Definition resiliency_check (op : OperatorConfig) (resiliency : Module) (cr : CSM) : outcome () :=
  match ResiliencySupportedDrivers !! d_CSIDriverType (sp_Driver (cr_Spec cr)) with
  | None =>
      Fail (Errorf ("CSM Operator does not suport Resiliency deployment for "
        +:+ d_CSIDriverType (sp_Driver (cr_Spec cr)) +:+ " driver"))
  | Some _ =>
      if decide (m_ConfigVersion resiliency = "") then Ok ()
      else checkVersion Resiliency (m_ConfigVersion resiliency) (oc_ConfigDirectory op)
  end.

Definition ResiliencyPrecheck (op : OperatorConfig) (resiliency : Module) (cr : CSM)
    : M (World W) (CSM * option error) :=
  reading_check cr (lift (resiliency_check op resiliency cr)).

Definition ResiliencyInjectDeployment (dp : Workload) (cr : CSM) (op : OperatorConfig)
    (driverType : string) (matched : VersionSpec) : M (World W) Workload :=
  lift (inject_deployment dp cr op driverType matched).

Definition ResiliencyInjectDaemonset (ds : Workload) (cr : CSM) (op : OperatorConfig)
    (driverType : string) (matched : VersionSpec) : M (World W) Workload :=
  lift (inject_daemonset ds cr op driverType matched).

Definition ResiliencyInjectClusterRole (clusterRole : Resource) (cr : CSM) (op : OperatorConfig)
    (mode : string) : M (World W) Resource := lift (inject_cluster_role clusterRole cr op mode).

Definition ResiliencyInjectRole (role : Resource) (cr : CSM) (op : OperatorConfig)
    (mode : string) : M (World W) Resource := lift (inject_role role cr op mode).
End module.

(** ** Properties *)

(** [d'] is [d] with other containers. *)
Definition only_containers (d d' : Workload) (cs cs' : list ContainerApply) : Prop :=
  ∃ p, wl_Pod d = Some p ∧ pod_Containers p = cs
    ∧ wl_Pod d' = Some (set_pod_Containers cs' p)
    ∧ wl_Meta d' = wl_Meta d ∧ ws_Replicas <$> wl_Spec d' = ws_Replicas <$> wl_Spec d.

Lemma set_containers_only d p cs' :
  wl_Pod d = Some p →
  only_containers d (set_pod (set_pod_Containers cs' p) d) (pod_Containers p) cs'.
Proof.
  intros Hp. exists p. destruct (set_pod_fields (set_pod_Containers cs' p) d) as (? & Hs & ?).
  split_and!; try done. apply Hs. by rewrite Hp.
Qed.

Section pods.
Context `{Host} `{MapOrder} `{ManifestCodec}.

(** the variables that the driver of the nodes gets *)
Definition node_envs_of (m : Module) (podmon : ContainerApply) : list EnvVarApply :=
  [env_apply XCSIPodmonArrayConnectivityPollRate (getPollRateFromArgs (ca_Args podmon));
   env_apply XCSIPodmonAPIPort (getResiliencyEnv m); env_apply XCSIPodmonEnabled "true"].

Lemma podmon_driver t :
  (if decide (t = PowerScale) then PowerScaleName else t) ∈ podmon_drivers
  ↔ t ∈ PowerScale :: podmon_drivers.
Proof.
  rewrite elem_of_cons. destruct (decide (t = PowerScale)) as [->|Ht]; [|naive_solver].
  split; intros _; by left.
Qed.

Lemma envs_unless_empty name1 v1 name2 v2 on :
  ea_Value on ≠ Some "" →
  let envs := on :: env_unless_empty name1 v1 ++ env_unless_empty name2 v2 in
  let all := [on; env_apply name1 v1; env_apply name2 v2; on] in
  envs ⊆ all ∧ ∀ e, e ∈ all → e ∈ envs ↔ ea_Value e ≠ Some "".
Proof.
  intros Hon envs all. unfold envs, all, env_unless_empty.
  repeat case_decide; subst; simpl; split; try set_solver;
    intros e; rewrite !elem_of_cons, !elem_of_nil; intros He; split.
  all: destruct_or! He; subst; simpl; try done; try naive_solver congruence.
Qed.

(** C25: what resiliency makes of the pods of controller and nodes: the podmon container of the
    module's file goes before all others, and the first container named "driver" gets the
    variables that go with it: that podmon is there, and the poll rate that podmon itself was
    given; nothing else of the workload changes. On the nodes rate and port are set even when
    they are empty, in the controller they are not, and a controller of another driver gets
    none. *)
Theorem resiliency_pods_spec d cr op driverType matched d' :
  (inject_deployment d cr op driverType matched = Ok d' →
   ∃ m podmon cs cs', getResiliencyApplyCR cr op driverType controllerMode matched = Ok (m, podmon)
     ∧ only_containers d d' cs cs'
     ∧ if decide (driverType ∈ PowerScale :: podmon_drivers) then
         ∃ envs, driver_gets envs (podmon :: cs) cs'
           ∧ envs ⊆ env_apply XCSIPodmonEnabled "true" :: node_envs_of m podmon
           ∧ ∀ e, e ∈ env_apply XCSIPodmonEnabled "true" :: node_envs_of m podmon →
               e ∈ envs ↔ ea_Value e ≠ Some ""
       else cs' = podmon :: cs)
  ∧ (inject_daemonset d cr op driverType matched = Ok d' →
     ∃ m podmon cs cs', getResiliencyApplyCR cr op driverType nodeMode matched = Ok (m, podmon)
       ∧ only_containers d d' cs cs' ∧ driver_gets (node_envs_of m podmon) (podmon :: cs) cs').
Proof.
  split; intros E; apply outcome_bind_Ok in E as ([m podmon] & Em & E);
    apply outcome_bind_Ok in E as (p & Ep & E); apply outcome_bind_Ok in E as (cs' & Ec & E);
    injection E as <-; unfold pod_spec in Ep; destruct (wl_Pod d) as [p'|] eqn:Hp; try done;
    injection Ep as ->; exists m, podmon, (pod_Containers p), cs';
    (split; [done|]); (split; [by apply (set_containers_only d p cs' Hp)|]).
  - rewrite (decide_ext _ _ _ _ (podmon_driver driverType)) in Ec.
    case_decide; [|by injection Ec as <-]. eexists. split; [by apply add_driver_envs_Ok in Ec|].
    by apply envs_unless_empty.
  - by apply add_driver_envs_Ok in Ec.
Qed.
End pods.

(** ** Podmon as a sidecar *)

Definition pointed (name : string) (c : ContainerApply) : Prop :=
  ca_Name c = Some name ∧ is_Some (ca_Image c) ∧ is_Some (ca_ImagePullPolicy c).

Lemma store_Image_Some img c : is_Some (ca_Image c) → store_Image img c = Ok (set_ca_Image (Some img) c).
Proof. unfold store_Image. intros [i ->]. done. Qed.

Lemma set_image_pointed name img c : pointed name c → pointed name (set_ca_Image (Some img) c).
Proof. intros (? & ? & ?). split_and!; [done|by eexists|done]. Qed.

Lemma modifyPodmon_template name component c b cr matched :
  pointed name c →
  apply_template cr matched (b, c) (set_ct_Name name component)
  = (λ c', (true, c')) <$> modifyPodmon component c matched cr.
Proof.
  intros (Hn & Hi & [policy Hp]). unfold apply_template, modifyPodmon, matched_image.
  rewrite Hn. simpl. rewrite decide_True by done. destruct Hi as [i Hi].
  destruct (decide (vs_Version matched ≠ "")) as [Hv|Hv]; simpl.
  1: destruct (decide (lookup_zero (vs_Images matched) name ≠ "")).
  all: unfold store_Image; rewrite Hi; simpl.
  all: repeat (case_decide; simpl; rewrite ?Hp; simpl);
    destruct (ReplaceAllApplyCustomEnvs _ _ _); done.
Qed.

Lemma modifyPodmon_pointed name component c c' cr matched :
  pointed name c → modifyPodmon component c matched cr = Ok c' → pointed name c'.
Proof.
  intros (Hn & [i Hi] & [policy Hp]) E. unfold modifyPodmon in E.
  apply outcome_bind_Ok in E as (img & _ & E). apply outcome_bind_Ok in E as (c1 & E1 & E).
  apply outcome_bind_Ok in E as (env & _ & E). injection E as <-.
  assert (pointed name c1) as (? & ? & ?).
  { assert (pointed name c) as Hc by (split_and!; [done|by eexists..]).
    repeat case_decide; go_inv; repeat match goal with
      | Es : store_Image _ _ = Ok _ |- _ => apply store_Image_keeps in Es as -> end;
    first [by apply set_image_pointed|done]. }
  destruct (decide (ct_ImagePullPolicy component ≠ "")); split_and!; simpl; done.
Qed.

Lemma podmon_fold name ts c b cr matched :
  pointed name c →
  foldO (apply_template cr matched) (b, c) (set_ct_Name name <$> ts)
  = (λ c', (b || bool_decide (ts ≠ []), c'))
      <$> foldO (λ c t, modifyPodmon t c matched cr) c ts.
Proof.
  revert b c. induction ts as [|t ts IH]; intros b c Hc.
  - simpl. by rewrite orb_false_r.
  - cbn [fmap list_fmap foldO]. rewrite (modifyPodmon_template name) by done.
    destruct (modifyPodmon t c matched cr) as [c1|e|e] eqn:E1; simpl; [|done..].
    apply (modifyPodmon_pointed name) in E1; [|done]. rewrite IH by done. simpl.
    destruct (foldO _ c1 ts); simpl; [|done..]. by rewrite orb_true_r.
Qed.

Lemma podmon_filter name ts c cr matched :
  foldO (λ c t, if decide (ct_Name t = name) then modifyPodmon t c matched cr else Ok c) c ts
  = foldO (λ c t, modifyPodmon t c matched cr) c (filter (λ t, ct_Name t = name) ts).
Proof.
  revert c. induction ts as [|t ts IH]; intros c; [done|]. cbn [foldO]. rewrite filter_cons.
  case_decide; simpl; [|by apply IH]. by destruct (modifyPodmon t c matched cr); simpl.
Qed.

(** The podmon container of a mode takes its settings from the components of that mode the
    way a sidecar takes them from its templates: image by version, registry or component,
    pull policy, variables, arguments. Without any components an empty one stands in; with
    components of the other mode only, the container stays as the module's file has it: not
    even the image of the version or of a custom registry is used. *)
Theorem setResiliencyArgs_spec m mode component name c matched cr :
  podmon_component mode = Some component → pointed name c →
  let ts := filter (λ t, ct_Name t = component) (m_Components m) in
  (ts ≠ [] → setResiliencyArgs m mode c matched cr
             = UpdateSideCarApply (set_ct_Name name <$> ts) c cr matched)
  ∧ (m_Components m = [] →
     setResiliencyArgs m mode c matched cr
     = UpdateSideCarApply [set_ct_Name name zero_ContainerTemplate] c cr matched)
  ∧ (m_Components m ≠ [] → ts = [] → setResiliencyArgs m mode c matched cr = Ok c).
Proof.
  intros Hm Hc ts. unfold setResiliencyArgs. rewrite Hm.
  assert (∀ us, us ≠ [] → UpdateSideCarApply (set_ct_Name name <$> us) c cr matched
            = foldO (λ c t, modifyPodmon t c matched cr) c us) as Hfold.
  { intros us Hus. unfold UpdateSideCarApply, UpdateContainerApply.
    rewrite podmon_fold by done. rewrite bool_decide_eq_true_2 by done.
    by destruct (foldO _ c us). }
  assert (∀ x, ct_Name (set_ct_Name x zero_ContainerTemplate) = x) as Hname by done.
  split_and!; intros Hts.
  - rewrite (Hfold ts Hts). unfold ts in *. destruct (m_Components m) as [|t0 ts0]; [done|].
    cbv [mbind outcome_bind]. apply podmon_filter.
  - rewrite Hts. etrans; [|symmetry; exact (Hfold [zero_ContainerTemplate] ltac:(done))].
    cbn [foldO]. change (modifyPodmon (set_ct_Name component zero_ContainerTemplate) c matched cr)
      with (modifyPodmon zero_ContainerTemplate c matched cr).
    by destruct (modifyPodmon _ c matched cr).
  - intros E. unfold ts in E. destruct (m_Components m) as [|t0 ts0]; [done|].
    cbv [mbind outcome_bind]. by rewrite podmon_filter, E.
Qed.

Lemma supported_params_dom t :
  is_Some (supported_params !! t) ↔
  t ∈ [PowerStore; PowerScaleName; PowerScale; PowerFlex; PowerFlexName; PowerMax].
Proof.
  unfold supported_params. rewrite !elem_of_cons, elem_of_nil. 
  rewrite !lookup_insert_is_Some, lookup_singleton_is_Some. naive_solver.
Qed.

Lemma resiliency_check_spec `{Directory} op m cr :
  resiliency_check op m cr = Ok () ↔
  is_Some (ResiliencySupportedDrivers !! d_CSIDriverType (sp_Driver (cr_Spec cr)))
  ∧ (m_ConfigVersion m = "" ∨ ∃ files,
       ReadDir (oc_ConfigDirectory op +:+ "/moduleconfig/" +:+ Resiliency +:+ "/") = inr files
       ∧ m_ConfigVersion m ∈ files).
Proof.
  unfold resiliency_check. destruct (ResiliencySupportedDrivers !! _) as [p|].
  - case_decide as Hv; [naive_solver|].
    rewrite (proj1 (checkVersion_spec _ _ _)). naive_solver.
  - split; [done|]. by intros [[? ?] _].
Qed.

(** ** Witnesses *)

Definition podmon_module : Module :=
  mkModule Resiliency true "v1.15.0"
    [set_ct_Envs (Some [mkEnvVar XCSIPodmonAPIPort "8083"])
       (set_ct_Image "quay.io/dell/podmon:v2" (set_ct_Name PodmonNodeComponent zero_ContainerTemplate))]
    false [].

Definition podmon_cr : CSM :=
  mkCSM "ContainerStorageModule" (named "dell" "csm")
    (mkSpec "" (mkDriver PowerFlex None "v2.17.0" 2 "" None None None [] [] [] "" "" None None)
       [podmon_module] "" false)
    zero_Status.

Definition podmon_host : Host := host_of
  {[ "/cfg/moduleconfig/resiliency/v1.15.0/container-powerflex-controller.yaml" := "Container podmon";
     "/cfg/moduleconfig/resiliency/v1.15.0/container-powerflex-node.yaml" := "Container podmon" ]}
  ∅ ∅.

Section witnesses.
#[local] Existing Instances podmon_host pods_codec.

Lemma resiliency_pods_spec_witness :
  let ds := pods_workload "DaemonSet csm-node" in
  ∃ ds' m podmon cs', inject_daemonset ds podmon_cr modules_config PowerFlex zero_VersionSpec = Ok ds'
    ∧ driver_gets (node_envs_of m podmon) (podmon :: wl_Containers ds) cs'
    ∧ ca_Image podmon = Some "quay.io/dell/podmon:v2"
    ∧ (length ∘ ca_Env <$> wl_Containers ds') = [0; 4; 1; 1].
Proof.
  intros ds.
  destruct (inject_daemonset ds podmon_cr modules_config PowerFlex zero_VersionSpec) as [ds'|e|e] eqn:E;
    [|vm_compute in E; discriminate E..].
  destruct (proj2 (resiliency_pods_spec ds podmon_cr modules_config PowerFlex zero_VersionSpec ds') E)
    as (m & podmon & cs & cs' & Em & (p & Hp & Hc & _) & Hg).
  exists ds', m, podmon, cs'. split; [done|]. split; [unfold wl_Containers; rewrite Hp; simpl; by rewrite Hc|].
  split; [vm_compute in Em; injection Em as <- <-; reflexivity|].
  vm_compute in E. injection E as <-. reflexivity.
Defined.

Lemma setResiliencyArgs_spec_witness :
  setResiliencyArgs podmon_module controllerMode (demo_container "podmon") zero_VersionSpec podmon_cr
  = Ok (demo_container "podmon").
Proof.
  assert (pointed "podmon" (demo_container "podmon")) as Hp by (split_and!; [done|by eexists..]).
  exact (proj2 (proj2 (setResiliencyArgs_spec podmon_module controllerMode PodmonControllerComponent
    "podmon" (demo_container "podmon") zero_VersionSpec podmon_cr eq_refl Hp)) ltac:(done) eq_refl).
Defined.
End witnesses.
