(* ===== verification/Replication.v ===== *)
(** The replication module (pkg/modules/replication.go): the replicator sidecar of the
    controller, the rules of its cluster role, the checks of both, and the replication
    controller with its configuration and resource definitions. *)

From S2P Require Import Prelude.
From S2P Require Import GoStrings.
From S2P Require Import Types.
From S2P Require Import Versions.
From S2P Require Import Images.
From S2P Require Import Cluster.
From S2P Require Import Resources.
From S2P Require Import Packages.
From S2P Require Import Manifests.
From S2P Require Import Drivers.
From S2P Require Import Pods.
From S2P Require Import ModCommon.
From Stdlib Require Import Ascii.
From stdpp Require Import options.

Local Open Scope stdpp_scope.

Definition ReplicationPrefix : string := "replication.storage.dell.com".
Definition ReplicationCrds : string := "replicationcrds.all.yaml".
Definition DefaultReplicationContextPrefix : string := "<ReplicationContextPrefix>".
Definition DefaultReplicationPrefix : string := "<ReplicationPrefix>".
Definition DefaultLogLevel : string := "<REPLICATION_CTRL_LOG_LEVEL>".
Definition DefautlReplicaCount : string := "<REPLICATION_CTRL_REPLICAS>".
Definition DefaultRetryMin : string := "<RETRY_INTERVAL_MIN>".
Definition DefaultRetryMax : string := "<RETRY_INTERVAL_MAX>".
Definition DefaultReplicaInitImage : string := "<REPLICATION_INIT_IMAGE>".
Definition ReplicationCSMNameSpace : string := "<CSM_NAMESPACE>".
Definition DefaultDisablePVCRemapState : string := "<DISABLE_PVC_REMAP>".
Definition DefaultEnableKubevirtPVCRemapState : string := "<ENABLE_KUBEVIRT_PVC_REMAP>".
Definition AllowPvcCreationOnTarget : string := "<REPLICATION_ALLOW_PVC_CREATION_ON_TARGET>".
Definition XCSIReplicaCTXPrefix : string := "X_CSI_REPLICATION_CONTEXT_PREFIX".
Definition XCSIReplicaPrefix : string := "X_CSI_REPLICATION_PREFIX".
Definition ReplicationSideCarName : string := "dell-csi-replicator".
Definition ReplicationControllerManager : string := "dell-replication-controller-manager".
Definition ReplicationControllerInit : string := "dell-replication-controller-init".
Definition DefaultSourceClusterID : string := "default-source-cluster".

Definition ReplicationSupportedDrivers : gmap string SupportedDriverParam := supported_params.

(** the zero value for a driver that is not supported *)
Definition replication_param (driverType : string) : SupportedDriverParam :=
  default (mkSupportedDriverParam "" "" "") (ReplicationSupportedDrivers !! driverType).

Definition getReplicaModule (cr : CSM) : outcome Module :=
  match find_module Replication (sp_Modules (cr_Spec cr)) with
  | Some m => Ok m
  | None => Fail (Errorf "could not find replica module")
  end.

(** one variable of the sidecar: context prefix and prefix *)
Definition prefix_step (st : string * string) (env : EnvVar) : string * string :=
  let '(replicationContextPrefix, replicationPrefix) := st in
  if decide (ev_Name env = XCSIReplicaPrefix ∧ ev_Value env ≠ "")
  then (replicationContextPrefix, ev_Value env)
  else if decide (ev_Name env = XCSIReplicaCTXPrefix ∧ ev_Value env ≠ "")
  then (ev_Value env, replicationPrefix)
  else st.

Definition getRepctlPrefices (replicaModule : Module) (driverType : string) : string * string :=
  foldl (λ st component,
      if decide (ct_Name component = ReplicationSideCarName)
      then foldl prefix_step st (default [] (ct_Envs component)) else st)
    (PluginIdentifier (replication_param driverType), ReplicationPrefix)
    (m_Components replicaModule).

(** ** The sidecar *)

(** [*container.Image = GetFinalImage(..., *container.Image)] and the pull policy *)
Definition set_final_image (cr : CSM) (matched : VersionSpec) (component : ContainerTemplate)
    (container : ContainerApply) : outcome ContainerApply :=
  image ← deref (ca_Image container);
  let container := set_ca_Image (Some (GetFinalImage cr matched component image)) container in
  Ok (if decide (ct_ImagePullPolicy component ≠ "")
      then set_ca_ImagePullPolicy (Some (ct_ImagePullPolicy component)) container else container).

Definition replicator_container (cr : CSM) (matched : VersionSpec) (replicaModule : Module)
    (container : ContainerApply) : outcome ContainerApply :=
  container ← match m_Components replicaModule with
              | [] => set_final_image cr matched
                        (set_ct_Name ReplicationSideCarName zero_ContainerTemplate) container
              | _ => Ok container
              end;
  foldO (λ container component,
      if decide (ct_Name component = ReplicationSideCarName)
      then set_final_image cr matched component container else Ok container)
    container (m_Components replicaModule).

Section inject.
Context `{Host} `{MapOrder} `{ManifestCodec}.

Definition getReplicaApplyCR (cr : CSM) (op : OperatorConfig) (matched : VersionSpec)
    : outcome (Module * ContainerApply) :=
  let replicaModule := GetModule cr Replication in
  let driverType := d_CSIDriverType (sp_Driver (cr_Spec cr)) in
  buf ← readConfigFile replicaModule cr op "container.yaml";
  let y := ModifyCommonCR buf cr in
  let '(replicationContextPrefix, replicationPrefix) :=
    getRepctlPrefices replicaModule driverType in
  let y := substitute y
    [(DefaultReplicationPrefix, replicationPrefix);
     (DefaultReplicationContextPrefix, replicationContextPrefix);
     (DefaultDriverConfigParamsVolumeMount,
        DriverConfigParamsVolumeMount (replication_param driverType));
     (ReplicationCSMNameSpace, cr_Namespace cr)] in
  container ← res (yaml_Container y);
  container ← replicator_container cr matched replicaModule container;
  Ok (replicaModule, container).

Definition inject_deployment (dp : Workload) (cr : CSM) (op : OperatorConfig)
    (matched : VersionSpec) : outcome Workload :=
  '(replicaModule, container) ← getReplicaApplyCR cr op matched;
  p ← pod_spec dp;
  let '(replicationContextPrefix, replicationPrefix) :=
    getRepctlPrefices replicaModule (d_CSIDriverType (sp_Driver (cr_Spec cr))) in
  cs ← add_driver_envs
         [env_apply XCSIReplicaCTXPrefix replicationContextPrefix;
          env_apply XCSIReplicaPrefix replicationPrefix]
         (pod_Containers p ++ [container]);
  Ok (set_pod (set_pod_Containers cs p) dp).

Definition inject_cluster_role (clusterRole : Resource) (cr : CSM) (op : OperatorConfig)
    : outcome Resource :=
  replicaModule ← getReplicaModule cr;
  inject_rules replicaModule cr op "rules.yaml" clusterRole.
End inject.

(** ** Checks of what was injected *)

Definition missing_argument (arg : string) : error :=
  Errorf ("missing the following  argument " +:+ arg).

Definition check_sidecar (volName ctxPrefix prefix : string) (cnt : ContainerApply) : outcome () :=
  foundVol ← contains_name vm_Name volName (ca_VolumeMounts cnt);
  if negb (foundVol : bool)
  then Fail (Errorf ("missing the following volume mount " +:+ volName))
  else if decide ("--context-prefix=" +:+ ctxPrefix ∉ ca_Args cnt)
  then Fail (missing_argument ctxPrefix)
  else if decide ("--prefix=" +:+ prefix ∉ ca_Args cnt) then Fail (missing_argument prefix)
  else Ok ().

(** whether a variable of that name was found; one of another value is an error *)
Definition check_env (want value : string) (found : bool) (env : EnvVarApply) : outcome bool :=
  name ← deref (ea_Name env);
  if decide (name = want) then
    v ← deref (ea_Value env);
    if decide (v = value) then Ok true
    else Fail (Errorf ("expected " +:+ want +:+ " to have a value of: " +:+ value
                       +:+ " but got: " +:+ v))
  else Ok found.

Definition check_driver (ctxPrefix prefix : string) (cnt : ContainerApply) : outcome () :=
  '(foundPrefix, foundCtx) ←
    foldO (λ '(foundPrefix, foundCtx) env,
        foundPrefix ← check_env XCSIReplicaPrefix prefix foundPrefix env;
        foundCtx ← check_env XCSIReplicaCTXPrefix ctxPrefix foundCtx env;
        Ok (foundPrefix, foundCtx))
      (false, false) (ca_Env cnt);
  if negb (foundCtx : bool) then Fail (missing_argument ctxPrefix)
  else if negb (foundPrefix : bool) then Fail (missing_argument prefix)
  else Ok ().

Definition CheckApplyContainersReplica (containers : list ContainerApply) (cr : CSM) : outcome () :=
  replicaModule ← getReplicaModule cr;
  let driverType := d_CSIDriverType (sp_Driver (cr_Spec cr)) in
  let '(ctxPrefix, prefix) := getRepctlPrefices replicaModule driverType in
  foldO (λ _ cnt,
      name ← deref (ca_Name cnt);
      if decide (name = ReplicationSideCarName)
      then check_sidecar (DriverConfigParamsVolumeMount (replication_param driverType))
             ctxPrefix prefix cnt
      else if decide (name = "driver") then check_driver ctxPrefix prefix cnt
      else Ok ())
    () containers.

(** A rule of the group without resources panics. *)
Definition CheckClusterRoleReplica (rules : list PolicyRule) : outcome () :=
  '(foundGroup, foundStatus) ←
    foldO (λ '(foundGroup, foundStatus) rule,
        if decide (head (pr_APIGroups rule) = Some "replication.storage.dell.com") then
          match pr_Resources rule with
          | [] => Panic "index out of range [0] with length 0"
          | r :: _ => Ok (foundGroup || bool_decide (r = "dellcsireplicationgroups"),
                          foundStatus || bool_decide (r = "dellcsireplicationgroups/status"))
          end
        else Ok (foundGroup, foundStatus))
      (false, false) rules;
  if negb (foundGroup : bool)
  then Fail (Errorf "missing the resources for dellcsireplicationgroups")
  else if negb (foundStatus : bool)
  then Fail (Errorf "missing the resources for dellcsireplicationgroups/status")
  else Ok ().

(** ** The replication controller *)

(** the settings of the controller with their defaults, in the order in which the name of a
    variable is looked for in the placeholders *)
Definition replica_settings : list (string * string) :=
  [(DefaultLogLevel, "debug"); (DefautlReplicaCount, "1"); (DefaultRetryMin, "1s");
   (DefaultRetryMax, "5m"); (DefaultDisablePVCRemapState, "false");
   (DefaultEnableKubevirtPVCRemapState, "false"); (AllowPvcCreationOnTarget, "false")].

(** [if strings.Contains(placeholder, env.Name) && env.Value != "" { ... } else if ...] *)
Fixpoint set_setting (settings : list (string * string)) (env : EnvVar)
    : list (string * string) :=
  match settings with
  | [] => []
  | (placeholder, value) :: settings' =>
      if Contains placeholder (ev_Name env) && bool_decide (ev_Value env ≠ "")
      then (placeholder, ev_Value env) :: settings'
      else (placeholder, value) :: set_setting settings' env
  end.

Record ReplicaState := mkReplicaState {
  rp_settings : list (string * string);
  rp_image : string;
  rp_initImage : string
}.

Definition replica_step (cr : CSM) (matched : VersionSpec) (y : string) (st : ReplicaState)
    (component : ContainerTemplate) : ReplicaState :=
  if decide (ct_Name component = ReplicationControllerManager) then
    mkReplicaState (foldl set_setting (rp_settings st) (default [] (ct_Envs component)))
      (GetFinalImage cr matched component y) (rp_initImage st)
  else if decide (ct_Name component = ReplicationControllerInit ∧ ct_Image component ≠ "") then
    mkReplicaState (rp_settings st) (rp_image st) (ct_Image component)
  else st.

Definition replica_state (cr : CSM) (matched : VersionSpec) (y : string) (replica : Module)
    : ReplicaState :=
  let image := match m_Components replica with
               | [] => GetFinalImage cr matched
                         (set_ct_Name ReplicationControllerManager zero_ContainerTemplate) y
               | _ => ""
               end in
  foldl (replica_step cr matched y) (mkReplicaState replica_settings image "")
    (m_Components replica).

Definition replica_params (cr : CSM) (st : ReplicaState) : list (string * string) :=
  let value := λ placeholder, (placeholder, setting (rp_settings st) placeholder) in
  [value DefaultLogLevel; value DefautlReplicaCount; (DefaultReplicaInitImage, rp_initImage st);
   value DefaultRetryMax; value DefaultRetryMin; (ReplicationCSMNameSpace, cr_Namespace cr);
   value DefaultDisablePVCRemapState; value DefaultEnableKubevirtPVCRemapState;
   value AllowPvcCreationOnTarget].

(** [deployment.Spec.Template.Spec.Containers[0].Image = image], for every deployment *)
Definition set_first_image (image : string) (o : Object) : outcome Object :=
  match o with
  | ODeployment d =>
      match dp_Containers d with
      | [] => Panic "index out of range [0] with length 0"
      | c :: cs =>
          Ok (ODeployment (set_dp_Containers (set_co_Image image c :: cs) d))
      end
  | _ => Ok o
  end.

Section controller.
Context `{Host} `{MapOrder} `{ManifestCodec}.

Definition getReplicaController (op : OperatorConfig) (cr : CSM) (matched : VersionSpec)
    : outcome (list Object) :=
  replica ← getReplicaModule cr;
  buf ← readConfigFile replica cr op "controller.yaml";
  let y := ModifyCommonCR buf cr in
  let st := replica_state cr matched y replica in
  ctrlObjects ← GetModuleComponentObj (substitute y (replica_params cr st));
  if decide (rp_image st = "") then Ok ctrlObjects
  else
    foldO (λ objs o, o ← set_first_image (rp_image st) o; Ok (objs ++ [o])) [] ctrlObjects.

Definition getReplicationCrdDeploy (op : OperatorConfig) (cr : CSM) : outcome string :=
  repl ← getReplicaModule cr;
  readConfigFile repl cr op ReplicationCrds.
End controller.

(** ** The operations of the interface *)

Section module.
Context {W : Type} `{Client W} `{Host} `{MapOrder} `{ManifestCodec} `{Directory} `{SecretCodec}.

Definition ReplicationInjectDeployment (dp : Workload) (cr : CSM) (op : OperatorConfig)
    (matched : VersionSpec) : M (World W) Workload := lift (inject_deployment dp cr op matched).

Definition ReplicationInjectClusterRole (clusterRole : Resource) (cr : CSM) (op : OperatorConfig)
    : M (World W) Resource := lift (inject_cluster_role clusterRole cr op).

(** the check of the driver, on a copy of the request *)
Definition driver_check (label : string)
    (check : CSM → OperatorConfig → M (World W) (CSM * option error)) (cr : CSM)
    (op : OperatorConfig) : M (World W) () :=
  '(_, err) ← check cr op;
  match err with
  | None => mret ()
  | Some e => failM (Errorf ("failed " +:+ label +:+ " validation: " +:+ error_text e
                       +:+ " for cluster " +:+ DefaultSourceClusterID))
  end.

Definition replication_check (op : OperatorConfig) (replica : Module) (cr : CSM)
    : M (World W) () :=
  let driverType := d_CSIDriverType (sp_Driver (cr_Spec cr)) in
  match ReplicationSupportedDrivers !! driverType with
  | None =>
      failM (Errorf ("CSM Operator does not suport Replication deployment for " +:+ driverType
                     +:+ " driver"))
  | Some _ =>
      _ ← lift (if decide (m_ConfigVersion replica = "") then Ok ()
                else checkVersion Replication (m_ConfigVersion replica) (oc_ConfigDirectory op));
      if decide (driverType = PowerScale) then driver_check "powerscale" PrecheckPowerScale cr op
      else if decide (driverType = PowerFlex) then driver_check "powerflex" PrecheckPowerFlex cr op
      else if decide (driverType = PowerStore)
      then driver_check "powerstore" PrecheckPowerStore cr op
      else mret ()
  end.

(** None of the three checks writes to what the copy shares with the request. *)
Definition ReplicationPrecheck (op : OperatorConfig) (replica : Module) (cr : CSM)
    : M (World W) (CSM * option error) := reading_check cr (replication_check op replica cr).

Definition ReplicationManagerController (isDeleting : bool) (op : OperatorConfig) (cr : CSM)
    : M (World W) () :=
  matched ← (if decide (sp_Version (cr_Spec cr) = "") then mret zero_VersionSpec
             else ResolveVersionFromConfigMap cr);
  ctrlObjects ← lift (getReplicaController op cr matched);
  apply_or_delete isDeleting ctrlObjects.

(** the config map of the manifest; any error of the lookup but "not found" is dropped *)
Definition CreateReplicationConfigmap (cr : CSM) (op : OperatorConfig)
    : M (World W) (list Object) :=
  cm ← lift (replica ← getReplicaModule cr;
             buf ← readConfigFile replica cr op "dell-replication-controller-config.yaml";
             res (yaml_ConfigMap buf));
  r ← attempt (getT ConfigMap (om_Namespace (cm_Meta cm)) (om_Name (cm_Meta cm)));
  _ ← match r with
      | inl err => when (IsNotFound err) (createObject (OConfigMap cm))
      | inr _ => mret ()
      end;
  mret [OConfigMap cm].

Definition replication_configmap : ConfigMap :=
  mkConfigMap (named "dell-replication-controller" "dell-replication-controller-config") None.

Definition DeleteReplicationConfigmap : M (World W) () :=
  r ← attempt (deleteObject (OConfigMap replication_configmap));
  match r with
  | inl err => if IsNotFound err then mret () else failM err
  | inr _ => mret ()
  end.

Definition ReplicationCrdDeploy (op : OperatorConfig) (cr : CSM) : M (World W) () :=
  yamlString ← lift (getReplicationCrdDeploy op cr);
  applyDeleteObjects yamlString false.

Definition DeleteReplicationCrds (op : OperatorConfig) (cr : CSM) : M (World W) () :=
  yamlString ← lift (getReplicationCrdDeploy op cr);
  applyDeleteObjects yamlString true.
End module.

(** ** Properties *)

Section pods.
Context `{Host} `{MapOrder} `{ManifestCodec}.

Definition prefices_of (cr : CSM) : string * string :=
  getRepctlPrefices (GetModule cr Replication) (d_CSIDriverType (sp_Driver (cr_Spec cr))).

(** the variables that the driver gets *)
Definition driver_envs (cr : CSM) : list EnvVarApply :=
  [env_apply XCSIReplicaCTXPrefix (fst (prefices_of cr));
   env_apply XCSIReplicaPrefix (snd (prefices_of cr))].

Lemma inject_deployment_Ok d cr op matched d' :
  inject_deployment d cr op matched = Ok d' →
  ∃ container p cs, getReplicaApplyCR cr op matched = Ok (GetModule cr Replication, container)
    ∧ wl_Pod d = Some p ∧ d' = set_pod (set_pod_Containers cs p) d
    ∧ driver_gets (driver_envs cr) (pod_Containers p ++ [container]) cs.
Proof.
  unfold inject_deployment. intros E. apply outcome_bind_Ok in E as ([m container] & Em & E).
  apply outcome_bind_Ok in E as (p & Ep & E). unfold pod_spec in Ep.
  destruct (wl_Pod d) as [p'|]; [|done]. injection Ep as ->.
  assert (m = GetModule cr Replication) as ->.
  { unfold getReplicaApplyCR in Em. apply outcome_bind_Ok in Em as (buf & _ & Em).
    destruct (getRepctlPrefices _ _). apply outcome_bind_Ok in Em as (c & _ & Em).
    apply outcome_bind_Ok in Em as (c' & _ & Em). by injection Em as -> ->. }
  exists container, p. fold (prefices_of cr) in E.
  destruct (prefices_of cr) as [ctx prefix] eqn:Epre.
  apply outcome_bind_Ok in E as (cs & Ec & E). injection E as <-. exists cs.
  unfold driver_envs. rewrite Epre. split_and!; try done. by apply add_driver_envs_Ok.
Qed.

(** A container that the manifest may have: it is named, and a driver does not set the
    prefixes itself. *)
Definition unreplicated (c : ContainerApply) : Prop :=
  (∃ n, ca_Name c = Some n ∧ n ≠ ReplicationSideCarName)
  ∧ (ca_Name c = Some "driver" →
     Forall (λ e, ∃ n, ea_Name e = Some n ∧ n ∉ [XCSIReplicaPrefix; XCSIReplicaCTXPrefix])
       (ca_Env c)).

Definition env_check_step (ctx prefix : string) : bool * bool → EnvVarApply → outcome (bool * bool) :=
  λ '(foundPrefix, foundCtx) env,
    foundPrefix ← check_env XCSIReplicaPrefix prefix foundPrefix env;
    foundCtx ← check_env XCSIReplicaCTXPrefix ctx foundCtx env;
    Ok (foundPrefix, foundCtx).

Lemma check_env_same want value b : check_env want value b (env_apply want value) = Ok true.
Proof. unfold check_env. cbn [deref ea_Name env_apply mbind outcome_bind ea_Value]. by rewrite !decide_True. Qed.

Lemma check_env_other want value b n v : n ≠ want → check_env want value b (env_apply n v) = Ok b.
Proof. intros Hn. unfold check_env. cbn [deref ea_Name env_apply mbind outcome_bind]. by rewrite decide_False. Qed.

Lemma check_driver_added ctx prefix c :
  ca_Name c = Some "driver" → unreplicated c →
  check_driver ctx prefix
    (add_envs [env_apply XCSIReplicaCTXPrefix ctx; env_apply XCSIReplicaPrefix prefix] c) = Ok ().
Proof.
  intros Hn [_ Hu]. specialize (Hu Hn). unfold check_driver.
  fold (env_check_step ctx prefix). simpl ca_Env. rewrite foldO_app.
  assert (foldO (env_check_step ctx prefix) (false, false) (ca_Env c) = Ok (false, false)) as ->.
  { induction Hu as [|e es (n & En & Hn') _ IH]; [done|]. cbn [foldO].
    assert (env_check_step ctx prefix (false, false) e = Ok (false, false)) as ->; [|exact IH].
    unfold env_check_step, check_env. rewrite En. cbn.
    rewrite !decide_False by (intros ->; apply Hn'; set_solver). done. }
  cbn [mbind outcome_bind foldO]. unfold env_check_step.
  rewrite (check_env_other XCSIReplicaPrefix), check_env_same by done. cbn [mbind outcome_bind].
  by rewrite check_env_same, (check_env_other XCSIReplicaCTXPrefix).
Qed.

Definition check_container (cr : CSM) (cnt : ContainerApply) : outcome () :=
  name ← deref (ca_Name cnt);
  if decide (name = ReplicationSideCarName)
  then check_sidecar (DriverConfigParamsVolumeMount
           (replication_param (d_CSIDriverType (sp_Driver (cr_Spec cr)))))
         (fst (prefices_of cr)) (snd (prefices_of cr)) cnt
  else if decide (name = "driver") then check_driver (fst (prefices_of cr)) (snd (prefices_of cr)) cnt
  else Ok ().

Lemma CheckApplyContainersReplica_all cr cs :
  HasModule cr Replication = true → Forall (λ c, check_container cr c = Ok ()) cs →
  CheckApplyContainersReplica cs cr = Ok ().
Proof.
  intros Hm Hcs. unfold CheckApplyContainersReplica, getReplicaModule.
  unfold HasModule in Hm. destruct (find_module Replication _) as [m|] eqn:Em; [|done].
  cbn [mbind outcome_bind].
  assert (getRepctlPrefices m (d_CSIDriverType (sp_Driver (cr_Spec cr))) = prefices_of cr) as ->
    by (unfold prefices_of, GetModule; by rewrite Em).
  unfold check_container in Hcs.
  destruct (prefices_of cr) as [ctx prefix]. cbn [fst snd] in Hcs.
  induction Hcs as [|c cs Hc _ IH]; [done|]. cbn [foldO]. rewrite Hc. exact IH.
Qed.

Lemma check_container_other cr c :
  unreplicated c → ca_Name c ≠ Some "driver" → check_container cr c = Ok ().
Proof.
  intros [(n & En & Hn) _] Hd. unfold check_container. rewrite En. cbn.
  rewrite !decide_False by congruence. done.
Qed.

(** the check of every container, with the variables at the only driver *)
Lemma injected_checked cr p container cs :
  driver_gets (driver_envs cr) (p ++ [container]) cs →
  ca_Name container = Some ReplicationSideCarName → check_container cr container = Ok () →
  Forall unreplicated p → length (filter (λ c, ca_Name c = Some "driver") p) ≤ 1 →
  Forall (λ c, check_container cr c = Ok ()) cs.
Proof.
  intros Hg Hn Hs Hu Hone.
  assert (∀ x, x ∈ p ++ [container] → ca_Name x ≠ Some "driver" → check_container cr x = Ok ()) as Hx.
  { intros x [Hx| ->%list_elem_of_singleton]%elem_of_app Hd; [|done].
    apply check_container_other; [|done]. by eapply Forall_forall in Hu. }
  destruct Hg as [[-> Hf]|(pre & c & post & Ecs & -> & Hc & Hf)].
  { apply Forall_forall. intros x Hin. apply Hx; [done|]. by eapply Forall_forall in Hf. }
  assert (filter (λ c, ca_Name c = Some "driver") post = []) as Hpost.
  { apply (f_equal (filter (λ c, ca_Name c = Some "driver"))) in Ecs.
    rewrite !filter_app, (filter_cons_True _ c) in Ecs by done.
    rewrite (filter_cons_False _ container), filter_nil, app_nil_r in Ecs by (rewrite Hn; done).
    rewrite Ecs, length_app in Hone. simpl in Hone.
    by destruct (filter _ post) as [|? ?]; [|simpl in Hone; lia]. }
  apply filter_none in Hpost. rewrite Forall_forall in Hf, Hpost.
  apply Forall_app. split; [|constructor].
  - apply Forall_forall. intros x Hin. apply Hx; [|by apply Hf]. rewrite Ecs. set_solver.
  - unfold check_container. simpl. rewrite Hc. cbn. apply check_driver_added; [done|].
    assert (c ∈ p ++ [container]) as [Hin| ->%list_elem_of_singleton]%elem_of_app
      by (rewrite Ecs; set_solver).
    + by eapply Forall_forall in Hu.
    + by rewrite Hn in Hc.
  - apply Forall_forall. intros x Hin. apply Hx; [|by apply Hpost]. rewrite Ecs. set_solver.
Qed.

(** *** The sidecar of the module's file

    What the code makes of a text of the file: its placeholders filled, the two prefixes among
    them. *)
Definition filled (cr : CSM) (text : string) : string :=
  substitute (ModifyCommonCR text cr)
    [(DefaultReplicationPrefix, snd (prefices_of cr));
     (DefaultReplicationContextPrefix, fst (prefices_of cr));
     (DefaultDriverConfigParamsVolumeMount,
        DriverConfigParamsVolumeMount (replication_param (d_CSIDriverType (sp_Driver (cr_Spec cr)))));
     (ReplicationCSMNameSpace, cr_Namespace cr)].

(** The sidecar as the container.yaml of every version of the module has it. *)
Record sidecar_template (t : ContainerApply) : Prop := {
  template_name : ca_Name t = Some ReplicationSideCarName;
  template_context : "--context-prefix=<ReplicationContextPrefix>" ∈ ca_Args t;
  template_prefix : "--prefix=<ReplicationPrefix>" ∈ ca_Args t;
  template_mounts : Forall (λ m, is_Some (vm_Name m)) (ca_VolumeMounts t);
  template_mount : Some DefaultDriverConfigParamsVolumeMount ∈ vm_Name <$> ca_VolumeMounts t
}.

(** Decoding a text whose placeholders were filled gives what decoding the text gives, with
    the placeholders of the fields filled: so a decoder does with values that have no meaning
    in YAML. *)
Record fills (f : string → string) (t c : ContainerApply) : Prop := {
  fills_name : ca_Name c = f <$> ca_Name t;
  fills_args : ca_Args c = f <$> ca_Args t;
  fills_mounts : vm_Name <$> ca_VolumeMounts c = fmap f <$> (vm_Name <$> ca_VolumeMounts t)
}.

(** Two containers that differ in image and pull policy only. *)
Definition but_image (c c' : ContainerApply) : Prop :=
  ∃ image policy, c' = set_ca_ImagePullPolicy policy (set_ca_Image image c).

Lemma set_final_image_but cr matched t c c' :
  set_final_image cr matched t c = Ok c' → but_image c c'.
Proof.
  unfold set_final_image. intros E. apply outcome_bind_Ok in E as (i & _ & [= <-]).
  exists (Some (GetFinalImage cr matched t i)),
    (if decide (ct_ImagePullPolicy t ≠ "") then Some (ct_ImagePullPolicy t) else ca_ImagePullPolicy c).
  by case_decide; destruct c.
Qed.

Lemma but_image_refl c : but_image c c.
Proof. exists (ca_Image c), (ca_ImagePullPolicy c). by destruct c. Qed.

Lemma but_image_trans c1 c2 c3 : but_image c1 c2 → but_image c2 c3 → but_image c1 c3.
Proof. intros (i & p & ->) (i' & p' & ->). by exists i', p'. Qed.

Lemma replicator_container_but cr matched m c c' :
  replicator_container cr matched m c = Ok c' → but_image c c'.
Proof.
  unfold replicator_container. intros E. apply outcome_bind_Ok in E as (c1 & E1 & E).
  apply but_image_trans with c1.
  { destruct (m_Components m); [by eapply set_final_image_but|].
    injection E1 as <-. apply but_image_refl. }
  clear E1. revert c1 E. induction (m_Components m) as [|t ts IH]; intros c1 E.
  - injection E as <-. apply but_image_refl.
  - apply outcome_bind_Ok in E as (c2 & E2 & E). apply IH in E. eapply but_image_trans; [|exact E].
    case_decide; [by eapply set_final_image_but|]. injection E2 as <-.
    apply but_image_refl.
Qed.

Lemma getReplicaApplyCR_Ok cr op matched m c :
  getReplicaApplyCR cr op matched = Ok (m, c) →
  m = GetModule cr Replication ∧ ∃ file c0,
    readConfigFile m cr op "container.yaml" = Ok file ∧ yaml_Container (filled cr file) = inr c0
    ∧ replicator_container cr matched m c0 = Ok c ∧ but_image c0 c.
Proof.
  unfold getReplicaApplyCR. fold (prefices_of cr). intros E.
  apply outcome_bind_Ok in E as (file & Ef & E). unfold filled.
  destruct (prefices_of cr) as [ctx prefix]. cbn [fst snd].
  apply outcome_bind_Ok in E as (c0 & Ec & E). apply outcome_bind_Ok in E as (c1 & E1 & [= <- <-]).
  split; [done|]. exists file, c0. destruct (yaml_Container _) as [?|?]; [done|]. injection Ec as ->. split_and!; try done.
  by eapply replicator_container_but.
Qed.

(** A text without an opening bracket has no placeholder. *)
Lemma ReplaceAll_none s p new : no_byte "<" s → ReplaceAll s (String "<" p) new = s.
Proof.
  unfold ReplaceAll. induction s as [|a s IH]; [done|]. rewrite no_byte_cons. intros [Ha Hs].
  cbn [replace_from]. rewrite HasPrefix_head_ne by done. by rewrite IH.
Qed.

Lemma substitute_none s params :
  no_byte "<" s → Forall (λ p, ∃ q, p = String "<" q) params.*1 → substitute s params = s.
Proof.
  intros Hs. induction params as [|[p v] params IH]; [done|].
  intros [[q Hq] Hp]%Forall_cons. simpl in Hq. subst p. unfold substitute. cbn [foldl].
  rewrite ReplaceAll_none by done. by apply IH.
Qed.

Lemma mount_no_bracket t : no_byte "<" (DriverConfigParamsVolumeMount (replication_param t)).
Proof.
  unfold replication_param. destruct (ReplicationSupportedDrivers !! t) as [p|] eqn:Hp; [|decide_goal].
  simpl. revert t p Hp.
  change (map_Forall (λ _ p, no_byte "<" (DriverConfigParamsVolumeMount p)) ReplicationSupportedDrivers).
  decide_goal.
Qed.

(** The texts of the template that the check looks at, filled. *)
Lemma filled_texts cr :
  no_byte "<" (fst (prefices_of cr)) → no_byte "<" (snd (prefices_of cr)) →
  filled cr ReplicationSideCarName = ReplicationSideCarName
  ∧ filled cr "--context-prefix=<ReplicationContextPrefix>" = "--context-prefix=" +:+ fst (prefices_of cr)
  ∧ filled cr "--prefix=<ReplicationPrefix>" = "--prefix=" +:+ snd (prefices_of cr)
  ∧ filled cr DefaultDriverConfigParamsVolumeMount = DriverConfigParamsVolumeMount
      (replication_param (d_CSIDriverType (sp_Driver (cr_Spec cr)))).
Proof.
  intros Hc Hp. unfold filled.
  assert (∀ s, s ∈ [ReplicationSideCarName; "--context-prefix=<ReplicationContextPrefix>";
    "--prefix=<ReplicationPrefix>"; DefaultDriverConfigParamsVolumeMount] →
    ModifyCommonCR s cr = s) as Hm.
  { intros s Hs. rewrite !elem_of_cons, elem_of_nil in Hs. unfold ModifyCommonCR.
    destruct_or! Hs; try done; subst s; destruct (d_Common _) as [common|];
      repeat case_decide; reflexivity. }
  rewrite !Hm by set_solver. clear Hm.
  pose proof (mount_no_bracket (d_CSIDriverType (sp_Driver (cr_Spec cr)))) as Hv.
  revert Hc Hp Hv. generalize (fst (prefices_of cr)) (snd (prefices_of cr))
    (DriverConfigParamsVolumeMount (replication_param (d_CSIDriverType (sp_Driver (cr_Spec cr))))).
  intros ctx prefix vol Hc Hp Hv.
  assert (∀ pre v params, no_byte "<" pre → no_byte "<" v →
    Forall (λ p, ∃ q, p = String "<" q) params.*1 →
    substitute (pre +:+ (v +:+ "")) params = pre +:+ v) as Hs.
  { intros pre v params Hpre Hv' Hps. rewrite append_nil_r. apply substitute_none; [|done].
    by apply no_byte_app. }
  assert (∀ s p v params, substitute s ((p, v) :: params) = substitute (ReplaceAll s p v) params)
    as Hcons by done.
  split_and!; [reflexivity|..]; rewrite !Hcons.
  - exact (Hs "--context-prefix=" ctx
      [(DefaultDriverConfigParamsVolumeMount, vol); (ReplicationCSMNameSpace, cr_Namespace cr)]
      ltac:(decide_goal) Hc ltac:(repeat constructor; by eexists)).
  - exact (Hs "--prefix=" prefix
      [(DefaultReplicationContextPrefix, ctx); (DefaultDriverConfigParamsVolumeMount, vol);
       (ReplicationCSMNameSpace, cr_Namespace cr)]
      ltac:(decide_goal) Hp ltac:(repeat constructor; by eexists)).
  - exact (Hs "" vol [(ReplicationCSMNameSpace, cr_Namespace cr)]
      ltac:(decide_goal) Hv ltac:(repeat constructor; by eexists)).
Qed.

Lemma contains_name_mount name ms :
  Forall (λ m, is_Some (vm_Name m)) ms → Some name ∈ vm_Name <$> ms →
  contains_name vm_Name name ms = Ok true.
Proof.
  intros Hn Hin. induction Hn as [|m ms [n Hm] _ IH]; [by apply elem_of_nil in Hin|]. simpl.
  rewrite Hm. simpl. case_decide as Hd; [done|]. apply IH. rewrite fmap_cons, Hm in Hin.
  by apply elem_of_cons in Hin as [[= <-]|Hin].
Qed.

(** The filled sidecar has what the check asks for. *)
Lemma filled_checked cr t c :
  no_byte "<" (fst (prefices_of cr)) → no_byte "<" (snd (prefices_of cr)) →
  sidecar_template t → fills (filled cr) t c →
  ca_Name c = Some ReplicationSideCarName ∧ check_container cr c = Ok ().
Proof.
  intros Hc Hp [Tn Tc Tp Tms Tm] [Fn Fa Fm].
  destruct (filled_texts cr Hc Hp) as (En & Ec & Ep & Em). rewrite Tn in Fn. simpl in Fn.
  rewrite En in Fn. split; [done|]. unfold check_container. rewrite Fn. simpl.
  assert (Forall (λ m, is_Some (vm_Name m)) (ca_VolumeMounts c)) as Hms.
  { apply (Forall_fmap vm_Name is_Some). rewrite Fm. apply Forall_fmap, Forall_fmap.
    eapply Forall_impl; [exact Tms|]. simpl. intros ? [n ->]. by eexists. }
  unfold check_sidecar. rewrite contains_name_mount; [simpl|done|].
  - rewrite Fa, !decide_False; [done|..]; intros []; apply list_elem_of_fmap.
    + eexists. by split; [symmetry|].
    + eexists. by split; [symmetry|].
  - rewrite Fm. apply list_elem_of_fmap. eexists. split; [|exact Tm]. simpl. by rewrite Em.
Qed.

Lemma but_image_checked cr c c' :
  but_image c c' → ca_Name c' = ca_Name c ∧ check_container cr c' = check_container cr c.
Proof. by intros (image & policy & ->). Qed.

(** C24: injecting replication into a deployment appends the sidecar of the module's file, with
    the prefixes of the request, or by default the driver's and the operator's, in the places
    of their placeholders and with nothing but image and pull policy changed, and gives the
    first container named "driver" the same two prefixes as variables; nothing else changes.
    When the file has the sidecar that the modules are shipped with, decoding commutes with
    filling its placeholders, and the manifest has one driver and no prefixes of its own, the
    code's own check accepts the result. *)
Theorem replication_pods_spec d cr op matched d' :
  inject_deployment d cr op matched = Ok d' →
  let m := GetModule cr Replication in
  ∃ file c0 container p cs,
    readConfigFile m cr op "container.yaml" = Ok file ∧ yaml_Container (filled cr file) = inr c0
    ∧ replicator_container cr matched m c0 = Ok container ∧ but_image c0 container
    ∧ wl_Pod d = Some p ∧ d' = set_pod (set_pod_Containers cs p) d
    ∧ driver_gets (driver_envs cr) (pod_Containers p ++ [container]) cs
    ∧ ∀ t, yaml_Container file = inr t → sidecar_template t → fills (filled cr) t c0 →
      no_byte "<" (fst (prefices_of cr)) → no_byte "<" (snd (prefices_of cr)) →
      HasModule cr Replication = true →
      Forall unreplicated (pod_Containers p) →
      length (filter (λ c, ca_Name c = Some "driver") (pod_Containers p)) ≤ 1 →
      CheckApplyContainersReplica (wl_Containers d') cr = Ok ().
Proof.
  intros E m. apply inject_deployment_Ok in E as (container & p & cs & Em & Hp & -> & Hg).
  apply getReplicaApplyCR_Ok in Em as (_ & file & c0 & Ef & Ey & Er & Hi).
  exists file, c0, container, p, cs. split_and!; try done. intros t _ Ht Hf Hc Hx Hm Hu Hone.
  apply CheckApplyContainersReplica_all; [done|]. unfold wl_Containers.
  rewrite (proj1 (proj2 (set_pod_fields (set_pod_Containers cs p) d))) by (rewrite Hp; by eexists).
  destruct (filled_checked cr t c0 Hc Hx Ht Hf) as [Hn Hs].
  destruct (but_image_checked cr c0 container Hi) as [Hn' Hs']. rewrite <- Hn' in Hn.
  rewrite <- Hs' in Hs. simpl. by apply (injected_checked cr (pod_Containers p) container).
Qed.
End pods.

(** ** Settings of the controller *)

(** the value that the last such variable gives, unless all are empty *)
Definition given_value (name dflt : string) (envs : list EnvVar) : string :=
  foldl (λ v env, if decide (ev_Name env = name ∧ ev_Value env ≠ "") then ev_Value env else v)
    dflt envs.

(** a table over the same placeholders as the defaults *)
Definition same_settings (settings : list (string * string)) : Prop :=
  settings.*1 = replica_settings.*1.

Lemma setting_after settings env p :
  same_settings settings → ev_Name env ∈ bare <$> replica_settings.*1 → p ∈ replica_settings.*1 →
  same_settings (set_setting settings env)
  ∧ setting (set_setting settings env) p
    = if decide (ev_Name env = bare p ∧ ev_Value env ≠ "") then ev_Value env else setting settings p.
Proof.
  intros Hs Hn Hp. unfold same_settings in *.
  destruct env as [name v]. simpl in Hn. cbn [ev_Name ev_Value].
  do 7 (destruct settings as [|[? ?] settings]; [done|]). destruct settings; [|done].
  simpl in Hs. injection Hs as -> -> -> -> -> -> ->.
  assert (Hv : bool_decide (v ≠ "") = false ∨ bool_decide (v ≠ "") = true ∧ v ≠ "").
  { case_bool_decide; [by right|by left]. }
  destruct Hv as [Hv|[Hv Hv']].
  - cbn [set_setting ev_Value]. rewrite Hv, !andb_false_r. split; [done|].
    rewrite decide_False; [done|]. intros [_ ?]. by case_bool_decide.
  - cbn [set_setting ev_Value ev_Name]. rewrite Hv, !andb_true_r.
    change (bare <$> replica_settings.*1) with
      ["REPLICATION_CTRL_LOG_LEVEL"; "REPLICATION_CTRL_REPLICAS"; "RETRY_INTERVAL_MIN";
       "RETRY_INTERVAL_MAX"; "DISABLE_PVC_REMAP"; "ENABLE_KUBEVIRT_PVC_REMAP";
       "REPLICATION_ALLOW_PVC_CREATION_ON_TARGET"] in Hn.
    change (replica_settings.*1) with
      [DefaultLogLevel; DefautlReplicaCount; DefaultRetryMin; DefaultRetryMax;
       DefaultDisablePVCRemapState; DefaultEnableKubevirtPVCRemapState; AllowPvcCreationOnTarget] in Hp.
    rewrite !elem_of_cons, elem_of_nil in Hn, Hp.
    destruct_or! Hn; try done; subst name; (split; [reflexivity|]);
      destruct_or! Hp; try done; subst p;
      (first [rewrite decide_True by (split; [reflexivity|done])
             |rewrite decide_False by (intros [? _]; done)]); reflexivity.
Qed.

(** The settings of the replication controller. Variables are looked for by substring, yet
    when the names are those of the settings each one reaches its own setting only: a setting
    has the last value that is not empty, and its default without one. *)
Theorem replica_settings_spec envs p dflt :
  Forall (λ e, ev_Name e ∈ bare <$> replica_settings.*1) envs →
  (p, dflt) ∈ replica_settings →
  setting (foldl set_setting replica_settings envs) p = given_value (bare p) dflt envs.
Proof.
  intros He Hp.
  assert (∀ envs, Forall (λ e, ev_Name e ∈ bare <$> replica_settings.*1) envs →
    same_settings (foldl set_setting replica_settings envs)
    ∧ setting (foldl set_setting replica_settings envs) p = given_value (bare p) dflt envs) as Hall;
    [|by apply Hall].
  intros es. induction es as [|e es IH] using rev_ind; intros Hes.
  - split; [done|]. unfold replica_settings in Hp. rewrite !elem_of_cons, elem_of_nil in Hp.
    destruct_or! Hp; try done; by injection Hp as -> ->.
  - apply Forall_app in Hes as [Hes [Hlast _]%Forall_cons].
    destruct (IH Hes) as [Hs IHv]. unfold given_value. rewrite !foldl_app. simpl.
    destruct (setting_after (foldl set_setting replica_settings es) e p Hs Hlast) as [Hs' Hv].
    { apply list_elem_of_fmap. by exists (p, dflt). }
    split; [done|]. rewrite Hv. case_decide; [done|exact IHv].
Qed.

(** ** The replication controller on the cluster *)

Section cluster.
Context {W : Type} `{Client W} `{!View W} `{!ClientLaws (W := W)} `{Host} `{MapOrder}
  `{ManifestCodec}.
#[local] Set Default Proof Using "All".

(** Installing the controller puts all its objects there and removing it takes them away; in
    both cases nothing else changes. *)
Lemma ReplicationManagerController_spec isDeleting op cr w w' :
  ReplicationManagerController isDeleting op cr w = (Ok (), w') →
  ∃ matched objs, getReplicaController op cr matched = Ok objs
    ∧ manifest_effect isDeleting (obj_key <$> objs) w w'.
Proof.
  unfold ReplicationManagerController. intros E.
  apply M_bind_Ok in E as (matched & w1 & Em & E).
  apply M_bind_Ok in E as (objs & w2 & Eo & E). injection Eo as Eo <-.
  exists matched, objs. split; [done|]. apply apply_or_delete_effect in E.
  eapply manifest_effect_seen; [|exact E]. by eapply matched_seen.
Qed.

(** The config map of the replication controller. Creating it never changes one that is
    there, touches nothing else, and after success it is there or the lookup failed with
    another error than "not found" (which is dropped). Deleting it takes exactly it away. *)
Theorem replication_configmap_spec cr op w :
  (∀ objs w', CreateReplicationConfigmap cr op w = (Ok objs, w') →
     ∃ cm, objs = [OConfigMap cm]
       ∧ (∀ k, is_Some (seen w !! k) ∨ k ≠ obj_key (OConfigMap cm) → seen w' !! k = seen w !! k)
       ∧ (is_Some (seen w' !! obj_key (OConfigMap cm))
          ∨ ∃ e, IsNotFound e = false
              ∧ fst (getT ConfigMap (om_Namespace (cm_Meta cm)) (om_Name (cm_Meta cm)) w) = Fail e))
  ∧ (∀ w', DeleteReplicationConfigmap w = (Ok (), w') →
       removed (seen w') (obj_key (OConfigMap replication_configmap))
       ∧ ∀ k, k ≠ obj_key (OConfigMap replication_configmap) → seen w' !! k = seen w !! k).
Proof.
  split.
  - intros objs w' E. unfold CreateReplicationConfigmap in E.
    apply M_bind_Ok in E as (cm & w1 & Ecm & E). injection Ecm as _ <-.
    apply M_bind_Ok in E as (r & w1 & Er & E). apply M_bind_Ok in E as ([] & w2 & Ec & E).
    injection E as <- <-. exists cm. split; [done|]. unfold attempt in Er.
    destruct (getT ConfigMap _ _ w) as [[found|e|y] wg] eqn:G; [| |done]; injection Er as <- <-;
      apply getT_spec in G as [Hs Hr]; rewrite <- Hs.
    + injection Ec as <-. split; [done|]. left. rewrite Hs. by eexists.
    + destruct (IsNotFound e) eqn:En; cbn [when] in Ec.
      * apply createObject_spec in Ec as [Hf Hok].
        assert (seen wg !! obj_key (OConfigMap cm) = None) as Hnone.
        { rewrite Hs. destruct Hr as [->|Hr]; [by rewrite plain_error in En|by apply Hr]. }
        split; [|by left; apply Hok].
        intros k [Hk|Hk]; apply Hf; [|done]. intros ->. rewrite Hnone in Hk. by destruct Hk.
      * injection Ec as <-. split; [done|]. right. by exists e.
  - intros w' E. unfold DeleteReplicationConfigmap in E.
    apply M_bind_Ok in E as (r & w1 & Er & E). unfold attempt in Er.
    destruct (deleteObject _ w) as [d wd] eqn:D. apply deleteObject_spec in D as [Hf Hd].
    destruct d as [[]|e|y]; [| |done]; injection Er as <- <-.
    + injection E as <-. by split.
    + destruct (IsNotFound e) eqn:En; [|done]. injection E as <-. split; [by apply Hd|done].
Qed.
End cluster.

(** ** The check of a request *)

Section check.
Context {W : Type} `{Client W} `{!View W} `{!ClientLaws (W := W)} `{Host} `{MapOrder}
  `{ManifestCodec} `{Directory} `{SecretCodec}.
#[local] Set Default Proof Using "All".

(** what the check of the request's driver makes sure of *)
Definition driver_checked (dir : string) (cr : CSM) (op : OperatorConfig) (w : World W) : Prop :=
  ∃ c, c ∈ checks (W := W) ∧ ck_dir c = dir ∧ configured cr op dir
    ∧ ∃ names, ck_secrets c cr = Ok names ∧ Forall (found cr w) names.

Lemma driver_check_Ok label c cr op w w' :
  c ∈ checks (W := W) → driver_check label (ck_run c) cr op w = (Ok (), w') →
  seen w' = seen w ∧ driver_checked (ck_dir c) cr op w.
Proof.
  intros Hc E. apply M_bind_Ok in E as ([cr' err] & w1 & E1 & E). destruct err; [done|].
  injection E as <-. pose proof checks_meet as Hm. rewrite Forall_forall in Hm.
  destruct (Hm _ Hc _ _ _ _ _ _ E1) as (Hs & _ & Hok). split; [done|]. exists c.
  destruct (Hok eq_refl). by split_and!.
Qed.

(** The check leaves the request as it is, and accepts it only for a supported driver and a
    version that the module has, and only when the driver's own check, for the three drivers
    that have one here, passed: the secrets that it asks for are not known to be absent. *)
Lemma ReplicationPrecheck_spec op replica cr w cr' err w' :
  ReplicationPrecheck op replica cr w = (Ok (cr', err), w') →
  cr' = cr ∧ (err = None → seen w' = seen w
    ∧ is_Some (ReplicationSupportedDrivers !! d_CSIDriverType (sp_Driver (cr_Spec cr)))
    ∧ (m_ConfigVersion replica = ""
       ∨ checkVersion Replication (m_ConfigVersion replica) (oc_ConfigDirectory op) = Ok ())
    ∧ ∀ t dir, (t, dir) ∈ [(PowerScale, PowerScaleName); (PowerFlex, PowerFlex); (PowerStore, "powerstore")] →
        d_CSIDriverType (sp_Driver (cr_Spec cr)) = t → driver_checked dir cr op w).
Proof.
  intros E. apply reading_check_inv in E as (-> & r & E & ->). split; [done|]. intros ->.
  unfold replication_check in E. destruct (ReplicationSupportedDrivers !! _) as [p|]; [|done].
  apply M_bind_Ok in E as ([] & w1 & Ev & E). injection Ev as Ev <-.
  assert (m_ConfigVersion replica = ""
    ∨ checkVersion Replication (m_ConfigVersion replica) (oc_ConfigDirectory op) = Ok ()) as Hver.
  { destruct (decide (m_ConfigVersion replica = "")) as [|Hne]; [by left|by right]. }
  assert (∀ label i c, checks (W := W) !! i = Some c →
    driver_check label (ck_run c) cr op w = (Ok (), w') →
    seen w' = seen w ∧ driver_checked (ck_dir c) cr op w) as Hrun.
  { intros label i c Hi. apply driver_check_Ok. by eapply list_elem_of_lookup_2. }
  assert (∀ t, t ∈ [PowerScale; PowerFlex; PowerStore] → d_CSIDriverType (sp_Driver (cr_Spec cr)) = t →
    seen w' = seen w ∧ driver_checked (if decide (t = PowerScale) then PowerScaleName
                                       else if decide (t = PowerFlex) then PowerFlex else "powerstore") cr op w) as Hd.
  { intros t Ht Et. rewrite Et in E. rewrite !elem_of_cons, elem_of_nil in Ht.
    destruct_or! Ht; try done; subst t.
    - exact (Hrun _ 0 _ eq_refl E).
    - exact (Hrun _ 5 _ eq_refl E).
    - exact (Hrun _ 1 _ eq_refl E). }
  split_and!; [|by eexists|done|].
  - destruct (decide (d_CSIDriverType (sp_Driver (cr_Spec cr)) ∈ [PowerScale; PowerFlex; PowerStore])) as [Hin|Hin].
    + by destruct (Hd _ Hin eq_refl).
    + rewrite !decide_False in E by (intros Ht; apply Hin; rewrite Ht; set_solver).
      by injection E as <-.
  - intros t dir Hin Et. rewrite !elem_of_cons, elem_of_nil in Hin.
    destruct_or! Hin; try done; injection Hin as -> ->.
    + exact (proj2 (Hd PowerScale ltac:(set_solver) Et)).
    + exact (proj2 (Hd PowerFlex ltac:(set_solver) Et)).
    + exact (proj2 (Hd PowerStore ltac:(set_solver) Et)).
Qed.
End check.

(** ** Witnesses *)

(** the words of a text: arguments, and names of mounts *)
Definition replicator (raw : string) : ContainerApply :=
  mkContainerApply (Some ReplicationSideCarName) (Some "quay.io/dell/replicator:v1") None
    (filter (λ s, HasPrefix s "--" = true) (Split raw " "%char)) []
    ((λ s, mkVolumeMountApply (Some (TrimPrefix s "mount:")) (Some "/config") None "")
       <$> filter (λ s, HasPrefix s "mount:" = true) (Split raw " "%char)) "".

Definition replication_codec : ManifestCodec := codec_with pods_workload replicator.

Definition replication_host : Host := host_of
  {[ "/cfg/moduleconfig/replication/v1.13.0/container.yaml"
       := "--timeout=300s --context-prefix=<ReplicationContextPrefix> --prefix=<ReplicationPrefix> mount:socket-dir mount:<DriverConfigParamsVolumeMount>";
     "/cfg/moduleconfig/replication/v1.13.0/dell-replication-controller-config.yaml"
       := "ConfigMap dell-replication-controller-config" ]}
  ∅ ∅.

Definition replication_module : Module :=
  mkModule Replication true "v1.13.0"
    [set_ct_Envs (Some [mkEnvVar XCSIReplicaPrefix "replication.example.com"])
       (set_ct_Name ReplicationSideCarName zero_ContainerTemplate)]
    false [].

Definition replication_cr : CSM :=
  mkCSM "ContainerStorageModule" (named "dell" "csm")
    (mkSpec "" (mkDriver PowerFlex None "v2.17.0" 2 "" None None None [] [] [] "" "" None None)
       [replication_module] "" false)
    zero_Status.

Section witnesses.
#[local] Existing Instances replication_host replication_codec.

Lemma replication_pods_spec_witness :
  let d := pods_workload "Deployment csm-controller" in
  ∃ d', inject_deployment d replication_cr modules_config zero_VersionSpec = Ok d'
    ∧ length (wl_Containers d') = 4
    ∧ CheckApplyContainersReplica (wl_Containers d') replication_cr = Ok ().
Proof.
  intros d.
  destruct (inject_deployment d replication_cr modules_config zero_VersionSpec) as [d'|e|e] eqn:E;
    [|vm_compute in E; discriminate E..].
  destruct (replication_pods_spec d replication_cr modules_config zero_VersionSpec d' E)
    as (file & c0 & container & p & cs & Ef & Ey & _ & _ & Hp & _ & _ & Hc).
  exists d'. split; [done|]. split; [vm_compute in E; by injection E as <-|].
  vm_compute in Ef. injection Ef as <-. vm_compute in Ey. injection Ey as <-.
  vm_compute in Hp. injection Hp as <-.
  eassert (Et : yaml_Container _ = inr _) by (vm_compute; reflexivity). apply (Hc _ Et); clear Hc Et.
  - split; [reflexivity|decide_goal|decide_goal|repeat constructor; by eexists|decide_goal].
  - split; vm_compute; reflexivity.
  - decide_goal.
  - decide_goal.
  - reflexivity.
  - repeat (apply Forall_cons; split; [split; [eexists; split; [reflexivity|done]|intros Hd]|]);
      [..|by apply Forall_nil]; simpl; [|done..].
    constructor; [|done]. eexists. split; [reflexivity|]. decide_goal.
  - vm_compute; lia.
Defined.

Lemma replica_settings_spec_witness :
  setting (foldl set_setting replica_settings
             [mkEnvVar "RETRY_INTERVAL_MIN" "2s"; mkEnvVar "RETRY_INTERVAL_MIN" ""])
    DefaultRetryMin = "2s".
Proof.
  rewrite (replica_settings_spec _ DefaultRetryMin "1s"); [reflexivity| |]; decide_goal.
Defined.

Lemma replication_configmap_spec_witness :
  let w := world_of [] obeys in
  let w1 := snd (CreateReplicationConfigmap replication_cr modules_config w) in
  is_Some (seen w1 !! ("ConfigMap", ("dell", "dell-replication-controller-config")))
  ∧ seen (snd (DeleteReplicationConfigmap (world_of [OConfigMap replication_configmap] obeys)))
      !! ("ConfigMap", ("dell-replication-controller", "dell-replication-controller-config")) = None.
Proof.
  intros w w1. destruct (CreateReplicationConfigmap replication_cr modules_config w)
    as [[objs|e|e] w1'] eqn:E; [|vm_compute in E; discriminate E..].
  destruct (proj1 (replication_configmap_spec replication_cr modules_config w) objs w1' E)
    as (cm & -> & _ & [Hs|(e & He & Hf)]).
  - split; [|vm_compute; reflexivity]. apply (f_equal fst) in E as E1. vm_compute in E1.
    injection E1 as <-. exact Hs.
  - apply (f_equal fst) in E as E1. vm_compute in E1. injection E1 as <-. vm_compute in Hf.
    injection Hf as <-. vm_compute in He. discriminate He.
Defined.
End witnesses.
