(* ===== verification/ReverseProxy.v ===== *)
(** The reverse proxy of PowerMax (pkg/modules/reverseproxy.go): the check of a request, the
    proxy as a sidecar of the controller with its service, and the proxy as a deployment of
    its own.

    Whether it is a sidecar is one variable of the process ([w_deployAsSidecar]), which the
    check sets. *)

From S2P Require Import Prelude.
From S2P Require Import GoStrings.
From S2P Require Import Types.
From S2P Require Import Versions.
From S2P Require Import Images.
From S2P Require Import Cluster.
From S2P Require Import Resources.
From S2P Require Import Packages.
From S2P Require Import Manifests.
From S2P Require Import Drivers.
From S2P Require Import Pods.
From S2P Require Import ModCommon.
From stdpp Require Import options.

Local Open Scope stdpp_scope.

Definition ReverseProxyDeployment : string := "controller.yaml".
Definition ReverseProxySidecar : string := "container.yaml".
Definition ReverseProxyService : string := "service.yaml".
Definition ReverseProxyImage : string := "<REVERSEPROXY_PROXY_SERVER_IMAGE>".
Definition ReverseProxyTLSSecret : string := "<X_CSI_REVPROXY_TLS_SECRET>".
Definition ReverseProxyConfigMap : string := "<X_CSI_CONFIG_MAP_NAME>".
Definition ReverseProxyPort : string := "<X_CSI_REVPROXY_PORT>".
Definition ReverseProxyCSMNameSpace : string := "<CSM_NAMESPACE>".
Definition CSIPmaxRevProxyServiceName : string := "X_CSI_POWERMAX_PROXY_SERVICE_NAME".
Definition CSIPmaxRevProxyPort : string := "X_CSI_POWERMAX_SIDECAR_PROXY_PORT".
Definition RevProxyDefaultPort : string := "2222".
Definition RevProxyServiceName : string := "csipowermax-reverseproxy".
Definition RevProxyConfigMapVolName : string := "configmap-volume".
Definition RevProxyConfigMapDeafultName : string := "powermax-reverseproxy-config".
Definition RevProxyTLSSecretVolName : string := "tls-secret".
Definition RevProxyConfigMapMountPath : string := "/etc/config/configmap".
Definition ConfigParamsFile : string := "driver-config-params.yaml".
Definition PowerMaxMountCredentialMinVersion : string := "v2.14.0".
Definition CSIPowerMaxSecretVolumeName : string := "powermax-reverseproxy-secret".
Definition PowerMaxConfigParamsVolumeMount : string := "powermax-config-params".
Definition CSIPowerMaxProxyAuthTokenFile : string := "X_CSI_REVPROXY_AUTH_TOKEN_FILE".
Definition CSIPowerMaxProxyAuthTokenSecretName : string := "X_CSI_REVPROXY_AUTH_TOKEN_SECRET".
Definition CSIPowerMaxProxyAuthTokenMountPath : string := "/etc/proxy-auth-token".
Definition CSIPowerMaxProxyAuthTokenVolumeName : string := "proxy-auth-token".
Definition CSIPowerMaxProxyAuthTokenKey : string := "token".

(** ** What the module says *)

(** the last value of a variable of the proxy's components, an empty one included *)
Definition proxy_env (m : Module) (name dflt : string) : string :=
  foldl (λ v component,
      if decide (ct_Name component = ReverseProxyServerComponent)
      then env_value name v (default [] (ct_Envs component)) else v)
    dflt (m_Components m).

Definition getRevProxyPort (m : Module) : string :=
  proxy_env m "X_CSI_REVPROXY_PORT" RevProxyDefaultPort.

Definition getRevProxyEnvVariable (m : Module) (envVar : string) : string := proxy_env m envVar "".

Definition getReverseProxyModule (cr : CSM) : outcome Module :=
  match find_module ReverseProxy (sp_Modules (cr_Spec cr)) with
  | Some m => Ok m
  | None => Fail (Errorf "reverseproxy module not found")
  end.

Definition set_m_Name (v : string) (m : Module) : Module :=
  mkModule v (m_Enabled m) (m_ConfigVersion m) (m_Components m) (m_ForceRemoveModule m)
    (m_InitContainer m).

(** the module, or an empty one of its name *)
Definition proxy_module (cr : CSM) : Module :=
  let m := GetModule cr ReverseProxy in
  if decide (m_Name m = "") then set_m_Name ReverseProxy m else m.

Definition GetProxyAuthTokenSecretName (cr : CSM) : string :=
  match list_find (λ env, ev_Name env = CSIPowerMaxProxyAuthTokenSecretName ∧ ev_Value env ≠ "")
          (common_envs cr) with
  | Some (_, env) => ev_Value env
  | None => ""
  end.

(** The volume of the certificate is only for listed versions before v2.12.0, and for a text
    that is no version. *)
Definition getRevProxyVolumeComp (m : Module) : list VolumeApply :=
  let revProxyConfigMap := proxy_env m "X_CSI_CONFIG_MAP_NAME" RevProxyConfigMapDeafultName in
  let revProxyTLSSecret := proxy_env m "X_CSI_REVPROXY_TLS_SECRET" RevProxyTLSSecretDefaultName in
  let isNewReverProxy := okTrue (MinVersionCheck "v2.12.0" (m_ConfigVersion m)) in
  mkVolumeApply (Some RevProxyConfigMapVolName) None
    (Some (mkConfigMapVolume (Some revProxyConfigMap) (Some true))) None NoSource
  :: if decide (m_ConfigVersion m ≠ "" ∧ isNewReverProxy = false)
     then [mkVolumeApply (Some RevProxyTLSSecretVolName)
             (Some (mkSecretVolume (Some revProxyTLSSecret) None)) None None NoSource]
     else [].

(** ** The sidecar *)

(** the first variable of that name gets the value, else one is added at the end *)
Fixpoint merge_env (envs : list EnvVarApply) (env : EnvVar) : list EnvVarApply :=
  match envs with
  | [] => [env_apply (ev_Name env) (ev_Value env)]
  | e :: envs' =>
      if decide (ea_Name e = Some (ev_Name env))
      then mkEnvVarApply (ea_Name e) (Some (ev_Value env)) (ea_ValueFrom e) :: envs'
      else e :: merge_env envs' env
  end.

Definition proxy_image (cr : CSM) (matched : VersionSpec) (component : ContainerTemplate)
    (container : ContainerApply) : outcome ContainerApply :=
  image ← deref (ca_Image container);
  Ok (set_ca_Image (Some (GetFinalImage cr matched component image)) container).

Definition proxy_container (cr : CSM) (matched : VersionSpec) (m : Module)
    (container : ContainerApply) : outcome ContainerApply :=
  container ← match m_Components m with
              | [] => proxy_image cr matched
                        (set_ct_Name ReverseProxyServerComponent zero_ContainerTemplate) container
              | _ => Ok container
              end;
  foldO (λ container side,
      if decide (ct_Name side = ReverseProxyServerComponent) then
        container ← proxy_image cr matched side container;
        Ok (set_ca_Env (foldl merge_env (ca_Env container) (default [] (ct_Envs side))) container)
      else Ok container)
    container (m_Components m).

(** one container of the pod: the proxy mounts its config map, the driver gets credentials *)
Definition configmap_container (cr : CSM) (c : ContainerApply) : outcome ContainerApply :=
  let given := d_AuthSecret (sp_Driver (cr_Spec cr)) in
  let secretName := if decide (given ≠ "") then given else cr_Name cr +:+ "-creds" in
  name ← deref (ca_Name c);
  if decide (name = "reverseproxy") then
    dynamicallyMountVolume c (mkVolumeMountApply (Some RevProxyConfigMapVolName)
                                (Some RevProxyConfigMapMountPath) None "")
  else if decide (name = "driver") then SetPowermaxConfigContent secretName c
  else Ok c.

Definition setReverseProxyConfigMapMounts (dp : Workload) (m : Module) (cr : CSM)
    : outcome Workload :=
  p ← pod_spec dp;
  cs ← foldO (λ cs c, c ← configmap_container cr c; Ok (cs ++ [c])) [] (pod_Containers p);
  Ok (set_pod (set_pod_Containers cs
                 (set_pod_Volumes (pod_Volumes p ++ getRevProxyVolumeComp m) p)) dp).

(** whether the version of the request can mount credentials *)
Definition mounts_supported `{Host} `{MapOrder} (cr : CSM) (op : OperatorConfig) : outcome bool :=
  version ← GetVersion cr op;
  MinVersionCheck PowerMaxMountCredentialMinVersion version.

Section inject.
Context `{Host} `{MapOrder} `{ManifestCodec}.

Definition getRevproxyApplyCR (cr : CSM) (op : OperatorConfig) : outcome (Module * ContainerApply) :=
  let revProxyModule := proxy_module cr in
  buf ← readConfigFile revProxyModule cr op ReverseProxySidecar;
  container ← res (yaml_Container (ModifyCommonCR buf cr));
  Ok (revProxyModule, container).

Definition inject_deployment (dp : Workload) (cr : CSM) (op : OperatorConfig)
    (matched : VersionSpec) : outcome Workload :=
  '(revProxyModule, container) ← getRevproxyApplyCR cr op;
  container ← proxy_container cr matched revProxyModule container;
  p ← pod_spec dp;
  cs ← add_driver_envs [env_apply CSIPmaxRevProxyPort (getRevProxyPort revProxyModule)]
         (pod_Containers p ++ [container]);
  let dp := set_pod (set_pod_Containers cs p) dp in
  secretSupported ← mounts_supported cr op;
  let useSecret := UseReverseProxySecret cr in
  dp ← (if (secretSupported : bool) && useSecret then DynamicallyMountPowermaxContent dp cr
        else Ok dp);
  if useSecret then Ok dp else setReverseProxyConfigMapMounts dp revProxyModule cr.

(** ** The manifests of service and deployment *)

Definition getReverseProxyService (op : OperatorConfig) (cr : CSM) : outcome string :=
  let revProxy := proxy_module cr in
  buf ← readConfigFile revProxy cr op ReverseProxyService;
  Ok (substitute buf
        [(DefaultReleaseName, cr_Name cr); (ReverseProxyPort, getRevProxyPort revProxy);
         (DefaultReleaseNamespace, cr_Namespace cr); (ReverseProxyCSMNameSpace, cr_Namespace cr)]).

Definition getReverseProxyDeployment (op : OperatorConfig) (cr : CSM) (matched : VersionSpec)
    : outcome string :=
  revProxy ← getReverseProxyModule cr;
  revProxyConfigVersion ←
    (if decide (m_ConfigVersion revProxy = "") then
       version ← GetVersion cr op;
       GetModuleDefaultVersion version (d_CSIDriverType (sp_Driver (cr_Spec cr))) ReverseProxy
         (oc_ConfigDirectory op)
     else Ok (m_ConfigVersion revProxy));
  buf ← res (ReadFile (Clean (module_path op ReverseProxy revProxyConfigVersion
                                ReverseProxyDeployment)));
  let image := foldl (λ image component,
                   if decide (ct_Name component = ReverseProxyServerComponent)
                   then GetFinalImage cr matched component image else image)
                 (im_CSIRevProxy (kc_Images (oc_K8sVersion op))) (m_Components revProxy) in
  Ok (substitute buf
        [(ReverseProxyImage, image); (DefaultReleaseNamespace, cr_Namespace cr);
         (ReverseProxyPort, getRevProxyPort revProxy);
         (ReverseProxyTLSSecret,
            proxy_env revProxy "X_CSI_REVPROXY_TLS_SECRET" RevProxyTLSSecretDefaultName);
         (ReverseProxyConfigMap,
            proxy_env revProxy "X_CSI_CONFIG_MAP_NAME" RevProxyConfigMapDeafultName);
         (ReverseProxyCSMNameSpace, cr_Namespace cr)]).
End inject.

(** ** The deployment of the proxy *)

Definition add_dp_volumes (vs : list VolumeApply) (d : Deployment) : Deployment :=
  set_dp_Volumes (dp_Volumes d ++ vs) d.

Definition extend_container (mounts : list VolumeMountApply) (envs : list EnvVarApply)
    (c : Container) : Container :=
  set_co_VolumeMounts (co_VolumeMounts c ++ mounts) (set_co_Env (co_Env c ++ envs) c).

(** the first container of the proxy, as a loop with [break] finds it *)
Fixpoint on_proxy (f : Container → Container) (cs : list Container) : list Container :=
  match cs with
  | [] => []
  | c :: cs' => if decide (co_Name c = RevProxyServiceName) then f c :: cs' else c :: on_proxy f cs'
  end.

Definition on_proxy_container (f : Container → Container) (d : Deployment) : Deployment :=
  set_dp_Containers (on_proxy f (dp_Containers d)) d.

Definition mount_at (name path : string) : VolumeMountApply :=
  mkVolumeMountApply (Some name) (Some path) None "".

Definition deploymentSetReverseProxySecretMounts (d : Deployment) (secretName : string)
    : Deployment :=
  let d := add_dp_volumes
    [mkVolumeApply (Some CSIPowerMaxSecretVolumeName)
       (Some (mkSecretVolume (Some secretName) (Some false))) None None NoSource;
     mkVolumeApply (Some PowerMaxConfigParamsVolumeMount) None
       (Some (mkConfigMapVolume (Some PowerMaxConfigParamsVolumeMount) (Some false))) None NoSource] d in
  on_proxy_container
    (extend_container ((λ '(name, value), mount_at name value) <$> MountCredentialsVolumeMounts)
       ((λ '(name, value), env_apply name value) <$> MountCredentialsEnvs)) d.

Definition deploymentSetProxyAuthTokenMounts (d : Deployment) (secretName : string)
    : Deployment :=
  let d := add_dp_volumes
    [mkVolumeApply (Some CSIPowerMaxProxyAuthTokenVolumeName)
       (Some (mkSecretVolume (Some secretName) (Some false))) None None NoSource] d in
  on_proxy_container
    (extend_container
       [mkVolumeMountApply (Some CSIPowerMaxProxyAuthTokenVolumeName)
          (Some CSIPowerMaxProxyAuthTokenMountPath) (Some true) ""]
       [env_apply CSIPowerMaxProxyAuthTokenFile
          (CSIPowerMaxProxyAuthTokenMountPath +:+ "/" +:+ CSIPowerMaxProxyAuthTokenKey)]) d.

Definition deploymentSetReverseProxyConfigMapMounts (d : Deployment) (cmName : string)
    : Deployment :=
  let volume := mkVolumeApply (Some RevProxyConfigMapVolName) None
                  (Some (mkConfigMapVolume (Some cmName) (Some true))) None NoSource in
  let d := if existsb (λ v, bool_decide (va_Name v = Some RevProxyConfigMapVolName)) (dp_Volumes d)
           then d else add_dp_volumes [volume] d in
  on_proxy_container
    (λ c, if existsb (λ m, bool_decide (vm_Name m = Some RevProxyConfigMapVolName))
               (co_VolumeMounts c)
          then c
          else extend_container [mount_at RevProxyConfigMapVolName RevProxyConfigMapMountPath] [] c)
    d.

Section module.
Context {W : Type} `{Client W} `{Host} `{MapOrder} `{ManifestCodec} `{Directory}.

(** the mounts that the deployment of the proxy gets before it is applied or deleted *)
Definition prepare_proxy (op : OperatorConfig) (cr : CSM) (o : Object) : outcome Object :=
  match o with
  | ODeployment d =>
      if decide (om_Name (dp_Meta d) = RevProxyServiceName) then
        secretSupported ← mounts_supported cr op;
        if (secretSupported : bool) then
          d ← (if UseReverseProxySecret cr
               then Ok (deploymentSetReverseProxySecretMounts d
                          (d_AuthSecret (sp_Driver (cr_Spec cr))))
               else
                 '(revProxyModule, _) ← getRevproxyApplyCR cr op;
                 Ok (deploymentSetReverseProxyConfigMapMounts d
                       (getRevProxyEnvVariable revProxyModule "X_CSI_CONFIG_MAP_NAME")));
          let authTokenSecretName := GetProxyAuthTokenSecretName cr in
          Ok (ODeployment (if decide (authTokenSecretName ≠ "")
                           then deploymentSetProxyAuthTokenMounts d authTokenSecretName else d))
        else Ok o
      else Ok o
  | _ => Ok o
  end.

Definition ReverseProxyServer (isDeleting : bool) (op : OperatorConfig) (cr : CSM)
    : M (World W) () :=
  matched ← (if decide (sp_Version (cr_Spec cr) = "") then mret zero_VersionSpec
             else ResolveVersionFromConfigMap cr);
  YamlString ← lift (getReverseProxyDeployment op cr matched);
  deployObjects ← lift (GetModuleComponentObj YamlString);
  forM (λ ctrlObj,
      ctrlObj ← lift (prepare_proxy op cr ctrlObj);
      if isDeleting then DeleteObject ctrlObj else ApplyObject ctrlObj) deployObjects.

Definition ReverseProxyStartService (isDeleting : bool) (op : OperatorConfig) (cr : CSM)
    : M (World W) () :=
  YamlString ← lift (getReverseProxyService op cr);
  deployObjects ← lift (GetModuleComponentObj YamlString);
  apply_or_delete isDeleting deployObjects.

Definition ReverseProxyInjectDeployment (dp : Workload) (cr : CSM) (op : OperatorConfig)
    (matched : VersionSpec) : M (World W) Workload := lift (inject_deployment dp cr op matched).

Definition AddReverseProxyServiceName (dp : Workload) : outcome Workload :=
  p ← pod_spec dp;
  cs ← add_driver_envs [env_apply CSIPmaxRevProxyServiceName RevProxyServiceName] (pod_Containers p);
  Ok (set_pod (set_pod_Containers cs p) dp).

Definition UpdatePowerMaxConfigMap (cm : ConfigMap) (cr : CSM) : outcome ConfigMap :=
  if UseReverseProxySecret cr then
    let port := match getReverseProxyModule cr with
                | Ok m => getRevProxyPort m
                | _ => RevProxyDefaultPort
                end in
    match cm_Data cm with
    | None => Panic "assignment to entry in nil map"
    | Some data =>
        Ok (mkConfigMap (cm_Meta cm)
              (Some (<[ConfigParamsFile := lookup_zero data ConfigParamsFile +:+ nl
                         ("CSI_POWERMAX_REVERSE_PROXY_PORT: " +:+ port)]> data)))
    end
  else Ok cm.

(** ** The check *)

(** what the first component says: the secret, the config map, and whether the proxy is a
    sidecar, which a value that is no boolean also means *)
Record ProxySettings := mkProxySettings {
  px_secret : string;
  px_configMap : string;
  px_sidecar : option bool
}.

Definition proxy_setting (st : ProxySettings) (env : EnvVar) : ProxySettings :=
  if decide (ev_Name env = "X_CSI_REVPROXY_TLS_SECRET")
  then mkProxySettings (ev_Value env) (px_configMap st) (px_sidecar st)
  else if decide (ev_Name env = "X_CSI_CONFIG_MAP_NAME")
  then mkProxySettings (px_secret st) (ev_Value env) (px_sidecar st)
  else if decide (ev_Name env = "DeployAsSidecar")
  then mkProxySettings (px_secret st) (px_configMap st)
         (Some match ParseBool (ev_Value env) with Ok das => das | _ => true end)
  else st.

(** An empty list that is not nil, for which the index panics, is not told from nil here. *)
Definition proxy_settings (revproxy : Module) : ProxySettings :=
  let dflt := mkProxySettings "csirevproxy-tls-secret" "powermax-reverseproxy-config" None in
  match m_Components revproxy with
  | [] => dflt
  | component :: _ => foldl proxy_setting dflt (default [] (ct_Envs component))
  end.

Definition setDeployAsSidecar (das : bool) : M (World W) () := λ w,
  (Ok (), mkWorld (w_api w) (w_calls w) (w_watches w) (w_updateCount w) das (w_auth w)).

(** [Get] of an object whose absence is an error; other errors of the lookup are dropped *)
Definition require (T : Type) `{Kinded T} (cr : CSM) (what name : string) : M (World W) () :=
  r ← attempt (getT T (cr_Namespace cr) name);
  match r with
  | inl err => if IsNotFound err then failM (Errorf ("failed to find " +:+ what +:+ " " +:+ name))
               else mret ()
  | inr _ => mret ()
  end.

Definition reverseproxy_check (op : OperatorConfig) (revproxy : Module) (cr : CSM)
    : M (World W) () :=
  let driverType := d_CSIDriverType (sp_Driver (cr_Spec cr)) in
  if decide (driverType ≠ PowerMax)
  then failM (Errorf ("CSM Reverseproxy does not support " +:+ driverType +:+ " driver"))
  else
    _ ← lift (if decide (m_ConfigVersion revproxy = "") then Ok ()
              else checkVersion ReverseProxy (m_ConfigVersion revproxy) (oc_ConfigDirectory op));
    let st := proxy_settings revproxy in
    _ ← match px_sidecar st with
        | Some das => setDeployAsSidecar das
        | None => mret ()
        end;
    _ ← require Secret cr "secret" (px_secret st);
    when (negb (UseReverseProxySecret cr)) (require ConfigMap cr "configmap" (px_configMap st)).

Definition ReverseProxyPrecheck (op : OperatorConfig) (revproxy : Module) (cr : CSM)
    : M (World W) (CSM * option error) := reading_check cr (reverseproxy_check op revproxy cr).

Definition ResetDeployAsSidecar : M (World W) () := setDeployAsSidecar true.
End module.

(** ** Properties *)

Section check_claims.
Context {W : Type} `{Client W} `{!View W} `{!ClientLaws (W := W)} `{Host} `{MapOrder}
  `{ManifestCodec} `{Directory}.
#[local] Set Default Proof Using "All".

(** An object was looked up, and the server did not say that it is absent. *)
Definition not_absent (T : Type) `{Kinded T} (cr : CSM) (w : World W) (name : string) : Prop :=
  ∃ w1 r w2, seen w1 = seen w ∧ getT T (cr_Namespace cr) name w1 = (r, w2)
    ∧ ∀ e, r = Fail e → IsNotFound e = false.

Lemma getT_flag (T : Type) `{Kinded T} ns name w r w' :
  getT T ns name w = (r, w') → w_deployAsSidecar w' = w_deployAsSidecar w.
Proof.
  unfold getT, getObject, call, mbind, M_bind.
  destruct (api_Get _ _) as [[e|o] api]; [by intros [= <- <-]|].
  cbn [res]. destruct (proj_obj o); by intros [= <- <-].
Qed.

Lemma require_run (T : Type) `{Kinded T} cr what name w r w' :
  require T cr what name w = (r, w') →
  seen w' = seen w ∧ w_deployAsSidecar w' = w_deployAsSidecar w
  ∧ (r = Ok () → not_absent T cr w name).
Proof.
  unfold require, attempt, mbind, M_bind.
  destruct (getT T _ name w) as [g w1] eqn:G. pose proof (getT_flag _ _ _ _ _ _ G).
  pose proof (getT_spec _ _ _ _ _ _ G) as [Hs Hg].
  destruct g as [t|e|y]; [|destruct (IsNotFound e) eqn:En|done]; intros [= <- <-];
    split_and!; try done; intros _; exists w; eexists _, _; split_and!; try done.
  by intros e' [= <-].
Qed.

Lemma not_absent_seen (T : Type) `{Kinded T} cr w1 w2 name :
  seen w1 = seen w2 → not_absent T cr w1 name → not_absent T cr w2 name.
Proof. intros Es (w3 & r & w4 & Hs & ?). exists w3, r, w4. by rewrite Hs, Es. Qed.

Lemma proxy_objects_run cr st w r w' :
  (_ ← require Secret cr "secret" (px_secret st);
   when (negb (UseReverseProxySecret cr)) (require ConfigMap cr "configmap" (px_configMap st))) w
  = (r, w') →
  seen w' = seen w ∧ w_deployAsSidecar w' = w_deployAsSidecar w
  ∧ (r = Ok () → not_absent Secret cr w (px_secret st)
       ∧ (UseReverseProxySecret cr = false → not_absent ConfigMap cr w (px_configMap st))).
Proof.
  unfold mbind, M_bind. destruct (require Secret cr _ _ w) as [r1 w1] eqn:E1.
  apply require_run in E1 as (Hs1 & Hf1 & Hok1).
  destruct r1 as [[]|e|y]; [|by intros [= <- <-]..].
  destruct (UseReverseProxySecret cr); cbn [negb when]; intros E.
  - injection E as <- <-. split_and!; try done. intros _. by split; [apply Hok1|].
  - apply require_run in E as (Hs2 & Hf2 & Hok2). split_and!; [congruence..|].
    intros Hr. split; [by apply Hok1|]. intros _. by apply (not_absent_seen _ _ w1), Hok2.
Qed.

Lemma set_sidecar_run (o : option bool) (w : World W) r w' :
  (match o with Some das => setDeployAsSidecar das | None => mret () end) w = (r, w') →
  r = Ok () ∧ seen w' = seen w ∧ w_deployAsSidecar w' = default (w_deployAsSidecar w) o.
Proof. by destruct o; intros [= <- <-]. Qed.

(** C23: the check of the reverse proxy leaves the request and the cluster as they are and
    accepts a request only for PowerMax, with a version that the module has, and when the
    certificate's secret and, unless credentials come from a secret, the config map are not
    known to be absent. Whether the proxy is a sidecar is what the first component says, and a
    value that is no boolean says yes; a request that says nothing keeps what an earlier one,
    of any resource, has set. *)
Theorem ReverseProxyPrecheck_spec op revproxy cr w cr' err w' :
  ReverseProxyPrecheck op revproxy cr w = (Ok (cr', err), w') →
  cr' = cr ∧ seen w' = seen w
  ∧ (err = None →
     d_CSIDriverType (sp_Driver (cr_Spec cr)) = PowerMax
     ∧ (m_ConfigVersion revproxy = ""
        ∨ checkVersion ReverseProxy (m_ConfigVersion revproxy) (oc_ConfigDirectory op) = Ok ())
     ∧ not_absent Secret cr w (px_secret (proxy_settings revproxy))
     ∧ (UseReverseProxySecret cr = false →
        not_absent ConfigMap cr w (px_configMap (proxy_settings revproxy)))
     ∧ w_deployAsSidecar w'
       = default (w_deployAsSidecar w) (px_sidecar (proxy_settings revproxy))).
Proof.
  intros E. apply reading_check_inv in E as (-> & r & E & Hr). split; [done|].
  unfold reverseproxy_check in E. destruct (decide (d_CSIDriverType (sp_Driver (cr_Spec cr)) ≠ PowerMax)) as [Ht|Ht].
  { injection E as <- <-. split; [done|]. by intros ->. }
  unfold mbind at 1, M_bind at 1, lift in E.
  destruct (if decide (m_ConfigVersion revproxy = "") then Ok ()
            else checkVersion ReverseProxy (m_ConfigVersion revproxy) (oc_ConfigDirectory op))
    as [[]|e|y] eqn:Ev;
    [|injection E as <- <-; split; [done|by intros ->]..].
  unfold mbind at 1, M_bind at 1 in E.
  destruct (match px_sidecar (proxy_settings revproxy) with
            | Some das => setDeployAsSidecar das
            | None => mret ()
            end w) as [r1 w1] eqn:E1.
  apply set_sidecar_run in E1 as (-> & Hs1 & Hf1).
  apply proxy_objects_run in E as (Hs & Hf & Hok). split; [congruence|]. intros ->.
  destruct (Hok Hr) as [Hsec Hcm]. split_and!.
  - by destruct (decide (d_CSIDriverType (sp_Driver (cr_Spec cr)) = PowerMax)).
  - destruct (decide (m_ConfigVersion revproxy = "")); [by left|by right].
  - by apply (not_absent_seen _ _ w1).
  - intros Hu. by apply (not_absent_seen _ _ w1), Hcm.
  - congruence.
Qed.
End check_claims.

(** ** The sidecar: what the pod becomes *)

Definition has_mount (name : string) (c : ContainerApply) : Prop :=
  Some name ∈ vm_Name <$> ca_VolumeMounts c.
Definition has_variable (name : string) (c : ContainerApply) : Prop :=
  Some name ∈ ea_Name <$> ca_Env c.

Lemma contains_name_true {A} (get : A → option string) name xs :
  contains_name get name xs = Ok true → Some name ∈ get <$> xs.
Proof.
  induction xs as [|x xs IH]; [done|]. cbn [contains_name fmap list_fmap]. intros E.
  apply outcome_bind_Ok in E as (n & En & E). destruct (get x) as [n'|] eqn:Hx; [|done].
  injection En as ->. case_decide; [subst; by left|right; by apply IH].
Qed.

Lemma dynamicallyMountVolume_has c m c' name :
  vm_Name m = Some name → dynamicallyMountVolume c m = Ok c' → has_mount name c'.
Proof.
  intros Hm. unfold dynamicallyMountVolume. rewrite Hm. cbn [deref mbind outcome_bind].
  intros E. apply outcome_bind_Ok in E as ([] & E1 & E); injection E as <-.
  - by apply contains_name_true.
  - unfold has_mount. simpl. rewrite fmap_app. apply elem_of_app. right.
    apply list_elem_of_singleton. by rewrite Hm.
Qed.

Lemma dynamicallyAdd_has c e c' name :
  ea_Name e = Some name → dynamicallyAddEnvironmentVariable c e = Ok c' → has_variable name c'.
Proof.
  intros Hm. unfold dynamicallyAddEnvironmentVariable. rewrite Hm. cbn [deref mbind outcome_bind].
  intros E. apply outcome_bind_Ok in E as ([] & E1 & E); injection E as <-.
  - by apply contains_name_true.
  - unfold has_variable. simpl. rewrite fmap_app. apply elem_of_app. right.
    apply list_elem_of_singleton. by rewrite Hm.
Qed.

Lemma extends_has_variable name c c' : extends c c' → has_variable name c → has_variable name c'.
Proof.
  intros [_ _ [l Hl]] Hv. unfold has_variable. rewrite Hl, fmap_app. apply elem_of_app. by left.
Qed.

Lemma extends_name c c' : extends c c' → ca_Name c' = ca_Name c.
Proof. intros [-> _ _]. done. Qed.

Lemma foldO_extends {A} (f : ContainerApply → A → outcome ContainerApply) c xs c' :
  (∀ c x c', f c x = Ok c' → extends c c') → foldO f c xs = Ok c' → extends c c'.
Proof.
  intros Hf. revert c. induction xs as [|x xs IH]; intros c E; [by injection E as <-|].
  apply outcome_bind_Ok in E as (c1 & E1 & E). etrans; [by eapply Hf|by apply IH].
Qed.

Lemma extends_all cs : Forall2 extends cs cs.
Proof. by induction cs; constructor. Qed.

Lemma on_named_extends names once f cs cs' :
  (∀ c c', f c = Ok c' → extends c c') → on_named names once f cs = Ok cs' →
  Forall2 extends cs cs'.
Proof.
  intros Hf. revert cs'. induction cs as [|c cs IH]; intros cs' E; [by injection E as <-|].
  cbn [on_named] in E. apply outcome_bind_Ok in E as (n & _ & E). case_decide.
  - apply outcome_bind_Ok in E as (c' & Ec & E). destruct once.
    + injection E as <-. constructor; [by apply Hf|apply extends_all].
    + apply outcome_bind_Ok in E as (cs1 & E1 & E). injection E as <-.
      constructor; [by apply Hf|by apply IH].
  - apply outcome_bind_Ok in E as (cs1 & E1 & E). injection E as <-. constructor; [done|by apply IH].
Qed.

Lemma mount_content_extends c c' : setPowermaxMountCredentialContent c = Ok c' → extends c c'.
Proof.
  unfold setPowermaxMountCredentialContent. intros E. apply outcome_bind_Ok in E as (c1 & E1 & E).
  etrans; (eapply foldO_extends; [|eassumption]); intros ? [name value] ? Ef.
  - by eapply dynamicallyMountVolume_extends.
  - by eapply dynamicallyAddEnvironmentVariable_extends.
Qed.

Lemma config_content_extends s c c' :
  SetPowermaxConfigContent s c = Ok c' → extends c c' ∧ has_variable "X_CSI_POWERMAX_USER" c'
    ∧ has_variable "X_CSI_POWERMAX_PASSWORD" c'.
Proof.
  unfold SetPowermaxConfigContent. intros E. apply outcome_bind_Ok in E as (c1 & E1 & E2).
  pose proof (dynamicallyAddEnvironmentVariable_extends _ _ _ E2) as H12.
  split_and!.
  - etrans; [by eapply dynamicallyAddEnvironmentVariable_extends|done].
  - apply (extends_has_variable _ c1); [done|].
    by refine (dynamicallyAdd_has _ _ _ _ _ E1).
  - by refine (dynamicallyAdd_has _ _ _ _ _ E2).
Qed.

(** what a container has after the mounts of the config map *)
Definition configmap_mounted (c : ContainerApply) : Prop :=
  (ca_Name c = Some "reverseproxy" → has_mount RevProxyConfigMapVolName c)
  ∧ (ca_Name c = Some "driver" →
     has_variable "X_CSI_POWERMAX_USER" c ∧ has_variable "X_CSI_POWERMAX_PASSWORD" c).

Lemma configmap_container_Ok cr c c' :
  configmap_container cr c = Ok c' → extends c c' ∧ configmap_mounted c'.
Proof.
  unfold configmap_container. intros E. apply outcome_bind_Ok in E as (n & En & E).
  destruct (ca_Name c) as [n'|] eqn:Hn; [|done]. injection En as ->.
  destruct (decide (n = "reverseproxy")) as [->|H1]; [|destruct (decide (n = "driver")) as [->|H2]].
  - pose proof (dynamicallyMountVolume_extends _ _ _ E) as He. split; [done|].
    split; [intros _; by refine (dynamicallyMountVolume_has _ _ _ _ _ E)|].
    rewrite (extends_name _ _ He), Hn. done.
  - apply config_content_extends in E as (He & ? & ?). split; [done|]. split; [|done].
    rewrite (extends_name _ _ He), Hn. done.
  - injection E as <-. split; [done|]. unfold configmap_mounted. rewrite Hn. naive_solver.
Qed.

Lemma foldO_map_Forall2 {A B} (f : A → outcome B) (R : A → B → Prop) xs ys0 ys :
  (∀ x y, f x = Ok y → R x y) →
  foldO (λ ys x, y ← f x; Ok (ys ++ [y])) ys0 xs = Ok ys →
  ∃ zs, ys = ys0 ++ zs ∧ Forall2 R xs zs.
Proof.
  intros Hf. revert ys0. induction xs as [|x xs IH]; intros ys0 E.
  { injection E as <-. exists []. by rewrite app_nil_r. }
  cbn [foldO] in E. apply outcome_bind_Ok in E as (ys1 & E1 & E).
  apply outcome_bind_Ok in E1 as (y & Ey & E1). injection E1 as <-.
  apply IH in E as (zs & -> & Hz). exists (y :: zs). rewrite <- app_assoc. split; [done|].
  constructor; [by apply Hf|done].
Qed.

Section inject_claims.
Context `{Host} `{MapOrder} `{ManifestCodec}.

Lemma mount_content_pod d cr d' p :
  UseReverseProxySecret cr = true → wl_Pod d = Some p →
  DynamicallyMountPowermaxContent d cr = Ok d' →
  ∃ cs, d' = set_pod (set_pod_Containers cs (set_pod_Volumes (pod_Volumes p ++
          [mkVolumeApply (Some CSIPowerMaxSecretVolumeName)
             (Some (mkSecretVolume (Some (if decide (d_AuthSecret (sp_Driver (cr_Spec cr)) = "")
                                          then cr_Name cr +:+ "-creds"
                                          else d_AuthSecret (sp_Driver (cr_Spec cr)))) (Some false)))
             None None NoSource]) p)) d
    ∧ Forall2 extends (pod_Containers p) cs.
Proof.
  intros Hu Hp. unfold wl_Pod, wl_Template in Hp. destruct (wl_Spec d) as [s|] eqn:Hs; [|done].
  cbn in Hp. destruct (ws_Template s) as [t|] eqn:Ht; [|done]. cbn in Hp.
  unfold DynamicallyMountPowermaxContent. rewrite Hs. cbn [deref mbind outcome_bind]. rewrite Ht, Hp.
  cbn [deref mbind outcome_bind]. unfold mount_credentials. rewrite Hu. intros E.
  apply outcome_bind_Ok in E as (p' & Ep & E). injection E as <-.
  apply outcome_bind_Ok in Ep as (cs & Ec & Ep). injection Ep as <-. exists cs. split; [done|].
  eapply on_named_extends; [|exact Ec]. intros c c'. apply mount_content_extends.
Qed.

(** C22: what injecting the proxy makes of the controller: the sidecar of the module's file
    comes last, the driver gets the port, and of the containers nothing but variables and
    mounts is added to. With credentials from a secret its volume is added, from the version on
    that supports it; else the volumes of the config map are, every proxy mounts it, and every
    driver has the credentials as variables. *)
Theorem reverseproxy_inject_spec d cr op matched d' :
  inject_deployment d cr op matched = Ok d' →
  ∃ container0 container supported p cs cs' vs,
    getRevproxyApplyCR cr op = Ok (proxy_module cr, container0)
    ∧ proxy_container cr matched (proxy_module cr) container0 = Ok container
    ∧ mounts_supported cr op = Ok supported
    ∧ wl_Pod d = Some p ∧ wl_Pod d' = Some (set_pod_Containers cs' (set_pod_Volumes (pod_Volumes p ++ vs) p))
    ∧ wl_Meta d' = wl_Meta d
    ∧ driver_gets [env_apply CSIPmaxRevProxyPort (getRevProxyPort (proxy_module cr))]
        (pod_Containers p ++ [container]) cs
    ∧ Forall2 extends cs cs'
    ∧ if UseReverseProxySecret cr
      then va_Name <$> vs = if (supported : bool) then [Some CSIPowerMaxSecretVolumeName] else []
      else vs = getRevProxyVolumeComp (proxy_module cr) ∧ Forall configmap_mounted cs'.
Proof.
  unfold inject_deployment. intros E. apply outcome_bind_Ok in E as ([m c0] & Em & E).
  assert (m = proxy_module cr) as ->.
  { unfold getRevproxyApplyCR in Em. apply outcome_bind_Ok in Em as (? & _ & Em).
    apply outcome_bind_Ok in Em as (? & _ & Em). by injection Em as -> _. }
  apply outcome_bind_Ok in E as (c & Ec & E). apply outcome_bind_Ok in E as (p & Ep & E).
  unfold pod_spec in Ep. destruct (wl_Pod d) as [p0|] eqn:Hp; [|done]. injection Ep as ->.
  apply outcome_bind_Ok in E as (cs & Ecs & E). apply outcome_bind_Ok in E as (supported & Es & E).
  apply outcome_bind_Ok in E as (d1 & E1 & E). exists c0, c, supported, p, cs.
  destruct (set_pod_fields (set_pod_Containers cs p) d) as (Hmeta & Hpod & _).
  specialize (Hpod ltac:(rewrite Hp; by eexists)).
  destruct (UseReverseProxySecret cr) eqn:Hu.
  - injection E as ->. rewrite andb_true_r in E1. destruct supported.
    + apply (mount_content_pod _ _ _ _ Hu Hpod) in E1 as (cs' & -> & Hext).
      eexists cs', _. split_and!; try done; try by apply add_driver_envs_Ok.
      * etrans; [apply set_pod_fields; by rewrite Hpod|]. reflexivity.
      * reflexivity.
    + injection E1 as <-. exists cs, []. split_and!; try done; try by apply add_driver_envs_Ok.
      rewrite Hpod, app_nil_r. by destruct p.
  - rewrite andb_false_r in E1. injection E1 as <-. unfold setReverseProxyConfigMapMounts in E.
    unfold pod_spec in E. rewrite Hpod in E. cbn [deref mbind outcome_bind] in E.
    apply outcome_bind_Ok in E as (cs' & Ec' & E). injection E as <-.
    apply (foldO_map_Forall2 _ (λ c c', extends c c' ∧ configmap_mounted c')) in Ec'
      as (zs & -> & Hz); [|by apply configmap_container_Ok].
    exists zs. eexists. split_and!; try done; try by apply add_driver_envs_Ok.
    + apply (proj1 (proj2 (set_pod_fields _ _))). by rewrite Hpod.
    + eapply Forall2_impl; [exact Hz|]. by intros ? ? [? _].
    + eapply Forall2_Forall_r; [exact Hz|]. apply Forall_forall. by intros ? _ ? [_ ?].
Qed.

(** The service, the sidecar's driver and the config map name one port. *)
Lemma proxy_port_agrees op cr cm cm' y :
  HasModule cr ReverseProxy = true → m_Name (GetModule cr ReverseProxy) ≠ "" →
  UseReverseProxySecret cr = true →
  getReverseProxyService op cr = Ok y → UpdatePowerMaxConfigMap cm cr = Ok cm' →
  ∃ buf port, port = getRevProxyPort (proxy_module cr)
    ∧ y = substitute buf [(DefaultReleaseName, cr_Name cr); (ReverseProxyPort, port);
            (DefaultReleaseNamespace, cr_Namespace cr); (ReverseProxyCSMNameSpace, cr_Namespace cr)]
    ∧ map_get (cm_Data cm') ConfigParamsFile
      = map_get (cm_Data cm) ConfigParamsFile +:+ nl ("CSI_POWERMAX_REVERSE_PROXY_PORT: " +:+ port).
Proof.
  intros Hm Hn Hu Ey Ec. unfold getReverseProxyService in Ey.
  apply outcome_bind_Ok in Ey as (buf & _ & Ey). injection Ey as <-. exists buf. eexists.
  split_and!; [done..|]. unfold UpdatePowerMaxConfigMap in Ec. rewrite Hu in Ec.
  destruct (cm_Data cm) as [data|] eqn:Hd; [|done]. injection Ec as <-. simpl.
  unfold map_get, lookup_zero. simpl. rewrite lookup_insert_eq. simpl. do 3 f_equal.
  unfold proxy_module. rewrite decide_False by done. unfold getReverseProxyModule, GetModule, HasModule in *.
  by destruct (find_module ReverseProxy _).
Qed.
End inject_claims.

(** ** The deployment on the cluster *)

Section server.
Context {W : Type} `{Client W} `{!View W} `{!ClientLaws (W := W)} `{Host} `{MapOrder}
  `{ManifestCodec}.
#[local] Set Default Proof Using "All".

Lemma prepare_proxy_key op cr o o' : prepare_proxy op cr o = Ok o' → obj_key o' = obj_key o.
Proof using.
  unfold prepare_proxy. destruct o as [d| | | | | |]; try (by intros [= <-]).
  case_decide; [|by intros [= <-]]. intros E. apply outcome_bind_Ok in E as (s & _ & E).
  destruct s; [|by injection E as <-]. apply outcome_bind_Ok in E as (d' & Ed & E).
  injection E as <-. assert (dp_Meta d' = dp_Meta d) as Hd.
  { destruct (UseReverseProxySecret cr); [by injection Ed as <-|].
    apply outcome_bind_Ok in Ed as ([m c] & _ & Ed). injection Ed as <-.
    unfold deploymentSetReverseProxyConfigMapMounts. by destruct (existsb _ _). }
  unfold obj_key. case_decide; simpl; by rewrite Hd.
Qed.

(** The proxy as a deployment of its own: installing it puts every object of the module's
    manifest there, with the mounts of credentials and config map, removing it takes them all
    away, and nothing else changes. *)
Theorem ReverseProxyServer_spec isDeleting op cr w w' :
  ReverseProxyServer isDeleting op cr w = (Ok (), w') →
  ∃ matched y objs objs', (sp_Version (cr_Spec cr) = "" → matched = zero_VersionSpec)
    ∧ getReverseProxyDeployment op cr matched = Ok y
    ∧ GetModuleComponentObj y = Ok objs
    ∧ Forall2 (λ o o', prepare_proxy op cr o = Ok o' ∧ obj_key o' = obj_key o) objs objs'
    ∧ (∃ w1, seen w1 = seen w ∧ apply_or_delete isDeleting objs' w1 = (Ok (), w'))
    ∧ manifest_effect isDeleting (obj_key <$> objs) w w'.
Proof.
  unfold ReverseProxyServer. intros E.
  apply M_bind_Ok in E as (matched & w1 & Em & E).
  apply M_bind_Ok in E as (y & w2 & Ey & E). injection Ey as Ey <-.
  apply M_bind_Ok in E as (objs & w2 & Eo & E). injection Eo as Eo <-.
  apply prepared_run in E as (objs' & Hf & E).
  assert (Forall2 (λ o o', prepare_proxy op cr o = Ok o' ∧ obj_key o' = obj_key o) objs objs') as Hf'.
  { eapply Forall2_impl; [exact Hf|]. intros o o' Ho. split; [done|]. exact (prepare_proxy_key _ _ _ _ Ho). }
  assert (sp_Version (cr_Spec cr) = "" → matched = zero_VersionSpec) as Hz.
  { intros Hv. rewrite decide_True in Em by done. by injection Em as <- _. }
  apply matched_seen in Em. exists matched, y, objs, objs'. split_and!; eauto.
  apply apply_or_delete_effect in E.
  assert (obj_key <$> objs' = obj_key <$> objs) as Hk.
  { apply list_eq_Forall2, Forall2_fmap, Forall2_flip. eapply Forall2_impl; [exact Hf'|].
    by intros ? ? [_ ?]. }
  rewrite Hk in E. by eapply manifest_effect_seen.
Qed.
End server.

(** ** Witnesses *)

Definition proxy_module_of (sidecar : string) : Module :=
  mkModule ReverseProxy true "v2.14.0"
    [set_ct_Envs (Some [mkEnvVar "X_CSI_REVPROXY_PORT" "2223"; mkEnvVar "DeployAsSidecar" sidecar])
       (set_ct_Name ReverseProxyServerComponent zero_ContainerTemplate)]
    false [].

Definition proxy_cr (useSecret sidecar : string) : CSM :=
  mkCSM "ContainerStorageModule" (named "dell" "csm")
    (mkSpec "" (mkDriver PowerMax None "v2.17.0" 2 ""
        (Some (set_ct_Envs (Some [mkEnvVar "X_CSI_REVPROXY_USE_SECRET" useSecret])
                 zero_ContainerTemplate))
        None None [] [] [] "" "" None None)
       [proxy_module_of sidecar] "" false)
    zero_Status.

Definition proxy_host : Host := host_of
  {[ "/cfg/moduleconfig/csireverseproxy/v2.14.0/container.yaml" := "Container reverseproxy";
     "/cfg/moduleconfig/csireverseproxy/v2.14.0/controller.yaml"
       := demo_manifest ["Deployment csipowermax-reverseproxy"; "Service csipowermax-reverseproxy"] ]}
  ∅ ∅.

Definition proxy_directory : Directory := {|
  ReadDir p := if decide (p = "/cfg/moduleconfig/csireverseproxy/")
               then inr ["v2.13.0"; "v2.14.0"] else inl (Errorf "no such directory");
  IsDir _ _ := true
|}.

Section witnesses.
#[local] Existing Instances proxy_host pods_codec proxy_directory.

Lemma ReverseProxyPrecheck_spec_witness :
  let w := world_of [OSecret (mkSecret (named "dell" "csirevproxy-tls-secret") None)] obeys in
  let cr := proxy_cr "true" "false" in
  ∃ w', ReverseProxyPrecheck modules_config (proxy_module_of "false") cr w = (Ok (cr, None), w')
    ∧ w_deployAsSidecar w = true ∧ w_deployAsSidecar w' = false.
Proof.
  intros w cr.
  assert (E : fst (ReverseProxyPrecheck modules_config (proxy_module_of "false") cr w)
              = Ok (cr, None)) by (vm_compute; reflexivity).
  apply run_fst in E. eexists. split; [exact E|].
  destruct (ReverseProxyPrecheck_spec _ _ _ _ _ _ _ E) as (_ & _ & Hok).
  destruct (Hok eq_refl) as (_ & _ & _ & _ & Hf). split; [done|].
  etrans; [exact Hf|]. vm_compute. reflexivity.
Defined.

Lemma reverseproxy_inject_spec_witness :
  let d := pods_workload "Deployment csm-controller" in
  ∃ d' cs, inject_deployment d (proxy_cr "false" "true") modules_config zero_VersionSpec = Ok d'
    ∧ wl_Containers d' = cs ∧ Forall configmap_mounted cs ∧ length cs = 4.
Proof.
  intros d.
  destruct (inject_deployment d (proxy_cr "false" "true") modules_config zero_VersionSpec)
    as [d'|e|e] eqn:E; [|vm_compute in E; discriminate E..].
  destruct (reverseproxy_inject_spec _ _ _ _ _ E)
    as (c0 & c & s & p & cs & cs' & vs & _ & _ & _ & _ & Hp & _ & _ & _ & Hu).
  assert (wl_Containers d' = cs') as Hc by (unfold wl_Containers; by rewrite Hp).
  exists d', cs'. split; [done|]. split; [done|]. split; [exact (proj2 Hu)|].
  rewrite <- Hc. vm_compute in E. injection E as <-. reflexivity.
Defined.

Lemma ReverseProxyServer_spec_witness :
  let w := world_of [] obeys in
  let cr := proxy_cr "true" "false" in
  let w' := snd (ReverseProxyServer false modules_config cr w) in
  is_Some (seen w' !! ("Deployment", ("dell", "csipowermax-reverseproxy")))
  ∨ dying (seen w) ("Deployment", ("dell", "csipowermax-reverseproxy")).
Proof.
  intros w cr w'.
  assert (E : fst (ReverseProxyServer false modules_config cr w) = Ok ()) by (vm_compute; reflexivity).
  apply run_fst in E. destruct (ReverseProxyServer_spec false modules_config cr w w' E)
    as (m & y & objs & objs' & Hm & Ey & Eo & _ & _ & _ & _ & Hk).
  rewrite (Hm eq_refl) in Ey. vm_compute in Ey. injection Ey as <-. vm_compute in Eo. injection Eo as <-.
  apply Hk; [done|decide_goal|decide_goal].
Defined.
End witnesses.
