(* ===== verification/AuthSidecar.v ===== *)
(** The authorization proxy of a driver (the first part of pkg/modules/authorization.go): the
    check of a request, the sidecar with its volumes, and its injection into the pods.

    A request that says nothing about certificates is completed in place: the components of the
    module are shared with the caller, which sees the variable that was added. *)

From S2P Require Import Prelude.
From S2P Require Import GoStrings.
From S2P Require Import Types.
From S2P Require Import Versions.
From S2P Require Import Modules.
From S2P Require Import Images.
From S2P Require Import Cluster.
From S2P Require Import Resources.
From S2P Require Import Packages.
From S2P Require Import Manifests.
From S2P Require Import Drivers.
From S2P Require Import Pods.
From S2P Require Import ModCommon.
From stdpp Require Import options.

Local Open Scope stdpp_scope.

Definition AuthSidecarComponent : string := "karavi-authorization-proxy".
Definition KaraviAuthorizationConfigSecret : string := "karavi-authorization-config".
Definition DefaultDriverConfigVolumeMount : string := "<DriverConfigVolumeMount>".
Definition AuthCSMNameSpace : string := "<CSM_NAMESPACE>".

(** names that the code spells out where it uses them *)
Definition SkipCertificate : string := "SKIP_CERTIFICATE_VALIDATION".
Definition RootCertificate : string := "proxy-server-root-certificate".
Definition AuthAnnotation : string := "com.dell.karavi-authorization-proxy".

Definition AuthorizationSupportedDrivers : gmap string SupportedDriverParam :=
  {[ PowerScaleName := mkSupportedDriverParam "powerscale" "csi-isilon-config-params" "isilon-configs";
     PowerScale := mkSupportedDriverParam "powerscale" "csi-isilon-config-params" "isilon-configs";
     PowerFlexName := mkSupportedDriverParam "powerflex" "vxflexos-config-params" "vxflexos-config";
     PowerFlex := mkSupportedDriverParam "powerflex" "vxflexos-config-params" "vxflexos-config";
     PowerMax := mkSupportedDriverParam "powermax" "powermax-config-params" "powermax-reverseproxy-secret";
     PowerStore := mkSupportedDriverParam "powerstore" "powerstore-config-params" "powerstore-config" ]}.

(** Reading an entry that is not there gives the zero struct. *)
Definition auth_driver (driverType : string) : SupportedDriverParam :=
  default (mkSupportedDriverParam "" "" "") (AuthorizationSupportedDrivers !! driverType).

(** ** The request, completed *)

(** without the variable it is added *)
Definition complete_component (component : ContainerTemplate) : ContainerTemplate :=
  if decide (ct_Name component = AuthSidecarComponent) then
    let envs := default [] (ct_Envs component) in
    if existsb (λ env, bool_decide (ev_Name env = SkipCertificate)) envs then component
    else set_ct_Envs (Some (envs ++ [mkEnvVar SkipCertificate "true"])) component
  else component.

Definition complete_module (m : Module) : Module :=
  set_m_Components (complete_component <$> m_Components m) m.

(** The module shares its components with the custom resource that it was read from. *)
Fixpoint replace_module (m m' : Module) (ms : list Module) : list Module :=
  match ms with
  | [] => []
  | m0 :: ms' => if decide (m0 = m) then m' :: ms' else m0 :: replace_module m m' ms'
  end.

Definition complete_request (m : Module) (cr : CSM) : CSM :=
  set_cr_Modules (replace_module m (complete_module m) (sp_Modules (cr_Spec cr))) cr.

(** [Components[0].Envs] *)
Definition first_component (m : Module) : outcome ContainerTemplate :=
  match m_Components m with
  | [] => Panic "index out of range [0] with length 0"
  | component :: _ => Ok component
  end.

Definition component_envs (component : ContainerTemplate) : list EnvVar :=
  default [] (ct_Envs component).

Definition flag_step (names : list string) (b : bool) (env : EnvVar) : bool :=
  if decide (ev_Name env ∈ names) then okTrue (ParseBool (ev_Value env)) else b.

(** the last setting of one of the variables, where a text that is no boolean says no *)
Definition last_flag (names : list string) (envs : list EnvVar) : bool :=
  foldl (flag_step names) false envs.

(** ** Mounts and volumes *)

(** One round of the loop that removes mounts: [range] keeps to the array of the whole slice,
    while the slice itself gets shorter. *)
Definition unmount_step (name : string) (st : list VolumeMountApply * nat) (i : nat)
    : outcome (list VolumeMountApply * nat) :=
  let '(arr, len) := st in
  c ← deref (arr !! i);
  n ← deref (vm_Name c);
  if decide (n = name) then
    if decide (i < len) then
      x ← deref (arr !! (len - 1));
      Ok (<[i := x]> arr, len - 1)
    else Panic "index out of range"
  else Ok (arr, len).

Definition unmount (name : string) (mounts : list VolumeMountApply)
    : outcome (list VolumeMountApply) :=
  '(arr, len) ← foldO (unmount_step name) (mounts, length mounts) (seq 0 (length mounts));
  Ok (take len arr).

(** the place of the first element of that name, where elements before it must have one *)
Fixpoint find_named {A} (name_of : A → option string) (name : string) (xs : list A)
    : outcome (option nat) :=
  match xs with
  | [] => Ok None
  | x :: xs' =>
      n ← deref (name_of x);
      if decide (n = name) then Ok (Some O)
      else i ← find_named name_of name xs'; Ok (option_map S i)
  end.

Definition drop_volume (name : string) (vols : list VolumeApply) : outcome (list VolumeApply) :=
  i ← find_named va_Name name vols;
  Ok (match i with Some i => swap_remove i vols | None => vols end).

(** the mount of the secret that the driver has instead *)
Definition remount_config (mounts : list VolumeMountApply) : outcome (list VolumeMountApply) :=
  i ← find_named vm_Name KaraviAuthorizationConfigSecret mounts;
  Ok (match i with
      | Some i => <[i := mkVolumeMountApply (Some DefaultDriverConfigVolumeMount) None None ""]> mounts
      | None => mounts
      end).

(** the placeholders of mounts *)
Definition name_mount (params : SupportedDriverParam) (c : VolumeMountApply)
    : outcome VolumeMountApply :=
  n ← deref (vm_Name c);
  Ok (if decide (n = DefaultDriverConfigParamsVolumeMount) then
        mkVolumeMountApply (Some (DriverConfigParamsVolumeMount params)) (vm_MountPath c)
          (vm_ReadOnly c) (vm_Rest c)
      else if decide (n = DefaultDriverConfigVolumeMount) then
        mkVolumeMountApply (Some (DriverConfigVolumeMount params))
          (Some ("/" +:+ DriverConfigVolumeMount params)) (vm_ReadOnly c) (vm_Rest c)
      else c).

(** the value of the certificate's variables when the check is not skipped *)
Definition require_certificate (e : EnvVarApply) : outcome EnvVarApply :=
  n ← deref (ea_Name e);
  Ok (if decide (n = "INSECURE" ∨ n = SkipCertificate)
      then mkEnvVarApply (ea_Name e) (Some "false") (ea_ValueFrom e) else e).

(** a loop that changes every element *)
Definition each {A} (f : A → outcome A) (xs : list A) : outcome (list A) :=
  foldO (λ ys x, y ← f x; Ok (ys ++ [y])) [] xs.

(** The certificate, by the variables of the first component. *)
Definition set_certificate (envs : list EnvVar) (c : ContainerApply) : outcome ContainerApply :=
  if last_flag ["INSECURE"; SkipCertificate] envs
  then mounts ← unmount RootCertificate (ca_VolumeMounts c); Ok (set_ca_VolumeMounts mounts c)
  else env ← each require_certificate (ca_Env c); Ok (set_ca_Env env c).

(** the image: listed, else of the registry, else of the file *)
Definition proxy_image (cr : CSM) (matched : VersionSpec) (c : ContainerApply)
    : outcome ContainerApply :=
  let img := matched_image matched AuthSidecarComponent in
  if decide (img ≠ "") then Ok (set_ca_Image (Some img) c)
  else if decide (sp_CustomRegistry (cr_Spec cr) ≠ "") then
    image ← deref (ca_Image c);
    Ok (set_ca_Image (Some (ResolveImage image cr)) c)
  else Ok c.

Section sidecar.
Context {W : Type} `{Client W} `{Host} `{MapOrder} `{ManifestCodec}.

(** the version of the module, and a file of it *)
Definition auth_version (module : Module) (cr : CSM) (op : OperatorConfig) : outcome string :=
  if decide (m_ConfigVersion module = "") then
    version ← GetVersion cr op;
    GetModuleDefaultVersion version (d_CSIDriverType (sp_Driver (cr_Spec cr))) Authorization
      (oc_ConfigDirectory op)
  else Ok (m_ConfigVersion module).

Definition auth_file (op : OperatorConfig) (version file : string) : outcome string :=
  res (ReadFile (Clean (oc_ConfigDirectory op +:+ "/moduleconfig/authorization/" +:+ version
                        +:+ "/" +:+ file))).

(** Whether the secret of older versions is known to be absent, for the versions that can do
    without it. *)
Definition config_absent (cr : CSM) (authConfigVersion : string) : M (World W) bool :=
  driverSecretVersion ← lift (MinVersionCheck "v2.4.0" authConfigVersion);
  if (driverSecretVersion : bool) then
    r ← attempt (GetSecret KaraviAuthorizationConfigSecret (cr_Namespace cr));
    mret (if r is inl _ then true else false)
  else mret false.

(** The version of the image list that [getAuthApplyCR] goes on with: an error is only logged. *)
Definition logged_version (cr : CSM) : M (World W) VersionSpec :=
  r ← attempt FetchConfigMap;
  mret (match r with
        | inl _ => zero_VersionSpec
        | inr cm => matched_beside cr (cm_Data cm)
        end).

Definition sidecar_text (cr : CSM) (buf : string) : string :=
  let y := ModifyCommonCR buf cr in
  let y := ReplaceAll y DefaultPluginIdentifier
             (PluginIdentifier (auth_driver (d_CSIDriverType (sp_Driver (cr_Spec cr))))) in
  ReplaceAll y AuthCSMNameSpace (cr_Namespace cr).

(** The container as the file has it, with the settings of the request. *)
Definition sidecar_of_file (m : Module) (cr : CSM) (buf : string) : outcome ContainerApply :=
  c ← res (yaml_Container (sidecar_text cr buf));
  component ← first_component m;
  let envs := component_envs component in
  env ← ReplaceAllApplyCustomEnvs (ca_Env c) envs envs;
  set_certificate envs (set_ca_Env env c).

(** The module is the one of the request, completed, and with it the request. *)
Definition getAuthApplyCR (cr : CSM) (op : OperatorConfig)
    : M (World W) (Module * ContainerApply * VersionSpec * CSM) :=
  let authModule := GetModule cr Authorization in
  authConfigVersion ← lift (auth_version authModule cr op);
  buf ← lift (auth_file op authConfigVersion "container.yaml");
  c ← lift (sidecar_of_file (complete_module authModule) cr buf);
  absent ← config_absent cr authConfigVersion;
  mounts ← lift (if (absent : bool) then remount_config (ca_VolumeMounts c)
                 else Ok (ca_VolumeMounts c));
  mounts ← lift (each (name_mount (auth_driver (d_CSIDriverType (sp_Driver (cr_Spec cr))))) mounts);
  matched ← logged_version cr;
  c ← lift (proxy_image cr matched (set_ca_VolumeMounts mounts c));
  mret (complete_module authModule, c, matched, complete_request authModule cr).

Definition getAuthApplyVolumes (cr : CSM) (op : OperatorConfig) (auth : ContainerTemplate)
    : M (World W) (list VolumeApply) :=
  authConfigVersion ← lift (auth_version (GetModule cr Authorization) cr op);
  buf ← lift (auth_file op authConfigVersion "volumes.yaml");
  vols ← lift (res (yaml_Volumes buf));
  vols ← lift (if last_flag [SkipCertificate] (component_envs auth)
               then drop_volume RootCertificate vols else Ok vols);
  absent ← config_absent cr authConfigVersion;
  lift (if (absent : bool) then drop_volume KaraviAuthorizationConfigSecret vols else Ok vols).

(** ** Injection *)

(** [d.Annotations[...] = "true"], through the embedded metadata *)
Definition annotate (d : Workload) : outcome Workload :=
  m ← deref (wl_Meta d);
  Ok (mkWorkload
        (Some (mkWorkloadMeta (wm_Name m) (wm_Namespace m)
                 (Some (<[AuthAnnotation := "true"]> (default ∅ (wm_Annotations m))))
                 (wm_OwnerReferences m)))
        (wl_Spec d) (wl_Rest d)).

Definition add_proxy (container : ContainerApply) (vols : list VolumeApply) (d : Workload)
    : outcome Workload :=
  d ← annotate d;
  p ← pod_spec d;
  Ok (set_pod (set_pod_Volumes (pod_Volumes p ++ vols)
                (set_pod_Containers (pod_Containers p ++ [container]) p)) d).

Definition inject_proxy (d : Workload) (cr : CSM) (op : OperatorConfig)
    : M (World W) (Workload * CSM) :=
  '(authModule, container, matched, cr) ← getAuthApplyCR cr op;
  container ← lift (UpdateSideCarApply (m_Components authModule) container cr matched);
  component ← lift (first_component authModule);
  vols ← getAuthApplyVolumes cr op component;
  d ← lift (add_proxy container vols d);
  mret (d, cr).

Definition AuthInjectDaemonset (ds : Workload) (cr : CSM) (op : OperatorConfig)
    : M (World W) (Workload * CSM) := inject_proxy ds cr op.

Definition AuthInjectDeployment (dp : Workload) (cr : CSM) (op : OperatorConfig)
    : M (World W) (Workload * CSM) := inject_proxy dp cr op.

(** ** Checks *)

(** what the check reads of the variables of the first component: whether the certificate is
    skipped, and that there is a host *)
Definition auth_setting (skip : bool) (env : EnvVar) : outcome bool :=
  skip ← (if decide (ev_Name env = SkipCertificate)
          then wrapErr (ParseBool (ev_Value env))
                 (is_an_invalid_value SkipCertificate (ev_Value env))
          else Ok skip);
  if decide (ev_Name env = "PROXY_HOST" ∧ ev_Value env = "")
  then Fail (Errorf "PROXY_HOST for authorization is empty") else Ok skip.

Definition auth_secrets (driverSecretVersion skipCertValid : bool) : list string :=
  ["proxy-authz-tokens"]
  ++ (if driverSecretVersion then [] else [KaraviAuthorizationConfigSecret])
  ++ (if skipCertValid then [] else [RootCertificate]).

Context `{Directory}.

(** before the request is completed *)
Definition auth_supported (op : OperatorConfig) (auth : Module) (cr : CSM) : outcome () :=
  match AuthorizationSupportedDrivers !! d_CSIDriverType (sp_Driver (cr_Spec cr)) with
  | None => Fail (Errorf ("CSM Authorization does not support "
              +:+ d_CSIDriverType (sp_Driver (cr_Spec cr)) +:+ " driver"))
  | Some _ =>
      if decide (m_ConfigVersion auth = "") then Ok ()
      else checkVersion Authorization (m_ConfigVersion auth) (oc_ConfigDirectory op)
  end.

(** after it *)
Definition auth_check (op : OperatorConfig) (auth : Module) (cr : CSM) : M (World W) () :=
  component ← lift (first_component auth);
  skipCertValid ← lift (foldO auth_setting false (component_envs component));
  authConfigVersion ← lift (auth_version auth cr op);
  driverSecretVersion ← lift (MinVersionCheck "v2.4.0" authConfigVersion);
  forM (λ name,
      _ ← orFail (GetSecret name (cr_Namespace cr))
            (λ _, Errorf ("failed to find secret " +:+ name
                          +:+ " and certificate validation is requested"));
      mret ())
    (auth_secrets driverSecretVersion skipCertValid).

Definition AuthorizationPrecheck (op : OperatorConfig) (auth : Module) (cr : CSM)
    : M (World W) (CSM * option error) :=
  r ← attempt (lift (auth_supported op auth cr));
  match r with
  | inl err => mret (cr, Some err)
  | inr _ =>
      let cr := complete_request auth cr in
      reading_check cr (auth_check op (complete_module auth) cr)
  end.
End sidecar.

(** ** The code's own checks of what was injected *)

Definition CheckAnnotationAuth (annotation : gomap) : outcome () :=
  match annotation with
  | None => Fail (Errorf "annotation is nil")
  | Some m =>
      match m !! AuthAnnotation with
      | None => Fail (Errorf (AuthAnnotation +:+ " is missing from annotation"))
      | Some v =>
          if decide (v = "true") then Ok ()
          else Fail (Errorf ("expected notation value to be true but got " +:+ v))
      end
  end.

(** every one of the names is the name of an element *)
Definition all_named {A} (name_of : A → option string) (what : string) (names : list string)
    (xs : list A) : outcome () :=
  foldO (λ _ name,
      i ← find_named name_of name xs;
      match i with
      | Some _ => Ok ()
      | None => Fail (Errorf ("missing the following " +:+ what +:+ " " +:+ name))
      end)
    () names.

(** the variables of the sidecar, up to the first that is wrong *)
Definition check_auth_env (skipCertificateValidation : bool) (env : EnvVarApply) : outcome () :=
  match ea_Name env, ea_Value env with
  | Some name, Some value =>
      if decide (name = SkipCertificate ∨ name = "INSECURE") then
        _ ← wrapErr (ParseBool value) (is_an_invalid_value SkipCertificate value);
        if decide (value = if skipCertificateValidation then "true" else "false") then Ok ()
        else Fail (Errorf ("expected SKIP_CERTIFICATE_VALIDATION/INSECURE to be "
                           +:+ if skipCertificateValidation then "true" else "false"))
      else if decide (name = "PROXY_HOST" ∧ value = "")
      then Fail (Errorf "PROXY_HOST for authorization is empty")
      else Ok ()
  | _, _ => Ok ()
  end.

Fixpoint check_sidecars (mounts : list string) (skipCertificateValidation : bool)
    (containers : list ContainerApply) : outcome () :=
  match containers with
  | [] => Fail (Errorf "karavi-authorization-proxy container was not injected into driver")
  | cnt :: containers' =>
      name ← deref (ca_Name cnt);
      if decide (name = AuthSidecarComponent) then
        _ ← all_named vm_Name "volume mount" mounts (ca_VolumeMounts cnt);
        foldO (λ _ env, check_auth_env skipCertificateValidation env) () (ca_Env cnt)
      else check_sidecars mounts skipCertificateValidation containers'
  end.

Section own_checks.
Context {W : Type} `{Client W}.

(** the volume of the credentials: of the driver when the older secret is known to be absent *)
Definition config_volume (authConfigVersion drivertype : string) (cr : CSM)
    : M (World W) string :=
  driverSecretVersion ← orFail (lift (MinVersionCheck "v2.4.0" authConfigVersion))
    (λ _, Errorf ("error checking version: " +:+ authConfigVersion));
  if (driverSecretVersion : bool) then
    r ← attempt (GetSecret KaraviAuthorizationConfigSecret (cr_Namespace cr));
    mret (match r with
          | inl _ => DriverConfigVolumeMount (auth_driver drivertype)
          | inr _ => KaraviAuthorizationConfigSecret
          end)
  else mret KaraviAuthorizationConfigSecret.

Definition CheckApplyVolumesAuth (volumes : list VolumeApply)
    (authConfigVersion drivertype : string) (cr : CSM) : M (World W) () :=
  name ← config_volume authConfigVersion drivertype cr;
  lift (all_named va_Name "volume" [name] volumes).

Definition CheckApplyContainersAuth (containers : list ContainerApply) (drivertype : string)
    (skipCertificateValidation : bool) (authConfigVersion : string) (cr : CSM)
    : M (World W) () :=
  name ← config_volume authConfigVersion drivertype cr;
  lift (check_sidecars [DriverConfigParamsVolumeMount (auth_driver drivertype); name]
          skipCertificateValidation containers).
End own_checks.

(** ** Properties *)

(** *** Removal by name *)

Definition once {A} (name_of : A → option string) (name : string) (xs : list A) : Prop :=
  length (filter (λ x, name_of x = Some name) xs) ≤ 1.

Lemma once_split {A} (name_of : A → option string) name (xs : list A) :
  once name_of name xs →
  Forall (λ x, name_of x ≠ Some name) xs
  ∨ ∃ pre x post, xs = pre ++ x :: post ∧ name_of x = Some name
      ∧ Forall (λ x, name_of x ≠ Some name) pre ∧ Forall (λ x, name_of x ≠ Some name) post.
Proof.
  unfold once. induction xs as [|x xs IH]; intros Hl; [by left|].
  rewrite filter_cons in Hl. case_decide as Hx.
  - right. exists [], x, xs. split_and!; try done.
    assert (filter (λ x, name_of x = Some name) xs = []) as E%filter_none; [|exact E].
    apply length_zero_iff_nil. simpl in Hl. lia.
  - destruct (IH Hl) as [Hf|(pre & y & post & -> & Hy & Hpre & Hpost)].
    + left. by constructor.
    + right. exists (x :: pre), y, post. split_and!; try done. by constructor.
Qed.

Lemma find_named_none {A} (name_of : A → option string) name xs i :
  Forall (λ x, name_of x ≠ Some name) xs → find_named name_of name xs = Ok i → i = None.
Proof.
  revert i. induction xs as [|x xs IH]; intros i Hf E; simpl in E; [by injection E|].
  apply Forall_cons in Hf as [Hx Hf]. apply outcome_bind_Ok in E as (n & En & E).
  destruct (name_of x) as [n'|]; [|done]. injection En as ->.
  rewrite decide_False in E by (by intros ->). apply outcome_bind_Ok in E as (j & Ej & E).
  rewrite (IH j Hf Ej) in E. by injection E.
Qed.

Lemma find_named_some {A} (name_of : A → option string) name pre x post i :
  name_of x = Some name → Forall (λ x, name_of x ≠ Some name) pre →
  find_named name_of name (pre ++ x :: post) = Ok i → i = Some (length pre).
Proof.
  intros Hx. revert i. induction pre as [|y pre IH]; intros i Hf E; simpl in E.
  - rewrite Hx in E. cbn in E. rewrite decide_True in E by done. by injection E.
  - apply Forall_cons in Hf as [Hy Hf]. apply outcome_bind_Ok in E as (n & En & E).
    destruct (name_of y) as [n'|]; [|done]. injection En as ->.
    rewrite decide_False in E by (by intros ->). apply outcome_bind_Ok in E as (j & Ej & E).
    rewrite (IH j Hf Ej) in E. by injection E.
Qed.

(** What is left of a list when its one element of that name is removed. *)
Definition without {A} (name_of : A → option string) (name : string) (xs xs' : list A) : Prop :=
  xs' ≡ₚ filter (λ x, name_of x ≠ Some name) xs.

Lemma without_split {A} (name_of : A → option string) name pre x post :
  name_of x = Some name → Forall (λ x, name_of x ≠ Some name) pre →
  Forall (λ x, name_of x ≠ Some name) post →
  without name_of name (pre ++ x :: post) (swap_remove (length pre) (pre ++ x :: post)).
Proof.
  intros Hx Hpre Hpost. unfold without.
  rewrite filter_app, filter_cons_False by naive_solver.
  rewrite (filter_all _ pre), (filter_all _ post) by done.
  apply (Permutation_cons_inv (a := x)).
  rewrite (swap_remove_perm _ _ x) by (apply list_lookup_middle; done). solve_Permutation.
Qed.

Lemma drop_volume_without name vols vols' :
  once va_Name name vols → drop_volume name vols = Ok vols' → without va_Name name vols vols'.
Proof.
  intros Ho E. apply outcome_bind_Ok in E as (i & Ei & E). injection E as <-.
  destruct (once_split _ _ _ Ho) as [Hf|(pre & x & post & -> & Hx & Hpre & Hpost)].
  - rewrite (find_named_none _ _ _ _ Hf Ei). unfold without. by rewrite filter_all.
  - rewrite (find_named_some _ _ _ _ _ _ Hx Hpre Ei). by apply without_split.
Qed.

(** Rounds of the loop over mounts of other names change nothing. *)
Lemma unmount_others name arr len k n st :
  (∀ i c, k ≤ i < k + n → arr !! i = Some c → vm_Name c ≠ Some name) →
  foldO (unmount_step name) (arr, len) (seq k n) = Ok st → st = (arr, len).
Proof.
  revert k. induction n as [|n IH]; intros k Hf E; cbn [seq foldO] in E; [by injection E|].
  apply outcome_bind_Ok in E as ([arr' len'] & E1 & E).
  apply outcome_bind_Ok in E1 as (c & Ec & E1). apply outcome_bind_Ok in E1 as (m & Em & E1).
  destruct (arr !! k) as [c'|] eqn:Hk; [|done]. injection Ec as ->.
  destruct (vm_Name c) as [m'|] eqn:Hm; [|done]. injection Em as ->.
  rewrite decide_False in E1.
  - injection E1 as <- <-. apply (IH (S k)); [|done]. intros i d Hi. apply Hf. lia.
  - intros ->. apply (Hf k c); [lia|done..].
Qed.

(** The round of the mount itself. *)
Lemma unmount_hit name pre x post st :
  vm_Name x = Some name →
  unmount_step name (pre ++ x :: post, length (pre ++ x :: post)) (length pre) = Ok st →
  ∃ y, last (pre ++ x :: post) = Some y
    ∧ st = (<[length pre := y]> (pre ++ x :: post), length (pre ++ x :: post) - 1).
Proof.
  intros Hx E. unfold unmount_step in E. rewrite (list_lookup_middle pre post x (length pre) eq_refl) in E.
  cbn [deref mbind outcome_bind] in E. rewrite Hx in E. cbn [deref mbind outcome_bind] in E.
  rewrite decide_True in E by done. rewrite decide_True in E by (rewrite length_app; simpl; lia).
  apply outcome_bind_Ok in E as (y & Ey & E). injection E as <-. exists y. split; [|done].
  rewrite last_lookup, <- Nat.sub_1_r.
  destruct ((pre ++ x :: post) !! (length (pre ++ x :: post) - 1)); [by injection Ey as ->|done].
Qed.

Lemma unmount_without name mounts mounts' :
  once vm_Name name mounts → unmount name mounts = Ok mounts' → without vm_Name name mounts mounts'.
Proof.
  intros Ho E. apply outcome_bind_Ok in E as ([arr len] & E & E'). injection E' as <-.
  destruct (once_split _ _ _ Ho) as [Hf|(pre & x & post & -> & Hx & Hpre & Hpost)].
  - apply unmount_others in E as [= -> ->].
    + rewrite firstn_all. unfold without. by rewrite filter_all.
    + intros i c _ Hc. rewrite Forall_forall in Hf. by apply Hf, (list_elem_of_lookup_2 _ i).
  - rewrite Forall_forall in Hpre, Hpost.
    assert (seq 0 (length (pre ++ x :: post))
            = seq 0 (length pre) ++ length pre :: seq (S (length pre)) (length post)) as Hseq
      by (rewrite length_app, seq_app; done).
    rewrite Hseq, foldO_app in E. apply outcome_bind_Ok in E as (st & E1 & E).
    apply unmount_others in E1 as ->.
    2:{ intros i c Hi Hc. apply Hpre. rewrite lookup_app_l in Hc by lia.
        by apply (list_elem_of_lookup_2 _ i). }
    cbn [foldO] in E. apply outcome_bind_Ok in E as (st & E1 & E).
    destruct (unmount_hit _ _ _ _ _ Hx E1) as (y & Hy & ->).
    apply unmount_others in E as [= -> ->].
    2:{ intros i c Hi Hc. apply Hpost. rewrite list_lookup_insert_ne in Hc by lia.
        rewrite lookup_app_r in Hc by lia. rewrite lookup_cons_ne_0 in Hc by lia.
        by eapply list_elem_of_lookup_2. }
    assert (swap_remove (length pre) (pre ++ x :: post)
            = take (length (pre ++ x :: post) - 1) (<[length pre := y]> (pre ++ x :: post))) as <-
      by (unfold swap_remove; by rewrite Hy).
    apply without_split; [done|by apply Forall_forall..].
Qed.

(** *** What the certificate's mount goes through *)

Definition mounted (name : string) (ms : list VolumeMountApply) : Prop :=
  Some name ∈ vm_Name <$> ms.

#[local] Instance mounted_dec name ms : Decision (mounted name ms).
Proof. unfold mounted. apply _. Defined.

Lemma without_gone {A} (name_of : A → option string) name xs xs' :
  without name_of name xs xs' → Some name ∉ name_of <$> xs'.
Proof.
  unfold without. intros Hw (x & Hx & Hin)%list_elem_of_fmap. rewrite Hw in Hin.
  apply list_elem_of_filter in Hin as [Hn _]. by apply Hn.
Qed.

Lemma each_Ok {A} (f : A → outcome A) xs ys :
  each f xs = Ok ys → Forall2 (λ x y, f x = Ok y) xs ys.
Proof.
  unfold each. assert (∀ acc, foldO (λ ys x, y ← f x; Ok (ys ++ [y])) acc xs = Ok ys →
    ∃ zs, ys = acc ++ zs ∧ Forall2 (λ x y, f x = Ok y) xs zs) as Hacc.
  { induction xs as [|x xs IH]; intros acc E; simpl in E.
    - injection E as <-. exists []. by rewrite app_nil_r.
    - apply outcome_bind_Ok in E as (acc' & E1 & E). apply outcome_bind_Ok in E1 as (y & Ey & E1).
      injection E1 as <-. apply IH in E as (zs & -> & Hf). exists (y :: zs).
      rewrite <- app_assoc. split; [done|]. by constructor. }
  intros E. by apply Hacc in E as (zs & -> & Hf).
Qed.

Lemma auth_driver_names t :
  DriverConfigParamsVolumeMount (auth_driver t) ≠ RootCertificate
  ∧ DriverConfigVolumeMount (auth_driver t) ≠ RootCertificate.
Proof.
  unfold auth_driver. destruct (AuthorizationSupportedDrivers !! t) as [p|] eqn:Hp; [|done].
  simpl. revert t p Hp.
  change (map_Forall (λ _ p, DriverConfigParamsVolumeMount p ≠ RootCertificate
            ∧ DriverConfigVolumeMount p ≠ RootCertificate) AuthorizationSupportedDrivers).
  decide_goal.
Qed.

Lemma last_flag_one envs :
  Forall (λ env, ev_Name env ≠ "INSECURE") envs →
  last_flag ["INSECURE"; SkipCertificate] envs = last_flag [SkipCertificate] envs.
Proof.
  unfold last_flag. intros Hf. revert Hf.
  assert (∀ b, Forall (λ env, ev_Name env ≠ "INSECURE") envs →
    foldl (flag_step ["INSECURE"; SkipCertificate]) b envs
    = foldl (flag_step [SkipCertificate]) b envs) as Hb; [|by apply Hb].
  induction envs as [|env envs IH]; intros b Hf; [done|].
  apply Forall_cons in Hf as [He Hf]. cbn [foldl]. etrans; [by apply IH|]. f_equal.
  unfold flag_step. apply decide_ext. rewrite !elem_of_cons, elem_of_nil. naive_solver.
Qed.

(** *** Injection *)

Section inject_claims.
Context {W : Type} `{Client W} `{!View W} `{!ClientLaws (W := W)} `{Host} `{MapOrder}
  `{ManifestCodec}.
#[local] Set Default Proof Using "All".

Lemma reads_config_absent cr v : reads (config_absent cr v).
Proof. unfold reads, config_absent, GetSecret. solve_touches. Qed.

Lemma reads_logged_version cr : reads (logged_version cr).
Proof. unfold reads, logged_version, FetchConfigMap. solve_touches. Qed.

Ltac next := apply touches_bind; [solve_touches|intros ?].

Lemma reads_getAuthApplyCR cr op : reads (getAuthApplyCR cr op).
Proof.
  unfold reads, getAuthApplyCR. do 3 next.
  apply touches_bind; [apply reads_config_absent|intros ?]. do 2 next.
  apply touches_bind; [apply reads_logged_version|intros ?]. next. apply touches_ret.
Qed.

Lemma reads_getAuthApplyVolumes cr op auth : reads (getAuthApplyVolumes cr op auth).
Proof.
  unfold reads, getAuthApplyVolumes. do 4 next.
  apply touches_bind; [apply reads_config_absent|intros ?]. apply touches_lift.
Qed.

Lemma reads_inject_proxy d cr op : reads (inject_proxy d cr op).
Proof.
  unfold reads, inject_proxy.
  apply touches_bind; [apply reads_getAuthApplyCR|]. intros [[[m c] matched] cr'].
  do 2 next. apply touches_bind; [apply reads_getAuthApplyVolumes|intros ?]. solve_touches.
Qed.

Lemma complete_keeps m cr : keeps eq cr (complete_request m cr).
Proof using.
  split; try done. unfold complete_request. simpl.
  induction (sp_Modules (cr_Spec cr)) as [|m0 ms IH]; simpl; [constructor|]. case_decide.
  - subst. constructor; [by split_and!|]. apply Forall_Forall2_diag, Forall_forall.
    intros ? _. by split_and!.
  - constructor; [by split_and!|done].
Qed.

Lemma keeps_auth_version cr cr' op :
  keeps eq cr cr' →
  auth_version (GetModule cr' Authorization) cr' op = auth_version (GetModule cr Authorization) cr op.
Proof.
  intros Hk. assert (m_ConfigVersion (GetModule cr' Authorization)
                     = m_ConfigVersion (GetModule cr Authorization)) as Em.
  { destruct Hk. pose proof (keeps_find_module eq Authorization _ _ keeps_modules) as E.
    unfold GetModule. by destruct (find_module _ _), (find_module _ _); simplify_eq/=. }
  unfold auth_version. rewrite Em. case_decide; [|done].
  rewrite (keeps_GetVersion eq cr cr' op Hk). by destruct Hk as [_ _ -> _ _].
Qed.

(** The credentials of older versions are not mounted: the version can do without them, and
    looking their secret up in [w] fails. *)
Definition config_gone (cr : CSM) (v : string) (w : World W) : Prop :=
  MinVersionCheck "v2.4.0" v = Ok true
  ∧ ∃ e, fst (GetSecret KaraviAuthorizationConfigSecret (cr_Namespace cr) w) = Fail e.

Lemma config_absent_Ok cr v w b w' :
  config_absent cr v w = (Ok b, w') → b = true ↔ config_gone cr v w.
Proof.
  unfold config_absent, config_gone. intros E. apply M_bind_Ok in E as (new & w1 & En & E).
  injection En as En <-. rewrite En. destruct new; [|injection E as <- _; naive_solver].
  apply M_bind_Ok in E as (r & w1 & Er & E). injection E as <- _. unfold attempt in Er.
  destruct (GetSecret _ _ w) as [[x|e|y] w2]; [| |done]; injection Er as <- _; simpl; split.
  - done.
  - by intros (_ & e & [=]).
  - intros _. split; [done|by exists e].
  - done.
Qed.

(** *** What becomes of the sidecar of the file *)

(** a variable about the certificate, when it is checked *)
Definition certified (e : EnvVarApply) : EnvVarApply :=
  if decide (ea_Name e = Some "INSECURE" ∨ ea_Name e = Some SkipCertificate)
  then mkEnvVarApply (ea_Name e) (Some "false") (ea_ValueFrom e) else e.

(** a mount with its placeholder filled *)
Definition placed (p : SupportedDriverParam) (m : VolumeMountApply) : VolumeMountApply :=
  if decide (vm_Name m = Some DefaultDriverConfigParamsVolumeMount) then
    mkVolumeMountApply (Some (DriverConfigParamsVolumeMount p)) (vm_MountPath m) (vm_ReadOnly m)
      (vm_Rest m)
  else if decide (vm_Name m = Some DefaultDriverConfigVolumeMount) then
    mkVolumeMountApply (Some (DriverConfigVolumeMount p))
      (Some ("/" +:+ DriverConfigVolumeMount p)) (vm_ReadOnly m) (vm_Rest m)
  else m.

(** The first mount of the older secret makes place for the driver's secret when [gone]. *)
Definition reconfigured (gone : bool) (ms ms' : list VolumeMountApply) : Prop :=
  if gone && bool_decide (mounted KaraviAuthorizationConfigSecret ms) then
    ∃ pre m post, ms = pre ++ m :: post ∧ vm_Name m = Some KaraviAuthorizationConfigSecret
      ∧ ¬ mounted KaraviAuthorizationConfigSecret pre
      ∧ ms' = pre ++ mkVolumeMountApply (Some DefaultDriverConfigVolumeMount) None None "" :: post
  else ms' = ms.

Definition chosen_image (cr : CSM) (matched : VersionSpec) (image : option string)
    : option string :=
  if decide (matched_image matched AuthSidecarComponent ≠ "")
  then Some (matched_image matched AuthSidecarComponent)
  else if decide (sp_CustomRegistry (cr_Spec cr) ≠ "")
  then (λ i, ResolveImage i cr) <$> image else image.

(** The sidecar [c] that the request makes of [c0], the one of the file: its variables are
    merged, the certificate's mount is dropped or its variables are set, the mounts are placed,
    and an image is chosen. *)
Definition prepared (cr : CSM) (envs : list EnvVar) (gone : bool) (matched : VersionSpec)
    (c0 c : ContainerApply) : Prop :=
  let skip := last_flag ["INSECURE"; SkipCertificate] envs in
  ∃ env ms1 ms2,
    ReplaceAllApplyCustomEnvs (ca_Env c0) envs envs = Ok env
    ∧ (once vm_Name RootCertificate (ca_VolumeMounts c0) →
       if skip then without vm_Name RootCertificate (ca_VolumeMounts c0) ms1
       else ms1 = ca_VolumeMounts c0)
    ∧ reconfigured gone ms1 ms2
    ∧ c = set_ca_Image (chosen_image cr matched (ca_Image c0))
            (set_ca_VolumeMounts
               (placed (auth_driver (d_CSIDriverType (sp_Driver (cr_Spec cr)))) <$> ms2)
               (set_ca_Env (if skip then env else certified <$> env) c0)).

Lemma each_map {A} (f : A → outcome A) (g : A → A) xs ys :
  (∀ x y, f x = Ok y → y = g x) → each f xs = Ok ys → ys = g <$> xs.
Proof using.
  intros Hf E%each_Ok. induction E as [|x y xs ys Hxy _ IH]; [done|].
  by rewrite IH, (Hf _ _ Hxy).
Qed.

Lemma require_certificate_Ok e e' : require_certificate e = Ok e' → e' = certified e.
Proof using.
  unfold require_certificate, certified. destruct (ea_Name e) as [n|]; [|done]. simpl.
  intros [= <-]. apply decide_ext. naive_solver.
Qed.

Lemma name_mount_Ok p m m' : name_mount p m = Ok m' → m' = placed p m.
Proof using.
  unfold name_mount, placed. destruct (vm_Name m) as [n|] eqn:Hn; [|done]. simpl. intros [= <-].
  repeat case_decide; simplify_eq; done.
Qed.

Lemma proxy_image_Ok cr matched c c' :
  proxy_image cr matched c = Ok c' → c' = set_ca_Image (chosen_image cr matched (ca_Image c)) c.
Proof using.
  unfold proxy_image, chosen_image. intros E. repeat case_decide.
  - by injection E as <-.
  - destruct (ca_Image c); [|done]. by injection E as <-.
  - injection E as <-. by destruct c.
Qed.

Lemma find_named_split {A} (name_of : A → option string) name xs r :
  find_named name_of name xs = Ok r →
  match r with
  | Some i => ∃ pre x post, xs = pre ++ x :: post ∧ i = length pre ∧ name_of x = Some name
                ∧ Some name ∉ name_of <$> pre
  | None => Some name ∉ name_of <$> xs
  end.
Proof using.
  revert r. induction xs as [|x xs IH]; intros r E; simpl in E.
  - injection E as <-. apply not_elem_of_nil.
  - apply outcome_bind_Ok in E as (n & En & E). destruct (name_of x) as [n'|] eqn:Hx; [|done].
    injection En as ->. case_decide as Hd.
    + injection E as <-. exists [], x, xs. subst n. split_and!; try done. apply not_elem_of_nil.
    + apply outcome_bind_Ok in E as (j & Ej & E). injection E as <-. apply IH in Ej.
      destruct j as [j|]; simpl.
      * destruct Ej as (pre & y & post & -> & -> & Hy & Hpre). exists (x :: pre), y, post.
        split_and!; try done. intros Hin. simpl in Hin.
        rewrite Hx in Hin. by apply elem_of_cons in Hin as [[= <-]|?].
      * intros Hin. rewrite Hx in Hin. by apply elem_of_cons in Hin as [[= <-]|?].
Qed.

Lemma remount_reconfigured gone ms ms' :
  (if (gone : bool) then remount_config ms else Ok ms) = Ok ms' → reconfigured gone ms ms'.
Proof using.
  unfold reconfigured. destruct gone; simpl; [|by intros [= <-]]. intros E.
  apply outcome_bind_Ok in E as (i & Ei & E). injection E as <-. apply find_named_split in Ei.
  unfold mounted. destruct i as [i|]; [|by rewrite bool_decide_false].
  destruct Ei as (pre & m & post & -> & -> & Hm & Hpre). rewrite bool_decide_true.
  - exists pre, m, post. split_and!; try done. by rewrite insert_app_r_alt, Nat.sub_diag.
  - rewrite fmap_app, fmap_cons, Hm. apply elem_of_app. right. by left.
Qed.

Lemma set_certificate_Ok envs c c' :
  set_certificate envs c = Ok c' →
  let skip := last_flag ["INSECURE"; SkipCertificate] envs in
  ∃ ms, c' = set_ca_VolumeMounts ms (set_ca_Env (if skip then ca_Env c else certified <$> ca_Env c) c)
    ∧ (once vm_Name RootCertificate (ca_VolumeMounts c) →
       if skip then without vm_Name RootCertificate (ca_VolumeMounts c) ms
       else ms = ca_VolumeMounts c).
Proof using.
  unfold set_certificate. cbv zeta. destruct (last_flag _ envs); intros E;
    apply outcome_bind_Ok in E as (x & Ex & [= <-]).
  - exists x. split; [by destruct c|]. intros Ho. by apply unmount_without.
  - exists (ca_VolumeMounts c). rewrite (each_map _ certified _ _ require_certificate_Ok Ex).
    split; [by destruct c|done].
Qed.

(** the sidecar before the templates of the request *)
Lemma getAuthApplyCR_inv cr op w m c matched cr' w' :
  getAuthApplyCR cr op w = (Ok (m, c, matched, cr'), w') →
  m = complete_module (GetModule cr Authorization)
  ∧ cr' = complete_request (GetModule cr Authorization) cr
  ∧ ∃ v buf c0 comp gone, auth_version (GetModule cr Authorization) cr op = Ok v
      ∧ auth_file op v "container.yaml" = Ok buf ∧ yaml_Container (sidecar_text cr buf) = inr c0
      ∧ first_component m = Ok comp ∧ (gone = true ↔ config_gone cr v w)
      ∧ fst (logged_version cr (snd (config_absent cr v w))) = Ok matched
      ∧ prepared cr (component_envs comp) gone matched c0 c.
Proof.
  intros E. apply M_bind_Ok in E as (v & w1 & Ev & E). apply M_bind_Ok in E as (buf & w2 & Eb & E).
  apply M_bind_Ok in E as (c1 & w3 & E1 & E). apply M_bind_Ok in E as (gone & w4 & Ea & E).
  apply M_bind_Ok in E as (ms1 & w5 & E2 & E). apply M_bind_Ok in E as (ms2 & w6 & E3 & E).
  apply M_bind_Ok in E as (matched' & w7 & Em & E). apply M_bind_Ok in E as (c2 & w8 & E4 & E).
  injection E as <- <- <- <- _. split_and!; [done..|].
  injection Ev as Ev <-. injection Eb as Eb <-. injection E1 as E1 <-. injection E2 as E2 <-.
  injection E3 as E3 <-. injection E4 as E4 _.
  apply outcome_bind_Ok in E1 as (c0 & E0 & E1). apply outcome_bind_Ok in E1 as (comp & Ec & E1).
  apply outcome_bind_Ok in E1 as (env & Env & E1).
  destruct (yaml_Container _) as [e|c0'] eqn:Ey; [done|]. injection E0 as ->.
  exists v, buf, c0, comp, gone. split_and!; try done.
  { by eapply config_absent_Ok. } { rewrite Ea. cbn [snd]. by rewrite Em. }
  apply set_certificate_Ok in E1 as (ms0 & -> & Hms). apply proxy_image_Ok in E4 as ->.
  apply remount_reconfigured in E2.
  apply (each_map _ (placed (auth_driver (d_CSIDriverType (sp_Driver (cr_Spec cr)))))) in E3 as ->;
    [|by apply name_mount_Ok].
  by exists env, ms0, ms1.
Qed.

Lemma placed_root t ms :
  mounted RootCertificate (placed (auth_driver t) <$> ms) ↔ mounted RootCertificate ms.
Proof using.
  unfold mounted. induction ms as [|m ms IH]; [done|]. rewrite !fmap_cons, !elem_of_cons, IH.
  assert (Some RootCertificate = vm_Name (placed (auth_driver t) m)
          ↔ Some RootCertificate = vm_Name m) as ->; [|done].
  unfold placed. destruct (auth_driver_names t) as [Hn1 Hn2].
  case_decide as Hd; simpl.
  { rewrite Hd. split; [intros [= E]; by destruct Hn1|by intros [=]]. }
  case_decide as Hd'; simpl; [|done].
  rewrite Hd'. split; [intros [= E]; by destruct Hn2|by intros [=]].
Qed.

Lemma reconfigured_root gone ms ms' :
  reconfigured gone ms ms' → mounted RootCertificate ms' ↔ mounted RootCertificate ms.
Proof using.
  unfold reconfigured. destruct (gone && _); [|by intros ->].
  intros (pre & m & post & -> & Hm & _ & ->). unfold mounted.
  rewrite !fmap_app, !fmap_cons, !elem_of_app, !elem_of_cons, Hm. simpl. naive_solver congruence.
Qed.

(** The certificate is mounted unless it is skipped. *)
Lemma prepared_root cr envs gone matched c0 c :
  prepared cr envs gone matched c0 c → once vm_Name RootCertificate (ca_VolumeMounts c0) →
  mounted RootCertificate (ca_VolumeMounts c)
  ↔ last_flag ["INSECURE"; SkipCertificate] envs = false
    ∧ mounted RootCertificate (ca_VolumeMounts c0).
Proof.
  intros (env & ms1 & ms2 & _ & Hms & Hr & ->) Ho. specialize (Hms Ho). simpl.
  rewrite placed_root, (reconfigured_root _ _ _ Hr). destruct (last_flag _ envs); [|rewrite Hms; tauto].
  split; [|by intros [? _]]. intros Hin. by destruct (without_gone _ _ _ _ Hms).
Qed.

(** the volumes that are added, of those in the file *)
Definition kept_volume (skip gone : bool) (v : VolumeApply) : bool :=
  negb (skip && bool_decide (va_Name v = Some RootCertificate))
  && negb (gone && bool_decide (va_Name v = Some KaraviAuthorizationConfigSecret)).

Lemma getAuthApplyVolumes_inv cr op auth w vols w' :
  getAuthApplyVolumes cr op auth w = (Ok vols, w') →
  ∃ v buf v0 gone, auth_version (GetModule cr Authorization) cr op = Ok v
    ∧ auth_file op v "volumes.yaml" = Ok buf ∧ yaml_Volumes buf = inr v0
    ∧ (gone = true ↔ config_gone cr v w)
    ∧ (once va_Name RootCertificate v0 → once va_Name KaraviAuthorizationConfigSecret v0 →
       vols ≡ₚ filter (λ x, kept_volume (last_flag [SkipCertificate] (component_envs auth)) gone x = true) v0).
Proof.
  intros E. apply M_bind_Ok in E as (v & w1 & Ev & E). apply M_bind_Ok in E as (buf & w2 & Eb & E).
  apply M_bind_Ok in E as (v0 & w3 & E0 & E). apply M_bind_Ok in E as (v1 & w4 & E1 & E).
  apply M_bind_Ok in E as (gone & w5 & Ea & E). injection E as E _.
  injection Ev as Ev <-. injection Eb as Eb <-. injection E0 as E0 <-. injection E1 as E1 <-.
  destruct (yaml_Volumes buf) as [e|v0'] eqn:Ey; [done|]. injection E0 as ->.
  exists v, buf, v0, gone. split_and!; try done; [by eapply config_absent_Ok|]. intros Hr Hk.
  set (skip := last_flag _ _) in *.
  assert (v1 ≡ₚ filter (λ x, kept_volume skip false x = true) v0) as Hv1.
  { destruct skip.
    - apply drop_volume_without in E1; [|done]. unfold without in E1. rewrite E1.
      apply reflexive_eq, list_filter_iff. intros x. unfold kept_volume. simpl.
      rewrite andb_true_r, negb_true_iff, bool_decide_eq_false. done.
    - injection E1 as ->. by rewrite filter_all by (apply Forall_forall; by intros). }
  destruct gone; [|by injection E as ->].
  apply drop_volume_without in E.
  - unfold without in E. rewrite E, Hv1, list_filter_filter. apply reflexive_eq, list_filter_iff.
    intros x. unfold kept_volume. simpl. rewrite !andb_true_r, andb_true_iff, !negb_true_iff,
      bool_decide_eq_false. tauto.
  - unfold once in *. rewrite Hv1, list_filter_filter. etrans; [|exact Hk].
    apply Nat.eq_le_incl. f_equal. apply list_filter_iff. intros x. unfold kept_volume. simpl.
    rewrite andb_true_r. split; [tauto|]. intros Hx. split; [done|]. rewrite Hx.
    by rewrite bool_decide_false, andb_false_r by done.
Qed.

(** the metadata of the workload with one annotation more *)
Definition annotated (m : WorkloadMeta) : WorkloadMeta :=
  mkWorkloadMeta (wm_Name m) (wm_Namespace m)
    (Some (<[AuthAnnotation := "true"]> (default ∅ (wm_Annotations m)))) (wm_OwnerReferences m).

Lemma add_proxy_Ok c vols d d' :
  add_proxy c vols d = Ok d' →
  ∃ m p, wl_Meta d = Some m ∧ wl_Pod d = Some p
    ∧ d' = set_pod (set_pod_Volumes (pod_Volumes p ++ vols)
                      (set_pod_Containers (pod_Containers p ++ [c]) p))
             (mkWorkload (Some (annotated m)) (wl_Spec d) (wl_Rest d)).
Proof using.
  intros E. apply outcome_bind_Ok in E as (d1 & E1 & E). apply outcome_bind_Ok in E as (p & Ep & E).
  injection E as <-. apply outcome_bind_Ok in E1 as (m & Em & E1). injection E1 as <-.
  unfold pod_spec in Ep. destruct (wl_Pod _) as [p'|] eqn:Hp; [|done]. injection Ep as ->.
  unfold deref in Em. destruct (wl_Meta d) as [m'|] eqn:Hm; [|done]. injection Em as ->.
  by exists m, p.
Qed.

Lemma annotated_checked m : CheckAnnotationAuth (wm_Annotations (annotated m)) = Ok ().
Proof using. simpl. by rewrite lookup_insert_eq, decide_True. Qed.

(** C26: what injecting the authorization proxy makes of a workload: the annotation that the
    code's own check asks for is added to those that it has; the sidecar of the module's file,
    prepared as the request says and then by the request's template for it, is the last
    container; the volumes of the module's file follow those of the pod, less the
    certificate's when it is skipped and the older secret's when it is gone; everything else of
    the workload stays. The cluster is only read, and the request is completed with the
    variable that it leaves out. The certificate is mounted unless the variables INSECURE and
    SKIP_CERTIFICATE_VALIDATION, the last one of which counts, skip it, but its volume depends
    on the latter alone: a mount without its volume is possible exactly when both are given and
    differ. *)
Theorem auth_inject_spec d cr op w d' cr' w' :
  inject_proxy d cr op w = (Ok (d', cr'), w') →
  let m := GetModule cr Authorization in
  seen w' = seen w ∧ cr' = complete_request m cr ∧ keeps eq cr cr'
  ∧ ∃ meta p c vols,
      wl_Meta d = Some meta ∧ wl_Pod d = Some p
      ∧ d' = set_pod (set_pod_Volumes (pod_Volumes p ++ vols)
                        (set_pod_Containers (pod_Containers p ++ [c]) p))
               (mkWorkload (Some (annotated meta)) (wl_Spec d) (wl_Rest d))
      ∧ CheckAnnotationAuth (wm_Annotations (annotated meta)) = Ok ()
      ∧ ∃ comp v buf c0 c1 gone matched vbuf v0 gone',
          first_component (complete_module m) = Ok comp ∧ auth_version m cr op = Ok v
          ∧ auth_file op v "container.yaml" = Ok buf ∧ yaml_Container (sidecar_text cr buf) = inr c0
          ∧ auth_file op v "volumes.yaml" = Ok vbuf ∧ yaml_Volumes vbuf = inr v0
          ∧ (gone = true ↔ config_gone cr v w)
          ∧ (gone' = true ↔ config_gone cr v (snd (getAuthApplyCR cr op w)))
          ∧ fst (logged_version cr (snd (config_absent cr v w))) = Ok matched
          ∧ let envs := component_envs comp in
            prepared cr envs gone matched c0 c1
            ∧ UpdateSideCarApply (m_Components (complete_module m)) c1 cr' matched = Ok c
            ∧ (once va_Name RootCertificate v0 → once va_Name KaraviAuthorizationConfigSecret v0 →
               vols ≡ₚ filter (λ x, kept_volume (last_flag [SkipCertificate] envs) gone' x = true) v0)
            ∧ (once vm_Name RootCertificate (ca_VolumeMounts c0) →
               mounted RootCertificate (ca_VolumeMounts c)
               ↔ last_flag ["INSECURE"; SkipCertificate] envs = false
                 ∧ mounted RootCertificate (ca_VolumeMounts c0))
            ∧ (Forall (λ env, ev_Name env ≠ "INSECURE") envs →
               last_flag ["INSECURE"; SkipCertificate] envs = last_flag [SkipCertificate] envs).
Proof.
  intros E m. split; [eapply reads_seen, E; apply reads_inject_proxy|].
  apply M_bind_Ok in E as ([[[m' c1] matched] cr1] & w1 & E1 & E).
  apply M_bind_Ok in E as (c & w2 & Ec & E). apply M_bind_Ok in E as (comp & w3 & Ep & E).
  apply M_bind_Ok in E as (vols & w4 & Ev & E). apply M_bind_Ok in E as (d1 & w5 & Ed & E).
  injection E as <- <- _. injection Ec as Ec <-. injection Ep as Ep <-. injection Ed as Ed _.
  pose proof E1 as Ew. apply getAuthApplyCR_inv in E1
    as (-> & -> & v & buf & c0 & comp' & gone & Hv & Hb & Hc0 & Hcomp & Hg & Hm & Hc).
  rewrite Hcomp in Ep. injection Ep as ->.
  apply getAuthApplyVolumes_inv in Ev as (v' & vbuf & v0 & gone' & Hv' & Hvb & Hv0 & Hg' & Hvol).
  rewrite (keeps_auth_version cr) in Hv' by apply complete_keeps.
  rewrite Hv in Hv'. injection Hv' as <-.
  apply add_proxy_Ok in Ed as (meta & p & Hmeta & Hp & ->).
  split; [done|]. split; [apply complete_keeps|]. exists meta, p, c, vols.
  split_and!; [done..|apply annotated_checked|].
  exists comp, v, buf, c0, c1, gone, matched, vbuf, v0, gone'. rewrite Ew. cbn [snd].
  do 6 (split; [done|]). split; [done|]. split; [exact Hg'|]. split; [done|]. cbv zeta.
  do 3 (split; [done|]). split; [|by apply last_flag_one].
  pose proof (UpdateContainerApply_fixed _ _ _ _ _ Ec) as [= _ Em _]. rewrite Em.
  by eapply prepared_root.
Qed.

(** *** The check *)

Lemma auth_settings_Ok envs skip :
  foldO auth_setting false envs = Ok skip →
  skip = last_flag [SkipCertificate] envs
  ∧ Forall (λ env, (ev_Name env = SkipCertificate → ∃ b, ParseBool (ev_Value env) = Ok b)
                   ∧ (ev_Name env = "PROXY_HOST" → ev_Value env ≠ "")) envs.
Proof using.
  unfold last_flag. assert (∀ b, foldO auth_setting b envs = Ok skip →
    skip = foldl (flag_step [SkipCertificate]) b envs
    ∧ Forall (λ env, (ev_Name env = SkipCertificate → ∃ b, ParseBool (ev_Value env) = Ok b)
                     ∧ (ev_Name env = "PROXY_HOST" → ev_Value env ≠ "")) envs) as Hb; [|by apply Hb].
  induction envs as [|env envs IH]; intros b E; simpl in E; [by injection E as <-|].
  apply outcome_bind_Ok in E as (b' & Eb & E). apply IH in E as [-> Hf].
  apply outcome_bind_Ok in Eb as (b1 & E1 & Eb). simpl.
  destruct (decide (ev_Name env = "PROXY_HOST" ∧ ev_Value env = "")) as [Hh|Hh]; [done|].
  injection Eb as ->. unfold flag_step at 3.
  destruct (decide (ev_Name env = SkipCertificate)) as [Hs|Hs].
  - rewrite decide_True by (by apply list_elem_of_singleton).
    destruct (ParseBool (ev_Value env)) as [b2|e|y] eqn:Ep; [|done..].
    injection E1 as ->. split; [done|]. constructor; [|done]. split; [by eauto|naive_solver].
  - rewrite decide_False by (by rewrite list_elem_of_singleton). injection E1 as ->.
    split; [done|]. constructor; [|done]. naive_solver.
Qed.

Context `{Directory}.

Lemma auth_check_Ok op m cr w w' :
  auth_check op m cr w = (Ok (), w') →
  ∃ comp v b, first_component m = Ok comp
    ∧ Forall (λ env, (ev_Name env = SkipCertificate → ∃ b, ParseBool (ev_Value env) = Ok b)
                     ∧ (ev_Name env = "PROXY_HOST" → ev_Value env ≠ "")) (component_envs comp)
    ∧ auth_version m cr op = Ok v ∧ MinVersionCheck "v2.4.0" v = Ok b
    ∧ Forall (found cr w) (auth_secrets b (last_flag [SkipCertificate] (component_envs comp))).
Proof.
  intros E. apply M_bind_Ok in E as (comp & w1 & Ec & E). injection Ec as Ec <-.
  apply M_bind_Ok in E as (skip & w1 & Es & E). injection Es as Es <-.
  apply M_bind_Ok in E as (v & w1 & Ev & E). injection Ev as Ev <-.
  apply M_bind_Ok in E as (b & w1 & Eb & E). injection Eb as Eb <-.
  apply auth_settings_Ok in Es as [-> Hf]. exists comp, v, b. split_and!; try done.
  revert w E. induction (auth_secrets b _) as [|n ns IH]; intros w E; [constructor|].
  apply M_bind_Ok in E as ([] & w1 & E1 & E). apply M_bind_Ok in E1 as (s & w2 & E1 & E2).
  injection E2 as <-. rewrite orFail_Ok in E1. constructor; [by eapply GetSecret_Ok|].
  assert (seen w2 = seen w) as Hs by (eapply reads_seen, E1; apply reads_GetSecret).
  eapply Forall_impl; [by apply (IH w2)|]. intros n'. by apply found_seen.
Qed.

Lemma reads_auth_check op m cr : reads (auth_check op m cr).
Proof.
  unfold reads, auth_check. do 4 next.
  generalize (auth_secrets a2 a0). intros ns. induction ns as [|n ns IH]; [apply touches_ret|].
  cbn [forM]. apply touches_bind; [|done]. apply touches_bind; [|intros; apply touches_ret].
  apply touches_orFail, reads_GetSecret.
Qed.

(** C27: the check of the authorization proxy leaves the cluster as it is and changes of the
    request only that the variable SKIP_CERTIFICATE_VALIDATION is added where the proxy's
    component leaves it out; it accepts a request only for a driver that authorization
    supports, with a version that the module has, where no PROXY_HOST that is given is empty
    (none has to be given), and when every secret that the version and the request ask for is not
    known to be absent. *)
Theorem AuthorizationPrecheck_spec op auth cr w cr' err w' :
  AuthorizationPrecheck op auth cr w = (Ok (cr', err), w') →
  seen w' = seen w ∧ keeps eq cr cr'
  ∧ (err = None →
     is_Some (AuthorizationSupportedDrivers !! d_CSIDriverType (sp_Driver (cr_Spec cr)))
     ∧ (m_ConfigVersion auth = ""
        ∨ checkVersion Authorization (m_ConfigVersion auth) (oc_ConfigDirectory op) = Ok ())
     ∧ cr' = complete_request auth cr
     ∧ ∃ comp v b, first_component (complete_module auth) = Ok comp
         ∧ Forall (λ env, (ev_Name env = SkipCertificate → ∃ b, ParseBool (ev_Value env) = Ok b)
                          ∧ (ev_Name env = "PROXY_HOST" → ev_Value env ≠ "")) (component_envs comp)
         ∧ auth_version auth cr op = Ok v ∧ MinVersionCheck "v2.4.0" v = Ok b
         ∧ Forall (found cr w)
             (auth_secrets b (last_flag [SkipCertificate] (component_envs comp)))).
Proof.
  unfold AuthorizationPrecheck. intros E. apply M_bind_Ok in E as (r & w1 & Er & E).
  unfold attempt, lift in Er. destruct (auth_supported op auth cr) as [[]|e|y] eqn:Es; [| |done];
    injection Er as <- <-; cycle 1.
  { injection E as <- <- <-. split; [done|]. split; [reflexivity|done]. }
  apply reading_check_inv in E as (-> & r & E & Hr).
  split; [eapply reads_seen, E; apply reads_auth_check|]. split; [apply complete_keeps|].
  intros ->. subst r. unfold auth_supported in Es.
  destruct (AuthorizationSupportedDrivers !! _); [|done]. split; [by eexists|].
  split; [destruct (decide (m_ConfigVersion auth = "")); [by left|by right]|]. split; [done|].
  apply auth_check_Ok in E as (comp & v & b & Hc & Hf & Hv & Hb & Hs). exists comp, v, b.
  split_and!; try done. unfold auth_version in *. simpl in Hv.
  destruct (decide (m_ConfigVersion auth = "")); [|done].
  by rewrite (keeps_GetVersion eq cr) in Hv by apply complete_keeps.
Qed.
End inject_claims.

(** ** Witnesses

    A request whose two variables differ. *)

Definition auth_module : Module :=
  mkModule Authorization true "v2.4.0"
    [set_ct_Envs (Some [mkEnvVar "PROXY_HOST" "proxy"; mkEnvVar SkipCertificate "true";
                        mkEnvVar "INSECURE" "false"])
       (set_ct_Name AuthSidecarComponent zero_ContainerTemplate)]
    false [].

Definition auth_cr : CSM :=
  mkCSM "ContainerStorageModule" (named "dell" "csm")
    (mkSpec "" (mkDriver PowerScale None "v2.17.0" 2 "" None None None [] [] [] "" "" None None)
       [auth_module] "" false)
    zero_Status.

Definition auth_host : Host := host_of
  {[ "/cfg/moduleconfig/authorization/v2.4.0/container.yaml" := "Container proxy";
     "/cfg/moduleconfig/authorization/v2.4.0/volumes.yaml"
       := demo_manifest [KaraviAuthorizationConfigSecret; RootCertificate; "extra"] ]}
  ∅ ∅.

Definition auth_codec : ManifestCodec := codec_with pods_workload (λ _,
  mkContainerApply (Some AuthSidecarComponent) (Some "quay.io/proxy:v1") (Some "Always") [] []
    [mkVolumeMountApply (Some RootCertificate) (Some "/etc/cert") None "";
     mkVolumeMountApply (Some KaraviAuthorizationConfigSecret) (Some "/etc/config") None ""] "").

Definition auth_directory : Directory := {|
  ReadDir p := if decide (p = "/cfg/moduleconfig/authorization/")
               then inr ["v2.3.0"; "v2.4.0"] else inl (Errorf "no such directory");
  IsDir _ _ := true
|}.

Section witnesses.
#[local] Existing Instances auth_host auth_codec auth_directory.

Lemma auth_inject_spec_witness :
  let w := world_of [] obeys in
  let d := pods_workload "Deployment csm-controller" in
  ∃ d' cr' w' p c vols, inject_proxy d auth_cr modules_config w = (Ok (d', cr'), w')
    ∧ wl_Pod d' = Some (set_pod_Volumes (pod_Volumes p ++ vols)
                          (set_pod_Containers (pod_Containers p ++ [c]) p))
    ∧ mounted RootCertificate (ca_VolumeMounts c) ∧ Some RootCertificate ∉ va_Name <$> vols.
Proof.
  intros w d. destruct (inject_proxy d auth_cr modules_config w) as [[[d' cr']|e|y] w'] eqn:E;
    [|vm_compute in E; discriminate E..].
  destruct (auth_inject_spec _ _ _ _ _ _ _ E) as (_ & _ & _ & meta & p & c & vols & Hmeta & Hp & Hd
    & _ & comp & v & buf & c0 & c1 & gone & matched & vbuf & v0 & gone' & Hcomp & Hv & Hb & Hc0
    & Hvb & Hv0 & _ & _ & _ & _ & _ & Hvol & Hc & _).
  injection Hcomp as <-. injection Hv as <-. vm_compute in Hb. injection Hb as <-.
  vm_compute in Hvb. injection Hvb as <-. vm_compute in Hc0. injection Hc0 as <-.
  vm_compute in Hv0. injection Hv0 as <-.
  exists d', cr', w', p, c, vols. split; [done|]. split; [|split].
  - rewrite Hd. apply set_pod_fields. exists p. exact Hp.
  - apply Hc; [vm_compute; lia|]. split; [by vm_compute|]. by left.
  - rewrite Hvol by (vm_compute; lia). destruct gone'; decide_goal.
Defined.

Lemma AuthorizationPrecheck_spec_witness :
  let w := world_of [OSecret (mkSecret (named "dell" "proxy-authz-tokens") None)] obeys in
  ∃ w', AuthorizationPrecheck modules_config auth_module auth_cr w = (Ok (auth_cr, None), w')
    ∧ found auth_cr w "proxy-authz-tokens".
Proof.
  intros w.
  assert (E : fst (AuthorizationPrecheck modules_config auth_module auth_cr w)
              = Ok (auth_cr, None)) by (vm_compute; reflexivity).
  apply run_fst in E. eexists. split; [exact E|].
  destruct (AuthorizationPrecheck_spec _ _ _ _ _ _ _ E) as (_ & _ & Hok).
  destruct (Hok eq_refl) as (_ & _ & _ & comp & v & b & _ & _ & _ & _ & Hf).
  rewrite Forall_forall in Hf. apply Hf. by left.
Defined.
End witnesses.
