(* ===== verification/Observability.v ===== *)
(** Observability (pkg/modules/observability.go): the check of a request, topology, the
    collector, the certificates, and the metrics of the four drivers that have them.

    The functions for the metrics of a driver differ in their tables and in a few steps; a
    record names the tables, and the steps that they share are one definition. *)

From S2P Require Import Prelude.
From S2P Require Import GoStrings.
From S2P Require Import Types.
From S2P Require Import Versions.
From S2P Require Import Modules.
From S2P Require Import Images.
From S2P Require Import Cluster.
From S2P Require Import Resources.
From S2P Require Import Packages.
From S2P Require Import Manifests.
From S2P Require Import Drivers.
From S2P Require Import Pods.
From S2P Require Import ModCommon.
From S2P Require Import ReverseProxy.
From S2P Require Import AuthSidecar.
From stdpp Require Import options.

Local Open Scope stdpp_scope.

Definition TopologyLogLevel : string := "<TOPOLOGY_LOG_LEVEL>".
Definition TopologyYamlFile : string := "karavi-topology.yaml".
Definition OtelCollectorAddress : string := "<COLLECTOR_ADDRESS>".
Definition PowerScaleMaxConcurrentQueries : string := "<POWERSCALE_MAX_CONCURRENT_QUERIES>".
Definition PowerscaleCapacityMetricsEnabled : string := "<POWERSCALE_CAPACITY_METRICS_ENABLED>".
Definition PowerscalePerformanceMetricsEnabled : string :=
  "<POWERSCALE_PERFORMANCE_METRICS_ENABLED>".
Definition PowerscaleTopologyMetricsEnabled : string := "<POWERSCALE_TOPOLOGY_METRICS_ENABLED>".
Definition PowerscaleTopologyMetricsPollFrequency : string :=
  "<POWERSCALE_TOPOLOGY_METRICS_POLL_FREQUENCY>".
Definition PowerscaleClusterCapacityPollFrequency : string :=
  "<POWERSCALE_CLUSTER_CAPACITY_POLL_FREQUENCY>".
Definition PowerscaleClusterPerformancePollFrequency : string :=
  "<POWERSCALE_CLUSTER_PERFORMANCE_POLL_FREQUENCY>".
Definition PowerscaleQuotaCapacityPollFrequency : string :=
  "<POWERSCALE_QUOTA_CAPACITY_POLL_FREQUENCY>".
Definition IsiclientInsecure : string := "<ISICLIENT_INSECURE>".
Definition IsiclientAuthType : string := "<ISICLIENT_AUTH_TYPE>".
Definition IsiclientVerbose : string := "<ISICLIENT_VERBOSE>".
Definition PowerscaleLogLevel : string := "<POWERSCALE_LOG_LEVEL>".
Definition PowerscaleLogFormat : string := "<POWERSCALE_LOG_FORMAT>".
Definition PowerflexSdcMetricsEnabled : string := "<POWERFLEX_SDC_METRICS_ENABLED>".
Definition PowerflexVolumeMetricsEnabled : string := "<POWERFLEX_VOLUME_METRICS_ENABLED>".
Definition PowerflexStoragePoolMetricsEnabled : string :=
  "<POWERFLEX_STORAGE_POOL_METRICS_ENABLED>".
Definition PowerflexSdcIoPollFrequency : string := "<POWERFLEX_SDC_IO_POLL_FREQUENCY>".
Definition PowerflexVolumeIoPollFrequency : string := "<POWERFLEX_VOLUME_IO_POLL_FREQUENCY>".
Definition PowerflexStoragePoolPollFrequency : string := "<POWERFLEX_STORAGE_POOL_POLL_FREQUENCY>".
Definition PowerflexMaxConcurrentQueries : string := "<POWERFLEX_MAX_CONCURRENT_QUERIES>".
Definition PowerflexTopologyMetricsEnabled : string := "<POWERFLEX_TOPOLOGY_METRICS_ENABLED>".
Definition PowerflexTopologyMetricsPollFrequency : string :=
  "<POWERFLEX_TOPOLOGY_METRICS_POLL_FREQUENCY>".
Definition PowerflexLogLevel : string := "<POWERFLEX_LOG_LEVEL>".
Definition PowerflexLogFormat : string := "<POWERFLEX_LOG_FORMAT>".
Definition NginxProxyImage : string := "<NGINX_PROXY_IMAGE>".
Definition OtelCollectorImage : string := "<OTEL_COLLECTOR_IMAGE>".
Definition PscaleObsYamlFile : string := "karavi-metrics-powerscale.yaml".
Definition OtelCollectorYamlFile : string := "karavi-otel-collector.yaml".
Definition DriverDefaultReleaseName : string := "<DriverDefaultReleaseName>".
Definition PflexObsYamlFile : string := "karavi-metrics-powerflex.yaml".
Definition PmaxCapacityMetricsEnabled : string := "<POWERMAX_CAPACITY_METRICS_ENABLED>".
Definition PmaxCapacityPollFreq : string := "<POWERMAX_CAPACITY_POLL_FREQUENCY>".
Definition PmaxPerformanceMetricsEnabled : string := "<POWERMAX_PERFORMANCE_METRICS_ENABLED>".
Definition PmaxPerformancePollFreq : string := "<POWERMAX_PERFORMANCE_POLL_FREQUENCY>".
Definition PmaxConcurrentQueries : string := "<POWERMAX_MAX_CONCURRENT_QUERIES>".
Definition PmaxTopologyMetricsEnabled : string := "<POWERMAX_TOPOLOGY_METRICS_ENABLED>".
Definition PmaxTopologyMetricsPollFrequency : string :=
  "<POWERMAX_TOPOLOGY_METRICS_POLL_FREQUENCY>".
Definition PmaxLogLevel : string := "<POWERMAX_LOG_LEVEL>".
Definition PmaxLogFormat : string := "<POWERMAX_LOG_FORMAT>".
Definition PMaxObsYamlFile : string := "karavi-metrics-powermax.yaml".
Definition PstoreObsYamlFile : string := "karavi-metrics-powerstore.yaml".
Definition PstoreMaxConcurrentQueries : string := "<POWERSTORE_MAX_CONCURRENT_QUERIES>".
Definition PstoreVolumeEnabled : string := "<POWERSTORE_VOLUME_METRICS_ENABLED>".
Definition PstoreVolumeIoPollFrequency : string := "<POWERSTORE_VOLUME_IO_POLL_FREQUENCY>".
Definition PstoreSpacePollFrequency : string := "<POWERSTORE_SPACE_POLL_FREQUENCY>".
Definition PstoreArrayPollFrequency : string := "<POWERSTORE_ARRAY_POLL_FREQUENCY>".
Definition PstoreFileSystemPollFrequency : string := "<POWERSTORE_FILE_SYSTEM_POLL_FREQUENCY>".
Definition PstoreTopologyEnabled : string := "<POWERSTORE_TOPOLOGY_METRICS_ENABLED>".
Definition PstoreTopologyPollFrequency : string := "<POWERSTORE_TOPOLOGY_POLL_FREQUENCY>".
Definition PstoreLogLevel : string := "<POWERSTORE_LOG_LEVEL>".
Definition PstoreLogFormat : string := "<POWERSTORE_LOG_FORMAT>".
Definition PstoreAPITimeout : string := "<X_CSI_POWERSTORE_API_TIMEOUT>".
Definition ZipkinURI : string := "<ZIPKIN_URI>".
Definition ZipkinServiceName : string := "<ZIPKIN_SERVICE_NAME>".
Definition ZipkinProbability : string := "<ZIPKIN_PROBABILITY>".
Definition SelfSignedCert : string := "selfsigned-cert.yaml".
Definition CustomCert : string := "custom-cert.yaml".
Definition ObservabilityCertificate : string := "<BASE64_CERTIFICATE>".
Definition ObservabilityPrivateKey : string := "<BASE64_PRIVATE_KEY>".
Definition ObservabilitySecretPrefix : string := "<OBSERVABILITY_SECRET_PREFIX>".
Definition CSMNameSpace : string := "<CSM_NAMESPACE>".
Definition ObservabilityNamespace : string := "karavi".

(** ** Tables *)

Definition ComponentNameToSecretPrefix : gmap string string :=
  {[ ObservabilityOtelCollectorName := "otel-collector";
     ObservabilityTopologyName := "karavi-topology";
     ObservabilityMetricsPowerStoreName := "karavi-metrics-powerstore" ]}.

Definition ObservabilitySupportedDrivers : gmap string SupportedDriverParam := supported_params.

Definition defaultVolumeConfigName : gmap string string :=
  {[ PowerScaleName := "isilon-creds"; PowerScale := "isilon-creds";
     PowerFlexName := "vxflexos-config"; PowerFlex := "vxflexos-config";
     PowerStore := "powerstore-config" ]}.

Definition defaultSecretsName : gmap string string :=
  {[ PowerScale := "<DriverDefaultReleaseName>-creds";
     PowerScaleName := "<DriverDefaultReleaseName>-creds";
     PowerFlex := "<DriverDefaultReleaseName>-config";
     PowerFlexName := "<DriverDefaultReleaseName>-config";
     PowerMax := "<DriverDefaultReleaseName>-creds";
     PowerStore := "<DriverDefaultReleaseName>-config" ]}.

Definition defaultAuthSecretsName : list string :=
  ["karavi-authorization-config"; "proxy-authz-tokens"; "proxy-server-root-certificate"].

(** The metrics of a driver: component, file, name of deployment and container, settings with
    their defaults in the order in which a variable is looked for, and the order in which they
    are replaced. *)
Record MetricsKind := mkMetricsKind {
  mk_component : string;
  mk_file : string;
  mk_deployment : string;
  mk_settings : list (string * string);
  mk_order : list string
}.

Definition powerstore_metrics : MetricsKind :=
  let settings :=
    [(PstoreMaxConcurrentQueries, "10"); (PstoreVolumeEnabled, "true");
     (PstoreVolumeIoPollFrequency, "10"); (PstoreSpacePollFrequency, "300");
     (PstoreArrayPollFrequency, "300"); (PstoreFileSystemPollFrequency, "20");
     (PstoreTopologyEnabled, "true"); (PstoreTopologyPollFrequency, "30");
     (PstoreAPITimeout, "120s"); (ZipkinURI, ""); (ZipkinServiceName, "metrics-powerstore");
     (ZipkinProbability, "0.0"); (PstoreLogLevel, "INFO"); (PstoreLogFormat, "TEXT");
     (OtelCollectorAddress, "otel-collector:55680")] in
  mkMetricsKind ObservabilityMetricsPowerStoreName PstoreObsYamlFile "karavi-metrics-powerstore"
    settings settings.*1.

Definition powerscale_metrics : MetricsKind :=
  let settings :=
    [(PowerscaleLogLevel, "INFO"); (PowerScaleMaxConcurrentQueries, "10");
     (PowerscaleCapacityMetricsEnabled, "true"); (PowerscalePerformanceMetricsEnabled, "true");
     (PowerscaleTopologyMetricsEnabled, "true"); (PowerscaleTopologyMetricsPollFrequency, "30");
     (PowerscaleClusterCapacityPollFrequency, "30");
     (PowerscaleClusterPerformancePollFrequency, "20");
     (PowerscaleQuotaCapacityPollFrequency, "30"); (IsiclientInsecure, "true");
     (IsiclientAuthType, "1"); (IsiclientVerbose, "0"); (PowerscaleLogFormat, "TEXT");
     (OtelCollectorAddress, "otel-collector:55680")] in
  mkMetricsKind ObservabilityMetricsPowerScaleName PscaleObsYamlFile "karavi-metrics-powerscale"
    settings settings.*1.

Definition powerflex_metrics : MetricsKind :=
  mkMetricsKind ObservabilityMetricsPowerFlexName PflexObsYamlFile "karavi-metrics-powerflex"
    [(PowerflexLogLevel, "INFO"); (PowerflexMaxConcurrentQueries, "10");
     (PowerflexSdcMetricsEnabled, "true"); (PowerflexSdcIoPollFrequency, "10");
     (PowerflexTopologyMetricsEnabled, "true"); (PowerflexTopologyMetricsPollFrequency, "30");
     (PowerflexVolumeMetricsEnabled, "true"); (PowerflexVolumeIoPollFrequency, "10");
     (PowerflexStoragePoolMetricsEnabled, "true"); (PowerflexStoragePoolPollFrequency, "10");
     (PowerflexLogFormat, "TEXT"); (OtelCollectorAddress, "otel-collector:55680")]
    [PowerflexLogLevel; PowerflexMaxConcurrentQueries; PowerflexSdcMetricsEnabled;
     PowerflexSdcIoPollFrequency; PowerflexVolumeMetricsEnabled; PowerflexVolumeIoPollFrequency;
     PowerflexStoragePoolMetricsEnabled; PowerflexStoragePoolPollFrequency;
     PowerflexTopologyMetricsEnabled; PowerflexTopologyMetricsPollFrequency; PowerflexLogFormat;
     OtelCollectorAddress].

Definition powermax_metrics : MetricsKind :=
  mkMetricsKind ObservabilityMetricsPowerMaxName PMaxObsYamlFile "karavi-metrics-powermax"
    [(PmaxLogLevel, "INFO"); (PmaxConcurrentQueries, "10"); (PmaxCapacityMetricsEnabled, "true");
     (PmaxCapacityPollFreq, "3600"); (PmaxPerformanceMetricsEnabled, "true");
     (PmaxPerformancePollFreq, "300"); (PmaxTopologyMetricsEnabled, "true");
     (PmaxTopologyMetricsPollFrequency, "300");
     (ReverseProxyConfigMap, "powermax-reverseproxy-config"); (PmaxLogFormat, "TEXT");
     (OtelCollectorAddress, "otel-collector:55680")]
    [PmaxLogLevel; PmaxLogFormat; PmaxConcurrentQueries; PmaxCapacityMetricsEnabled;
     PmaxCapacityPollFreq; PmaxPerformanceMetricsEnabled; PmaxPerformancePollFreq;
     PmaxTopologyMetricsEnabled; PmaxTopologyMetricsPollFrequency; OtelCollectorAddress;
     ReverseProxyConfigMap].

(** The first setting whose placeholder contains the name gets the value, an empty one too. *)
Fixpoint set_value (settings : list (string * string)) (env : EnvVar) : list (string * string) :=
  match settings with
  | [] => []
  | (p, v) :: settings' =>
      if Contains p (ev_Name env) then (p, ev_Value env) :: settings'
      else (p, v) :: set_value settings' env
  end.

(** ** The module *)

(** whether or not it is enabled *)
Definition getObservabilityModule (cr : CSM) : outcome Module :=
  match find_module Observability (sp_Modules (cr_Spec cr)) with
  | Some m => Ok m
  | None => Fail (Errorf "could not find observability module")
  end.

Definition old_version (configVersion : string) : bool :=
  Contains configVersion "v2.13" || Contains configVersion "v2.14".

Definition getNewAuthSecretName (driverType secretName : string) : string :=
  driverType +:+ "-" +:+ secretName.

Definition createObsSecretObj (driverSecret : Secret) (newNameSpace newSecretName : string)
    : Object :=
  OSecret (mkSecretOf (named newNameSpace newSecretName) (se_Data driverSecret)
             (se_Type driverSecret) None).

Section manifests.
Context `{Host} `{MapOrder} `{ManifestCodec}.

(** *** Topology *)

(** image and log level after the loop over the components *)
Definition topology_step (cr : CSM) (matched : VersionSpec) (y : string) (st : string * string)
    (component : ContainerTemplate) : string * string :=
  let '(image, logLevel) := st in
  if decide (ct_Name component = ObservabilityTopologyName) then
    (GetFinalImage cr matched component y,
     foldl (λ l env, if Contains TopologyLogLevel (ev_Name env) then ev_Value env else l)
       logLevel (default [] (ct_Envs component)))
  else st.

Definition getTopology (op : OperatorConfig) (cr : CSM) (matched : VersionSpec)
    : outcome (list Object) :=
  obs ← getObservabilityModule cr;
  y ← readConfigFile obs cr op TopologyYamlFile;
  let '(image, logLevel) := foldl (topology_step cr matched y) ("", "INFO") (m_Components obs) in
  objs ← GetModuleComponentObj
           (substitute y [(CSMName, cr_Name cr); (CSMNameSpace, cr_Namespace cr);
                          (TopologyLogLevel, logLevel)]);
  Ok (SetContainerImage objs "karavi-topology" "karavi-topology" image).

(** *** The collector *)

(** an image that is listed, or else the custom registry's *)
Definition nginx_image (cr : CSM) (matched : VersionSpec) (image : string) : string :=
  let img := matched_image matched "nginx-proxy" in
  if decide (img ≠ "") then img
  else if decide (sp_CustomRegistry (cr_Spec cr) ≠ "") then ResolveImage image cr
  else image.

(** the two images, and whether the collector's is listed *)
Record OtelState := mkOtelState {
  ot_nginx : string;
  ot_collector : string;
  ot_listed : bool
}.

Definition otel_step (cr : CSM) (matched : VersionSpec) (st : OtelState)
    (component : ContainerTemplate) : OtelState :=
  if decide (ct_Name component = ObservabilityOtelCollectorName) then
    let img := matched_image matched (ct_Name component) in
    let '(collector, listed) :=
      if decide (img ≠ "") then (img, true) else (ot_collector st, ot_listed st) in
    let collector :=
      if listed then collector
      else if decide (sp_CustomRegistry (cr_Spec cr) ≠ "") then ResolveImage collector cr
      else if decide (ct_Image component ≠ "") then ct_Image component
      else collector in
    let nginx :=
      foldl (λ nginx env,
          if Contains NginxProxyImage (ev_Name env) then nginx_image cr matched (ev_Value env)
          else nginx)
        (ot_nginx st) (default [] (ct_Envs component)) in
    mkOtelState nginx collector listed
  else st.

Definition otel_default (configVersion : string) : string :=
  if decide (configVersion ∈ ["v2.11.0"; "v2.12.0"; "v2.13.0"])
  then "otel/opentelemetry-collector:0.42.0"
  else "ghcr.io/open-telemetry/opentelemetry-collector-releases/opentelemetry-collector:0.143.1".

Definition getOtelCollector (op : OperatorConfig) (cr : CSM) (matched : VersionSpec)
    : outcome string :=
  obs ← getObservabilityModule cr;
  y ← readConfigFile obs cr op OtelCollectorYamlFile;
  let nginx := nginx_image cr matched "quay.io/nginx/nginx-unprivileged:1.27" in
  configVersion ← GetVersion cr op;
  let st := foldl (otel_step cr matched)
              (mkOtelState nginx (otel_default configVersion) false) (m_Components obs) in
  Ok (substitute y [(CSMName, cr_Name cr); (CSMNameSpace, cr_Namespace cr);
                    (OtelCollectorImage, ot_collector st); (NginxProxyImage, ot_nginx st)]).

(** *** Metrics *)

(** image and settings after the loop over the components *)
Definition metrics_step (k : MetricsKind) (cr : CSM) (matched : VersionSpec) (y : string)
    (st : string * list (string * string)) (component : ContainerTemplate)
    : string * list (string * string) :=
  if decide (ct_Name component = mk_component k) then
    (GetFinalImage cr matched component y,
     foldl set_value (snd st) (default [] (ct_Envs component)))
  else st.

Definition metrics_params (k : MetricsKind) (cr : CSM) (settings : list (string * string))
    : list (string * string) :=
  [(CSMName, cr_Name cr); (CSMNameSpace, cr_Namespace cr)]
  ++ ((λ p, (p, setting settings p)) <$> mk_order k)
  ++ [(DriverDefaultReleaseName, cr_Name cr)].

Definition get_metrics_objects (k : MetricsKind) (op : OperatorConfig) (cr : CSM)
    (matched : VersionSpec) : outcome (list Object) :=
  obs ← getObservabilityModule cr;
  y ← readConfigFile obs cr op (mk_file k);
  let '(image, settings) :=
    foldl (metrics_step k cr matched y) ("", mk_settings k) (m_Components obs) in
  objs ← GetModuleComponentObj (substitute y (metrics_params k cr settings));
  Ok (SetContainerImage objs (mk_deployment k) (mk_deployment k) image).

Definition getPowerStoreMetricsObjects := get_metrics_objects powerstore_metrics.
Definition getPowerScaleMetricsObjects := get_metrics_objects powerscale_metrics.
Definition getPowerFlexMetricsObject := get_metrics_objects powerflex_metrics.
Definition getPowerMaxMetricsObject := get_metrics_objects powermax_metrics.

(** *** Certificates *)

(** those of the last component of the name *)
Definition given_certificate (obs : Module) (componentName : string) : string * string :=
  foldl (λ st component,
      if decide (ct_Name component = componentName)
      then (ct_Certificate component, ct_PrivateKey component) else st)
    ("", "") (m_Components obs).

Definition getIssuerCertServiceObs (op : OperatorConfig) (obs : Module) (componentName : string)
    (cr : CSM) : outcome string :=
  let '(certificate, privateKey) := given_certificate obs componentName in
  y ← (if decide (certificate ≠ "" ∨ privateKey ≠ "") then
         if decide (certificate ≠ "" ∧ privateKey ≠ "") then readConfigFile obs cr op CustomCert
         else Fail (Errorf
           ("observability install failed -- either cert or privatekey missing for "
            +:+ componentName +:+ " custom cert"))
       else readConfigFile obs cr op SelfSignedCert);
  Ok (substitute y
        [(ObservabilityCertificate, certificate); (ObservabilityPrivateKey, privateKey);
         (ObservabilitySecretPrefix, lookup_zero ComponentNameToSecretPrefix componentName);
         (CSMNameSpace, cr_Namespace cr)]).

Definition cert_components : list string :=
  [ObservabilityOtelCollectorName; ObservabilityTopologyName; ObservabilityMetricsPowerStoreName].

(** *** The deployment of the metrics *)

(** the volume of the driver's secret *)
Definition set_config_volume (cr : CSM) (v : VolumeApply) : outcome VolumeApply :=
  name ← deref (va_Name v);
  let authSecret := d_AuthSecret (sp_Driver (cr_Spec cr)) in
  if decide (name = lookup_zero defaultVolumeConfigName (GetDriverType cr) ∧ authSecret ≠ "") then
    s ← deref (va_Secret v);
    Ok (mkVolumeApply (va_Name v) (Some (mkSecretVolume (Some authSecret) (sv_Optional s)))
          (va_ConfigMap v) (va_Projected v) (va_Rest v))
  else Ok v.

(** the prefix of the secrets that authorization uses *)
Definition prefix_volume (cr : CSM) (v : VolumeApply) : outcome VolumeApply :=
  name ← deref (va_Name v);
  if decide (name ∈ defaultAuthSecretsName) then
    s ← deref (va_Secret v);
    secretName ← deref (sv_SecretName s);
    Ok (mkVolumeApply (va_Name v)
          (Some (mkSecretVolume (Some (getNewAuthSecretName (GetDriverType cr) secretName))
                   (sv_Optional s)))
          (va_ConfigMap v) (va_Projected v) (va_Rest v))
  else Ok v.

Definition prefix_env (cr : CSM) (env : EnvVarApply) : outcome EnvVarApply :=
  name ← deref (ea_Name env);
  if decide (name = "ACCESS_TOKEN" ∨ name = "REFRESH_TOKEN") then
    from ← deref (ea_ValueFrom env);
    key ← deref (es_SecretKeyRef from);
    secretName ← deref (sk_Name key);
    if decide (secretName ∈ defaultAuthSecretsName) then
      Ok (mkEnvVarApply (ea_Name env) (ea_Value env)
            (Some (mkEnvVarSource (es_FieldRef from)
               (Some (mkSecretKeySelector
                  (Some (getNewAuthSecretName (GetDriverType cr) secretName))
                  (sk_Key key) (sk_Optional key)))
               (es_ConfigMapKeyRef from) (es_ResourceFieldRef from))))
    else Ok env
  else Ok env.

Definition prefix_container (cr : CSM) (c : ContainerApply) : outcome ContainerApply :=
  name ← deref (ca_Name c);
  if decide (name = AuthSidecarComponent) then
    env ← each (prefix_env cr) (ca_Env c);
    Ok (set_ca_Env env c)
  else Ok c.

Definition on_volumes (f : VolumeApply → outcome VolumeApply) (d : Workload) : outcome Workload :=
  p ← pod_spec d;
  vs ← each f (pod_Volumes p);
  Ok (set_pod (set_pod_Volumes vs p) d).

Definition on_containers (f : ContainerApply → outcome ContainerApply) (d : Workload)
    : outcome Workload :=
  p ← pod_spec d;
  cs ← each f (pod_Containers p);
  Ok (set_pod (set_pod_Containers cs p) d).

(** [yaml.Marshal] and [yaml.Unmarshal] between the two types of a deployment *)
Definition as_apply (d : Deployment) : outcome Workload :=
  dpBuf ← res (yaml_MarshalObject (ODeployment d));
  res (yaml_Workload dpBuf).

(** *** PowerMax: the config map of the reverse proxy *)

Definition metrics_config_map (obs : Module) : string :=
  foldl (λ cm component,
      if decide (ct_Name component = ObservabilityMetricsPowerMaxName) then
        match list_find (λ env, ev_Name env = "X_CSI_CONFIG_MAP_NAME")
                (default [] (ct_Envs component)) with
        | Some (_, env) => ev_Value env
        | None => cm
        end
      else cm)
    "powermax-reverseproxy-config" (m_Components obs).

Definition setPowerMaxMetricsConfigMap (d : Workload) (cr : CSM) : outcome Workload :=
  obs ← getObservabilityModule cr;
  let cm := metrics_config_map obs in
  p ← pod_spec d;
  vs ← dynamicallyAddVolume (pod_Volumes p)
         (mkVolumeApply (Some cm) None (Some (mkConfigMapVolume (Some cm) (Some false))) None NoSource);
  match pod_Containers p with
  | [] => Panic "index out of range [0] with length 0"
  | c :: cs =>
      c ← dynamicallyMountVolume c
            (mkVolumeMountApply (Some cm) (Some "/etc/reverseproxy") None "");
      Ok (set_pod (set_pod_Volumes vs (set_pod_Containers (c :: cs) p)) d)
  end.
End manifests.

(** the place of the first deployment *)
Fixpoint first_deployment (objs : list Object) : option (nat * Deployment) :=
  match objs with
  | [] => None
  | ODeployment d :: _ => Some (O, d)
  | _ :: objs' => (λ '(i, d), (S i, d)) <$> first_deployment objs'
  end.

(** ** On the cluster *)

Section observability.
Context {W : Type} `{Client W} `{Host} `{MapOrder} `{ManifestCodec}.

Definition apply_ctrl_or_delete : bool → list Object → M (World W) () :=
  each_object ApplyCTRLObject.

Definition ObservabilityTopology (isDeleting : bool) (op : OperatorConfig) (cr : CSM)
    (matched : VersionSpec) : M (World W) () :=
  configVersion ← lift (GetVersion cr op);
  if old_version configVersion then
    topoObjects ← lift (getTopology op cr matched);
    apply_ctrl_or_delete isDeleting topoObjects
  else failM (Errorf "CSM Operator does not suport topology deployment from CSM 1.15 onwards").

Definition OtelCollector (isDeleting : bool) (op : OperatorConfig) (cr : CSM)
    (matched : VersionSpec) : M (World W) () :=
  y ← lift (getOtelCollector op cr matched);
  otelObjects ← lift (GetModuleComponentObj y);
  apply_ctrl_or_delete isDeleting otelObjects.

(** A flag that is not set panics, for the components that are looked at. *)
Definition IssuerCertServiceObs (isDeleting : bool) (op : OperatorConfig) (cr : CSM)
    : M (World W) () :=
  obs ← lift (getObservabilityModule cr);
  forM (λ component,
      if decide (ct_Name component ∈ cert_components) then
        enabled ← lift (deref (ct_Enabled component));
        when enabled
          (y ← lift (getIssuerCertServiceObs op obs (ct_Name component) cr);
           applyDeleteObjects y isDeleting)
      else mret ())
    (m_Components obs).

(** The request comes back as the injection of authorization leaves it. *)
Definition parseObservabilityMetricsDeployment (d : Deployment) (op : OperatorConfig) (cr : CSM)
    : M (World W) (Workload * CSM) :=
  dp ← lift (as_apply d);
  dp ← lift (on_volumes (set_config_volume cr) dp);
  '(dp, cr) ← (if fst (IsModuleEnabled cr Authorization)
               then orFail (AuthInjectDeployment dp cr op)
                      (errorf "injecting auth into Observability metrics deployment")
               else mret (dp, cr));
  configVersion ← lift (GetVersion cr op);
  dp ← lift (if old_version configVersion then
               dp ← on_volumes (prefix_volume cr) dp;
               on_containers (prefix_container cr) dp
             else Ok dp);
  mret (dp, cr).

(** *** Copies of the secrets of the driver

    The error for the driver's own secret prints the secret that was not found. *)

Definition copy_secret (cr : CSM) (name shown : string) (newName : Secret → string)
    : M (World W) Object :=
  found ← orFail (GetSecret name (cr_Namespace cr))
            (λ e, Errorf ("reading secret [" +:+ shown +:+ "] error [" +:+ error_text e +:+ "]"));
  mret (createObsSecretObj found ObservabilityNamespace (newName found)).

(** the setting of the first component, which must be a boolean; the certificate is skipped
    without one *)
Definition skip_certificate (auth : Module) : outcome bool :=
  component ← first_component auth;
  match first_env SkipCertificate (component_envs component) with
  | None => Ok true
  | Some env =>
      wrapErr (ParseBool (ev_Value env)) (is_an_invalid_value SkipCertificate (ev_Value env))
  end.

Definition copied_auth_secrets (skipCertValid : bool) : list string :=
  filter (λ s, ¬ (s = RootCertificate ∧ skipCertValid = true)) defaultAuthSecretsName.

Fixpoint copy_auth_secrets (cr : CSM) (names : list string) (objects : list Object)
    : M (World W) (list Object) :=
  match names with
  | [] => mret objects
  | s :: names' =>
      o ← copy_secret cr s s (λ found,
            getNewAuthSecretName (GetDriverType cr) (om_Name (se_Meta found)));
      copy_auth_secrets cr names' (objects ++ [o])
  end.

Definition appendObservabilitySecrets (cr : CSM) (objects : list Object)
    : M (World W) (list Object) :=
  let given := d_AuthSecret (sp_Driver (cr_Spec cr)) in
  let driverSecretName :=
    if decide (given ≠ "") then given
    else ReplaceAll (lookup_zero defaultSecretsName (GetDriverType cr)) DriverDefaultReleaseName
           (cr_Name cr) in
  o ← copy_secret cr driverSecretName "nil" (λ found, om_Name (se_Meta found));
  let '(enabled, auth) := IsModuleEnabled cr Authorization in
  if (enabled : bool) then
    skipCertValid ← lift (skip_certificate auth);
    copy_auth_secrets cr (copied_auth_secrets skipCertValid) (objects ++ [o])
  else mret (objects ++ [o]).

(** *** The metrics of a driver *)

(** a lookup that fails is only logged *)
Definition delete_deployment (dp : Workload) : M (World W) () :=
  remove_workload Deployment (errorf "error deleting deployment") dp.

(** what PowerMax does to the deployment *)
Definition adapt_metrics (op : OperatorConfig) (cr : CSM) (dp : Workload)
    : M (World W) Workload :=
  version ← lift (GetVersion cr op);
  secretSupported ← lift (MinVersionCheck PowerMaxMountCredentialMinVersion version);
  dp ← (if (secretSupported : bool) && UseReverseProxySecret cr
        then dropErr (DynamicallyMountPowermaxContent dp cr) dp else mret dp);
  if UseReverseProxySecret cr then mret dp else lift (setPowerMaxMetricsConfigMap dp cr).

(** the steps before the objects are applied: the deployment and the other objects *)
Definition metrics_objects (k : MetricsKind)
    (adapt : CSM → Workload → M (World W) Workload) (withSecrets : bool)
    (op : OperatorConfig) (cr : CSM) : M (World W) (Workload * list Object) :=
  matched ← (if decide (sp_Version (cr_Spec cr) = "") then mret zero_VersionSpec
             else ResolveVersionFromConfigMap cr);
  objs ← lift (get_metrics_objects k op cr matched);
  match first_deployment objs with
  | None => failM (Errorf "could not find deployment obj")
  | Some (i, d) =>
      '(dp, cr) ← parseObservabilityMetricsDeployment d op cr;
      let objs := swap_remove i objs in
      dp ← adapt cr dp;
      objs ← (if withSecrets then
                configVersion ← lift (GetVersion cr op);
                if old_version configVersion then
                  orFail (appendObservabilitySecrets cr objs)
                    (errorf ("copy secrets from " +:+ cr_Namespace cr))
                else mret objs
              else mret objs);
      mret (dp, objs)
  end.

Definition metrics (k : MetricsKind) (adapt : CSM → Workload → M (World W) Workload)
    (withSecrets : bool) (isDeleting : bool) (op : OperatorConfig) (cr : CSM) : M (World W) () :=
  '(dp, objs) ← metrics_objects k adapt withSecrets op cr;
  _ ← apply_ctrl_or_delete isDeleting objs;
  if isDeleting then delete_deployment dp else SyncDeployment dp (cr_Name cr).

Definition keep_deployment (cr : CSM) (dp : Workload) : M (World W) Workload := mret dp.

Definition PowerScaleMetrics : bool → OperatorConfig → CSM → M (World W) () :=
  metrics powerscale_metrics keep_deployment true.
Definition PowerFlexMetrics : bool → OperatorConfig → CSM → M (World W) () :=
  metrics powerflex_metrics keep_deployment true.
Definition PowerStoreMetrics : bool → OperatorConfig → CSM → M (World W) () :=
  metrics powerstore_metrics keep_deployment false.
Definition PowerMaxMetrics (isDeleting : bool) (op : OperatorConfig) (cr : CSM)
    : M (World W) () :=
  metrics powermax_metrics (adapt_metrics op) true isDeleting op cr.

(** *** The check *)

Context `{Directory}.

Definition observability_check (op : OperatorConfig) (obs : Module) (cr : CSM) : outcome () :=
  match ObservabilitySupportedDrivers !! d_CSIDriverType (sp_Driver (cr_Spec cr)) with
  | None =>
      Fail (Errorf ("CSM Operator does not suport Observability deployment for "
        +:+ d_CSIDriverType (sp_Driver (cr_Spec cr)) +:+ " driver"))
  | Some _ =>
      if decide (m_ConfigVersion obs = "") then Ok ()
      else checkVersion Observability (m_ConfigVersion obs) (oc_ConfigDirectory op)
  end.

Definition ObservabilityPrecheck (op : OperatorConfig) (obs : Module) (cr : CSM)
    : M (World W) (CSM * option error) :=
  reading_check cr (lift (observability_check op obs cr)).
End observability.

(** ** Properties *)

(** *** Settings *)

(** Whether the name of a setting is looked for, as a substring, finds that setting only. *)
Definition unambiguous (ps : list string) : bool :=
  forallb (λ p, forallb (λ q, bool_decide (Contains q (bare p) = bool_decide (p = q))) ps) ps.

Definition metrics_tables : list MetricsKind :=
  [powerscale_metrics; powerflex_metrics; powermax_metrics; powerstore_metrics].

Lemma metrics_tables_ok k : k ∈ metrics_tables →
  unambiguous (mk_settings k).*1 = true ∧ NoDup (mk_settings k).*1
  ∧ mk_order k ≡ₚ (mk_settings k).*1.
Proof.
  intros Hk. assert (Forall (λ k, unambiguous (mk_settings k).*1 = true
    ∧ NoDup (mk_settings k).*1 ∧ mk_order k ≡ₚ (mk_settings k).*1) metrics_tables) as Hall.
  { unfold metrics_tables. repeat (apply Forall_cons; split; [split_and!|]); [..|by apply Forall_nil].
    all: try (vm_compute; reflexivity). all: decide_goal. }
  rewrite Forall_forall in Hall. by apply Hall.
Qed.

Lemma unambiguous_Contains ps p q :
  unambiguous ps = true → p ∈ ps → q ∈ ps → Contains q (bare p) = bool_decide (p = q).
Proof.
  unfold unambiguous. rewrite forallb_forall. intros Hall Hp Hq.
  apply list_elem_of_In in Hp, Hq. specialize (Hall p Hp). rewrite forallb_forall in Hall.
  specialize (Hall q Hq). by apply bool_decide_eq_true in Hall.
Qed.

Lemma set_value_names settings env : (set_value settings env).*1 = settings.*1.
Proof.
  induction settings as [|[p v] settings IH]; [done|]. simpl.
  destruct (Contains p _); [done|]. rewrite !fmap_cons. by rewrite IH.
Qed.

Lemma setting_cons p v settings q :
  setting ((p, v) :: settings) q = if decide (p = q) then v else setting settings q.
Proof.
  unfold setting. cbn [list_find]. change ((p, v).1) with p. destruct (decide (p = q)); [done|].
  by destruct (list_find _ settings) as [[? []]|].
Qed.

Lemma set_value_setting ps settings env p q :
  unambiguous ps = true → settings.*1 ⊆ ps → p ∈ settings.*1 → ev_Name env = bare p → p ∈ ps → q ∈ ps →
  setting (set_value settings env) q = if decide (p = q) then ev_Value env else setting settings q.
Proof.
  intros Hu. induction settings as [|[r v] settings IH]; intros Hs Hp Hn Hpp Hq;
    [by apply not_elem_of_nil in Hp|].
  simpl. rewrite Hn, (unambiguous_Contains ps) by set_solver.
  case_bool_decide as Hr.
  - subst r. rewrite !setting_cons. by case_decide.
  - rewrite !setting_cons. destruct (decide (r = q)) as [<-|Hd]; [by rewrite decide_False|].
    apply IH; try done; set_solver.
Qed.

(** the variables that the components of that name give *)
Definition envs_for (name : string) (components : list ContainerTemplate) : list EnvVar :=
  mjoin ((λ c, if decide (ct_Name c = name) then default [] (ct_Envs c) else []) <$> components).

Lemma metrics_fold k cr matched y comps st :
  snd (foldl (metrics_step k cr matched y) st comps)
  = foldl set_value (snd st) (envs_for (mk_component k) comps).
Proof.
  revert st. induction comps as [|c comps IH]; intros st; [done|]. simpl. rewrite IH.
  unfold envs_for. simpl. rewrite foldl_app. unfold metrics_step. by case_decide.
Qed.

(** The settings of the metrics of each of the four drivers. Variables are looked for by
    substring, yet with the names of the settings each one reaches its own setting only; a
    setting has the last value given, an empty one too, or its default, and every one of them
    is put into the manifest. *)
Theorem metrics_settings_spec `{Host} `{MapOrder} k cr matched y comps p dflt :
  k ∈ metrics_tables → (p, dflt) ∈ mk_settings k →
  let envs := envs_for (mk_component k) comps in
  Forall (λ e, ev_Name e ∈ bare <$> (mk_settings k).*1) envs →
  (p, env_value (bare p) dflt envs)
  ∈ metrics_params k cr (snd (foldl (metrics_step k cr matched y) ("", mk_settings k) comps)).
Proof.
  intros Hk Hp envs He. rewrite metrics_fold. cbn [snd]. fold envs.
  destruct (metrics_tables_ok k Hk) as (Hu & Hd & Ho).
  assert (p ∈ (mk_settings k).*1) as Hpk by (apply list_elem_of_fmap; by exists (p, dflt)).
  unfold metrics_params. rewrite !elem_of_app. right. left.
  apply list_elem_of_fmap. exists p. split; [|by rewrite Ho]. f_equal.
  assert ((foldl set_value (mk_settings k) envs).*1 = (mk_settings k).*1
          ∧ setting (foldl set_value (mk_settings k) envs) p = env_value (bare p) dflt envs) as [_ ->];
    [|done].
  clear -He Hu Hd Hp Hpk. induction envs as [|e envs IH] using rev_ind.
  - split; [done|]. simpl. clear -Hp Hd. induction (mk_settings k) as [|[q v] l IH]; [by apply not_elem_of_nil in Hp|].
    rewrite setting_cons. apply NoDup_cons in Hd as [Hq Hd]. case_decide as Hpq.
    + subst q. apply elem_of_cons in Hp as [[= ->]|Hp]; [done|]. destruct Hq.
      apply list_elem_of_fmap. by exists (p, dflt).
    + apply IH; [|done]. apply elem_of_cons in Hp as [[= ->]|Hp]; done.
  - apply Forall_app in He as [He [Hlast _]%Forall_cons]. destruct (IH He) as [IH1 IH2].
    apply list_elem_of_fmap in Hlast as (q & Hq & Hqk). rewrite foldl_app. simpl.
    rewrite set_value_names. split; [done|].
    rewrite (set_value_setting (mk_settings k).*1 _ _ q) by (done || rewrite IH1; done).
    unfold env_value. rewrite foldl_app. cbn [foldl]. fold (env_value (bare p) dflt envs).
    rewrite <- IH2. rewrite Hq. destruct (decide (q = p)) as [->|Hne].
    + by rewrite decide_True.
    + rewrite decide_False; [done|]. intros Hb.
      pose proof (unambiguous_Contains _ q p Hu Hqk Hpk) as H1. rewrite Hb in H1.
      rewrite (unambiguous_Contains _ p p Hu Hpk Hpk) in H1. rewrite bool_decide_eq_true_2 in H1 by done.
      symmetry in H1. by apply bool_decide_eq_true in H1.
Qed.

(** *** On the cluster *)

Definition no_deployment (o : Object) : Prop := ∀ d, o ≠ ODeployment d.

Lemma first_deployment_spec objs i d :
  first_deployment objs = Some (i, d) →
  ∃ pre post, objs = pre ++ ODeployment d :: post ∧ Forall no_deployment pre ∧ i = length pre.
Proof.
  revert i. induction objs as [|o objs IH]; intros i E; [done|].
  assert (no_deployment o → ∃ pre post, o :: objs = pre ++ ODeployment d :: post
    ∧ Forall no_deployment pre ∧ i = length pre) as Hnext.
  { intros Ho. assert (∃ j, first_deployment objs = Some (j, d) ∧ i = S j) as (j & Ej & ->).
    { destruct o; simpl in E; try (by destruct (Ho _ eq_refl));
        destruct (first_deployment objs) as [[j d']|]; try done; injection E as <- <-; by exists j. }
    destruct (IH _ Ej) as (pre & post & -> & Hpre & ->).
    exists (o :: pre), post. split_and!; try done. by constructor. }
  destruct o; try (apply Hnext; by intros ?).
  injection E as <- <-. by exists [], objs.
Qed.

(** a secret that the module copies *)
Definition copied (o : Object) : Prop :=
  ∃ s, o = OSecret s ∧ om_Namespace (se_Meta s) = ObservabilityNamespace.

(** two workloads of one name and namespace *)
Definition same_place (d d' : Workload) : Prop :=
  wl_Name d' = wl_Name d ∧ wl_Namespace d' = wl_Namespace d.

Lemma same_place_trans d1 d2 d3 : same_place d1 d2 → same_place d2 d3 → same_place d1 d3.
Proof. intros [E1 E2] [E3 E4]. split; congruence. Qed.

Lemma set_pod_place p d : same_place d (set_pod p d).
Proof. unfold same_place, wl_Name, wl_Namespace. by rewrite (proj1 (set_pod_fields p d)). Qed.

Lemma on_volumes_place f d d' : on_volumes f d = Ok d' → same_place d d'.
Proof.
  intros E. apply outcome_bind_Ok in E as (p & _ & E). apply outcome_bind_Ok in E as (vs & _ & [= <-]).
  apply set_pod_place.
Qed.

Lemma on_containers_place f d d' : on_containers f d = Ok d' → same_place d d'.
Proof.
  intros E. apply outcome_bind_Ok in E as (p & _ & E). apply outcome_bind_Ok in E as (cs & _ & [= <-]).
  apply set_pod_place.
Qed.

Lemma mount_content_place d cr d' : DynamicallyMountPowermaxContent d cr = Ok d' → same_place d d'.
Proof.
  unfold DynamicallyMountPowermaxContent. intros E. apply outcome_bind_Ok in E as (s & _ & E).
  destruct (ws_Template s) as [t|]; [|done]. apply outcome_bind_Ok in E as (p & _ & E).
  apply outcome_bind_Ok in E as (p' & _ & [= <-]). apply set_pod_place.
Qed.

(** The secrets that are looked up with their names as copies: for the two oldest versions the
    driver's own, by its own name, and with authorization its secrets, with the driver's type
    before the name, less the certificate when that is skipped. *)
Definition wanted_secrets `{Host} `{MapOrder} (op : OperatorConfig) (cr : CSM)
    : outcome (list (string * (Secret → string))) :=
  v ← GetVersion cr op;
  if old_version v then
    let given := d_AuthSecret (sp_Driver (cr_Spec cr)) in
    let own := if decide (given ≠ "") then given
               else ReplaceAll (lookup_zero defaultSecretsName (GetDriverType cr))
                      DriverDefaultReleaseName (cr_Name cr) in
    let name found := om_Name (se_Meta found) in
    let prefixed s := (s : string, λ found, GetDriverType cr +:+ "-" +:+ name found) in
    let '(enabled, auth) := IsModuleEnabled cr Authorization in
    if (enabled : bool) then
      skip ← skip_certificate auth;
      Ok ((own, name)
          :: (prefixed <$> if (skip : bool) then filter (λ s, s ≠ RootCertificate) defaultAuthSecretsName
                           else defaultAuthSecretsName))
    else Ok [(own, name)]
  else Ok [].

Section metrics.
Context {W : Type} `{Client W} `{!View W} `{!ClientLaws (W := W)} `{Host} `{MapOrder}
  `{ManifestCodec}.
#[local] Set Default Proof Using "All".

(** the copies that looking these secrets up one after the other gives *)
Inductive copies (cr : CSM) :
    list (string * (Secret → string)) → World W → list Object → World W → Prop :=
  | copies_none w : copies cr [] w [] w
  | copies_more name new wanted w found w1 objs w2 :
      GetSecret name (cr_Namespace cr) w = (Ok found, w1) → copies cr wanted w1 objs w2 →
      copies cr ((name, new) :: wanted) w
        (createObsSecretObj found ObservabilityNamespace (new found) :: objs) w2.

Lemma copies_copied cr wanted w objs w' : copies cr wanted w objs w' → Forall copied objs.
Proof using Type. induction 1; constructor; [by eexists|done]. Qed.

Lemma copies_seen cr wanted w objs w' : copies cr wanted w objs w' → seen w' = seen w.
Proof.
  induction 1 as [|name new wanted w found w1 objs w2 E _ IH]; [done|]. rewrite IH.
  eapply reads_seen, E. apply reads_GetSecret.
Qed.

Lemma reads_AuthInjectDeployment d cr op : reads (AuthInjectDeployment d cr op).
Proof. apply reads_inject_proxy. Qed.

Lemma reads_parse d op cr : reads (parseObservabilityMetricsDeployment d op cr).
Proof.
  unfold reads, parseObservabilityMetricsDeployment. do 2 (apply touches_bind; [solve_touches|intros ?]).
  apply touches_bind; [|intros [? ?]; solve_touches].
  case_match; [apply touches_orFail, reads_AuthInjectDeployment|apply touches_ret].
Qed.

Lemma reads_copy_secret cr name shown newName : reads (copy_secret cr name shown newName).
Proof. unfold reads, copy_secret, GetSecret. solve_touches. Qed.

Lemma copy_secret_copies cr name shown new wanted w o w1 objs w2 :
  copy_secret cr name shown new w = (Ok o, w1) → copies cr wanted w1 objs w2 →
  copies cr ((name, new) :: wanted) w (o :: objs) w2.
Proof using Type.
  unfold copy_secret. intros E. apply M_bind_Ok in E as (found & w0 & Ef & E).
  injection E as <- <-. apply orFail_Ok in Ef. by apply copies_more.
Qed.

Lemma reads_copy_auth_secrets cr names objs : reads (copy_auth_secrets cr names objs).
Proof.
  revert objs. induction names as [|s names IH]; intros objs; simpl; [apply touches_ret|].
  apply touches_bind; [apply reads_copy_secret|intros o; apply IH].
Qed.

Lemma copy_auth_secrets_copies cr names objs w objs' w' :
  copy_auth_secrets cr names objs w = (Ok objs', w') →
  ∃ secrets, objs' = objs ++ secrets
    ∧ copies cr ((λ s, (s, λ found, getNewAuthSecretName (GetDriverType cr) (om_Name (se_Meta found))))
                 <$> names) w secrets w'.
Proof using Type.
  revert objs w. induction names as [|s names IH]; intros objs w; simpl.
  - intros [= <- <-]. exists []. rewrite app_nil_r. split; [done|constructor].
  - intros E. apply M_bind_Ok in E as (o & w1 & Eo & E). apply IH in E as (secrets & -> & Hs).
    exists (o :: secrets). rewrite <- app_assoc. split; [done|].
    by eapply copy_secret_copies.
Qed.

Lemma reads_append_secrets cr objs : reads (appendObservabilitySecrets cr objs).
Proof.
  unfold appendObservabilitySecrets. destruct (IsModuleEnabled cr Authorization) as [[] auth];
    (apply touches_bind; [apply reads_copy_secret|intros o]); [|apply touches_ret].
  apply touches_bind; [apply touches_lift|intros b]. apply reads_copy_auth_secrets.
Qed.

Lemma append_secrets_copies op cr objs w v objs' w' :
  GetVersion cr op = Ok v → old_version v = true →
  appendObservabilitySecrets cr objs w = (Ok objs', w') →
  ∃ wanted secrets, wanted_secrets op cr = Ok wanted ∧ objs' = objs ++ secrets
    ∧ copies cr wanted w secrets w'.
Proof using Type.
  intros Ev Eo. unfold appendObservabilitySecrets.
  destruct (IsModuleEnabled cr Authorization) as [[] auth] eqn:Ei; intros E;
    apply M_bind_Ok in E as (o & w1 & Eown & E).
  - apply M_bind_Ok in E as (skip & w2 & Es & E). injection Es as Es <-.
    apply copy_auth_secrets_copies in E as (secrets & -> & Hs).
    eexists _, (o :: secrets). split.
    { unfold wanted_secrets. rewrite Ev. simpl. rewrite Eo, Ei, Es. reflexivity. }
    rewrite <- app_assoc. split; [done|].
    eapply copy_secret_copies; [exact Eown|]. unfold copied_auth_secrets in Hs. destruct skip.
    + erewrite (list_filter_iff (λ s, s ≠ RootCertificate)); [exact Hs|]. naive_solver.
    + by rewrite (filter_all _ defaultAuthSecretsName) in Hs by (apply Forall_forall; naive_solver).
  - injection E as <- <-. eexists _, [o]. split.
    { unfold wanted_secrets. rewrite Ev. simpl. rewrite Eo, Ei. reflexivity. }
    split; [done|]. eapply copy_secret_copies; [exact Eown|constructor].
Qed.

Lemma inject_proxy_place d cr op w d' cr' w' :
  inject_proxy d cr op w = (Ok (d', cr'), w') → same_place d d'.
Proof using Type.
  intros E. apply M_bind_Ok in E as ([[[m' c1] matched] cr1] & w1 & _ & E).
  apply M_bind_Ok in E as (c & w2 & _ & E). apply M_bind_Ok in E as (comp & w3 & _ & E).
  apply M_bind_Ok in E as (vols & w4 & _ & E). apply M_bind_Ok in E as (d1 & w5 & Ed & E).
  injection E as <- _ _. injection Ed as Ed _. apply add_proxy_Ok in Ed as (m & p & Hm & _ & ->).
  eapply same_place_trans, set_pod_place. unfold same_place, wl_Name, wl_Namespace. simpl.
  by rewrite Hm.
Qed.

Lemma parse_place d op cr w dp cr' w' :
  parseObservabilityMetricsDeployment d op cr w = (Ok (dp, cr'), w') →
  ∃ dp0, as_apply d = Ok dp0 ∧ same_place dp0 dp.
Proof.
  intros E. apply M_bind_Ok in E as (dp0 & w1 & E0 & E). injection E0 as E0 <-.
  apply M_bind_Ok in E as (dp1 & w1 & E1 & E). injection E1 as E1 <-.
  apply M_bind_Ok in E as ([dp2 cr2] & w2 & E2 & E).
  apply M_bind_Ok in E as (v & w3 & _ & E). apply M_bind_Ok in E as (dp3 & w4 & E3 & E).
  injection E as <- _ _. injection E3 as E3 _. exists dp0. split; [done|].
  eapply same_place_trans; [by eapply on_volumes_place|]. apply same_place_trans with dp2.
  - destruct (fst _); [|by injection E2 as <- _ _]. apply orFail_Ok, inject_proxy_place in E2. exact E2.
  - destruct (old_version v); [|by injection E3 as <-].
    apply outcome_bind_Ok in E3 as (dp4 & E3 & E4).
    eapply same_place_trans; [by eapply on_volumes_place|by eapply on_containers_place].
Qed.

Lemma reads_adapt_metrics op cr dp : reads (adapt_metrics op cr dp).
Proof. unfold reads, adapt_metrics, dropErr. solve_touches. Qed.

(** A run up to the point where the objects are applied: the manifest [manifest] has [d] as its
    first deployment, between [pre] and [post]; [dp] is [d] as the settings of the request and
    [adapt] leave it, at its place; [secrets] are the copies; [w'] is the world then, in which
    nothing has changed. *)
Record metrics_ready (k : MetricsKind) (adapt : CSM → Workload → M (World W) Workload) (b : bool)
    (op : OperatorConfig) (cr : CSM) (w : World W) (pre : list Object) (d : Deployment)
    (post : list Object) (dp : Workload) (secrets : list Object) (w' : World W) : Prop := {
  ready_manifest : ∃ matched, get_metrics_objects k op cr matched = Ok (pre ++ ODeployment d :: post)
    ∧ if decide (sp_Version (cr_Spec cr) = "") then matched = zero_VersionSpec
      else fst (ResolveVersionFromConfigMap cr w) = Ok matched;
  ready_first : Forall no_deployment pre;
  ready_deployment : ∃ w1 dp1 cr1 w2 w3 wanted,
    seen w1 = seen w
    ∧ parseObservabilityMetricsDeployment d op cr w1 = (Ok (dp1, cr1), w2)
    ∧ adapt cr1 dp1 w2 = (Ok dp, w3)
    ∧ (if (b : bool) then wanted_secrets op cr1 = Ok wanted else wanted = [])
    ∧ copies cr1 wanted w3 secrets w';
  ready_place : ∃ dp0, as_apply d = Ok dp0 ∧ same_place dp0 dp;
  ready_seen : seen w' = seen w
}.

(** [adapt] only reads, and leaves a workload at its place *)
Definition adapts (adapt : CSM → Workload → M (World W) Workload) : Prop :=
  ∀ cr dp, reads (adapt cr dp)
    ∧ ∀ w dp' w', adapt cr dp w = (Ok dp', w') → same_place dp dp'.

Lemma metrics_objects_run k adapt b op cr w dp objs w' :
  adapts adapt → metrics_objects k adapt b op cr w = (Ok (dp, objs), w') →
  ∃ pre d post secrets,
    metrics_ready k adapt b op cr w pre d post dp secrets w'
    ∧ objs = swap_remove (length pre) (pre ++ ODeployment d :: post) ++ secrets.
Proof.
  intros Ha E. unfold metrics_objects in E.
  apply M_bind_Ok in E as (matched & w1 & Em & E).
  assert (if decide (sp_Version (cr_Spec cr) = "") then matched = zero_VersionSpec
          else fst (ResolveVersionFromConfigMap cr w) = Ok matched) as Hz.
  { case_decide; [by injection Em as <- _|by rewrite Em]. }
  apply matched_seen in Em. apply M_bind_Ok in E as (manifest & w2 & Eo & E). injection Eo as Eo <-.
  destruct (first_deployment manifest) as [[i d]|] eqn:Ef; [|done].
  apply first_deployment_spec in Ef as (pre & post & -> & Hpre & ->).
  apply M_bind_Ok in E as ([dp1 cr1] & w2 & Ep & E). cbv zeta in E.
  pose proof Ep as Eps. apply reads_seen in Eps; [|apply reads_parse].
  pose proof Ep as (dp0 & Ed0 & Hp1)%parse_place.
  apply M_bind_Ok in E as (dp2 & w3 & Ed & E). destruct (Ha cr1 dp1) as [Har Hap].
  pose proof Ed as Eds. apply reads_seen in Eds; [|done]. apply Hap in Ed as Hp2.
  apply M_bind_Ok in E as (objs' & w4 & Es & E). injection E as <- <- <-.
  assert (∃ wanted secrets, objs' = swap_remove (length pre) (pre ++ ODeployment d :: post) ++ secrets
    ∧ (if b then wanted_secrets op cr1 = Ok wanted else wanted = [])
    ∧ copies cr1 wanted w3 secrets w4) as (wanted & secrets & -> & Hw & Hs).
  { destruct b.
    - apply M_bind_Ok in Es as (v & w5 & Ev & Es). injection Ev as Ev <-.
      destruct (old_version v) eqn:Hv.
      + apply orFail_Ok in Es. destruct (append_secrets_copies _ _ _ _ _ _ _ Ev Hv Es)
          as (wanted & secrets & ? & ? & ?). by exists wanted, secrets.
      + injection Es as <- <-. exists [], []. rewrite app_nil_r. split; [done|].
        split; [|constructor]. unfold wanted_secrets. rewrite Ev. simpl. by rewrite Hv.
    - injection Es as <- <-. exists [], []. rewrite app_nil_r. split_and!; [done..|constructor]. }
  exists pre, d, post, secrets. split; [|done]. split.
  - by exists matched.
  - done.
  - by exists w1, dp1, cr1, w2, w3, wanted.
  - exists dp0. split; [done|]. by eapply same_place_trans.
  - apply copies_seen in Hs. congruence.
Qed.

Lemma metrics_ready_copied k adapt b op cr w pre d post dp secrets w' :
  metrics_ready k adapt b op cr w pre d post dp secrets w' → Forall copied secrets.
Proof using Type. intros [_ _ (w1 & dp1 & cr1 & w2 & w3 & wanted & _ & _ & _ & _ & Hc) _ _]. by eapply copies_copied. Qed.

(** what is left of a list when its one deployment is taken out *)
Lemma swap_remove_middle {A} (pre : list A) x post :
  swap_remove (length pre) (pre ++ x :: post) ≡ₚ pre ++ post.
Proof using.
  apply (Permutation_cons_inv (a := x)).
  rewrite (swap_remove_perm _ _ x) by (apply list_lookup_middle; done). solve_Permutation.
Qed.

Lemma keep_adapts : adapts keep_deployment.
Proof. intros cr dp. split; [apply touches_ret|]. by intros w dp' w' [= <- _]. Qed.

Lemma adapt_metrics_adapts op : adapts (adapt_metrics op).
Proof.
  intros cr dp. split; [apply reads_adapt_metrics|]. unfold adapt_metrics, dropErr. intros w dp' w' E.
  apply M_bind_Ok in E as (v & w1 & _ & E). apply M_bind_Ok in E as (s & w2 & _ & E).
  apply M_bind_Ok in E as (dp1 & w3 & E1 & E). apply same_place_trans with dp1.
  - destruct (s && _); [|by injection E1 as <- _]. injection E1 as E1 _.
    destruct (DynamicallyMountPowermaxContent dp cr) as [x|e|y] eqn:Ex; [|by injection E1 as <-|done].
    injection E1 as <-. by eapply mount_content_place.
  - destruct (UseReverseProxySecret cr); [by injection E as <- _|]. injection E as E _.
    unfold setPowerMaxMetricsConfigMap in E. apply outcome_bind_Ok in E as (obs & _ & E).
    cbv zeta in E. apply outcome_bind_Ok in E as (p & _ & E). apply outcome_bind_Ok in E as (vs & _ & E).
    destruct (pod_Containers p) as [|c0 cs]; [done|]. apply outcome_bind_Ok in E as (c & _ & [= <-]).
    apply set_pod_place.
Qed.

(** the four drivers: what is installed, what is done to the deployment, and whether secrets
    are copied *)
Definition driver_metrics (op : OperatorConfig) :
    list (MetricsKind * (CSM → Workload → M (World W) Workload) * bool) :=
  [(powerscale_metrics, keep_deployment, true); (powerflex_metrics, keep_deployment, true);
   (powerstore_metrics, keep_deployment, false); (powermax_metrics, adapt_metrics op, true)].

Lemma driver_metrics_adapt op k adapt b : (k, adapt, b) ∈ driver_metrics op → adapts adapt.
Proof.
  unfold driver_metrics. rewrite !elem_of_cons.
  intros [[= -> -> ->]|[[= -> -> ->]|[[= -> -> ->]|[[= -> -> ->]|[]%not_elem_of_nil]]]];
    try apply keep_adapts. apply adapt_metrics_adapts.
Qed.

(** C28: the metrics of each of the four drivers. The first deployment of the manifest is
    rewritten by the settings of the request, and for PowerMax for the reverse proxy, and keeps
    its name and namespace. First everything else in the manifest is applied as it is, with the
    copies of the secrets: for the two oldest versions of PowerScale, PowerFlex and PowerMax
    those of [wanted_secrets], as they were read, in the namespace of the module; then the
    rewritten deployment is applied. Nothing else changes. After a successful installation all
    of it is there; after a successful removal all of it is gone, except that the deployment
    is left when the API server did not say whether it was there. *)
Theorem metrics_spec k adapt b op isDeleting cr w w' :
  (k, adapt, b) ∈ driver_metrics op →
  metrics k adapt b isDeleting op cr w = (Ok (), w') →
  ∃ pre d post dp secrets rest w1 w2,
    metrics_ready k adapt b op cr w pre d post dp secrets w1 ∧ rest ≡ₚ pre ++ post
    ∧ Forall copied secrets
    ∧ let dk := workload_key Deployment dp in
      let keys := obj_key <$> rest ++ secrets in
      manifest_effect isDeleting keys w1 w2
      ∧ apply_ctrl_or_delete isDeleting (rest ++ secrets) w1 = (Ok (), w2)
      ∧ (if isDeleting then delete_deployment dp else SyncDeployment dp (cr_Name cr)) w2 = (Ok (), w')
      ∧ (∀ k, k ≠ dk → seen w' !! k = seen w2 !! k)
      ∧ (isDeleting = false → NoDup (keys ++ [dk]) →
         ∀ k, k ∈ keys ++ [dk] → is_Some (seen w' !! k) ∨ dying (seen w) k)
      ∧ (isDeleting = true → ∀ k, k ∈ keys → removed (seen w') k)
      ∧ (isDeleting = true → removed (seen w') dk ∨ lookup_fails Deployment dp w2).
Proof.
  intros Hk E. unfold metrics in E. apply M_bind_Ok in E as ([dp objs] & w1 & E1 & E).
  apply metrics_objects_run in E1 as (pre & d & post & secrets & Hr & ->);
    [|by eapply driver_metrics_adapt].
  exists pre, d, post, dp, secrets, (swap_remove (length pre) (pre ++ ODeployment d :: post)), w1.
  apply M_bind_Ok in E as ([] & w2 & E2 & E). exists w2. split; [done|].
  split; [apply swap_remove_middle|]. split; [by eapply metrics_ready_copied|]. cbv zeta.
  assert (seen w1 = seen w) as Hw by by destruct Hr. rewrite <- Hw.
  set (rest := swap_remove _ _) in *.
  change (workload_key Deployment dp) with ("Deployment", (namespace_of dp, name_of dp)).
  split; [by apply (each_object_effect ApplyCTRLObject); [apply ApplyCTRLObject_ensures|]|].
  split; [done|]. split; [done|]. destruct isDeleting.
  - apply delete_objects_removes in E2 as [F2 R2].
    apply remove_workload_spec in E as (F3 & K3 & R3). split_and!; try done.
    intros _ key Hkey. apply K3, R2. by left.
  - assert (NoDup ((obj_key <$> rest ++ secrets) ++ [("Deployment", (namespace_of dp, name_of dp))]) →
      ensures_all ((obj_key <$> rest ++ secrets) ++ [("Deployment", (namespace_of dp, name_of dp))])
        (_ ← apply_ctrl_or_delete false (rest ++ secrets); SyncDeployment dp (cr_Name cr))) as Hall.
    { intros (Hd1 & Hd & _)%NoDup_app. apply ensures_all_app; [| |done].
      - by apply each_object_ensures; [apply ApplyCTRLObject_ensures|].
      - apply ensures_all_one, SyncDeployment_ensures. }
    split_and!; try done.
    + intros key Hne. destruct (SyncDeployment_ensures dp (cr_Name cr)) as [Ht _].
      by rewrite (Ht _ _ _ E).
    + intros _ Hd. apply (Hall Hd). by rewrite (M_bind_step _ _ _ _ _ E2).
Qed.
End metrics.

(** ** Witnesses

    A request for the metrics of PowerScale that names the collector's address. *)

Definition obs_module : Module :=
  mkModule Observability true "v1.12.0"
    [set_ct_Envs (Some [mkEnvVar "COLLECTOR_ADDRESS" "otel:1"; mkEnvVar "ISICLIENT_VERBOSE" "2";
                        mkEnvVar "COLLECTOR_ADDRESS" ""])
       (set_ct_Name ObservabilityMetricsPowerScaleName zero_ContainerTemplate)]
    false [].

Definition obs_cr : CSM :=
  mkCSM "ContainerStorageModule" (named "dell" "csm")
    (mkSpec "" (mkDriver PowerScale None "v2.14.0" 2 "" None None None [] [] [] "" "" None None)
       [obs_module] "" false)
    zero_Status.

Definition obs_host : Host := host_of
  {[ "/cfg/moduleconfig/observability/v1.12.0/karavi-metrics-powerscale.yaml"
       := demo_manifest ["ServiceAccount sa"; "Deployment karavi-metrics-powerscale";
                         "Service karavi-metrics-powerscale"; "Role r"] ]}
  ∅ ∅.

Section witnesses.
#[local] Existing Instances obs_host pods_codec.

Lemma metrics_settings_spec_witness :
  (IsiclientVerbose, "2") ∈ metrics_params powerscale_metrics obs_cr
    (snd (foldl (metrics_step powerscale_metrics obs_cr zero_VersionSpec "")
            ("", mk_settings powerscale_metrics) (m_Components obs_module)))
  ∧ (OtelCollectorAddress, "") ∈ metrics_params powerscale_metrics obs_cr
    (snd (foldl (metrics_step powerscale_metrics obs_cr zero_VersionSpec "")
            ("", mk_settings powerscale_metrics) (m_Components obs_module))).
Proof.
  split.
  - apply (metrics_settings_spec powerscale_metrics obs_cr zero_VersionSpec ""
      (m_Components obs_module) IsiclientVerbose "0"); [by left|decide_goal|decide_goal].
  - apply (metrics_settings_spec powerscale_metrics obs_cr zero_VersionSpec ""
      (m_Components obs_module) OtelCollectorAddress "otel-collector:55680");
      [by left|decide_goal|decide_goal].
Defined.

Lemma metrics_spec_witness :
  let w := world_of [OSecret (mkSecret (named "dell" "csm-creds") None)] obeys in
  ∃ w1 w2, PowerScaleMetrics false modules_config obs_cr w = (Ok (), w1)
    ∧ is_Some (seen w1 !! ("Role", ("dell", "r")))
    ∧ PowerScaleMetrics true modules_config obs_cr w1 = (Ok (), w2)
    ∧ removed (seen w2) ("Role", ("dell", "r")).
Proof.
  intros w.
  assert (E1 : fst (PowerScaleMetrics false modules_config obs_cr w) = Ok ()) by (vm_compute; reflexivity).
  assert (E2 : fst (PowerScaleMetrics true modules_config obs_cr
    (snd (PowerScaleMetrics false modules_config obs_cr w))) = Ok ()) by (vm_compute; reflexivity).
  assert (Hi : is_Some (seen (snd (PowerScaleMetrics false modules_config obs_cr w))
    !! ("Role", ("dell", "r")))) by (vm_compute; by eexists).
  apply run_fst in E1, E2. eexists _, _. split; [exact E1|]. split; [exact Hi|]. split; [exact E2|].
  destruct (metrics_spec powerscale_metrics keep_deployment true modules_config _ _ _ _
    (ltac:(by left)) E2)
    as (pre & d & post & dp & secrets & rest & wa & wb & Hready & Hrest & _ & _ & _ & _ & _ & _ & Hr & _).
  destruct Hready as [(matched & Hm & Hz) _ _ _ _]. rewrite decide_True in Hz by done. subst matched.
  apply Hr; [done|]. rewrite fmap_app. apply elem_of_app. left. rewrite Hrest.
  assert (("Role", ("dell", "r")) ∈ obj_key <$> pre ++ ODeployment d :: post) as Hin.
  { revert Hm. generalize (pre ++ ODeployment d :: post). intros l Hm. vm_compute in Hm.
    injection Hm as <-. decide_goal. }
  rewrite fmap_app, fmap_cons in Hin. rewrite fmap_app.
  apply elem_of_app in Hin as [Hin|[[=]|Hin]%elem_of_cons]; apply elem_of_app; [by left|by right].
Defined.
End witnesses.
