(* ===== verification/AuthScaffold.v ===== *)
(** The workloads of the authorization server
    (pkg/modules/authorization_deployment_scaffold.go): the deployments of the proxy server, the
    storage and tenant services and the commander, the stateful sets of redis and sentinel, and
    what authorization.go adds to their pods (volumes of secrets and secret provider classes,
    the annotation for Conjur).

    Main results: every workload is valid, which means that its selector selects its own pods
    and that every mount of a container names a volume of its pod, and the additions keep that;
    the addresses of the sentinels are those of the pods of their stateful set. *)

From S2P Require Import Prelude.
From S2P Require Import GoStrings.
From S2P Require Import Types.
From S2P Require Import Images.
From S2P Require Import Cluster.
From S2P Require Import Pods.
From Stdlib Require Import Ascii.
From stdpp Require Import options.

Local Open Scope stdpp_scope.

(** ** Parts of pods *)

(** A text in which [~] stands for the double quote. *)
Fixpoint quoted (s : string) : string :=
  match s with
  | EmptyString => ""
  | String c s' => String (if decide (c = "~"%char) then ascii_of_nat 34 else c) (quoted s')
  end.

(** a variable read from the key of a secret *)
Definition env_secret (name secret key : string) : EnvVarApply :=
  mkEnvVarApply (Some name) None
    (Some (mkEnvVarSource None (Some (mkSecretKeySelector (Some secret) (Some key) None))
             None None)).

Definition mount (name path : string) : VolumeMountApply :=
  mkVolumeMountApply (Some name) (Some path) None "".

Definition read_only_mount (name path : string) : VolumeMountApply :=
  mkVolumeMountApply (Some name) (Some path) (Some true) "".

Definition secret_volume (name secret : string) : VolumeApply :=
  mkVolumeApply (Some name) (Some (mkSecretVolume (Some secret) None)) None None NoSource.

Definition config_map_volume (name cm : string) : VolumeApply :=
  mkVolumeApply (Some name) None (Some (mkConfigMapVolume (Some cm) None)) None NoSource.

Definition empty_volume (name : string) : VolumeApply :=
  mkVolumeApply (Some name) None None None EmptyDir.

(** the volume of a secret provider class *)
Definition class_volume (secretProviderClass : string) : VolumeApply :=
  mkVolumeApply (Some ("secrets-store-inline-" +:+ secretProviderClass)) None None None
    (CSISource "secrets-store.csi.k8s.io" (Some true)
       {[ "secretProviderClass" := secretProviderClass ]}).

Definition class_mount (secretProviderClass : string) : VolumeMountApply :=
  read_only_mount ("secrets-store-inline-" +:+ secretProviderClass)
    ("/etc/csm-authorization/" +:+ secretProviderClass).

Definition new_deployment (name namespace : string) (labels : gomap) (replicas : Z)
    (selector : gomap) (template : PodTemplate) : Deployment :=
  mkDeployment (mkObjectMeta name namespace "" "" 0 false labels None [] None [])
    (Some replicas) selector template (mkDeploymentStatus 0 0 0 0).

Definition new_statefulset (name namespace serviceName : string) (replicas : Z)
    (selector : gomap) (template : PodTemplate) : Resource :=
  mkResource "StatefulSet" (named namespace name)
    (StatefulSetBody serviceName replicas selector template).

Definition sentinel_address (sentinelName namespace : string) (i : Z) : string :=
  sentinelName +:+ "-" +:+ Itoa i +:+ "." +:+ sentinelName +:+ "." +:+ namespace
  +:+ ".svc.cluster.local:5000".

(** [for i := range replicas]: none for a negative number *)
Definition buildSentinelList (replicas : Z) (sentinelName namespace : string) : string :=
  Join (sentinel_address sentinelName namespace <$> seqZ 0 replicas) ", ".

Definition createRedisK8sSecret (name namespace username password : string) : Secret :=
  mkSecretOf (named namespace name) None "kubernetes.io/basic-auth"
    (Some {[ "password" := password; "commander_user" := username ]}).

Definition createConfigSecretVolumeAndVolumeMnts (configSecretName : string)
    : list VolumeApply * list VolumeMountApply :=
  let volSecName := if decide (configSecretName = "") then "karavi-config-secret"
                    else configSecretName in
  ([secret_volume "config-volume" volSecName;
    config_map_volume "csm-config-params" "csm-config-params"],
   [mount "config-volume" "/etc/karavi-authorization/config";
    mount "csm-config-params" "/etc/karavi-authorization/csm-config-params"]).

(** ** The scaffolds *)

Definition getProxyServerScaffold (name sentinelName namespace proxyImage opaImage
    opaKubeMgmtImage configSecretName redisSecretName redisPasswordKey : string)
    (replicas sentinelReplicas : Z) : Deployment :=
  let '(volumes, volumeMounts) := createConfigSecretVolumeAndVolumeMnts configSecretName in
  new_deployment "proxy-server" namespace (Some {[ "app" := "proxy-server" ]}) replicas
    (Some {[ "app" := "proxy-server" ]})
    (mkPodTemplate (Some {[ "csm" := name; "app" := "proxy-server" ]}) (Some ∅) "proxy-server" []
       [mkContainer "proxy-server" proxyImage "Always" []
          ["--redis-sentinel=$(SENTINELS)"; "--redis-password=$(REDIS_PASSWORD)";
           "--tenant-service=tenant-service." +:+ namespace +:+ ".svc.cluster.local:50051";
           "--role-service=role-service." +:+ namespace +:+ ".svc.cluster.local:50051";
           "--storage-service=storage-service." +:+ namespace +:+ ".svc.cluster.local:50051"]
          [mkContainerPort "" "" 8080]
          [env_apply "SENTINELS" (buildSentinelList sentinelReplicas sentinelName namespace);
           env_secret "REDIS_PASSWORD" redisSecretName redisPasswordKey]
          volumeMounts "";
        mkContainer "opa" opaImage "Always" []
          ["run"; "--ignore=."; "--server"; "--log-level=debug"]
          [mkContainerPort "http" "" 8181] [] [] "";
        mkContainer "kube-mgmt" opaKubeMgmtImage "Always" []
          ["--namespaces=" +:+ namespace; "--enable-data"] []
          [env_apply "NAMESPACE" namespace] [] ""]
       volumes).

Definition getStorageServiceScaffold (name namespace image : string) (replicas : Z)
    (configSecretName : string) : Deployment :=
  let '(volumes, volumeMounts) := createConfigSecretVolumeAndVolumeMnts configSecretName in
  new_deployment "storage-service" namespace (Some {[ "app" := "storage-service" ]}) replicas
    (Some {[ "app" := "storage-service" ]})
    (mkPodTemplate (Some {[ "csm" := name; "app" := "storage-service" ]}) (Some ∅)
       "storage-service" []
       [mkContainer "storage-service" image "Always" [] [] [mkContainerPort "grpc" "" 50051]
          [env_apply "NAMESPACE" namespace] volumeMounts ""]
       volumes).

Definition getTenantServiceScaffold (name namespace sentinelName image configSecretName
    redisSecretName redisPasswordKey : string) (replicas sentinelReplicas : Z) : Deployment :=
  let '(volumes, volumeMounts) := createConfigSecretVolumeAndVolumeMnts configSecretName in
  new_deployment "tenant-service" namespace (Some {[ "app" := "tenant-service" ]}) replicas
    (Some {[ "app" := "tenant-service" ]})
    (mkPodTemplate (Some {[ "csm" := name; "app" := "tenant-service" ]}) (Some ∅)
       "tenant-service" []
       [mkContainer "tenant-service" image "Always" []
          ["--redis-sentinel=$(SENTINELS)"; "--redis-password=$(REDIS_PASSWORD)"]
          [mkContainerPort "grpc" "" 50051]
          [env_apply "SENTINELS" (buildSentinelList sentinelReplicas sentinelName namespace);
           env_secret "REDIS_PASSWORD" redisSecretName redisPasswordKey]
          volumeMounts ""]
       volumes).

Definition redis_config_script : string := quoted "echo ~Initializing Redis configuration...~
								cp /csm-auth-redis-cm/redis.conf /etc/redis/redis.conf
								echo ~masterauth $REDIS_PASSWORD~ >> /etc/redis/redis.conf
								echo ~requirepass $REDIS_PASSWORD~ >> /etc/redis/redis.conf

								MASTER_FOUND=~false~
								MAX_RETRIES=5

								echo ~Attempting to discover Redis master via Sentinel...~
								for retry in $(seq 0 $MAX_RETRIES)
								do
									PING_SENTINEL=$(redis-cli -h sentinel -p 5000 PING)
									echo ~Pinging sentinel~

									if [ ~$PING_SENTINEL~ == ~PONG~ ]; then
										echo ~Sentinel found~

										MASTER_INFO=$(redis-cli -h sentinel -p 5000 SENTINEL get-master-addr-by-name mymaster)
										MASTER_HOST=$(echo ~$MASTER_INFO~ | sed -n '1p')
										MASTER_PORT=$(echo ~$MASTER_INFO~ | sed -n '2p')
										if [ -n ~$MASTER_HOST~ ] && [ -n ~$MASTER_PORT~ ]; then
											echo ~Sentinel reports master at $MASTER_HOST:$MASTER_PORT~

											# configure replicaof directive for replica pods only
											if [ ~$(hostname -f)~ != ~$MASTER_HOST~ ]; then
												echo ~replicaof $MASTER_HOST $MASTER_PORT~ >> /etc/redis/redis.conf
											fi

											MASTER_FOUND=~true~
											break
										else
											echo ~Sentinel not ready or master info missing, retrying... ($retry/$MAX_RETRIES)~
											sleep 5
										fi
									fi
								done

								# configure replicaof directive for replica pods only
								if [ ~$MASTER_FOUND~ != ~true~ ]; then
									echo ~No master info from Sentinel, starting first node as master~

									MASTER_FQDN=~$AUTHORIZATION_REDIS_NAME-0.$AUTHORIZATION_REDIS_NAME.$NAMESPACE.svc.cluster.local~
									if [ ~$(hostname)~ != ~$AUTHORIZATION_REDIS_NAME-0~ ]; then
										echo ~replicaof $MASTER_FQDN 6379~ >> /etc/redis/redis.conf
									fi
								fi
								".

Definition getAuthorizationRedisStatefulsetScaffold (crName name namespace image redisSecretName
    redisPasswordKey checksum : string) (replicas : Z) : Resource :=
  let volName := "redis-primary-volume" in
  let mounts := [mount volName "/data"; mount "configmap" "/csm-auth-redis-cm/";
                 mount "config" "/etc/redis/"] in
  new_statefulset name namespace name replicas (Some {[ "app" := name ]})
    (mkPodTemplate (Some {[ "csm" := crName; "app" := name ]})
       (Some {[ "checksum/secret" := checksum ]}) "redis"
       [mkContainer "config" image "Always" ["sh"; "-c"] [redis_config_script] []
          [env_secret "REDIS_PASSWORD" redisSecretName redisPasswordKey;
           env_apply "AUTHORIZATION_REDIS_NAME" name; env_apply "NAMESPACE" namespace] mounts ""]
       [mkContainer name image "" ["redis-server"] ["/etc/redis/redis.conf"]
          [mkContainerPort name "" 6379] [] mounts ""]
       [empty_volume volName; empty_volume "config"; config_map_volume "configmap" "redis-csm-cm"]).

(** probe, resources and security context of the commander *)
Definition commander_rest : string :=
  "livenessProbe: {httpGet: {path: /favicon.png, port: 8081}, initialDelaySeconds: 10, "
  +:+ "timeoutSeconds: 5}, resources: {limits: {cpu: 500m, memory: 512Mi}}, "
  +:+ "securityContext: {allowPrivilegeEscalation: false, capabilities: {drop: [ALL]}, "
  +:+ "readOnlyRootFilesystem: false, runAsNonRoot: true}".

Definition getAuthorizationRediscommanderDeploymentScaffold (crName name namespace image
    redisSecretName redisUsernameKey redisPasswordKey sentinelName checksum : string)
    (sentinelReplicas : Z) : Deployment :=
  new_deployment name namespace None 1 (Some {[ "app" := name ]})
    (mkPodTemplate (Some {[ "csm" := crName; "app" := name; "tier" := "backend" ]})
       (Some {[ "checksum/secret" := checksum ]}) "redis" []
       [mkContainer name image "Always" [] [] [mkContainerPort name "" 8081]
          [env_apply "SENTINELS" (buildSentinelList sentinelReplicas sentinelName namespace);
           env_apply "K8S_SIGTERM" "1";
           env_secret "REDIS_PASSWORD" redisSecretName redisPasswordKey;
           env_secret "SENTINEL_PASSWORD" redisSecretName redisPasswordKey;
           env_secret "HTTP_PASSWORD" redisSecretName redisPasswordKey;
           env_secret "HTTP_USER" redisSecretName redisUsernameKey]
          [] commander_rest]
       []).

Definition sentinel_config_script : string := quoted "MASTER_FOUND=~false~
								MAX_RETRIES=5

								REPLICA=$( expr ~$REPLICAS~ - 1)
								SENTINELS=~~
								for i in $(seq 0 $REPLICA)
								do
									SENTINEL=~$AUTHORIZATION_SENTINEL_NAME-$i.$AUTHORIZATION_SENTINEL_NAME.$NAMESPACE.svc.cluster.local~
									SENTINELS=~$SENTINELS $SENTINEL~
								done

								echo ~Sentinel nodes: $SENTINELS~

								for retry in $(seq 0 $MAX_RETRIES)
								do
									for sentinel in $SENTINELS
									do
										echo ~Querying Sentinel $SENTINEL for Redis master address...~
										MASTER_INFO=$(redis-cli -h sentinel -p 5000 SENTINEL get-master-addr-by-name mymaster)
										MASTER_HOST=$(echo ~$MASTER_INFO~ | sed -n '1p')
										MASTER_PORT=$(echo ~$MASTER_INFO~ | sed -n '2p')

										if [ -n ~$MASTER_HOST~ ] && [ -n ~$MASTER_PORT~ ]; then
											echo ~Sentinel reports master at $MASTER_HOST:$MASTER_PORT~
											ROLE=$(redis-cli --no-auth-warning --raw -h ~$MASTER_HOST~ -p ~$MASTER_PORT~ -a ~$REDIS_PASSWORD~ ROLE | head -n 1)

											if [ ~$ROLE~ = ~master~ ]; then
												echo ~Verified master role at $MASTER_HOST:$MASTER_PORT~
												MASTER=$MASTER_HOST
												MASTER_FOUND=~true~
												break
											else
												echo ~Role mismatch: expected master, got $ROLE~
											fi
										else
											echo ~No master info from $SENTINEL~
										fi
									done

									if [ ~$MASTER_FOUND~ = ~true~ ]; then
										break
									fi

									echo ~Retrying in 5 seconds... ($retry/$MAX_RETRIES)~
									sleep 5
								done

								if [ ~$MASTER_FOUND~ != ~true~ ]; then
									echo ~No master found after $MAX_RETRIES retries. Defaulting to first Redis pod.~
									MASTER=~$AUTHORIZATION_REDIS_NAME-0.$AUTHORIZATION_REDIS_NAME.$NAMESPACE.svc.cluster.local~
								fi

								echo ~Generating /etc/redis/sentinel.conf for master $MASTER~
								echo ~port 5000
								sentinel resolve-hostnames yes
								sentinel announce-hostnames yes
								sentinel monitor mymaster $MASTER 6379 2
								sentinel down-after-milliseconds mymaster 5000
								sentinel failover-timeout mymaster 60000
								sentinel parallel-syncs mymaster 2
								sentinel auth-pass mymaster $REDIS_PASSWORD
								~ > /etc/redis/sentinel.conf

								echo ~Sentinel configuration:~
								cat /etc/redis/sentinel.conf
								".

Definition getAuthorizationSentinelStatefulsetScaffold (crName sentinelName redisName namespace
    image redisSecretName redisPasswordKey checksum : string) (replicas : Z) : Resource :=
  new_statefulset sentinelName namespace sentinelName replicas (Some {[ "app" := sentinelName ]})
    (mkPodTemplate (Some {[ "csm" := crName; "app" := sentinelName ]})
       (Some {[ "checksum/secret" := checksum ]}) "sentinel"
       [mkContainer "config" image "Always" ["sh"; "-c"] [sentinel_config_script] []
          [env_secret "REDIS_PASSWORD" redisSecretName redisPasswordKey;
           env_apply "REPLICAS" (Itoa replicas); env_apply "AUTHORIZATION_REDIS_NAME" redisName;
           env_apply "AUTHORIZATION_SENTINEL_NAME" sentinelName; env_apply "NAMESPACE" namespace]
          [mount "redis-config" "/etc/redis/"] ""]
       [mkContainer sentinelName image "" ["redis-sentinel"] ["/etc/redis/sentinel.conf"]
          [mkContainerPort sentinelName "" 5000] []
          [mount "redis-config" "/etc/redis/"; mount "data" "/data"] ""]
       [empty_volume "redis-config"; empty_volume "data"]).

(** ** Additions *)

(** the first container of that name *)
Fixpoint on_container (name : string) (f : Container → Container) (cs : list Container)
    : list Container :=
  match cs with
  | [] => []
  | c :: cs' => if decide (co_Name c = name) then f c :: cs' else c :: on_container name f cs'
  end.

Definition add_mounts (ms : list VolumeMountApply) (c : Container) : Container :=
  set_co_VolumeMounts (co_VolumeMounts c ++ ms) c.

Definition mountSecretVolumes (secrets : list string) (t : PodTemplate) : PodTemplate :=
  let name secret := "storage-system-secrets-" +:+ secret in
  let t := set_tp_Volumes (tp_Volumes t ++ ((λ s, secret_volume (name s) s) <$> secrets)) t in
  set_tp_Containers
    (on_container "storage-service"
       (add_mounts ((λ s, read_only_mount (name s) ("/etc/csm-authorization/" +:+ s)) <$> secrets))
       (tp_Containers t)) t.

(** in every container of that name *)
Definition configureVaultSecretProvider (classes : StorageSystemSecretProviderClasses)
    (t : PodTemplate) : PodTemplate :=
  let t := set_tp_Volumes (tp_Volumes t ++ (class_volume <$> ss_Vaults classes)) t in
  set_tp_Containers
    ((λ c, if decide (co_Name c = "storage-service")
           then add_mounts (class_mount <$> ss_Vaults classes) c else c) <$> tp_Containers t) t.

Definition newline_text : string := String newline "".

Definition conjur_line (path : string) : string := "- " +:+ path +:+ ": " +:+ path.

Definition conjur_paths (sb : string) (path : ConjurCredentialPath) : string :=
  (if decide (sb = "") then "" else sb +:+ newline_text)
  +:+ conjur_line (cc_UsernamePath path) +:+ newline_text +:+ conjur_line (cc_PasswordPath path).

Definition ConjurSecrets : string := "conjur.org/secrets".

(** The annotation is set when there is a container of that name and a path. *)
Definition configureConjurSecretProvider (classes : StorageSystemSecretProviderClasses)
    (t : PodTemplate) : PodTemplate :=
  let conjurs := ss_Conjurs classes in
  let t := set_tp_Volumes (tp_Volumes t ++ ((λ c, class_volume (cs_Name c)) <$> conjurs)) t in
  if existsb (λ c, bool_decide (co_Name c = "storage-service")) (tp_Containers t) then
    let t := set_tp_Containers
               (on_container "storage-service"
                  (add_mounts ((λ c, class_mount (cs_Name c)) <$> conjurs)) (tp_Containers t)) t in
    let secretPaths := foldl conjur_paths "" (mjoin (cs_Paths <$> conjurs)) in
    if decide (secretPaths = "") then t
    else set_tp_Annotations
           (Some (<[ConjurSecrets := secretPaths]> (default ∅ (tp_Annotations t)))) t
  else t.

Definition configureSecretProviderClass (classes : StorageSystemSecretProviderClasses)
    (t : PodTemplate) : PodTemplate :=
  configureConjurSecretProvider classes (configureVaultSecretProvider classes t).

(** Writing to a nil map panics. *)
Definition updateConjurAnnotations (paths : list string) (annotations : gomap) : outcome gomap :=
  if decide (paths = [] ∨ "" ∈ paths) then Ok annotations
  else match annotations with
  | None => Panic "assignment to entry in nil map"
  | Some m =>
      let sb := match m !! ConjurSecrets with Some v => v +:+ newline_text | None => "" end in
      Ok (Some (<[ConjurSecrets := sb +:+ Join (conjur_line <$> paths) newline_text]> m))
  end.

Definition mounts_class (cls : string) (m : VolumeMountApply) : bool :=
  bool_decide (vm_Name m = vm_Name (class_mount cls) ∧ vm_MountPath m = vm_MountPath (class_mount cls)).

(** The volume unless there is one of its name, and the mount in every container unless one of
    them has it. *)
Definition mountSPCVolume (secretProviderClassName : string) (t : PodTemplate) : PodTemplate :=
  let v := class_volume secretProviderClassName in
  let volumeExists := existsb (λ u, bool_decide (va_Name u = va_Name v)) (tp_Volumes t) in
  let mountExists :=
    existsb (λ c, existsb (mounts_class secretProviderClassName) (co_VolumeMounts c))
      (tp_Containers t) in
  let t := if volumeExists then t else set_tp_Volumes (tp_Volumes t ++ [v]) t in
  if mountExists then t
  else set_tp_Containers
         (add_mounts [class_mount secretProviderClassName] <$> tp_Containers t) t.

(** ** Properties *)

(** *** Valid workloads *)

(** every mount names a volume of the pod *)
Definition mounts_declared (vs : list VolumeApply) (c : Container) : Prop :=
  Forall (λ m, vm_Name m ∈ va_Name <$> vs) (co_VolumeMounts c).

Definition pods_ok (t : PodTemplate) : Prop :=
  Forall (mounts_declared (tp_Volumes t)) (tp_InitContainers t ++ tp_Containers t).

(** the selector selects the workload's own pods *)
Definition selects (selector labels : gomap) : Prop :=
  ∃ s l, selector = Some s ∧ labels = Some l ∧ s ⊆ l.

Definition valid_deployment (d : Deployment) : Prop :=
  selects (dp_Selector d) (dp_TemplateLabels d) ∧ pods_ok (dp_Template d).

Definition valid_statefulset (r : Resource) : Prop :=
  match rs_Body r with
  | StatefulSetBody _ _ selector t => selects selector (tp_Labels t) ∧ pods_ok t
  | _ => False
  end.

Lemma selects_app (k v : string) (m : gmap string string) :
  m !! k = Some v → selects (Some {[ k := v ]}) (Some m).
Proof. intros Hm. exists {[ k := v ]}, m. split_and!; [done..|]. by apply map_singleton_subseteq_l. Qed.

Lemma mounts_declared_volumes vs vs' c : mounts_declared vs c → mounts_declared (vs ++ vs') c.
Proof.
  unfold mounts_declared. intros Hc. eapply Forall_impl; [exact Hc|]. intros m Hm. cbv beta in *.
  rewrite fmap_app. apply elem_of_app. by left.
Qed.

Lemma mounts_declared_add vs ms c :
  Forall (λ m, vm_Name m ∈ va_Name <$> vs) ms → mounts_declared vs c →
  mounts_declared vs (add_mounts ms c).
Proof. intros Hm Hc. apply Forall_app. by split. Qed.

(** An addition of volumes, with mounts that name them. *)
Lemma pods_ok_add vs (f : list Container → list Container) t :
  (∀ cs, Forall2 (λ c c', c' = c ∨ ∃ ms, c' = add_mounts ms c
            ∧ Forall (λ m, vm_Name m ∈ va_Name <$> tp_Volumes t ++ vs) ms) cs (f cs)) →
  pods_ok t →
  pods_ok (set_tp_Containers (f (tp_Containers t)) (set_tp_Volumes (tp_Volumes t ++ vs) t)).
Proof.
  intros Hf [Hi Hc]%Forall_app. apply Forall_app. simpl. split.
  - eapply Forall_impl; [exact Hi|]. intros c. apply mounts_declared_volumes.
  - specialize (Hf (tp_Containers t)). induction Hf as [|c c' cs cs' Hcc _ IH]; [constructor|].
    apply Forall_cons in Hc as [Hc Hcs]. constructor; [|by apply IH].
    destruct Hcc as [->|(ms & -> & Hms)]; [by apply mounts_declared_volumes|].
    apply mounts_declared_add; [done|by apply mounts_declared_volumes].
Qed.

Lemma on_container_Forall2 name f (R : Container → Container → Prop) cs :
  (∀ c, R c c) → (∀ c, R c (f c)) → Forall2 R cs (on_container name f cs).
Proof.
  intros Hr Hf. induction cs as [|c cs IH]; simpl; [constructor|].
  case_decide; constructor; auto. by apply Forall_Forall2_diag, Forall_forall.
Qed.

Lemma fmap_Forall2 (f : Container → Container) (R : Container → Container → Prop) cs :
  (∀ c, R c (f c)) → Forall2 R cs (f <$> cs).
Proof. intros Hf. induction cs as [|c cs IH]; constructor; auto. Qed.

(** volumes and mounts made one for one *)
Lemma names_declared {A} (vol : A → VolumeApply) (mnt : A → VolumeMountApply) vs xs :
  (∀ x, vm_Name (mnt x) = va_Name (vol x)) →
  Forall (λ m, vm_Name m ∈ va_Name <$> vs ++ (vol <$> xs)) (mnt <$> xs).
Proof.
  intros Hn. apply Forall_fmap, Forall_forall. intros x Hx. simpl. rewrite Hn, fmap_app.
  apply elem_of_app. right. apply list_elem_of_fmap. exists (vol x). split; [done|].
  apply list_elem_of_fmap. by exists x.
Qed.

Lemma mountSecretVolumes_ok secrets t : pods_ok t → pods_ok (mountSecretVolumes secrets t).
Proof.
  unfold mountSecretVolumes. set (ms := _ <$> secrets). set (vs := _ <$> secrets).
  apply (pods_ok_add vs (on_container "storage-service" (add_mounts ms)) t). intros cs.
  apply on_container_Forall2; [by left|]. intros c. right. exists ms. split; [done|].
  by apply names_declared.
Qed.

Lemma configureVault_ok classes t : pods_ok t → pods_ok (configureVaultSecretProvider classes t).
Proof.
  unfold configureVaultSecretProvider. set (f := λ c, _).
  apply (pods_ok_add (class_volume <$> ss_Vaults classes) (fmap f) t). intros cs. apply fmap_Forall2. intros c. subst f. cbv beta.
  case_decide; [|by left].
  right. eexists. split; [done|]. by apply names_declared.
Qed.

Lemma pods_ok_annotations v t : pods_ok t → pods_ok (set_tp_Annotations v t).
Proof. done. Qed.

Lemma pods_ok_volumes vs t : pods_ok t → pods_ok (set_tp_Volumes (tp_Volumes t ++ vs) t).
Proof.
  apply (pods_ok_add vs (λ cs, cs)). intros cs. apply Forall_Forall2_diag, Forall_forall. by left.
Qed.

Lemma configureConjur_ok classes t : pods_ok t → pods_ok (configureConjurSecretProvider classes t).
Proof.
  intros Ht. unfold configureConjurSecretProvider. destruct (existsb _ _); [|by apply pods_ok_volumes].
  assert (pods_ok (set_tp_Containers (on_container "storage-service"
      (add_mounts ((λ c, class_mount (cs_Name c)) <$> ss_Conjurs classes)) (tp_Containers t))
      (set_tp_Volumes (tp_Volumes t ++ ((λ c, class_volume (cs_Name c)) <$> ss_Conjurs classes)) t)))
    as Hok.
  { apply (pods_ok_add ((λ c, class_volume (cs_Name c)) <$> ss_Conjurs classes)
             (on_container "storage-service"
                (add_mounts ((λ c, class_mount (cs_Name c)) <$> ss_Conjurs classes))) t); [|done].
    intros cs.
    apply on_container_Forall2; [by left|]. intros c. right. eexists. split; [done|].
    by apply names_declared. }
  case_decide; [exact Hok|by apply pods_ok_annotations].
Qed.

Lemma configureSecretProviderClass_ok classes t :
  pods_ok t → pods_ok (configureSecretProviderClass classes t).
Proof. intros Ht. by apply configureConjur_ok, configureVault_ok. Qed.

Lemma mountSPCVolume_ok cls t : pods_ok t → pods_ok (mountSPCVolume cls t).
Proof.
  intros Ht. unfold mountSPCVolume.
  set (t' := if existsb _ (tp_Volumes t) then t else _).
  assert (pods_ok t' ∧ va_Name (class_volume cls) ∈ va_Name <$> tp_Volumes t') as [Ht' Hv].
  { subst t'. destruct (existsb _ (tp_Volumes t)) eqn:E.
    - split; [done|]. apply existsb_exists in E as (u & Hu & E%bool_decide_eq_true).
      rewrite <- E. apply list_elem_of_fmap. exists u. split; [done|]. by apply list_elem_of_In.
    - split; [by apply pods_ok_volumes|]. simpl. rewrite fmap_app. apply elem_of_app. right. by left. }
  destruct (existsb _ (tp_Containers t)); [done|].
  pose proof (pods_ok_add [] (fmap (add_mounts [class_mount cls])) t') as Hadd.
  rewrite app_nil_r in Hadd.
  assert (set_tp_Volumes (tp_Volumes t') t' = t') as E by by destruct t'.
  rewrite E in Hadd. apply Hadd; [|done]. intros cs. apply fmap_Forall2. intros c. right.
  exists [class_mount cls]. split; [done|]. by constructor.
Qed.

(** the mounts of a scaffold, name by name *)
Ltac solve_pods :=
  unfold pods_ok, mounts_declared; cbn;
  repeat (apply Forall_cons; split; [|]); try apply Forall_nil; try done;
  repeat first [apply list_elem_of_here | apply list_elem_of_further].

Ltac solve_valid :=
  split; [apply selects_app; cbn; by simplify_map_eq | solve_pods].

Lemma proxy_server_valid name sentinel ns i1 i2 i3 config redis key r n :
  valid_deployment (getProxyServerScaffold name sentinel ns i1 i2 i3 config redis key r n).
Proof. solve_valid. Qed.

Lemma storage_service_valid name ns image r config :
  valid_deployment (getStorageServiceScaffold name ns image r config).
Proof. solve_valid. Qed.

Lemma tenant_service_valid name ns sentinel image config redis key r n :
  valid_deployment (getTenantServiceScaffold name ns sentinel image config redis key r n).
Proof. solve_valid. Qed.

Lemma commander_valid cr name ns image redis userKey key sentinel checksum n :
  valid_deployment
    (getAuthorizationRediscommanderDeploymentScaffold cr name ns image redis userKey key sentinel
       checksum n).
Proof. solve_valid. Qed.

Lemma redis_valid cr name ns image redis key checksum r :
  valid_statefulset
    (getAuthorizationRedisStatefulsetScaffold cr name ns image redis key checksum r).
Proof. unfold valid_statefulset. cbn [rs_Body getAuthorizationRedisStatefulsetScaffold new_statefulset]. solve_valid. Qed.

Lemma sentinel_valid cr sentinel name ns image redis key checksum r :
  valid_statefulset
    (getAuthorizationSentinelStatefulsetScaffold cr sentinel name ns image redis key checksum r).
Proof. unfold valid_statefulset. cbn [rs_Body getAuthorizationSentinelStatefulsetScaffold new_statefulset]. solve_valid. Qed.

(** *** Sentinels *)

(** the address of a pod of a stateful set, at a port *)
Definition pod_address (r : Resource) (service : string) (port i : Z) : string :=
  om_Name (rs_Meta r) +:+ "-" +:+ Itoa i +:+ "." +:+ service +:+ "." +:+ om_Namespace (rs_Meta r)
  +:+ ".svc.cluster.local:" +:+ Itoa port.

Lemma no_dot_Itoa z : no_byte "."%char (Itoa z).
Proof.
  unfold Itoa, pretty, pretty_Z. destruct z as [|p|p].
  - apply not_elem_of_cons. split; [done|apply not_elem_of_nil].
  - apply (no_byte_pretty_N _ (Npos p)). vm_compute. lia.
  - apply no_byte_cons. split; [done|]. apply (no_byte_pretty_N _ (Npos p)). vm_compute. lia.
Qed.

Lemma sentinel_address_inj sentinelName namespace i j :
  sentinel_address sentinelName namespace i = sentinel_address sentinelName namespace j → i = j.
Proof.
  unfold sentinel_address. intros E. apply (inj (String.app _)), (inj (String.app _)) in E.
  apply append_sep_inj in E as [E _]; [|apply no_dot_Itoa..]. by apply (inj Itoa).
Qed.

(** C31: the sentinels that the services are given. For every number of replicas that an [int32]
    holds they are, one for one and without repetition, the pods of the stateful set of sentinel,
    at the port that its container has; of a number beyond that the set has another number of
    replicas, which is never the number of addresses. *)
Theorem sentinel_addresses_spec crName sentinelName redisName namespace image secret key checksum n :
  let r := getAuthorizationSentinelStatefulsetScaffold crName sentinelName redisName namespace
             image secret key checksum (wrap_int32 n) in
  ∃ service replicas selector t c port,
    rs_Body r = StatefulSetBody service replicas selector t
    ∧ tp_Containers t = [c] ∧ co_Ports c = [port] ∧ replicas = wrap_int32 n
    ∧ let addresses := sentinel_address sentinelName namespace <$> seqZ 0 n in
      buildSentinelList n sentinelName namespace = Join addresses ", "
      ∧ NoDup addresses ∧ length addresses = Z.to_nat n
      ∧ addresses = pod_address r service (cp_ContainerPort port) <$> seqZ 0 n
      ∧ (replicas = n ↔ (- 2 ^ 31 ≤ n < 2 ^ 31)%Z)
      ∧ ((2 ^ 31 ≤ n)%Z → Z.of_nat (length addresses) ≠ replicas).
Proof.
  intros r. do 6 eexists. split; [reflexivity|]. split; [reflexivity|]. split; [reflexivity|].
  split; [reflexivity|]. intros addresses. split; [reflexivity|]. split_and!.
  - apply NoDup_fmap_2_strong; [|apply NoDup_seqZ]. intros i j _ _. apply sentinel_address_inj.
  - subst addresses. by rewrite length_fmap, length_seqZ.
  - done.
  - split; [|apply wrap_int32_id]. intros E. rewrite <- E. apply wrap_int32_bounds.
  - subst addresses. rewrite length_fmap, length_seqZ. pose proof (wrap_int32_bounds n). lia.
Qed.

(** *** Volumes of secret provider classes *)

Lemma class_mounted cls c : mounts_class cls (class_mount cls) = true
  ∧ existsb (mounts_class cls) (co_VolumeMounts (add_mounts [class_mount cls] c)) = true.
Proof.
  assert (mounts_class cls (class_mount cls) = true) as Hm by by apply bool_decide_eq_true.
  split; [exact Hm|]. unfold add_mounts. cbn [co_VolumeMounts set_co_VolumeMounts].
  rewrite existsb_app. cbn [existsb]. by rewrite Hm, orb_true_r.
Qed.

Lemma existsb_all {A} (f : A → bool) xs : xs ≠ [] → Forall (λ x, f x = true) xs → existsb f xs = true.
Proof. intros Hx Hf. destruct Hf as [|x xs Hx' _]; [done|]. cbn [existsb]. by rewrite Hx'. Qed.

(** A second time changes nothing. *)
Lemma mountSPCVolume_idemp cls t : mountSPCVolume cls (mountSPCVolume cls t) = mountSPCVolume cls t.
Proof.
  assert (∀ t, existsb (λ u, bool_decide (va_Name u = va_Name (class_volume cls))) (tp_Volumes t) = true →
    existsb (λ c, existsb (mounts_class cls) (co_VolumeMounts c)) (tp_Containers t) = true
    ∨ tp_Containers t = [] → mountSPCVolume cls t = t) as Hsame.
  { intros u Hv Hc. unfold mountSPCVolume. rewrite Hv. destruct Hc as [->|Hc]; [done|]. rewrite Hc.
    cbn [existsb]. destruct u as [? ? ? ? cs ?]. cbn in *. by subst cs. }
  apply Hsame; unfold mountSPCVolume.
  - set (t' := if existsb _ (tp_Volumes t) then t else _).
    assert (existsb (λ u, bool_decide (va_Name u = va_Name (class_volume cls))) (tp_Volumes t') = true).
    { subst t'. destruct (existsb _ (tp_Volumes t)) eqn:E; [done|].
      cbn [tp_Volumes set_tp_Volumes]. rewrite existsb_app. cbn [existsb].
      by rewrite bool_decide_eq_true_2, orb_true_r. }
    by destruct (existsb _ (tp_Containers t)).
  - set (t' := if existsb _ (tp_Volumes t) then t else _).
    assert (tp_Containers t' = tp_Containers t) as Hc by (subst t'; by destruct (existsb _ (tp_Volumes t))).
    destruct (existsb _ (tp_Containers t)) eqn:E; rewrite Hc; [by left|].
    cbn [tp_Containers set_tp_Containers]. destruct (tp_Containers t) as [|c cs]; [by right|left].
    apply existsb_all; [done|]. apply Forall_fmap, Forall_forall. intros c' _. apply class_mounted.
Qed.

(** *** What every workload of the authorization server obeys *)

(** C36: every workload that is built for the authorization server is one that the API server
    takes: its selector selects its own pods, and every mount of its containers names a volume of
    the pods. Mounting secrets and the volumes of secret provider classes keeps the pods so, and
    mounting the volume of a class a second time changes nothing. *)
Theorem workloads_well_formed :
  (∀ name sentinel ns i1 i2 i3 config redis key r n, valid_deployment
     (getProxyServerScaffold name sentinel ns i1 i2 i3 config redis key r n))
  ∧ (∀ name ns image r config, valid_deployment
       (getStorageServiceScaffold name ns image r config))
  ∧ (∀ name ns sentinel image config redis key r n, valid_deployment
       (getTenantServiceScaffold name ns sentinel image config redis key r n))
  ∧ (∀ cr name ns image redis userKey key sentinel checksum n, valid_deployment
       (getAuthorizationRediscommanderDeploymentScaffold cr name ns image redis userKey key
          sentinel checksum n))
  ∧ (∀ cr name ns image redis key checksum r, valid_statefulset
       (getAuthorizationRedisStatefulsetScaffold cr name ns image redis key checksum r))
  ∧ (∀ cr sentinel name ns image redis key checksum r, valid_statefulset
       (getAuthorizationSentinelStatefulsetScaffold cr sentinel name ns image redis key checksum r))
  ∧ (∀ t, pods_ok t →
       (∀ secrets, pods_ok (mountSecretVolumes secrets t))
       ∧ (∀ classes, pods_ok (configureSecretProviderClass classes t))
       ∧ (∀ cls, pods_ok (mountSPCVolume cls t)
                 ∧ mountSPCVolume cls (mountSPCVolume cls t) = mountSPCVolume cls t)).
Proof.
  split_and!; [apply proxy_server_valid|apply storage_service_valid|apply tenant_service_valid
              |apply commander_valid|apply redis_valid|apply sentinel_valid|].
  intros t Ht. split_and!; intros x.
  - by apply mountSecretVolumes_ok.
  - by apply configureSecretProviderClass_ok.
  - split; [by apply mountSPCVolume_ok|apply mountSPCVolume_idemp].
Qed.

Definition demo_pods : PodTemplate :=
  dp_Template (getStorageServiceScaffold "authorization" "dell" "storage:2.0" 1 "config").

Lemma workloads_well_formed_witness :
  pods_ok demo_pods ∧ pods_ok (mountSPCVolume "vault" demo_pods).
Proof.
  destruct workloads_well_formed as (_ & Hs & _ & _ & _ & _ & Hp).
  assert (pods_ok demo_pods) as Hd by exact (proj2 (Hs _ _ _ _ _)).
  split; [exact Hd|]. exact (proj1 (proj2 (proj2 (Hp demo_pods Hd)) "vault")).
Defined.
