(* ===== verification/AuthServer.v ===== *)
(** The authorization server (pkg/modules/authorization.go from [AuthorizationServerPrecheck]
    on): its check, its workloads (the scaffolds of AuthScaffold.v filled in from the request),
    vault certificates, ingress or route, controllers of nginx and of the gateway, policies,
    certificates and resource definitions.

    The package variables of the file are part of the world ([w_auth]): a handler sets them from
    the components of the request that it meets, and what it does not set is left from the
    request before. Objects are written as YAML and read back before they are applied
    ([apply_object]). *)

From S2P Require Import Prelude.
From S2P Require Import GoStrings.
From S2P Require Import GoCrypto.
From S2P Require Import Types.
From S2P Require Import Versions.
From S2P Require Import Modules.
From S2P Require Import Images.
From S2P Require Import Cluster.
From S2P Require Import Resources.
From S2P Require Import Status.
From S2P Require Import Packages.
From S2P Require Import Manifests.
From S2P Require Import Drivers.
From S2P Require Import Pods.
From S2P Require Import ModCommon.
From S2P Require Import AuthSidecar.
From S2P Require Import AuthScaffold.
From stdpp Require Import options.

Local Open Scope stdpp_scope.

(** ** Names *)

Definition AuthDeploymentManifest : string := "deployment.yaml".
Definition AuthNginxIngressManifest : string := "nginx-ingress-controller.yaml".
Definition AuthGatewayManifest : string := "gateway-api-controller.yaml".
Definition AuthPolicyManifest : string := "policies.yaml".
Definition AuthCustomCert : string := "custom-cert.yaml".
Definition AuthCrds : string := "authorization-crds.yaml".
Definition AuthNamespace : string := "<NAMESPACE>".
Definition AuthRoleServiceImage : string := "<AUTHORIZATION_ROLE_SERVICE_IMAGE>".
Definition AuthRoleServiceReplicas : string := "<AUTHORIZATION_ROLE_SERVICE_REPLICAS>".
Definition AuthControllerImage : string := "<AUTHORIZATION_CONTROLLER_IMAGE>".
Definition AuthControllerReplicas : string := "<AUTHORIZATION_CONTROLLER_REPLICAS>".
Definition AuthLeaderElectionEnabled : string := "<AUTHORIZATION_LEADER_ELECTION_ENABLED>".
Definition AuthControllerReconcileInterval : string :=
  "<AUTHORIZATION_CONTROLLER_RECONCILE_INTERVAL>".
Definition AuthRedisName : string := "<AUTHORIZATION_REDIS_NAME>".
Definition AuthRedisCommander : string := "<AUTHORIZATION_REDIS_COMMANDER>".
Definition AuthRedisSentinel : string := "<AUTHORIZATION_REDIS_SENTINEL>".
Definition AuthCert : string := "<BASE64_CERTIFICATE>".
Definition AuthPrivateKey : string := "<BASE64_PRIVATE_KEY>".

Definition DefaultProxyServerImage : string :=
  "quay.io/dell/container-storage-modules/csm-authorization-proxy".
Definition DefaultOpaImage : string := "docker.io/openpolicyagent/opa:0.70.0".
Definition DefaultOpaKubeMgmtImage : string := "docker.io/openpolicyagent/kube-mgmt:9.2.1".
Definition DefaultTenantServiceImage : string :=
  "quay.io/dell/container-storage-modules/csm-authorization-tenant".
Definition DefaultRoleServiceImage : string :=
  "quay.io/dell/container-storage-modules/csm-authorization-role".
Definition DefaultStorageServiceImage : string :=
  "quay.io/dell/container-storage-modules/csm-authorization-storage".
Definition DefaultRedisImage : string := "redis:8.4.0-alpine".
Definition DefaultRedisCommanderImage : string := "rediscommander/redis-commander:latest".
Definition DefaultControllerImage : string :=
  "quay.io/dell/container-storage-modules/csm-authorization-controller".

Definition AuthRedisComponent : string := "redis".
Definition AuthConfigSecretComponent : string := "config".
Definition AuthVaultComponent : string := "vault".
Definition AuthStorageSystemCredentialsComponent : string := "storage-system-credentials".
Definition defaultRedisSecretName : string := "redis-csm-secret".
Definition defaultRedisUsernameKey : string := "commander_user".
Definition defaultRedisPasswordKey : string := "password".
Definition defaultConfigSecretName : string := "karavi-config-secret".

(** whether or not it is enabled *)
Definition getAuthorizationModule (cr : CSM) : outcome Module :=
  match find_module AuthorizationServer (sp_Modules (cr_Spec cr)) with
  | Some m => Ok m
  | None => Fail (Errorf "authorization module not found")
  end.

(** ** The package variables *)

Definition set_redis (cls name userKey passKey userPath passPath : string) (v : AuthVars)
    : AuthVars :=
  mkAuthVars cls name userKey passKey userPath passPath (configSecretProviderClassName v)
    (configSecretName v) (configSecretPath v) (authHostname v) (proxyIngressClassName v)
    (authCertificate v) (authPrivateKey v) (secretName v).

Definition set_config (cls name path : string) (v : AuthVars) : AuthVars :=
  mkAuthVars (redisSecretProviderClassName v) (redisSecretName v) (redisUsernameKey v)
    (redisPasswordKey v) (redisConjurUsernamePath v) (redisConjurPasswordPath v) cls name path
    (authHostname v) (proxyIngressClassName v) (authCertificate v) (authPrivateKey v)
    (secretName v).

Definition set_configSecretName (name : string) (v : AuthVars) : AuthVars :=
  set_config (configSecretProviderClassName v) name (configSecretPath v) v.

Definition set_proxyIngressClassName (name : string) (v : AuthVars) : AuthVars :=
  mkAuthVars (redisSecretProviderClassName v) (redisSecretName v) (redisUsernameKey v)
    (redisPasswordKey v) (redisConjurUsernamePath v) (redisConjurPasswordPath v)
    (configSecretProviderClassName v) (configSecretName v) (configSecretPath v)
    (authHostname v) name (authCertificate v) (authPrivateKey v) (secretName v).

Definition set_certs (hostname certificate privateKey : string) (v : AuthVars) : AuthVars :=
  mkAuthVars (redisSecretProviderClassName v) (redisSecretName v) (redisUsernameKey v)
    (redisPasswordKey v) (redisConjurUsernamePath v) (redisConjurPasswordPath v)
    (configSecretProviderClassName v) (configSecretName v) (configSecretPath v)
    hostname (proxyIngressClassName v) certificate privateKey (secretName v).

Definition set_secretName (name : string) (v : AuthVars) : AuthVars :=
  mkAuthVars (redisSecretProviderClassName v) (redisSecretName v) (redisUsernameKey v)
    (redisPasswordKey v) (redisConjurUsernamePath v) (redisConjurPasswordPath v)
    (configSecretProviderClassName v) (configSecretName v) (configSecretPath v)
    (authHostname v) (proxyIngressClassName v) (authCertificate v) (authPrivateKey v) name.

Definition redis_class_step (v : AuthVars) (config : RedisSecretProviderClass) : AuthVars :=
  let v := if decide (rp_SecretProviderClassName config ≠ "" ∧ rp_RedisSecretName config ≠ "")
           then set_redis (rp_SecretProviderClassName config) (rp_RedisSecretName config)
                  (rp_RedisUsernameKey config) (rp_RedisPasswordKey config)
                  (redisConjurUsernamePath v) (redisConjurPasswordPath v) v
           else v in
  match rp_Conjur config with
  | Some conjur => set_redis (redisSecretProviderClassName v) (redisSecretName v)
      (redisUsernameKey v) (redisPasswordKey v) (cc_UsernamePath conjur) (cc_PasswordPath conjur) v
  | None => v
  end.

Definition updateRedisGlobalVars (component : ContainerTemplate) (v : AuthVars) : AuthVars :=
  foldl redis_class_step
    (set_redis "" defaultRedisSecretName defaultRedisUsernameKey defaultRedisPasswordKey "" "" v)
    (ct_RedisSecretProviderClass component).

Definition config_class_step (v : AuthVars) (config : ConfigSecretProviderClass) : AuthVars :=
  let v := if decide (cf_SecretProviderClassName config ≠ "" ∧ cf_ConfigSecretName config ≠ "")
           then set_config (cf_SecretProviderClassName config) (cf_ConfigSecretName config)
                  (configSecretPath v) v
           else v in
  match cf_Conjur config with
  | Some conjur => set_config (configSecretProviderClassName v) (configSecretName v)
                     (cp_SecretPath conjur) v
  | None => v
  end.

Definition updateConfigGlobalVars (component : ContainerTemplate) (v : AuthVars) : AuthVars :=
  foldl config_class_step (set_config "" defaultConfigSecretName "" v)
    (ct_ConfigSecretProviderClass component).

(** ** Redis credentials *)

(** an entry of [redisSecretProviderClass]: whether all, or none, of its four fields are given *)
Definition redis_fields (config : RedisSecretProviderClass) : list string :=
  [rp_SecretProviderClassName config; rp_RedisSecretName config;
   rp_RedisUsernameKey config; rp_RedisPasswordKey config].

Definition redis_class_valid (valid : bool) (config : RedisSecretProviderClass) : outcome bool :=
  if decide (Forall (λ f, f = "") (redis_fields config)) then Ok valid
  else if decide (Exists (λ f, f = "") (redis_fields config)) then
    Fail (Errorf ("redisSecretProviderClass requires all of: secretProviderClassName, "
      +:+ "redisSecretName, redisUsernameKey, and redisPasswordKey"))
  else Ok true.

(** whether credentials are given directly; else by a secret provider class *)
Definition validateRedisConfig (component : ContainerTemplate) : outcome bool :=
  let hasUsername := bool_decide (ct_RedisUsername component ≠ "") in
  let hasPassword := bool_decide (ct_RedisPassword component ≠ "") in
  let hasDirectCredentials := hasUsername && hasPassword in
  if negb (eqb hasUsername hasPassword) then
    Fail (Errorf "redisUsername and redisPassword must be provided together")
  else
    validSecretProviderClass ←
      foldO redis_class_valid false (ct_RedisSecretProviderClass component);
    if hasDirectCredentials && (validSecretProviderClass : bool) then
      Fail (Errorf "specify either redisUsername/redisPassword or redisSecretProviderClass, not both")
    else if negb hasDirectCredentials && negb validSecretProviderClass then
      if decide (ct_RedisSecretProviderClass component = []) then
        Fail (Errorf ("redis credentials are required. Either set redisUsername and redisPassword "
          +:+ "or configure redisSecretProviderClass to use a Secret Store CSI driver"))
      else
        Fail (Errorf ("redisSecretProviderClass is incomplete. All of the following must be "
          +:+ "specified: secretProviderClassName, redisSecretName, redisUsernameKey, "
          +:+ "and redisPasswordKey"))
    else Ok hasDirectCredentials.

(** ** Images *)

(** listed, else of the registry, else the default *)
Definition getImageForKey (key defaultImage : string) (cr : CSM) (matched : VersionSpec) : string :=
  let img := matched_image matched key in
  if decide (img ≠ "") then img
  else if decide (sp_CustomRegistry (cr_Spec cr) ≠ "") then ResolveImage defaultImage cr
  else defaultImage.

Definition getDefaultAuthImage (componentImage defaultImage : string) : string :=
  if decide (componentImage = "") then defaultImage else componentImage.

Definition auth_image (key componentImage defaultImage : string) (cr : CSM) (matched : VersionSpec)
    : string :=
  getImageForKey key (getDefaultAuthImage componentImage defaultImage) cr matched.

Section images.
Context `{Directory}.

Definition latest_step (latestVersion : string) (version : string) : outcome string :=
  if decide (latestVersion = "") then Ok version
  else match MinVersionCheck latestVersion version with
  | Ok true => Ok version
  | Ok false | Fail _ => Ok latestVersion
  | Panic y => Panic y
  end.

Definition getLatestAuthVersion (configDirectory : string) : outcome string :=
  let authConfigPath := configDirectory +:+ "/moduleconfig/" +:+ Authorization in
  files ← wrapErr (res (ReadDir authConfigPath))
    (errorf ("failed to read authorization config directory " +:+ authConfigPath));
  if decide (files = []) then
    Fail (Errorf ("no authorization versions found in directory " +:+ authConfigPath))
  else
    latestVersion ← foldO latest_step "" (filter (λ f, IsDir authConfigPath f = true) files);
    if decide (latestVersion = "") then
      Fail (Errorf ("no valid authorization versions found in directory " +:+ authConfigPath))
    else Ok latestVersion.

Definition getVersionSpecificDefaultImages (configVersion configDirectory : string)
    : outcome (gmap string string) :=
  tag ← (if decide (configVersion = "")
         then wrapErr (getLatestAuthVersion configDirectory)
                (errorf "failed to determine latest authorization version")
         else Ok configVersion);
  Ok {[ "proxy-service" := DefaultProxyServerImage +:+ ":" +:+ tag;
        "tenant-service" := DefaultTenantServiceImage +:+ ":" +:+ tag;
        "role-service" := DefaultRoleServiceImage +:+ ":" +:+ tag;
        "storage-service" := DefaultStorageServiceImage +:+ ":" +:+ tag;
        "authorization-controller" := DefaultControllerImage +:+ ":" +:+ tag ]}.

Definition version_images (auth : Module) (op : OperatorConfig) : outcome (gmap string string) :=
  wrapErr (getVersionSpecificDefaultImages (m_ConfigVersion auth) (oc_ConfigDirectory op))
    (errorf "failed to get version-specific default images").
End images.

(** ** The check *)

(** [component.Enabled != nil && *component.Enabled] *)
Definition gateway_enabled (component : ContainerTemplate) : bool :=
  bool_decide (ct_Name component = AuthGatewayComponent ∧ ct_Enabled component = Some true).

(** ingress and gateway fields, against the version *)
Definition check_proxy_component (isV25OrLater nginxGatewayEnabled : bool)
    (component : ContainerTemplate) : outcome () :=
  if decide (ct_Name component = AuthProxyServerComponent) then
    if isV25OrLater && nginxGatewayEnabled && negb (bool_decide (ct_ProxyServerIngress component = []))
    then Fail (Errorf ("proxyServerIngress is not supported when nginx-gateway-fabric is enabled "
                 +:+ "(v2.5.0+); use the gateway field instead"))
    else if negb isV25OrLater && negb nginxGatewayEnabled
            && negb (bool_decide (ct_Gateway component = None))
    then Fail (Errorf ("gateway field is not supported with authorization v2.4.0 and below; "
                 +:+ "use proxyServerIngress instead"))
    else Ok ()
  else Ok ().

(** whether the configuration comes from a secret provider class *)
Definition config_class_found (auth : Module) : bool :=
  existsb (λ component,
      bool_decide (ct_Name component = AuthConfigSecretComponent)
      && existsb (λ config, bool_decide (cf_SecretProviderClassName config ≠ ""))
           (ct_ConfigSecretProviderClass component))
    (m_Components auth).

Section precheck.
Context {W : Type} `{Client W} `{Host} `{MapOrder} `{Directory}.

Definition server_check (op : OperatorConfig) (auth : Module) (cr : CSM) : M (World W) () :=
  authVersion ← lift (GetVersion cr op);
  _ ← lift (checkVersion Authorization authVersion (oc_ConfigDirectory op));
  isV25OrLater ← lift (wrapErr (MinVersionCheck "v2.5.0" authVersion)
                         (errorf "error checking authorization version"));
  let nginxGatewayEnabled := existsb gateway_enabled (m_Components auth) in
  if negb isV25OrLater && nginxGatewayEnabled then
    failM (Errorf ("nginx-gateway-fabric component is not supported with authorization v2.4.0 "
             +:+ "and below; use nginx component instead"))
  else
    _ ← lift (foldO (λ _, check_proxy_component isV25OrLater nginxGatewayEnabled) ()
                (m_Components auth));
    if config_class_found auth then mret () else require_secret cr defaultConfigSecretName.

Definition AuthorizationServerPrecheck (op : OperatorConfig) (auth : Module) (cr : CSM)
    : M (World W) (CSM * option error) :=
  reading_check cr (server_check op auth cr).
End precheck.

(** ** Ingress, route and certificates *)

Definition SelfSigned : string := "karavi-selfsigned-tls".
Definition UserProvided : string := "user-provided-tls".

Definition proxy_components (auth : Module) : list ContainerTemplate :=
  filter (λ c, ct_Name c = AuthProxyServerComponent) (m_Components auth).

Definition getHosts (cr : CSM) : outcome (list string) :=
  authModule ← getAuthorizationModule cr;
  Ok (mjoin ((λ c,
        [ct_Hostname c] ++ mjoin (pi_Hosts <$> ct_ProxyServerIngress c)
        ++ match ct_Gateway c with Some gateway => pg_Hosts gateway | None => [] end)
      <$> proxy_components authModule)).

(** [for k, v := range from { annotations[k] = v }] *)
Definition annotations_from (annotations : gmap string string) (from : gomap)
    : gmap string string := default ∅ from ∪ annotations.

Definition getAnnotations (isOpenShift : bool) (cr : CSM) : outcome (gmap string string) :=
  authModule ← getAuthorizationModule cr;
  let annotations : gmap string string :=
    if isOpenShift then {[ "route.openshift.io/termination" := "edge" ]} else ∅ in
  Ok (foldl (λ m c, foldl annotations_from m (pi_Annotations <$> ct_ProxyServerIngress c))
        annotations (proxy_components authModule)).

Definition ingress_rule (host : string) : IngressRule :=
  mkIngressRule host "/" "Prefix" "proxy-server" 8080.

(** a rule for each host, and one without *)
Definition setIngressRules (cr : CSM) : outcome (list IngressRule) :=
  hosts ← wrapErr (getHosts cr) (errorf "getting hosts");
  Ok ((ingress_rule <$> hosts) ++ [ingress_rule ""]).

Definition createSelfSignedIssuer (cr : CSM) (name : string) : Object :=
  OOther (mkResource "Issuer" (named (cr_Namespace cr) name) (IssuerBody [])).

Definition createSelfSignedCertificate (cr : CSM) (hosts : list string)
    (name secretName issuerName : string) : Object :=
  OOther (mkResource "Certificate" (named (cr_Namespace cr) name)
    (CertificateBody (mkCertificateSpec secretName 2160 360 ["dellemc"] false
       ("RSA", ("PKCS1", 2048%Z)) ["client auth"; "server auth"] hosts
       (issuerName, ("Issuer", "cert-manager.io"))))).

(** hosts and annotations of the route *)
Definition route_step (st : list string * gmap string string) (c : ContainerTemplate)
    : list string * gmap string string :=
  let '(hosts, annotations) := st in
  let hosts := if decide (ct_Hostname c ≠ "") then hosts ++ [ct_Hostname c] else hosts in
  let hosts := hosts ++ mjoin (pi_Hosts <$> ct_ProxyServerIngress c) in
  let annotations := foldl annotations_from annotations (pi_Annotations <$> ct_ProxyServerIngress c) in
  match ct_Gateway c with
  | Some gateway => (hosts ++ pg_Hosts gateway, annotations_from annotations (pg_Annotations gateway))
  | None => (hosts, annotations)
  end.

Definition with_annotations (m : ObjectMeta) (annotations : gomap) : ObjectMeta :=
  set_om_Annotations annotations m.

Definition createHTTPRoute (cr : CSM) : outcome Object :=
  authModule ← getAuthorizationModule cr;
  let '(hosts, annotations) := foldl route_step ([], ∅) (proxy_components authModule) in
  Ok (OOther (mkResource "HTTPRoute"
        (with_annotations (named (cr_Namespace cr) "proxy-server") (Some annotations))
        (HTTPRouteBody [(cr_Namespace cr +:+ "-gateway", cr_Namespace cr)] hosts
           [mkHTTPRouteRule "PathPrefix" "/" "proxy-server" 8080]))).

(** a certificate that the request gives is used when its key is given too *)
Definition tls_secret (component : ContainerTemplate) : string :=
  if decide (ct_Certificate component ≠ "" ∧ ct_PrivateKey component ≠ "") then UserProvided
  else SelfSigned.

(** ** Manifests *)

Section manifests.
Context `{Host} `{MapOrder} `{ManifestCodec} `{Directory}.

(** what the module's namespace placeholders become *)
Definition server_names (cr : CSM) : list (string * string) :=
  [(AuthNamespace, cr_Namespace cr); (CSMName, cr_Name cr); (AuthCSMNameSpace, cr_Namespace cr)].

Definition proxy_params (op : OperatorConfig) (cr : CSM) (auth : Module) (matched : VersionSpec)
    (component : ContainerTemplate) : outcome (list (string * string)) :=
  versionDefaults ← version_images auth op;
  let defaultRoleImage := default DefaultRoleServiceImage (versionDefaults !! "role-service") in
  let defaultControllerImage :=
    default DefaultControllerImage (versionDefaults !! "authorization-controller") in
  Ok [(AuthRoleServiceImage,
         auth_image "role-service" (ct_RoleService component) defaultRoleImage cr matched);
      (AuthRoleServiceReplicas, Itoa (ct_RoleServiceReplicas component));
      (AuthControllerImage,
         auth_image "authorization-controller" (ct_AuthorizationController component)
           defaultControllerImage cr matched);
      (AuthControllerReplicas, Itoa (ct_AuthorizationControllerReplicas component));
      (AuthLeaderElectionEnabled, if ct_LeaderElection component then "true" else "false");
      (AuthControllerReconcileInterval, ct_ControllerReconcileInterval component);
      (CSMName, cr_Name cr); (AuthCSMNameSpace, cr_Namespace cr)].

Definition redis_params (cr : CSM) (component : ContainerTemplate) : list (string * string) :=
  [(AuthRedisName, ct_RedisName component); (AuthRedisCommander, ct_RedisCommander component);
   (AuthRedisSentinel, ct_Sentinel component); (AuthCSMNameSpace, cr_Namespace cr)].

(** the secret of credentials that are given directly *)
Definition redis_secret (cr : CSM) (component : ContainerTemplate) : Secret :=
  createRedisK8sSecret defaultRedisSecretName (cr_Namespace cr) (ct_RedisUsername component)
    (ct_RedisPassword component).

Definition deployment_step (op : OperatorConfig) (cr : CSM) (auth : Module) (matched : VersionSpec)
    (y : string) (component : ContainerTemplate) : outcome string :=
  y ← (if decide (ct_Name component = AuthProxyServerComponent) then
         params ← proxy_params op cr auth matched component;
         Ok (substitute y params)
       else Ok y);
  if decide (ct_Name component = AuthRedisComponent) then
    let y := substitute y (redis_params cr component) in
    ok ← wrapErr (validateRedisConfig component) (errorf "validating redis");
    if (ok : bool) then
      secretYaml ← wrapErr (res (yaml_MarshalObject (OSecret (redis_secret cr component))))
        (errorf "failed to marshal redis kubernetes secret");
      Ok (y +:+ newline_text +:+ "---" +:+ newline_text +:+ secretYaml)
    else Ok y
  else Ok y.

Definition getAuthorizationServerDeployment (op : OperatorConfig) (cr : CSM) (auth : Module)
    (matched : VersionSpec) : outcome string :=
  buf ← readConfigFile auth cr op AuthDeploymentManifest;
  y ← foldO (deployment_step op cr auth matched) buf (m_Components auth);
  Ok (substitute y (server_names cr)).

Definition server_manifest (op : OperatorConfig) (cr : CSM) (file : string)
    (params : list (string * string)) : outcome string :=
  auth ← getAuthorizationModule cr;
  buf ← readConfigFile auth cr op file;
  Ok (substitute buf params).

(** the first component of the proxy server decides about the certificate *)
Definition getGatewayController (op : OperatorConfig) (cr : CSM) : outcome string :=
  auth ← getAuthorizationModule cr;
  buf ← readConfigFile auth cr op AuthGatewayManifest;
  let y := substitute buf (server_names cr) in
  Ok (match proxy_components auth with
      | component :: _ => if decide (tls_secret component = UserProvided)
                          then ReplaceAll y SelfSigned UserProvided else y
      | [] => y
      end).

Definition getNginxIngressController (op : OperatorConfig) (cr : CSM) : outcome string :=
  server_manifest op cr AuthNginxIngressManifest (server_names cr).

Definition getPolicies (op : OperatorConfig) (cr : CSM) : outcome string :=
  server_manifest op cr AuthPolicyManifest [(AuthNamespace, cr_Namespace cr)].

Definition getAuthCrdDeploy (op : OperatorConfig) (cr : CSM) (auth : Module) : outcome string :=
  buf ← readConfigFile auth cr op AuthCrds;
  Ok (substitute buf [(AuthNamespace, cr_Namespace cr); (AuthCSMNameSpace, cr_Namespace cr)]).
End manifests.

(** ** On the cluster *)

Section server.
Context {W : Type} `{Client W} `{Host} `{MapOrder} `{ManifestCodec} `{Directory}.

Definition get_vars : M (World W) AuthVars := λ w, (Ok (w_auth w), w).

Definition modify_vars (f : AuthVars → AuthVars) : M (World W) () := λ w,
  (Ok (), mkWorld (w_api w) (w_calls w) (w_watches w) (w_updateCount w) (w_deployAsSidecar w)
            (f (w_auth w))).

(** a loop over the components that sets variables and can fail *)
Fixpoint over_components {S} (f : S → ContainerTemplate → M (World W) S) (st : S)
    (components : list ContainerTemplate) : M (World W) S :=
  match components with
  | [] => mret st
  | component :: components' => st ← f st component; over_components f st components'
  end.

(** An object is written as YAML, read back, and applied or deleted. *)
Definition apply_object (isDeleting : bool) (marshalling applying : error → error) (o : Object)
    : M (World W) () :=
  y ← lift (wrapErr (res (yaml_MarshalObject o)) marshalling);
  orFail (applyDeleteObjects y isDeleting) applying.

Definition as_it_is (err : error) : error := err.

Definition apply_workload (isDeleting : bool) (what : string) (o : Object) : M (World W) () :=
  apply_object isDeleting (errorf ("marshalling " +:+ what)) (errorf ("applying " +:+ what)) o.

(** *** Redis *)

(** The digest of the secret, or no text when there is none. *)
Definition getRedisChecksumFromSecretData (cr : CSM) (secretName : string) : M (World W) string :=
  r ← attempt (getT Secret (cr_Namespace cr) secretName);
  match r with
  | inl err => if IsNotFound err then mret "" else failM err
  | inr redisSecret =>
      let rendered := mkSecretOf
        (named (om_Namespace (se_Meta redisSecret)) (om_Name (se_Meta redisSecret))) None
        (se_Type redisSecret) (Some (default ∅ (se_Data redisSecret))) in
      yamlBytes ← lift (res (yaml_MarshalObject (OSecret rendered)));
      mret (hex (Sum256 yamlBytes))
  end.

Definition redis_checksum (cr : CSM) (secretName : string) : M (World W) string :=
  orFail (getRedisChecksumFromSecretData cr secretName) (errorf "getting redis secret checksum").

(** volume, mounts and annotation of the class that the redis variables name *)
Definition add_redis_class (v : AuthVars) (t : PodTemplate) : outcome PodTemplate :=
  if decide (redisSecretProviderClassName v ≠ "" ∧ redisSecretName v ≠ "") then
    annotations ← updateConjurAnnotations
                    [redisConjurUsernamePath v; redisConjurPasswordPath v] (tp_Annotations t);
    Ok (mountSPCVolume (redisSecretProviderClassName v) (set_tp_Annotations annotations t))
  else Ok t.

Definition add_config_class (v : AuthVars) (t : PodTemplate) : outcome PodTemplate :=
  if decide (configSecretProviderClassName v ≠ "" ∧ configSecretName v ≠ "") then
    annotations ← updateConjurAnnotations [configSecretPath v] (tp_Annotations t);
    Ok (mountSPCVolume (configSecretProviderClassName v) (set_tp_Annotations annotations t))
  else Ok t.

Definition on_template (f : PodTemplate → outcome PodTemplate) (d : Deployment)
    : outcome Deployment :=
  t ← f (dp_Template d); Ok (set_dp_Template t d).

Definition on_set_template (f : PodTemplate → outcome PodTemplate) (r : Resource)
    : outcome Resource :=
  match rs_Body r with
  | StatefulSetBody service replicas selector t =>
      t ← f t;
      Ok (mkResource (rs_Kind r) (rs_Meta r) (StatefulSetBody service replicas selector t))
  | _ => Ok r
  end.

(** the component of redis sets the variables; what else is read of it *)
Definition redis_component {S} (read : ContainerTemplate → S) (st : S)
    (component : ContainerTemplate) : M (World W) S :=
  if decide (ct_Name component = AuthRedisComponent) then
    _ ← modify_vars (updateRedisGlobalVars component);
    mret (read component)
  else mret st.

Definition applyDeleteAuthorizationRedisStatefulsetV2 (isDeleting : bool) (cr : CSM)
    (authModule : Module) (matched : VersionSpec) : M (World W) () :=
  '(redisName, image, redisReplicas) ← over_components
    (redis_component (λ c, (ct_RedisName c, auth_image "redis" (ct_Redis c) DefaultRedisImage cr matched,
                            ct_RedisReplicas c)))
    ("", "", 0%Z) (m_Components authModule);
  v ← get_vars;
  checksum ← redis_checksum cr (redisSecretName v);
  let statefulset := getAuthorizationRedisStatefulsetScaffold (cr_Name cr) redisName
    (cr_Namespace cr) image (redisSecretName v) (redisPasswordKey v) checksum
    (wrap_int32 redisReplicas) in
  statefulset ← lift (on_set_template (add_redis_class v) statefulset);
  apply_workload isDeleting "redis statefulset" (OOther statefulset).

Definition applyDeleteAuthorizationRediscommanderDeploymentV2 (isDeleting : bool) (cr : CSM)
    (authModule : Module) (matched : VersionSpec) : M (World W) () :=
  '(rediscommanderName, sentinelName, image, redisReplicas) ← over_components
    (redis_component (λ c, (ct_RedisCommander c, ct_Sentinel c,
       auth_image "commander" (ct_Commander c) DefaultRedisCommanderImage cr matched,
       ct_RedisReplicas c)))
    ("", "", "", 0%Z) (m_Components authModule);
  v ← get_vars;
  checksum ← redis_checksum cr (redisSecretName v);
  let deployment := getAuthorizationRediscommanderDeploymentScaffold (cr_Name cr)
    rediscommanderName (cr_Namespace cr) image (redisSecretName v) (redisUsernameKey v)
    (redisPasswordKey v) sentinelName checksum redisReplicas in
  deployment ← lift (on_template (add_redis_class v) deployment);
  apply_workload isDeleting "rediscommander deployment" (ODeployment deployment).

Definition applyDeleteAuthorizationSentinelStatefulsetV2 (isDeleting : bool) (cr : CSM)
    (authModule : Module) (matched : VersionSpec) : M (World W) () :=
  '(sentinelName, redisName, image, redisReplicas) ← over_components
    (redis_component (λ c, (ct_Sentinel c, ct_RedisName c,
       auth_image "redis" (ct_Redis c) DefaultRedisImage cr matched, ct_RedisReplicas c)))
    ("", "", "", 0%Z) (m_Components authModule);
  v ← get_vars;
  checksum ← redis_checksum cr (redisSecretName v);
  let statefulset := getAuthorizationSentinelStatefulsetScaffold (cr_Name cr) sentinelName
    redisName (cr_Namespace cr) image (redisSecretName v) (redisPasswordKey v) checksum
    (wrap_int32 redisReplicas) in
  statefulset ← lift (on_set_template (add_redis_class v) statefulset);
  apply_workload isDeleting "sentinel statefulset" (OOther statefulset).

(** *** Proxy server and tenant service *)

(** The components that the proxy server and the tenant service read: the one of the proxy
    ([read], which can fail), the one of redis, the one of the configuration. *)
Definition service_step {S} (read : ContainerTemplate → outcome S)
    (st : S * (string * Z)) (component : ContainerTemplate) : M (World W) (S * (string * Z)) :=
  if decide (ct_Name component = AuthProxyServerComponent) then
    s ← lift (read component); mret (s, snd st)
  else if decide (ct_Name component = AuthRedisComponent) then
    _ ← modify_vars (updateRedisGlobalVars component);
    mret (fst st, (ct_Sentinel component, ct_RedisReplicas component))
  else if decide (ct_Name component = AuthConfigSecretComponent) then
    _ ← modify_vars (updateConfigGlobalVars component);
    mret st
  else mret st.

Definition service_image (key dflt : string) (image : ContainerTemplate → string)
    (op : OperatorConfig) (cr : CSM) (authModule : Module) (matched : VersionSpec)
    (component : ContainerTemplate) : outcome string :=
  versionDefaults ← version_images authModule op;
  Ok (auth_image key (image component) (default dflt (versionDefaults !! key)) cr matched).

Definition applyDeleteAuthorizationProxyServerV2 (isDeleting : bool) (cr : CSM)
    (authModule : Module) (matched : VersionSpec) (op : OperatorConfig) : M (World W) () :=
  _ ← modify_vars (set_configSecretName defaultConfigSecretName);
  '(((replicas, proxyImage), (opaImage, opaKubeMgmtImage)), (sentinelName, redisReplicas)) ←
    over_components
      (service_step (λ c,
         proxyImage ← service_image "proxy-service" DefaultProxyServerImage ct_ProxyService
                        op cr authModule matched c;
         Ok ((ct_ProxyServiceReplicas c, proxyImage),
             (auth_image "opa" (ct_Opa c) DefaultOpaImage cr matched,
              auth_image "opa-kube-mgmt" (ct_OpaKubeMgmt c) DefaultOpaKubeMgmtImage cr matched))))
      (((0%Z, ""), ("", "")), ("", 0%Z)) (m_Components authModule);
  v ← get_vars;
  let deployment := getProxyServerScaffold (cr_Name cr) sentinelName (cr_Namespace cr) proxyImage
    opaImage opaKubeMgmtImage (configSecretName v) (redisSecretName v) (redisPasswordKey v)
    (wrap_int32 replicas) redisReplicas in
  deployment ← lift (on_template (add_redis_class v) deployment);
  deployment ← lift (on_template (add_config_class v) deployment);
  apply_workload isDeleting "proxy-server deployment" (ODeployment deployment).

Definition applyDeleteAuthorizationTenantServiceV2 (isDeleting : bool) (cr : CSM)
    (authModule : Module) (matched : VersionSpec) (op : OperatorConfig) : M (World W) () :=
  _ ← modify_vars (set_configSecretName defaultConfigSecretName);
  '((image, replicas), (sentinelName, redisReplicas)) ← over_components
      (service_step (λ c,
         image ← service_image "tenant-service" DefaultTenantServiceImage ct_TenantService
                   op cr authModule matched c;
         Ok (image, ct_TenantServiceReplicas c)))
      (("", 0%Z), ("", 0%Z)) (m_Components authModule);
  v ← get_vars;
  let deployment := getTenantServiceScaffold (cr_Name cr) (cr_Namespace cr) sentinelName image
    (configSecretName v) (redisSecretName v) (redisPasswordKey v) (wrap_int32 replicas)
    redisReplicas in
  deployment ← lift (on_template (add_redis_class v) deployment);
  deployment ← lift (on_template (add_config_class v) deployment);
  apply_workload isDeleting "tenant-service deployment" (ODeployment deployment).

(** *** Vault certificates *)

Definition vault_secret (cr : CSM) (name ty : string) (data : gmap string string) : Object :=
  OSecret (mkSecretOf (named (cr_Namespace cr) name) (Some data) ty None).

Definition vaults_of (authModule : Module) : list Vault :=
  match list_find (λ c, ct_Name c = AuthVaultComponent) (m_Components authModule) with
  | Some (_, component) => ct_Vaults component
  | None => []
  end.

Definition vault_authority (isDeleting : bool) (cr : CSM) (vault : Vault) : M (World W) () :=
  vaultCABytes ← lift (wrapErr (DecodeString (Types.va_CertificateAuthority vault))
                         (errorf "decoding vault certificate authority"));
  apply_workload isDeleting "vault certificate authority secret"
    (vault_secret cr ("vault-certificate-authority-" +:+ va_Identifier vault) "Opaque"
       {[ "ca.crt" := vaultCABytes ]}).

Definition vault_client (isDeleting : bool) (cr : CSM) (vault : Vault) : M (World W) () :=
  vaultCertBytes ← lift (wrapErr (DecodeString (va_ClientCertificate vault))
                           (errorf "decoding vault certificate"));
  vaultKeyBytes ← lift (wrapErr (DecodeString (va_ClientKey vault))
                          (errorf "decoding vault private key"));
  apply_workload isDeleting "vault certificate secret"
    (vault_secret cr ("vault-client-certificate-" +:+ va_Identifier vault) "kubernetes.io/tls"
       {[ "tls.crt" := vaultCertBytes; "tls.key" := vaultKeyBytes ]}).

Definition vault_selfsigned (isDeleting : bool) (cr : CSM) (vault : Vault) : M (World W) () :=
  let name := "storage-service-selfsigned-" +:+ va_Identifier vault in
  _ ← apply_object isDeleting (errorf "marshaling storage-service-selfsigned issuer") as_it_is
        (createSelfSignedIssuer cr name);
  apply_object isDeleting (errorf "marshaling storage-service-selfsigned certificate") as_it_is
    (createSelfSignedCertificate cr
       ["storage-service." +:+ cr_Namespace cr +:+ ".svc.cluster.local"] name
       ("storage-service-selfsigned-tls-" +:+ va_Identifier vault) name).

Definition applyDeleteVaultCertificates (isDeleting : bool) (cr : CSM) : M (World W) () :=
  authModule ← lift (getAuthorizationModule cr);
  forM (λ vault,
      _ ← when (negb (bool_decide (Types.va_CertificateAuthority vault = "")))
            (vault_authority isDeleting cr vault);
      if decide (va_ClientCertificate vault ≠ "" ∧ va_ClientKey vault ≠ "")
      then vault_client isDeleting cr vault else vault_selfsigned isDeleting cr vault)
    (vaults_of authModule).

Definition without_vault_container (c : Container) : Container :=
  if decide (co_Name c = "storage-service") then
    set_co_VolumeMounts
      (filter (λ m, Contains (default "" (vm_MountPath m)) "/etc/vault/" = false)
         (co_VolumeMounts c))
      (set_co_Args (filter (λ arg, HasPrefix arg "--vault=" = false) (co_Args c)) c)
  else c.

Definition without_projected (v : VolumeApply) : VolumeApply :=
  mkVolumeApply (va_Name v) (va_Secret v) (va_ConfigMap v) None (va_Rest v).

Definition without_vault (t : PodTemplate) : PodTemplate :=
  set_tp_Volumes
    (without_projected <$>
       filter (λ v, Contains (default "" (va_Name v)) "vault-client-certificate-" = false)
         (tp_Volumes t))
    (set_tp_Containers (without_vault_container <$> tp_Containers t) t).

(** Any error of the lookup counts as absence. *)
Definition removeVaultFromStorageService (cr : CSM) (dp : Deployment) : M (World W) () :=
  r ← attempt (getT Deployment (om_Namespace (dp_Meta dp)) (om_Name (dp_Meta dp)));
  match r with
  | inl _ => mret ()
  | inr currentDeployment =>
      _ ← orFail (applyDeleteVaultCertificates true cr) (errorf "deleting vault certificates");
      orFail (updateObject (ODeployment
                (set_dp_Template (without_vault (dp_Template currentDeployment)) currentDeployment)))
        (errorf "updating storage service deployment for upgrading")
  end.

(** *** Storage service *)

Record StorageSettings := mkStorageSettings {
  sg_replicas : Z;
  sg_image : string;
  sg_leaderElection : bool;
  sg_otelCollector : string;
  sg_sentinelName : string;
  sg_redisReplicas : Z;
  sg_classes : option StorageSystemSecretProviderClasses;
  sg_secrets : list string
}.

(** the configuration's component gives a name of its secret only *)
Definition storage_step (op : OperatorConfig) (cr : CSM) (authModule : Module)
    (matched : VersionSpec) (s : StorageSettings) (c : ContainerTemplate)
    : M (World W) StorageSettings :=
  if decide (ct_Name c = AuthProxyServerComponent) then
    image ← lift (service_image "storage-service" DefaultStorageServiceImage ct_StorageService
                    op cr authModule matched c);
    mret (mkStorageSettings (ct_StorageServiceReplicas c) image (ct_LeaderElection c)
            (ct_OpenTelemetryCollectorAddress c) (sg_sentinelName s) (sg_redisReplicas s)
            (sg_classes s) (sg_secrets s))
  else if decide (ct_Name c = AuthRedisComponent) then
    _ ← modify_vars (updateRedisGlobalVars c);
    mret (mkStorageSettings (sg_replicas s) (sg_image s) (sg_leaderElection s) (sg_otelCollector s)
            (ct_Sentinel c) (ct_RedisReplicas c) (sg_classes s) (sg_secrets s))
  else if decide (ct_Name c = AuthStorageSystemCredentialsComponent) then
    mret (mkStorageSettings (sg_replicas s) (sg_image s) (sg_leaderElection s) (sg_otelCollector s)
            (sg_sentinelName s) (sg_redisReplicas s) (ct_SecretProviderClasses c) (ct_Secrets c))
  else if decide (ct_Name c = AuthConfigSecretComponent) then
    _ ← forM (λ config,
          when (bool_decide (cf_SecretProviderClassName config ≠ "" ∧ cf_ConfigSecretName config ≠ ""))
            (modify_vars (set_configSecretName (cf_ConfigSecretName config))))
        (ct_ConfigSecretProviderClass c);
    mret s
  else mret s.

Definition has_classes (classes : option StorageSystemSecretProviderClasses) : bool :=
  match classes with
  | Some c => negb (bool_decide (ss_Vaults c = [] ∧ ss_Conjurs c = []))
  | None => false
  end.

(** volumes of the credentials *)
Definition add_credentials (s : StorageSettings) (t : PodTemplate) : PodTemplate :=
  match sg_classes s with
  | Some classes => if has_classes (Some classes) then configureSecretProviderClass classes t
                    else mountSecretVolumes (sg_secrets s) t
  | None => mountSecretVolumes (sg_secrets s) t
  end.

(** variables, arguments and port of the first container of that name *)
Definition storage_container (v : AuthVars) (cr : CSM) (s : StorageSettings) (v2Version : bool)
    (c : Container) : Container :=
  let c := set_co_Env (co_Env c ++
    [env_apply "SENTINELS"
       (buildSentinelList (sg_redisReplicas s) (sg_sentinelName s) (cr_Namespace cr));
     env_secret "REDIS_PASSWORD" (redisSecretName v) (redisPasswordKey v)]) c in
  let c := set_co_Args (co_Args c ++
    ["--redis-sentinel=$(SENTINELS)"; "--redis-password=$(REDIS_PASSWORD)";
     "--leader-election=" +:+ if sg_leaderElection s then "true" else "false"]
    ++ if v2Version then ["--collector-address=" +:+ sg_otelCollector s] else []) c in
  if v2Version then set_co_Ports (co_Ports c ++ [mkContainerPort "promhttp" "TCP" 2112]) c else c.

Definition authorizationStorageServiceV2 (isDeleting : bool) (cr : CSM) (authModule : Module)
    (matched : VersionSpec) (op : OperatorConfig) : M (World W) () :=
  storageCreds ← lift (MinVersionCheck "v2.3.0" (m_ConfigVersion authModule));
  _ ← modify_vars (set_configSecretName defaultConfigSecretName);
  s ← over_components (storage_step op cr authModule matched)
        (mkStorageSettings 0 "" true "" "" 0 None []) (m_Components authModule);
  if (storageCreds : bool) && eqb (has_classes (sg_classes s)) (negb (bool_decide (sg_secrets s = [])))
  then failM (Errorf ("exactly one of SecretProviderClasses or Secrets must be specified in the "
                +:+ "CSM Authorization CR — not both, not neither"))
  else
    v ← get_vars;
    let deployment := getStorageServiceScaffold (cr_Name cr) (cr_Namespace cr) (sg_image s)
      (wrap_int32 (sg_replicas s)) (configSecretName v) in
    deployment ← (if storageCreds then
        _ ← orFail (removeVaultFromStorageService cr deployment)
              (errorf "removing vault from storage service");
        lift (on_template (λ t, add_redis_class v (add_credentials s t)) deployment)
      else mret deployment);
    v2Version ← lift (MinVersionCheck "v2.0.0" (m_ConfigVersion authModule));
    let deployment := set_dp_Containers
      (on_container "storage-service" (storage_container v cr s v2Version) (dp_Containers deployment))
      deployment in
    apply_object isDeleting (errorf "marshalling storage-service deployment")
      (errorf "applying storage-service deployment") (ODeployment deployment).

(** ** The server's operations *)

Definition AuthorizationServerDeployment (isDeleting : bool) (op : OperatorConfig) (cr : CSM)
    (matched : VersionSpec) : M (World W) () :=
  authModule ← lift (getAuthorizationModule cr);
  y ← lift (getAuthorizationServerDeployment op cr authModule matched);
  _ ← applyDeleteObjects y isDeleting;
  ok ← lift (MinVersionCheck "v2.3.0" (m_ConfigVersion authModule));
  _ ← when ok
        (_ ← applyDeleteAuthorizationRedisStatefulsetV2 isDeleting cr authModule matched;
         _ ← applyDeleteAuthorizationRediscommanderDeploymentV2 isDeleting cr authModule matched;
         _ ← applyDeleteAuthorizationSentinelStatefulsetV2 isDeleting cr authModule matched;
         _ ← applyDeleteAuthorizationProxyServerV2 isDeleting cr authModule matched op;
         applyDeleteAuthorizationTenantServiceV2 isDeleting cr authModule matched op);
  authorizationStorageServiceV2 isDeleting cr authModule matched op.

Definition getClassName (isOpenShift : bool) (cr : CSM) : M (World W) string :=
  if isOpenShift then mret "openshift-default"
  else
    authModule ← lift (getAuthorizationModule cr);
    _ ← forM (λ c, forM (λ i, modify_vars (set_proxyIngressClassName (pi_IngressClassName i)))
                     (ct_ProxyServerIngress c))
          (proxy_components authModule);
    v ← get_vars;
    mret (proxyIngressClassName v).

Definition createIngress (isOpenShift : bool) (cr : CSM) : M (World W) Object :=
  authModule ← lift (getAuthorizationModule cr);
  className ← orFail (getClassName isOpenShift cr) (errorf "getting ingress class name");
  annotations ← lift (wrapErr (getAnnotations isOpenShift cr) (errorf "getting annotations"));
  hosts ← lift (wrapErr (getHosts cr) (errorf "getting hosts"));
  rules ← lift (wrapErr (setIngressRules cr) (errorf "setting ingress rules"));
  _ ← forM (λ c, modify_vars (set_secretName (tls_secret c))) (proxy_components authModule);
  v ← get_vars;
  mret (OOther (mkResource "Ingress"
    (with_annotations (named (cr_Namespace cr) "proxy-server") (Some annotations))
    (IngressBody className hosts (secretName v) rules))).

Definition authorizationHTTPRoute `{!Retry W} (isDeleting : bool) (cr : CSM) : M (World W) () :=
  route ← lift (wrapErr (createHTTPRoute cr) (errorf "creating HTTPRoute"));
  routeYaml ← lift (wrapErr (res (yaml_MarshalObject route)) (errorf "marshaling HTTPRoute"));
  _ ← when (negb isDeleting)
        (orFail (WaitForGatewayController cr) (errorf "Gateway API controller is not ready"));
  applyDeleteObjects routeYaml isDeleting.

Definition AuthorizationIngress `{!Retry W} (isDeleting isOpenShift : bool) (cr : CSM)
    : M (World W) () :=
  auth ← lift (getAuthorizationModule cr);
  isV25OrLater ← lift (wrapErr (MinVersionCheck "v2.5.0" (m_ConfigVersion auth))
                         (errorf "error checking authorization version"));
  if (isV25OrLater : bool) && negb isOpenShift then authorizationHTTPRoute isDeleting cr
  else
    ingress ← orFail (createIngress isOpenShift cr) (errorf "creating ingress");
    ingressYaml ← lift (wrapErr (res (yaml_MarshalObject ingress)) (errorf "marshaling ingress"));
    _ ← when (negb isDeleting && negb isOpenShift)
          (orFail (WaitForNginxController cr) (errorf "NGINX ingress controller is not ready"));
    applyDeleteObjects ingressYaml isDeleting.

(** what the gateway's controller made itself, which goes when the controller goes *)
Definition data_plane (cr : CSM) : list (Object * string) :=
  let ns := cr_Namespace cr in
  let m := named ns (ns +:+ "-gateway-nginx") in
  [(ODeployment (simple_deployment m None None [] [] (mkDeploymentStatus 0 0 0 0)),
    "deleting gateway data plane deployment");
   (OOther (mkResource "Service" m (Manifest "")), "deleting gateway data plane service")].

Definition GatewayController (isDeleting : bool) (op : OperatorConfig) (cr : CSM) : M (World W) () :=
  y ← lift (getGatewayController op cr);
  _ ← applyDeleteObjects y isDeleting;
  when isDeleting (forM (λ '(o, msg), orFail (DeleteObject o) (errorf msg)) (data_plane cr)).

Definition NginxIngressController (isDeleting : bool) (op : OperatorConfig) (cr : CSM)
    : M (World W) () :=
  y ← lift (getNginxIngressController op cr);
  applyDeleteObjects y isDeleting.

(** the version of the first module of that name *)
Fixpoint with_server_version (version : string) (ms : list Module) : list Module :=
  match ms with
  | [] => []
  | m :: ms' => if decide (m_Name m = AuthorizationServer) then set_m_ConfigVersion version m :: ms'
                else m :: with_server_version version ms'
  end.

(** by the first of the versions that has the manifest *)
Fixpoint cleanup_versions (op : OperatorConfig) (cr : CSM) (versions : list string)
    : M (World W) () :=
  match versions with
  | [] => mret ()
  | version :: versions' =>
      let tempCR := set_cr_Modules (with_server_version version (sp_Modules (cr_Spec cr))) cr in
      match getNginxIngressController op tempCR with
      | Ok y => applyDeleteObjects y true
      | Fail _ => cleanup_versions op cr versions'
      | Panic why => lift (Panic why)
      end
  end.

Definition previousVersions : list string := ["v2.4.0"; "v2.3.0"; "v2.2.0"].

Definition NginxIngressControllerCleanup (op : OperatorConfig) (cr : CSM) : M (World W) () :=
  match getAuthorizationModule cr with
  | Ok _ => cleanup_versions op cr previousVersions
  | _ => mret ()
  end.

Definition InstallPolicies (isDeleting : bool) (op : OperatorConfig) (cr : CSM) : M (World W) () :=
  y ← lift (getPolicies op cr);
  applyDeleteObjects y isDeleting.

(** whether the server signs its certificate itself, and else the manifest of the given one *)
Definition getCerts (op : OperatorConfig) (cr : CSM) : M (World W) (bool * string) :=
  authModule ← lift (getAuthorizationModule cr);
  _ ← forM (λ c, modify_vars (set_certs (ct_Hostname c) (ct_Certificate c) (ct_PrivateKey c)))
        (proxy_components authModule);
  v ← get_vars;
  if decide (authCertificate v = "" ∧ authPrivateKey v = "") then mret (true, "")
  else if decide (authCertificate v ≠ "" ∧ authPrivateKey v ≠ "") then
    buf ← lift (readConfigFile authModule cr op AuthCustomCert);
    mret (false, substitute buf [(AuthNamespace, cr_Namespace cr); (AuthCert, authCertificate v);
                                 (AuthPrivateKey, authPrivateKey v)])
  else failM (Errorf ("authorization install failed -- either certificate or private key missing "
                +:+ "for custom cert")).

Definition InstallWithCerts (isDeleting : bool) (op : OperatorConfig) (cr : CSM) : M (World W) () :=
  '(useSelfSignedCert, y) ← getCerts op cr;
  _ ← when useSelfSignedCert
        (_ ← apply_object isDeleting (errorf "marshaling ingress") as_it_is
               (createSelfSignedIssuer cr "selfsigned");
         hosts ← lift (getHosts cr);
         apply_object isDeleting (errorf "marshaling ingress") as_it_is
           (createSelfSignedCertificate cr hosts "karavi-auth" SelfSigned "selfsigned"));
  applyDeleteObjects y isDeleting.

(** The check of the version answers no when it fails, so its error is never returned. *)
Definition AuthCrdDeploy (op : OperatorConfig) (cr : CSM) : M (World W) () :=
  auth ← lift (getAuthorizationModule cr);
  match MinVersionCheck "v2.0.0-alpha" (m_ConfigVersion auth) with
  | Ok true => y ← lift (getAuthCrdDeploy op cr auth); applyDeleteObjects y false
  | Ok false | Fail _ => mret ()
  | Panic why => lift (Panic why)
  end.
End server.
