(* ===== verification/AuthServerSpec.v ===== *)
(** Properties of the authorization server (AuthServer.v). *)

From S2P Require Import Prelude.
From S2P Require Import GoStrings.
From S2P Require Import GoCrypto.
From S2P Require Import Types.
From S2P Require Import Versions.
From S2P Require Import Modules.
From S2P Require Import Images.
From S2P Require Import Cluster.
From S2P Require Import Resources.
From S2P Require Import Status.
From S2P Require Import Packages.
From S2P Require Import Manifests.
From S2P Require Import Drivers.
From S2P Require Import Pods.
From S2P Require Import ModCommon.
From S2P Require Import AuthSidecar.
From S2P Require Import AuthScaffold.
From S2P Require Import AuthServer.
From stdpp Require Import options.

Local Open Scope stdpp_scope.

(** ** Sequences of writes

    [changes b ks fs]: the objects of [ks] are there afterwards (or gone, when [b] says so), and
    besides them only those of [fs] may have changed. *)

Section changes.
Context {W : Type} `{!View W}.

Definition changes (b : bool) (ks fs : list Key) (w w' : World W) : Prop :=
  (∀ k, k ∉ ks ++ fs → seen w' !! k = seen w !! k)
  ∧ (b = true → ∀ k, k ∈ ks → k ∉ fs → removed (seen w') k)
  ∧ (b = false → NoDup ks → ∀ k, k ∈ ks → k ∉ fs → is_Some (seen w' !! k) ∨ dying (seen w) k).

Lemma changes_nil b (w w' : World W) : seen w' = seen w → changes b [] [] w w'.
Proof. unfold changes. intros ->. split_and!; [done|..]; by intros ? ? ? ?%not_elem_of_nil || intros _ ? ?%not_elem_of_nil. Qed.

Lemma changes_app b ks1 fs1 ks2 fs2 (w w1 w2 : World W) :
  changes b ks1 fs1 w w1 → changes b ks2 fs2 w1 w2 → changes b (ks1 ++ ks2) (fs1 ++ fs2) w w2.
Proof.
  intros (F1 & R1 & I1) (F2 & R2 & I2). split_and!.
  - intros k Hk. rewrite !elem_of_app in Hk. rewrite F2, F1; [done|rewrite elem_of_app; tauto..].
  - intros -> k Hk Hf. rewrite elem_of_app in Hf. destruct (decide (k ∈ ks2)) as [H2|H2].
    + apply R2; tauto.
    + rewrite elem_of_app in Hk. apply (removed_eq (seen w1)); [symmetry; apply F2; rewrite elem_of_app; tauto|].
      apply R1; tauto.
  - intros -> (Hd1 & Hd & Hd2)%NoDup_app k Hk Hf. rewrite elem_of_app in Hf.
    apply elem_of_app in Hk as [Hk|Hk].
    + rewrite F2 by (rewrite elem_of_app; specialize (Hd k Hk); tauto). apply I1; tauto.
    + destruct (I2 eq_refl Hd2 k Hk ltac:(tauto)) as [|Hdy]; [by left|right].
      eapply dying_eq; [|exact Hdy]. apply F1. rewrite elem_of_app. intros [H1|H1]; [|tauto].
      exact (Hd k H1 Hk).
Qed.

Lemma changes_seen b ks fs (w w1 w2 : World W) :
  seen w1 = seen w → changes b ks fs w1 w2 → changes b ks fs w w2.
Proof. unfold changes. by intros ->. Qed.

Lemma manifest_changes b ks (w w' : World W) : manifest_effect b ks w w' → changes b ks [] w w'.
Proof.
  intros (F & R & I). split_and!.
  - intros k. rewrite app_nil_r. apply F.
  - intros Hb k Hk _. by apply R.
  - intros Hb Hd k Hk _. by apply I.
Qed.
End changes.

(** ** Objects that are written *)

Section written.
Context `{ManifestCodec}.

(** what is read back of the YAML of an object *)
Definition written (o : Object) (objs : list Object) : Prop :=
  ∃ y, yaml_MarshalObject o = inr y ∧ GetModuleComponentObj y = Ok objs.
End written.

(** ** The pods *)

Definition named_env (c : Container) : string * list EnvVarApply := (co_Name c, co_Env c).

(** the variables of the containers *)
Definition envs (t : PodTemplate) : list (list EnvVarApply) :=
  snd <$> (named_env <$> tp_InitContainers t) ++ (named_env <$> tp_Containers t).

(** Valid pods stay valid, with the same containers' variables and the same labels. *)
Record same_pods (t t' : PodTemplate) : Prop := mkSamePods {
  same_ok : pods_ok t → pods_ok t';
  same_init : named_env <$> tp_InitContainers t' = named_env <$> tp_InitContainers t;
  same_containers : named_env <$> tp_Containers t' = named_env <$> tp_Containers t;
  same_labels : tp_Labels t' = tp_Labels t
}.

#[export] Instance same_pods_preorder : PreOrder same_pods.
Proof.
  split; [by split|]. intros t1 t2 t3 [] []. split; [auto|congruence..].
Qed.

Lemma same_pods_envs t t' : same_pods t t' → envs t' = envs t.
Proof. unfold envs. by intros [_ -> -> _]. Qed.

Lemma on_container_env name ms cs :
  named_env <$> on_container name (add_mounts ms) cs = named_env <$> cs.
Proof.
  induction cs as [|c cs IH]; [done|]. cbn [on_container]. case_decide; [done|].
  rewrite !fmap_cons. by rewrite IH.
Qed.

Lemma fmap_env (f : Container → Container) (cs : list Container) :
  (∀ c, named_env (f c) = named_env c) → named_env <$> (f <$> cs) = named_env <$> cs.
Proof. intros Hf. induction cs as [|c cs IH]; [done|]. cbn. by rewrite Hf, <- IH. Qed.

Lemma mountSPCVolume_same cls t : same_pods t (mountSPCVolume cls t).
Proof.
  split; [apply mountSPCVolume_ok|..]; unfold mountSPCVolume;
    destruct (existsb _ (tp_Volumes t)), (existsb _ (tp_Containers t)); try done;
    cbn; by rewrite fmap_env.
Qed.

Lemma annotations_same v t : same_pods t (set_tp_Annotations v t).
Proof. done. Qed.

Lemma add_redis_class_same v t t' : add_redis_class v t = Ok t' → same_pods t t'.
Proof.
  unfold add_redis_class. case_decide; [|by intros [= ->]].
  intros (a & _ & [= <-])%outcome_bind_Ok. etrans; [apply annotations_same|apply mountSPCVolume_same].
Qed.

Lemma add_config_class_same v t t' : add_config_class v t = Ok t' → same_pods t t'.
Proof.
  unfold add_config_class. case_decide; [|by intros [= ->]].
  intros (a & _ & [= <-])%outcome_bind_Ok. etrans; [apply annotations_same|apply mountSPCVolume_same].
Qed.

Lemma mountSecretVolumes_same secrets t : same_pods t (mountSecretVolumes secrets t).
Proof. split; [apply mountSecretVolumes_ok|done| |done]. cbn. by rewrite on_container_env. Qed.

Lemma configureVault_same classes t : same_pods t (configureVaultSecretProvider classes t).
Proof.
  split; [apply configureVault_ok|done| |done]. cbn. rewrite fmap_env; [done|].
  intros c. by case_decide.
Qed.

Lemma configureConjur_same classes t : same_pods t (configureConjurSecretProvider classes t).
Proof.
  split; [apply configureConjur_ok|..]; unfold configureConjurSecretProvider;
    destruct (existsb _ _); try done; case_decide; try done.
  all: cbn; by rewrite on_container_env.
Qed.

Lemma add_credentials_same s t : same_pods t (add_credentials s t).
Proof.
  unfold add_credentials. destruct (sg_classes s) as [classes|]; [|apply mountSecretVolumes_same].
  destruct (has_classes _); [|apply mountSecretVolumes_same].
  etrans; [apply configureVault_same|apply configureConjur_same].
Qed.

(** ** The package variables *)

(** those that the component of redis sets *)
Definition redis_part (v : AuthVars) : string * string * string * string * (string * string) :=
  (redisSecretProviderClassName v, redisSecretName v, redisUsernameKey v, redisPasswordKey v,
   (redisConjurUsernamePath v, redisConjurPasswordPath v)).

Lemma redis_class_step_part v v' config :
  redis_part v = redis_part v' →
  redis_part (redis_class_step v config) = redis_part (redis_class_step v' config).
Proof.
  unfold redis_part, redis_class_step. intros [=].
  destruct (decide (_ ∧ _)), (rp_Conjur config); cbn; congruence.
Qed.

(** They depend on the component only. *)
Lemma updateRedis_part c v v' :
  redis_part (updateRedisGlobalVars c v) = redis_part (updateRedisGlobalVars c v').
Proof.
  unfold updateRedisGlobalVars.
  assert (∀ l v v', redis_part v = redis_part v' →
    redis_part (foldl redis_class_step v l) = redis_part (foldl redis_class_step v' l)) as Hl.
  { intros l. induction l as [|config l IH]; intros v1 v2 Hv; [done|]. simpl.
    by apply IH, redis_class_step_part. }
  by apply Hl.
Qed.

Lemma updateConfig_part c v : redis_part (updateConfigGlobalVars c v) = redis_part v.
Proof.
  unfold updateConfigGlobalVars.
  assert (∀ l v, redis_part (foldl config_class_step v l) = redis_part v) as Hl.
  { intros l. induction l as [|config l IH]; intros v1; [done|]. simpl. rewrite IH.
    unfold config_class_step. destruct (decide (_ ∧ _)), (cf_Conjur config); done. }
  by rewrite Hl.
Qed.

Definition last_redis (cs : list ContainerTemplate) : option ContainerTemplate :=
  last (filter (λ c, ct_Name c = AuthRedisComponent) cs).

(** what the components leave in them *)
Definition redis_after (cs : list ContainerTemplate) (v : AuthVars) :=
  match last_redis cs with
  | Some c => redis_part (updateRedisGlobalVars c zero_AuthVars)
  | None => redis_part v
  end.

Lemma last_redis_cons c cs :
  last_redis (c :: cs)
  = match last_redis cs with
    | Some c' => Some c'
    | None => if decide (ct_Name c = AuthRedisComponent) then Some c else None
    end.
Proof.
  unfold last_redis. rewrite filter_cons. case_decide; [|by destruct (last _)].
  by rewrite last_cons.
Qed.

(** ** How the workloads reach redis *)

(** the secret of the password that a component of redis gives, and its key *)
Definition secret_of (c : ContainerTemplate) : string :=
  redisSecretName (updateRedisGlobalVars c zero_AuthVars).
Definition key_of (c : ContainerTemplate) : string :=
  redisPasswordKey (updateRedisGlobalVars c zero_AuthVars).

Lemma redis_part_secret v c :
  redis_part v = redis_part (updateRedisGlobalVars c zero_AuthVars) →
  redisSecretName v = secret_of c ∧ redisPasswordKey v = key_of c.
Proof. by intros [= _ -> _ -> _ _]. Qed.

Definition password_env (c : ContainerTemplate) : EnvVarApply :=
  env_secret "REDIS_PASSWORD" (secret_of c) (key_of c).

Definition sentinels_env (c : ContainerTemplate) (ns : string) : EnvVarApply :=
  env_apply "SENTINELS" (buildSentinelList (ct_RedisReplicas c) (ct_Sentinel c) ns).

(** A container that is given the password of redis, or its sentinels, is given those of [c];
    and one is given the password. *)
Definition wired (c : ContainerTemplate) (ns : string) (es : list (list EnvVarApply)) : Prop :=
  Forall (Forall (λ e, (ea_Name e = Some "REDIS_PASSWORD" → e = password_env c)
                       ∧ (ea_Name e = Some "SENTINELS" → e = sentinels_env c ns))) es
  ∧ Exists (λ env, password_env c ∈ env) es.

(** a workload of that key: its selector selects its pods, their mounts name volumes of them,
    and they are wired to redis *)
Definition server_workload (k : Key) (c : ContainerTemplate) (o : Object) : Prop :=
  obj_key o = k ∧
  match o with
  | ODeployment d => valid_deployment d ∧ wired c (fst (snd k)) (envs (dp_Template d))
  | OOther r =>
      match rs_Body r with
      | StatefulSetBody _ _ _ t => valid_statefulset r ∧ wired c (fst (snd k)) (envs t)
      | _ => False
      end
  | _ => False
  end.

Lemma deployment_workload k c d t :
  obj_key (ODeployment d) = k → valid_deployment d → wired c (fst (snd k)) (envs (dp_Template d)) →
  same_pods (dp_Template d) t →
  server_workload k c (ODeployment (set_dp_Template t d)).
Proof.
  intros Hk [Hs Ht] Hp Ht'. split; [done|]. split; [split|].
  - unfold dp_TemplateLabels in *. cbn. by rewrite (same_labels _ _ Ht').
  - by apply Ht'.
  - cbn. by rewrite (same_pods_envs _ _ Ht').
Qed.

Lemma statefulset_workload k c kind m service replicas selector t t' :
  obj_key (OOther (mkResource kind m (StatefulSetBody service replicas selector t))) = k →
  valid_statefulset (mkResource kind m (StatefulSetBody service replicas selector t)) →
  wired c (fst (snd k)) (envs t) → same_pods t t' →
  server_workload k c (OOther (mkResource kind m (StatefulSetBody service replicas selector t'))).
Proof.
  intros Hk [Hs Ht] Hp Ht'. split; [done|]. split; [split|].
  - by rewrite (same_labels _ _ Ht').
  - by apply Ht'.
  - cbn. by rewrite (same_pods_envs _ _ Ht').
Qed.

Ltac solve_wired :=
  unfold envs; cbn;
  split; [repeat first [apply Forall_nil_2 | apply Forall_cons_2];
          split; first [intros _; reflexivity | intros Hname; discriminate Hname]
         |repeat first [apply Exists_cons_hd;
                        repeat first [apply list_elem_of_here | apply list_elem_of_further]; fail
                       |apply Exists_cons_tl]].

(** ** Credentials of redis *)

Definition entry_blank (e : RedisSecretProviderClass) : Prop := Forall (λ f, f = "") (redis_fields e).
Definition entry_given (e : RedisSecretProviderClass) : Prop := Forall (λ f, f ≠ "") (redis_fields e).

(** user name and password in the request itself *)
Definition direct (c : ContainerTemplate) : Prop :=
  ct_RedisUsername c ≠ "" ∧ ct_RedisPassword c ≠ "".

Lemma given_not_blank e : entry_given e → ¬ entry_blank e.
Proof. intros [Hg _]%Forall_cons [Hb _]%Forall_cons. done. Qed.

Lemma redis_class_valid_Ok valid e r :
  redis_class_valid valid e = Ok r ↔ entry_blank e ∧ r = valid ∨ entry_given e ∧ r = true.
Proof.
  unfold redis_class_valid. destruct (decide (Forall (λ f, f = "") _)) as [Hb|Hb].
  - split; [intros [= <-]; by left|]. intros [[_ ->]|[Hg _]]; [done|]. by apply given_not_blank in Hg.
  - destruct (decide (Exists (λ f, f = "") _)) as [Hx|Hx].
    + split; [done|]. intros [[? _]|[Hg _]]; [done|]. exfalso. revert Hx. by apply Forall_Exists_neg.
    + split.
      * intros [= <-]. right. split; [|done]. apply Forall_Exists_neg. exact Hx.
      * intros [[? _]|[_ ->]]; [|done]. done.
Qed.

Lemma redis_class_valid_fold valid es r :
  foldO redis_class_valid valid es = Ok r ↔
    Forall (λ e, entry_blank e ∨ entry_given e) es ∧ (r = true ↔ valid = true ∨ Exists entry_given es).
Proof.
  revert valid. induction es as [|e es IH]; intros valid; cbn [foldO].
  - split.
    + intros [= <-]. split; [done|]. split; [by left|]. by intros [|Hx%Exists_nil].
    + intros [_ Hr]. destruct valid, r; try done.
      * by discriminate (proj2 Hr (or_introl eq_refl)).
      * by destruct (proj1 Hr eq_refl) as [|Hx%Exists_nil].
  - rewrite outcome_bind_Ok, Forall_cons, Exists_cons. split.
    + intros (v & [[Hb ->]|[Hg ->]]%redis_class_valid_Ok & E); apply IH in E as [Hf Hr].
      * split; [auto|]. rewrite Hr. pose proof (given_not_blank e). tauto.
      * split; [auto|]. rewrite Hr. tauto.
    + intros [[[Hb|Hg] Hf] Hr].
      * exists valid. split; [by apply redis_class_valid_Ok; left|]. apply IH. split; [done|].
        rewrite Hr. pose proof (given_not_blank e). tauto.
      * exists true. split; [by apply redis_class_valid_Ok; right|]. apply IH. split; [done|].
        rewrite Hr. tauto.
Qed.

#[export] Instance entry_given_dec e : Decision (entry_given e).
Proof. unfold entry_given. apply _. Defined.

Lemma none_given es :
  Forall (λ e, entry_blank e ∨ entry_given e) es ∧ ¬ Exists entry_given es ↔ Forall entry_blank es.
Proof.
  split.
  - intros [Hf Hx]. rewrite <- Forall_Exists_neg in Hx. rewrite Forall_forall in *.
    intros e He. destruct (Hf e He) as [|Hg]; [done|]. by destruct (Hx e He).
  - intros Hf. split; [eapply Forall_impl; [exact Hf|]; by left|]. apply Forall_Exists_neg.
    eapply Forall_impl; [exact Hf|]. intros e Hb Hg. by apply given_not_blank in Hg.
Qed.

Lemma validateRedisConfig_Ok c r :
  validateRedisConfig c = Ok r ↔
    if r then direct c ∧ Forall entry_blank (ct_RedisSecretProviderClass c)
    else ct_RedisUsername c = "" ∧ ct_RedisPassword c = ""
         ∧ Forall (λ e, entry_blank e ∨ entry_given e) (ct_RedisSecretProviderClass c)
         ∧ Exists entry_given (ct_RedisSecretProviderClass c).
Proof.
  unfold validateRedisConfig, direct.
  set (u := ct_RedisUsername c). set (p := ct_RedisPassword c). set (es := ct_RedisSecretProviderClass c).
  destruct (bool_decide_reflect (u ≠ "")) as [Hu|Hu], (bool_decide_reflect (p ≠ "")) as [Hp|Hp];
    cbn [andb negb eqb].
  2,3: destruct r; naive_solver.
  all: rewrite outcome_bind_Ok; setoid_rewrite redis_class_valid_fold.
  - split.
    + intros ([] & [Hf Hx] & E); [done|]. injection E as <-. split; [done|].
      apply none_given. split; [done|]. intros Hg. by discriminate (proj2 Hx (or_intror Hg)).
    + destruct r; [|by intros [-> _]]. intros (_ & [Hf Hx]%none_given). exists false.
      split; [|done]. split; [done|]. split; [done|]. by intros [|?].
  - apply dec_stable in Hu, Hp. split.
    + intros ([] & [Hf Hx] & E); cbn in E; [injection E as <-|by destruct (decide _)].
      split_and!; [done..|]. by destruct (proj1 Hx eq_refl).
    + destruct r; [by intros [[] _]|]. intros (_ & _ & Hf & Hx). exists true.
      split; [|done]. split; [done|]. split; [by right|done].
Qed.

(** What the variables are after the entries: those of the last one that is given. *)
Lemma redis_vars_fold v es :
  Forall (λ e, entry_blank e ∨ entry_given e) es →
  let v' := foldl redis_class_step v es in
  (redisSecretProviderClassName v', redisSecretName v', (redisUsernameKey v', redisPasswordKey v')) =
    match last (filter entry_given es) with
    | Some e => (rp_SecretProviderClassName e, rp_RedisSecretName e,
                 (rp_RedisUsernameKey e, rp_RedisPasswordKey e))
    | None => (redisSecretProviderClassName v, redisSecretName v,
               (redisUsernameKey v, redisPasswordKey v))
    end.
Proof.
  revert v. induction es as [|e es IH]; intros v Hf; [done|].
  apply Forall_cons in Hf as [He Hf]. cbn zeta in IH |- *. simpl foldl. rewrite IH by done.
  rewrite filter_cons. destruct (decide (entry_given e)) as [Hg|Hg].
  - rewrite last_cons. destruct (last _); [done|]. unfold redis_class_step.
    apply Forall_cons in Hg as (Hc & (Hn & _)%Forall_cons). rewrite decide_True by done.
    by destruct (rp_Conjur e).
  - destruct (last _); [done|]. destruct He as [Hb|]; [|done]. unfold redis_class_step.
    apply Forall_cons in Hb as (Hc & _). rewrite decide_False by naive_solver.
    by destruct (rp_Conjur e).
Qed.

Lemma validateRedisConfig_total c :
  (∀ r, validateRedisConfig c ≠ Ok r) → ∃ e, validateRedisConfig c = Fail e.
Proof.
  intros Hn. destruct (validateRedisConfig c) as [r|e|y] eqn:E; [by destruct (Hn r)|by exists e|].
  exfalso. clear Hn. revert E. unfold validateRedisConfig.
  assert (∀ es b y', foldO redis_class_valid b es ≠ Panic y') as Hp.
  { induction es as [|x es IH]; intros b y'; [done|]. cbn. unfold redis_class_valid.
    repeat case_decide; cbn; [apply IH|done|apply IH]. }
  destruct (negb _); [done|]. destruct (foldO _ _ _) as [v|e|y'] eqn:Ef; cbn;
    [|done|by destruct (Hp _ _ _ Ef)].
  destruct (_ && _); [done|]. destruct (_ && _); [by case_decide|done].
Qed.

(** a volume of the class, and a container that mounts it *)
Definition class_mounted_in (cls : string) (t : PodTemplate) : Prop :=
  va_Name (class_volume cls) ∈ va_Name <$> tp_Volumes t
  ∧ Exists (λ c, existsb (mounts_class cls) (co_VolumeMounts c) = true) (tp_Containers t).

Lemma mountSPCVolume_mounted cls t :
  tp_Containers t ≠ [] → class_mounted_in cls (mountSPCVolume cls t).
Proof.
  intros Hc. unfold class_mounted_in, mountSPCVolume. split.
  - destruct (existsb _ (tp_Volumes t)) eqn:E, (existsb _ (tp_Containers t));
      cbn [tp_Volumes set_tp_Volumes set_tp_Containers].
    3,4: rewrite fmap_app, elem_of_app; right; by left.
    all: apply existsb_exists in E as (u & Hu & E); apply bool_decide_eq_true in E; rewrite <- E;
      apply list_elem_of_fmap_2; by apply list_elem_of_In.
  - destruct (existsb _ (tp_Volumes t)), (existsb _ (tp_Containers t)) eqn:E; cbn.
    all: try by apply existsb_exists in E as (u & Hu & E); apply Exists_exists; exists u;
      split; [by apply list_elem_of_In|].
    all: destruct (tp_Containers t) as [|u us]; [done|]; apply Exists_cons_hd; cbn;
      apply (class_mounted cls u).
Qed.

Lemma no_given es : ¬ Exists entry_given es → filter entry_given es = [].
Proof.
  rewrite <- Forall_Exists_neg. intros Hf. induction Hf as [|e es He _ IH]; [done|].
  by rewrite filter_cons, decide_False.
Qed.

(** C30: where the workloads read the password of redis. A component of redis is accepted in two
    forms only. With user name and password given directly, and no secret provider class, the
    secret that the operator makes is the one that the workloads name, and holds the given
    password under the key that they name. With secret provider classes whose four fields are
    all given (an entry that is entirely blank is skipped), and no credentials, the workloads read
    the secret and key of the last of them, and mount its class. Any other component is an error. *)
Theorem redis_credentials_spec cr c :
  (∀ r, validateRedisConfig c = Ok r ↔
     if r then direct c ∧ Forall entry_blank (ct_RedisSecretProviderClass c)
     else ct_RedisUsername c = "" ∧ ct_RedisPassword c = ""
          ∧ Forall (λ e, entry_blank e ∨ entry_given e) (ct_RedisSecretProviderClass c)
          ∧ Exists entry_given (ct_RedisSecretProviderClass c))
  ∧ ((∀ r, validateRedisConfig c ≠ Ok r) → ∃ e, validateRedisConfig c = Fail e)
  ∧ let v := updateRedisGlobalVars c zero_AuthVars in
    match validateRedisConfig c with
    | Ok true =>
        obj_key (OSecret (redis_secret cr c)) = ("Secret", (cr_Namespace cr, redisSecretName v))
        ∧ default ∅ (se_StringData (redis_secret cr c)) !! redisPasswordKey v = Some (ct_RedisPassword c)
        ∧ default ∅ (se_StringData (redis_secret cr c)) !! redisUsernameKey v = Some (ct_RedisUsername c)
        ∧ ∀ t, add_redis_class v t = Ok t
    | Ok false =>
        ∃ e, last (filter entry_given (ct_RedisSecretProviderClass c)) = Some e
          ∧ redisSecretName v = rp_RedisSecretName e ∧ redisPasswordKey v = rp_RedisPasswordKey e
          ∧ ∀ t t', add_redis_class v t = Ok t' → tp_Containers t ≠ [] →
              class_mounted_in (rp_SecretProviderClassName e) t'
    | _ => True
    end.
Proof.
  split; [apply validateRedisConfig_Ok|]. split; [apply validateRedisConfig_total|].
  intros v. destruct (validateRedisConfig c) as [r|e|y] eqn:E; [|done..].
  apply validateRedisConfig_Ok in E. destruct r.
  - destruct E as [_ [Hf Hn]%none_given].
    pose proof (redis_vars_fold (set_redis "" defaultRedisSecretName defaultRedisUsernameKey
      defaultRedisPasswordKey "" "" zero_AuthVars) _ Hf) as Hv.
    rewrite no_given in Hv by done. cbn [last] in Hv. fold (updateRedisGlobalVars c zero_AuthVars) in Hv.
    fold v in Hv. injection Hv as Hc Hs Hu Hp. rewrite Hs, Hu, Hp.
    split_and!; [done..|]. intros t. unfold add_redis_class. rewrite decide_False; [done|].
    rewrite Hc. intros [Hx _]. by apply Hx.
  - destruct E as (_ & _ & Hf & Hg).
    pose proof (redis_vars_fold (set_redis "" defaultRedisSecretName defaultRedisUsernameKey
      defaultRedisPasswordKey "" "" zero_AuthVars) _ Hf) as Hv.
    fold (updateRedisGlobalVars c zero_AuthVars) in Hv. fold v in Hv.
    destruct (last (filter _ _)) as [e|] eqn:El.
    2: { exfalso. apply last_None in El. revert Hg. apply Forall_Exists_neg. apply Forall_forall.
         intros e He Hg. assert (e ∈ filter entry_given (ct_RedisSecretProviderClass c)) as Hin by by apply list_elem_of_filter.
         rewrite El in Hin. by apply not_elem_of_nil in Hin. }
    injection Hv as Hc Hs Hu Hp. exists e. split; [done|]. split; [done|]. split; [done|].
    assert (entry_given e) as (Hce & (Hne & _)%Forall_cons)%Forall_cons.
    { apply last_Some_elem_of in El. by apply list_elem_of_filter in El as [? _]. }
    intros t t' Et Ht. unfold add_redis_class in Et. rewrite Hc, Hs, decide_True in Et by done.
    apply outcome_bind_Ok in Et as (a & _ & [= <-]). by apply mountSPCVolume_mounted.
Qed.

(** ** On the cluster *)

Section spec.
Context {W : Type} `{Client W} `{!View W} `{!ClientLaws (W := W)} `{Host} `{MapOrder}
  `{ManifestCodec} `{Directory}.
#[local] Set Default Proof Using "All".

Lemma reads_get_vars : reads (get_vars (W := W)).
Proof. by intros w r w' [= _ <-] k _. Qed.

Lemma reads_modify_vars f : reads (modify_vars (W := W) f).
Proof. by intros w r w' [= _ <-] k _. Qed.

Lemma reads_redis_checksum cr name : reads (redis_checksum cr name).
Proof. unfold reads, redis_checksum, getRedisChecksumFromSecretData. solve_touches. Qed.

Lemma reads_over_components {S} (f : S → ContainerTemplate → M (World W) S) st cs :
  (∀ st c, reads (f st c)) → reads (over_components f st cs).
Proof.
  intros Hf. revert st. induction cs as [|c cs IH]; intros st; simpl; [apply touches_ret|].
  apply touches_bind; [apply Hf|intros st'; apply IH].
Qed.

Lemma reads_redis_component {S} (read : ContainerTemplate → S) st c :
  reads (redis_component (W := W) read st c).
Proof.
  unfold redis_component. case_decide; [|apply touches_ret].
  apply touches_bind; [apply reads_modify_vars|intros _; apply touches_ret].
Qed.

Lemma reads_service_step {S} (read : ContainerTemplate → outcome S) st c :
  reads (service_step (W := W) read st c).
Proof.
  unfold service_step. repeat case_decide; try apply touches_ret.
  - apply touches_bind; [apply touches_lift|intros ?; apply touches_ret].
  - apply touches_bind; [apply reads_modify_vars|intros ?; apply touches_ret].
  - apply touches_bind; [apply reads_modify_vars|intros ?; apply touches_ret].
Qed.

Lemma reads_storage_step op cr auth matched st c : reads (storage_step (W := W) op cr auth matched st c).
Proof.
  unfold storage_step. repeat case_decide; try apply touches_ret.
  - apply touches_bind; [apply touches_lift|intros ?; apply touches_ret].
  - apply touches_bind; [apply reads_modify_vars|intros ?; apply touches_ret].
  - apply touches_bind; [|intros ?; apply touches_ret]. apply touches_forM. intros x.
    unfold when. case_match; [apply reads_modify_vars|apply touches_ret].
Qed.

Lemma applyDeleteObjects_run y b (w w' : World W) :
  applyDeleteObjects y b w = (Ok (), w') →
  ∃ objs, GetModuleComponentObj y = Ok objs ∧ changes b (obj_key <$> objs) [] w w'.
Proof.
  intros E. apply M_bind_Ok in E as (objs & w1 & Eo & E). injection Eo as Eo <-.
  exists objs. split; [done|]. by apply manifest_changes, apply_or_delete_effect.
Qed.

Lemma wrapErr_Ok {A} (m : outcome A) f a : wrapErr m f = Ok a ↔ m = Ok a.
Proof using. destruct m; simpl; naive_solver. Qed.

Lemma res_Ok {A} (r : error + A) a : res r = Ok a ↔ r = inr a.
Proof using. destruct r; simpl; naive_solver. Qed.

Lemma apply_object_run b f g o (w w' : World W) :
  apply_object b f g o w = (Ok (), w') →
  ∃ objs, written o objs ∧ changes b (obj_key <$> objs) [] w w'.
Proof.
  intros E. apply M_bind_Ok in E as (y & w1 & Ey & E). injection Ey as Ey <-.
  apply wrapErr_Ok, res_Ok in Ey. apply orFail_Ok, applyDeleteObjects_run in E as (objs & Ho & E).
  exists objs. split; [by exists y|done].
Qed.

(** *** Redis, proxy server and tenant service *)

Lemma over_components_redis {S} (f : S → ContainerTemplate → M (World W) S) st cs w st' w' :
  (∀ st c w st' w', f st c w = (Ok st', w') → redis_part (w_auth w') =
     if decide (ct_Name c = AuthRedisComponent) then redis_part (updateRedisGlobalVars c zero_AuthVars)
     else redis_part (w_auth w)) →
  over_components f st cs w = (Ok st', w') → redis_part (w_auth w') = redis_after cs (w_auth w).
Proof.
  intros Hf. revert st w. induction cs as [|c cs IH]; intros st w E; [by injection E as _ <-|].
  apply M_bind_Ok in E as (st1 & w1 & E1 & E). apply IH in E. apply Hf in E1.
  rewrite E. unfold redis_after. rewrite last_redis_cons. rewrite E1.
  destruct (last_redis cs); [done|]. by destruct (decide _).
Qed.

Lemma redis_component_part {S} (read : ContainerTemplate → S) st c (w : World W) st' w' :
  redis_component read st c w = (Ok st', w') → redis_part (w_auth w') =
    if decide (ct_Name c = AuthRedisComponent) then redis_part (updateRedisGlobalVars c zero_AuthVars)
    else redis_part (w_auth w).
Proof.
  unfold redis_component. destruct (decide _); [|by intros [= _ <-]].
  intros (? & w1 & [= _ <-] & [= _ <-])%M_bind_Ok. apply updateRedis_part.
Qed.

Lemma over_redis_component {S} (read : ContainerTemplate → S) st cs (w : World W) st' w' :
  over_components (redis_component read) st cs w = (Ok st', w') →
  st' = match last_redis cs with Some c => read c | None => st end.
Proof.
  revert st w. induction cs as [|c cs IH]; intros st w E; [by injection E as <-|].
  apply M_bind_Ok in E as (st1 & w1 & E1 & E). apply IH in E as ->. rewrite last_redis_cons.
  destruct (last_redis cs); [done|]. unfold redis_component in E1.
  destruct (decide (ct_Name c = AuthRedisComponent)); [|by injection E1 as <-].
  by apply M_bind_Ok in E1 as (? & ? & _ & [= <-]).
Qed.

(** What the handlers know once they have gone through the components. *)
Lemma redis_components_run {S} (read : ContainerTemplate → S) st0 cs c (w : World W) st w' :
  last_redis cs = Some c → over_components (redis_component read) st0 cs w = (Ok st, w') →
  st = read c ∧ redisSecretName (w_auth w') = secret_of c
  ∧ redisPasswordKey (w_auth w') = key_of c ∧ seen w' = seen w.
Proof.
  intros Hc E. pose proof (over_redis_component _ _ _ _ _ _ E) as Hst. rewrite Hc in Hst.
  pose proof (over_components_redis _ _ _ _ _ _ (redis_component_part _) E) as Hv.
  unfold redis_after in Hv. rewrite Hc in Hv. apply redis_part_secret in Hv as [Hs Hk].
  apply reads_seen in E; [|apply reads_over_components, reads_redis_component]. done.
Qed.

(** One of the writes of the server: of a workload of that key, wired to that redis. *)
Definition writes (b : bool) (c : ContainerTemplate) (k : Key) (w w' : World W) : Prop :=
  ∃ o objs, server_workload k c o ∧ written o objs ∧ changes b (obj_key <$> objs) [] w w'.

Lemma writes_workload b what k c o (w w1 w' : World W) :
  seen w1 = seen w → server_workload k c o →
  apply_workload b what o w1 = (Ok (), w') → writes b c k w w'.
Proof.
  intros Hw Ho E. apply apply_object_run in E as (objs & Hr & E). exists o, objs.
  split_and!; [done..|]. by eapply changes_seen.
Qed.

Lemma redis_statefulset_run b cr auth matched c (w w' : World W) :
  last_redis (m_Components auth) = Some c →
  applyDeleteAuthorizationRedisStatefulsetV2 b cr auth matched w = (Ok (), w') →
  writes b c ("StatefulSet", (cr_Namespace cr, ct_RedisName c)) w w'.
Proof.
  intros Hc E. apply M_bind_Ok in E as ([[name image] n] & w1 & E1 & E).
  apply (redis_components_run _ _ _ _ _ _ _ Hc) in E1 as ([= -> -> ->] & Hs & Hk & E1).
  apply M_bind_Ok in E as (v & w2 & Ev & E). injection Ev as <- <-.
  apply M_bind_Ok in E as (checksum & w3 & Ec & E). apply reads_seen in Ec; [|apply reads_redis_checksum].
  apply M_bind_Ok in E as (r & w4 & Er & E). injection Er as Er <-.
  eapply writes_workload; [by rewrite Ec| |exact E].
  apply outcome_bind_Ok in Er as (t & Ht & [= <-]). apply add_redis_class_same in Ht.
  eapply statefulset_workload; [done|apply redis_valid| |exact Ht].
  rewrite Hs, Hk. solve_wired.
Qed.

Lemma sentinel_statefulset_run b cr auth matched c (w w' : World W) :
  last_redis (m_Components auth) = Some c →
  applyDeleteAuthorizationSentinelStatefulsetV2 b cr auth matched w = (Ok (), w') →
  writes b c ("StatefulSet", (cr_Namespace cr, ct_Sentinel c)) w w'.
Proof.
  intros Hc E. apply M_bind_Ok in E as ([[[sentinel name] image] n] & w1 & E1 & E).
  apply (redis_components_run _ _ _ _ _ _ _ Hc) in E1 as ([= -> -> -> ->] & Hs & Hk & E1).
  apply M_bind_Ok in E as (v & w2 & Ev & E). injection Ev as <- <-.
  apply M_bind_Ok in E as (checksum & w3 & Ec & E). apply reads_seen in Ec; [|apply reads_redis_checksum].
  apply M_bind_Ok in E as (r & w4 & Er & E). injection Er as Er <-.
  eapply writes_workload; [by rewrite Ec| |exact E].
  apply outcome_bind_Ok in Er as (t & Ht & [= <-]). apply add_redis_class_same in Ht.
  eapply statefulset_workload; [done|apply sentinel_valid| |exact Ht].
  rewrite Hs, Hk. solve_wired.
Qed.

Lemma commander_deployment_run b cr auth matched c (w w' : World W) :
  last_redis (m_Components auth) = Some c →
  applyDeleteAuthorizationRediscommanderDeploymentV2 b cr auth matched w = (Ok (), w') →
  writes b c ("Deployment", (cr_Namespace cr, ct_RedisCommander c)) w w'.
Proof.
  intros Hc E. apply M_bind_Ok in E as ([[[name sentinel] image] n] & w1 & E1 & E).
  apply (redis_components_run _ _ _ _ _ _ _ Hc) in E1 as ([= -> -> -> ->] & Hs & Hk & E1).
  apply M_bind_Ok in E as (v & w2 & Ev & E). injection Ev as <- <-.
  apply M_bind_Ok in E as (checksum & w3 & Ec & E). apply reads_seen in Ec; [|apply reads_redis_checksum].
  apply M_bind_Ok in E as (d & w4 & Er & E). injection Er as Er <-.
  eapply writes_workload; [by rewrite Ec| |exact E].
  apply outcome_bind_Ok in Er as (t & Ht & [= <-]). apply add_redis_class_same in Ht.
  eapply deployment_workload; [done|apply commander_valid| |exact Ht].
  rewrite Hs, Hk. solve_wired.
Qed.

(** The variables after the other handlers' loops: a component of the configuration leaves those of
    redis. *)
Lemma service_step_part {S} (read : ContainerTemplate → outcome S) st c (w : World W) st' w' :
  service_step read st c w = (Ok st', w') → redis_part (w_auth w') =
    if decide (ct_Name c = AuthRedisComponent) then redis_part (updateRedisGlobalVars c zero_AuthVars)
    else redis_part (w_auth w).
Proof.
  unfold service_step. destruct (decide (ct_Name c = AuthProxyServerComponent)) as [Hn|Hn].
  - intros (? & w1 & [= _ <-] & [= _ <-])%M_bind_Ok.
    rewrite decide_False; [done|]. by rewrite Hn.
  - destruct (decide _).
    + intros (? & w1 & [= _ <-] & [= _ <-])%M_bind_Ok. apply updateRedis_part.
    + destruct (decide _); [|by intros [= _ <-]].
      intros (? & w1 & [= _ <-] & [= _ <-])%M_bind_Ok. apply updateConfig_part.
Qed.

Lemma over_service_step {S} (read : ContainerTemplate → outcome S) st cs (w : World W) st' w' :
  over_components (service_step read) st cs w = (Ok st', w') →
  snd st' = match last_redis cs with
            | Some c => (ct_Sentinel c, ct_RedisReplicas c)
            | None => snd st
            end.
Proof.
  revert st w. induction cs as [|c cs IH]; intros st w E; [by injection E as <-|].
  apply M_bind_Ok in E as (st1 & w1 & E1 & E). apply IH in E as ->. rewrite last_redis_cons.
  destruct (last_redis cs); [done|]. unfold service_step in E1.
  destruct (decide (ct_Name c = AuthProxyServerComponent)) as [Hn|Hn].
  - rewrite (decide_False (P := ct_Name c = AuthRedisComponent)) by by rewrite Hn.
    by apply M_bind_Ok in E1 as (? & ? & _ & [= <-]).
  - destruct (decide (ct_Name c = AuthRedisComponent)).
    + by apply M_bind_Ok in E1 as (? & ? & _ & [= <-]).
    + destruct (decide _); [|by injection E1 as <-].
      by apply M_bind_Ok in E1 as (? & ? & _ & [= <-]).
Qed.

Lemma service_components_run {S} (read : ContainerTemplate → outcome S) st0 cs c (w : World W) s sentinel n w' :
  last_redis cs = Some c → over_components (service_step read) st0 cs w = (Ok (s, (sentinel, n)), w') →
  sentinel = ct_Sentinel c ∧ n = ct_RedisReplicas c ∧ redisSecretName (w_auth w') = secret_of c
  ∧ redisPasswordKey (w_auth w') = key_of c ∧ seen w' = seen w.
Proof.
  intros Hc E. pose proof (over_service_step _ _ _ _ _ _ E) as Hst. rewrite Hc in Hst.
  pose proof (over_components_redis _ _ _ _ _ _ (service_step_part _) E) as Hv.
  unfold redis_after in Hv. rewrite Hc in Hv. apply redis_part_secret in Hv as [Hs Hk].
  apply reads_seen in E; [|apply reads_over_components, reads_service_step].
  by injection Hst as -> ->.
Qed.

Lemma proxy_server_run b cr auth matched op c (w w' : World W) :
  last_redis (m_Components auth) = Some c →
  applyDeleteAuthorizationProxyServerV2 b cr auth matched op w = (Ok (), w') →
  writes b c ("Deployment", (cr_Namespace cr, "proxy-server")) w w'.
Proof.
  intros Hc E. apply M_bind_Ok in E as ([] & w0 & E0 & E). apply reads_seen in E0; [|apply reads_modify_vars].
  apply M_bind_Ok in E as ([[[replicas image] [opa mgmt]] [sentinel n]] & w1 & E1 & E).
  apply (service_components_run _ _ _ _ _ _ _ _ _ Hc) in E1 as (-> & -> & Hs & Hk & E1).
  apply M_bind_Ok in E as (v & w2 & Ev & E). injection Ev as <- <-.
  apply M_bind_Ok in E as (d & w4 & Er & E). injection Er as Er <-.
  apply M_bind_Ok in E as (d' & w4 & Er' & E). injection Er' as Er' <-.
  eapply writes_workload; [by rewrite E1| |exact E].
  apply outcome_bind_Ok in Er as (t & Ht & [= <-]). apply add_redis_class_same in Ht.
  apply outcome_bind_Ok in Er' as (t' & Ht' & [= <-]). apply add_config_class_same in Ht'.
  eapply (deployment_workload _ _ (getProxyServerScaffold _ _ _ _ _ _ _ _ _ _ _));
    [done|apply proxy_server_valid| |etrans; [exact Ht|exact Ht']].
  rewrite Hs, Hk. solve_wired.
Qed.

Lemma tenant_service_run b cr auth matched op c (w w' : World W) :
  last_redis (m_Components auth) = Some c →
  applyDeleteAuthorizationTenantServiceV2 b cr auth matched op w = (Ok (), w') →
  writes b c ("Deployment", (cr_Namespace cr, "tenant-service")) w w'.
Proof.
  intros Hc E. apply M_bind_Ok in E as ([] & w0 & E0 & E). apply reads_seen in E0; [|apply reads_modify_vars].
  apply M_bind_Ok in E as ([[image replicas] [sentinel n]] & w1 & E1 & E).
  apply (service_components_run _ _ _ _ _ _ _ _ _ Hc) in E1 as (-> & -> & Hs & Hk & E1).
  apply M_bind_Ok in E as (v & w2 & Ev & E). injection Ev as <- <-.
  apply M_bind_Ok in E as (d & w4 & Er & E). injection Er as Er <-.
  apply M_bind_Ok in E as (d' & w4 & Er' & E). injection Er' as Er' <-.
  eapply writes_workload; [by rewrite E1| |exact E].
  apply outcome_bind_Ok in Er as (t & Ht & [= <-]). apply add_redis_class_same in Ht.
  apply outcome_bind_Ok in Er' as (t' & Ht' & [= <-]). apply add_config_class_same in Ht'.
  eapply (deployment_workload _ _ (getTenantServiceScaffold _ _ _ _ _ _ _ _ _));
    [done|apply tenant_service_valid| |etrans; [exact Ht|exact Ht']].
  rewrite Hs, Hk. solve_wired.
Qed.

(** *** Vault certificates and storage service *)

Lemma apply_object_touches (P : Key → Prop) b f g o :
  (∀ objs, written o objs → ∀ k, k ∈ obj_key <$> objs → P k) →
  touches P (apply_object (W := W) b f g o).
Proof.
  intros HP. apply touches_lift_bind. intros y Hy%wrapErr_Ok%res_Ok. apply touches_orFail.
  apply touches_lift_bind. intros objs Ho. eapply touches_mono; [apply apply_or_delete_touches|].
  apply HP. by exists y.
Qed.

(** the objects of the certificates of the request's vaults *)
Definition vault_keys (cr : CSM) (vault : Vault) : list Key :=
  (λ '(kind, prefix), (kind, (cr_Namespace cr, (prefix +:+ va_Identifier vault)%string))) <$>
    [("Secret", "vault-certificate-authority-"); ("Secret", "vault-client-certificate-");
     ("Issuer", "storage-service-selfsigned-"); ("Certificate", "storage-service-selfsigned-")].

Definition vault_key (cr : CSM) (k : Key) : Prop :=
  ∃ auth vault o objs, getAuthorizationModule cr = Ok auth ∧ vault ∈ vaults_of auth
    ∧ obj_key o ∈ vault_keys cr vault ∧ written o objs ∧ k ∈ obj_key <$> objs.

Lemma applyDeleteVaultCertificates_touches b cr :
  touches (vault_key cr) (applyDeleteVaultCertificates (W := W) b cr).
Proof.
  apply touches_lift_bind. intros auth Ha. apply touches_forM_in. intros vault Hv.
  assert (∀ f g o, obj_key o ∈ vault_keys cr vault →
            touches (vault_key cr) (apply_object (W := W) b f g o)) as Hobj.
  { intros f g o Ho. apply apply_object_touches. intros objs Hw k Hk. by exists auth, vault, o, objs. }
  apply touches_bind; [|intros _].
  - unfold when. case_match; [|apply touches_ret].
    apply touches_bind; [apply touches_lift|]. intros ca. apply Hobj. repeat constructor.
  - destruct (decide _).
    + apply touches_bind; [apply touches_lift|]. intros cert.
      apply touches_bind; [apply touches_lift|]. intros key. apply Hobj. repeat constructor.
    + apply touches_bind; [|intros _]; apply Hobj; repeat constructor.
Qed.

(** The existing deployment loses the volumes of vault, and the certificates go. *)
Lemma removeVault_frame cr dp (w w' : World W) k :
  removeVaultFromStorageService cr dp w = (Ok (), w') →
  ¬ vault_key cr k → k ≠ obj_key (ODeployment dp) → seen w' !! k = seen w !! k.
Proof.
  intros E Hv Hd. apply M_bind_Ok in E as (r & w1 & E1 & E).
  assert (seen w1 = seen w) as Hw1 by (eapply reads_seen; [|exact E1]; apply touches_attempt, touches_getT).
  destruct r as [e|cur]; [by injection E as <-; rewrite Hw1|].
  assert (∃ w0, getT Deployment (om_Namespace (dp_Meta dp)) (om_Name (dp_Meta dp)) w = (Ok cur, w0)) as [w0 Hg].
  { unfold attempt in E1. destruct (getT _ _ _ w) as [[a|e|y] w0]; [|done..].
    injection E1 as -> ->. by eexists. }
  apply getT_key in Hg. apply M_bind_Ok in E as ([] & w2 & E2 & E).
  apply orFail_Ok in E2, E.
  assert (seen w' !! k = seen w2 !! k) as ->.
  { refine (touches_updateObject (eq (obj_key (ODeployment cur))) _ _ _ _ _ E k _); [done|].
    intros <-. apply Hd. exact Hg. }
  rewrite (applyDeleteVaultCertificates_touches _ _ _ _ _ E2 k Hv). by rewrite Hw1.
Qed.

Lemma storage_step_part op cr auth matched st c (w : World W) st' w' :
  storage_step op cr auth matched st c w = (Ok st', w') → redis_part (w_auth w') =
    if decide (ct_Name c = AuthRedisComponent) then redis_part (updateRedisGlobalVars c zero_AuthVars)
    else redis_part (w_auth w).
Proof.
  unfold storage_step. destruct (decide (ct_Name c = AuthProxyServerComponent)) as [Hn|Hn].
  - intros (? & w1 & [= _ <-] & [= _ <-])%M_bind_Ok. rewrite decide_False; [done|]. by rewrite Hn.
  - destruct (decide (ct_Name c = AuthRedisComponent)) as [Hr|Hr].
    + intros (? & w1 & [= _ <-] & [= _ <-])%M_bind_Ok. apply updateRedis_part.
    + destruct (decide _); [by intros [= _ <-]|]. destruct (decide _); [|by intros [= _ <-]].
      intros ([] & w1 & E & [= _ <-])%M_bind_Ok. revert w E.
      induction (ct_ConfigSecretProviderClass c) as [|config l IH]; intros w E; [by injection E as <-|].
      apply M_bind_Ok in E as ([] & w2 & E2 & E). rewrite (IH _ E). revert E2. unfold when.
      by destruct (bool_decide _); intros [= <-].
Qed.

Lemma over_storage_step op cr auth matched st cs (w : World W) st' w' :
  over_components (storage_step op cr auth matched) st cs w = (Ok st', w') →
  (sg_sentinelName st', sg_redisReplicas st') =
    match last_redis cs with
    | Some c => (ct_Sentinel c, ct_RedisReplicas c)
    | None => (sg_sentinelName st, sg_redisReplicas st)
    end.
Proof.
  revert st w. induction cs as [|c cs IH]; intros st w E; [by injection E as <-|].
  apply M_bind_Ok in E as (st1 & w1 & E1 & E). apply IH in E as ->. rewrite last_redis_cons.
  destruct (last_redis cs); [done|]. unfold storage_step in E1.
  destruct (decide (ct_Name c = AuthProxyServerComponent)) as [Hn|Hn].
  - rewrite (decide_False (P := ct_Name c = AuthRedisComponent)) by by rewrite Hn.
    by apply M_bind_Ok in E1 as (? & ? & _ & [= <-]).
  - destruct (decide (ct_Name c = AuthRedisComponent)).
    + by apply M_bind_Ok in E1 as (? & ? & _ & [= <-]).
    + repeat destruct (decide _); try by injection E1 as <-.
      by apply M_bind_Ok in E1 as (? & ? & _ & [= <-]).
Qed.

Lemma storage_components_run op cr auth matched st0 cs c (w : World W) s w' :
  last_redis cs = Some c →
  over_components (storage_step op cr auth matched) st0 cs w = (Ok s, w') →
  sg_sentinelName s = ct_Sentinel c ∧ sg_redisReplicas s = ct_RedisReplicas c
  ∧ redisSecretName (w_auth w') = secret_of c ∧ redisPasswordKey (w_auth w') = key_of c
  ∧ seen w' = seen w.
Proof.
  intros Hc E. pose proof (over_storage_step _ _ _ _ _ _ _ _ _ E) as Hst. rewrite Hc in Hst.
  pose proof (over_components_redis _ _ _ _ _ _ (storage_step_part _ _ _ _) E) as Hv.
  unfold redis_after in Hv. rewrite Hc in Hv. apply redis_part_secret in Hv as [Hs Hk].
  apply reads_seen in E; [|apply reads_over_components, reads_storage_step].
  by injection Hst as -> ->.
Qed.

(** The scaffold, with what the handler adds to its only container. *)
Lemma storage_workload c cr name ns image r config t v s v2 :
  sg_sentinelName s = ct_Sentinel c → sg_redisReplicas s = ct_RedisReplicas c →
  redisSecretName v = secret_of c → redisPasswordKey v = key_of c → ns = cr_Namespace cr →
  let d := getStorageServiceScaffold name ns image r config in
  same_pods (dp_Template d) t →
  server_workload ("Deployment", (ns, "storage-service")) c
    (ODeployment
       (set_dp_Containers (on_container "storage-service" (storage_container v cr s v2) (tp_Containers t))
          (set_dp_Template t d))).
Proof using.
  intros Hs Hr Hv Hk -> d Ht. split; [done|].
  pose proof (same_containers _ _ Ht) as Hc. pose proof (same_init _ _ Ht) as Hi.
  pose proof (same_labels _ _ Ht) as Hl.
  pose proof (storage_service_valid name (cr_Namespace cr) image r config) as [Hsel Hok].
  apply (same_ok _ _ Ht) in Hok. destruct t as [labels ann sa init cs vols].
  cbn [tp_InitContainers tp_Containers tp_Labels] in *. cbn in Hc, Hi.
  apply fmap_nil_inv in Hi as ->. destruct cs as [|co [|co' cs]]; [done| |done].
  injection Hc as Hn He. cbn [on_container]. rewrite decide_True by done.
  split; [split|].
  - unfold dp_TemplateLabels in *. cbn in *. by rewrite Hl.
  - unfold pods_ok in *. cbn in *. apply Forall_cons in Hok as [Hok _]. apply Forall_cons.
    split; [|done]. unfold mounts_declared, storage_container in *. by destruct v2.
  - destruct v2; unfold envs, storage_container; cbn; rewrite He, Hs, Hr, Hv, Hk; cbn; solve_wired.
Qed.

Lemma storage_service_run b cr auth matched op c (w w' : World W) :
  last_redis (m_Components auth) = Some c →
  authorizationStorageServiceV2 b cr auth matched op w = (Ok (), w') →
  ∃ w1, (∀ k, ¬ vault_key cr k → k ≠ ("Deployment", (cr_Namespace cr, "storage-service")) →
              seen w1 !! k = seen w !! k)
    ∧ (MinVersionCheck "v2.3.0" (m_ConfigVersion auth) = Ok false → seen w1 = seen w)
    ∧ writes b c ("Deployment", (cr_Namespace cr, "storage-service")) w1 w'.
Proof.
  intros Hc E. apply M_bind_Ok in E as (creds & w0 & E0 & E). injection E0 as E0 <-.
  apply M_bind_Ok in E as ([] & w1 & E1 & E). apply reads_seen in E1; [|apply reads_modify_vars].
  apply M_bind_Ok in E as (s & w2 & E2 & E).
  apply (storage_components_run _ _ _ _ _ _ _ _ _ _ Hc) in E2 as (Hs & Hr & Hv & Hk & E2).
  destruct (_ && _); [done|]. apply M_bind_Ok in E as (v & w3 & Ev & E). injection Ev as <- <-.
  apply M_bind_Ok in E as (d & w4 & Ed & E).
  apply M_bind_Ok in E as (v2 & w5 & E5 & E). injection E5 as _ <-.
  apply apply_object_run in E as (objs & Hw & E). exists w4.
  assert (∃ t, same_pods (dp_Template (getStorageServiceScaffold (cr_Name cr) (cr_Namespace cr)
             (sg_image s) (wrap_int32 (sg_replicas s)) (configSecretName (w_auth w2)))) t
           ∧ d = set_dp_Template t (getStorageServiceScaffold (cr_Name cr) (cr_Namespace cr)
             (sg_image s) (wrap_int32 (sg_replicas s)) (configSecretName (w_auth w2)))) as (t & Ht & ->).
  { destruct creds; [|injection Ed as <- _; by eexists].
    apply M_bind_Ok in Ed as ([] & w5 & _ & Ed). injection Ed as Ed _.
    apply outcome_bind_Ok in Ed as (t & Ht & [= <-]). exists t. split; [|done].
    etrans; [apply add_credentials_same|by eapply add_redis_class_same]. }
  split_and!.
  - intros k Hvk Hdk. rewrite <- E1, <- E2. destruct creds; [|by injection Ed as _ <-].
    apply M_bind_Ok in Ed as ([] & w5 & Er & Ed). injection Ed as _ <-.
    apply orFail_Ok in Er. by apply (removeVault_frame _ _ _ _ _ Er).
  - intros Hf. rewrite Hf in E0. injection E0 as <-. injection Ed as _ <-. congruence.
  - eexists _, objs. split_and!; [|exact Hw|exact E]. by apply storage_workload.
Qed.

(** *** All of them *)

Fixpoint writes_all (b : bool) (c : ContainerTemplate) (ks : list Key) (w w' : World W) : Prop :=
  match ks with
  | [] => w' = w
  | k :: ks' => ∃ w1, writes b c k w w1 ∧ writes_all b c ks' w1 w'
  end.

(** the workloads before the storage service, in the order of their writes *)
Definition workload_keys (cr : CSM) (c : ContainerTemplate) : list Key :=
  [("StatefulSet", (cr_Namespace cr, ct_RedisName c));
   ("Deployment", (cr_Namespace cr, ct_RedisCommander c));
   ("StatefulSet", (cr_Namespace cr, ct_Sentinel c));
   ("Deployment", (cr_Namespace cr, "proxy-server"));
   ("Deployment", (cr_Namespace cr, "tenant-service"))].

Lemma server_deployment_run b op cr matched auth c (w w' : World W) :
  getAuthorizationModule cr = Ok auth → last_redis (m_Components auth) = Some c →
  AuthorizationServerDeployment b op cr matched w = (Ok (), w') →
  ∃ y objs ok w1 w2 w3,
    getAuthorizationServerDeployment op cr auth matched = Ok y
    ∧ GetModuleComponentObj y = Ok objs
    ∧ MinVersionCheck "v2.3.0" (m_ConfigVersion auth) = Ok ok
    ∧ changes b (obj_key <$> objs) [] w w1
    ∧ writes_all b c (if ok : bool then workload_keys cr c else []) w1 w2
    ∧ (∀ k, ¬ (ok = true ∧ (vault_key cr k ∨ k = ("Deployment", (cr_Namespace cr, "storage-service")))) →
            seen w3 !! k = seen w2 !! k)
    ∧ writes b c ("Deployment", (cr_Namespace cr, "storage-service")) w3 w'.
Proof.
  intros Ha Hc E. apply M_bind_Ok in E as (auth' & w1 & E1 & E). injection E1 as E1 <-.
  rewrite Ha in E1. injection E1 as <-.
  apply M_bind_Ok in E as (y & w1 & E1 & E). injection E1 as E1 <-.
  apply M_bind_Ok in E as ([] & w1 & E2 & E). apply applyDeleteObjects_run in E2 as (objs & Ho & E2).
  apply M_bind_Ok in E as (ok & w1' & E3 & E). injection E3 as E3 <-.
  apply M_bind_Ok in E as ([] & w2 & E4 & E).
  apply (storage_service_run _ _ _ _ _ _ _ _ Hc) in E as (w3 & Hf & Hf' & Hs).
  exists y, objs, ok, w1, w2, w3. split_and!; try done.
  - destruct ok; [|by injection E4 as <-].
    apply M_bind_Ok in E4 as ([] & v1 & E4 & E5). apply M_bind_Ok in E5 as ([] & v2 & E5 & E6).
    apply M_bind_Ok in E6 as ([] & v3 & E6 & E7). apply M_bind_Ok in E7 as ([] & v4 & E7 & E8).
    exists v1. split; [by eapply redis_statefulset_run|].
    exists v2. split; [by eapply commander_deployment_run|].
    exists v3. split; [by eapply sentinel_statefulset_run|].
    exists v4. split; [by eapply proxy_server_run|].
    exists w2. split; [by eapply tenant_service_run|done].
  - intros k Hk. destruct ok; [apply Hf; tauto|]. by rewrite Hf'.
Qed.

Lemma deployment_validates op cr auth matched y y' cs :
  foldO (deployment_step op cr auth matched) y cs = Ok y' →
  Forall (λ c, ct_Name c = AuthRedisComponent → ∃ r, validateRedisConfig c = Ok r) cs.
Proof using.
  revert y. induction cs as [|c cs IH]; intros y E; [done|]. cbn [foldO] in E.
  apply outcome_bind_Ok in E as (y1 & E1 & E). constructor; [|by eapply IH].
  intros Hc. apply outcome_bind_Ok in E1 as (y2 & _ & E1). rewrite decide_True in E1 by done.
  cbn zeta in E1. apply outcome_bind_Ok in E1 as (r & Hr%wrapErr_Ok & _). by exists r.
Qed.

Lemma last_redis_valid op cr auth matched y c :
  getAuthorizationServerDeployment op cr auth matched = Ok y →
  last_redis (m_Components auth) = Some c → ∃ r, validateRedisConfig c = Ok r.
Proof using.
  intros E Hc. apply outcome_bind_Ok in E as (buf & _ & E). apply outcome_bind_Ok in E as (y' & E & _).
  apply deployment_validates in E. rewrite Forall_forall in E.
  apply last_Some_elem_of, list_elem_of_filter in Hc as [Hn Hc]. by apply (E c).
Qed.

(** C29: the deployment of the authorization server, applied or deleted. When it succeeds, the
    credentials of the request's last component of redis were accepted, and the cluster has gone
    through these writes and no others: the objects of the manifest; from version 2.3 on redis,
    its commander, its sentinels, the proxy server and the tenant service, in this order, and
    then, besides the former deployment of the storage service, only the certificates of vault;
    last the storage service. Each of these workloads has a selector that selects its own pods,
    mounts only volumes that its pods declare, and reads the password and the sentinels of
    that component of redis, whatever the package variables held before. *)
Theorem server_deployment_spec b op cr matched auth c (w w' : World W) :
  getAuthorizationModule cr = Ok auth → last_redis (m_Components auth) = Some c →
  AuthorizationServerDeployment b op cr matched w = (Ok (), w') →
  ∃ y objs ok w1 w2 w3,
    (∃ r, validateRedisConfig c = Ok r)
    ∧ getAuthorizationServerDeployment op cr auth matched = Ok y
    ∧ GetModuleComponentObj y = Ok objs
    ∧ MinVersionCheck "v2.3.0" (m_ConfigVersion auth) = Ok ok
    ∧ changes b (obj_key <$> objs) [] w w1
    ∧ writes_all b c (if ok : bool then workload_keys cr c else []) w1 w2
    ∧ (∀ k, ¬ (ok = true ∧ (vault_key cr k ∨ k = ("Deployment", (cr_Namespace cr, "storage-service")))) →
            seen w3 !! k = seen w2 !! k)
    ∧ writes b c ("Deployment", (cr_Namespace cr, "storage-service")) w3 w'.
Proof.
  intros Ha Hc E. eapply server_deployment_run in E as (y & objs & ok & w1 & w2 & w3 & Hy & E); [|done..].
  exists y, objs, ok, w1, w2, w3. split; [by eapply last_redis_valid|by split].
Qed.
End spec.

(** ** A server on which the hypotheses hold *)

Definition demo_redis : ContainerTemplate :=
  {| ct_Name := AuthRedisComponent;
     ct_Enabled := None;
     ct_Image := "";
     ct_ImagePullPolicy := "";
     ct_Args := [];
     ct_Envs := None;
     ct_Tolerations := [];
     ct_NodeSelector := None;
     ct_ProxyService := "";
     ct_ProxyServiceReplicas := 0%Z;
     ct_TenantService := "";
     ct_TenantServiceReplicas := 0%Z;
     ct_RoleService := "";
     ct_RoleServiceReplicas := 0%Z;
     ct_StorageService := "";
     ct_StorageServiceReplicas := 0%Z;
     ct_AuthorizationController := "";
     ct_AuthorizationControllerReplicas := 0%Z;
     ct_LeaderElection := false;
     ct_OpenTelemetryCollectorAddress := "";
     ct_ControllerReconcileInterval := "";
     ct_Redis := "";
     ct_Commander := "";
     ct_Opa := "";
     ct_OpaKubeMgmt := "";
     ct_Hostname := "";
     ct_ProxyServerIngress := [];
     ct_Gateway := None;
     ct_Vaults := [];
     ct_SecretProviderClasses := None;
     ct_Secrets := [];
     ct_SkipCertificateValidation := false;
     ct_RedisUsername := "user";
     ct_RedisPassword := "secret";
     ct_RedisName := "redis-csm";
     ct_RedisCommander := "rediscommander";
     ct_RedisReplicas := 5%Z;
     ct_Sentinel := "sentinel";
     ct_RedisSecretProviderClass := [];
     ct_ConfigSecretProviderClass := [];
     ct_Certificate := "";
     ct_PrivateKey := "";
     ct_CertificateAuthority := "" |}.

Definition demo_proxy : ContainerTemplate :=
  {| ct_Name := AuthProxyServerComponent;
     ct_Enabled := None;
     ct_Image := "";
     ct_ImagePullPolicy := "";
     ct_Args := [];
     ct_Envs := None;
     ct_Tolerations := [];
     ct_NodeSelector := None;
     ct_ProxyService := "";
     ct_ProxyServiceReplicas := 1%Z;
     ct_TenantService := "";
     ct_TenantServiceReplicas := 0%Z;
     ct_RoleService := "";
     ct_RoleServiceReplicas := 0%Z;
     ct_StorageService := "";
     ct_StorageServiceReplicas := 0%Z;
     ct_AuthorizationController := "";
     ct_AuthorizationControllerReplicas := 0%Z;
     ct_LeaderElection := false;
     ct_OpenTelemetryCollectorAddress := "";
     ct_ControllerReconcileInterval := "";
     ct_Redis := "";
     ct_Commander := "";
     ct_Opa := "";
     ct_OpaKubeMgmt := "";
     ct_Hostname := "csm-authorization.com";
     ct_ProxyServerIngress := [];
     ct_Gateway := None;
     ct_Vaults := [];
     ct_SecretProviderClasses := None;
     ct_Secrets := [];
     ct_SkipCertificateValidation := false;
     ct_RedisUsername := "";
     ct_RedisPassword := "";
     ct_RedisName := "";
     ct_RedisCommander := "";
     ct_RedisReplicas := 0%Z;
     ct_Sentinel := "";
     ct_RedisSecretProviderClass := [];
     ct_ConfigSecretProviderClass := [];
     ct_Certificate := "";
     ct_PrivateKey := "";
     ct_CertificateAuthority := "" |}.

Definition demo_credentials : ContainerTemplate :=
  {| ct_Name := AuthStorageSystemCredentialsComponent;
     ct_Enabled := None;
     ct_Image := "";
     ct_ImagePullPolicy := "";
     ct_Args := [];
     ct_Envs := None;
     ct_Tolerations := [];
     ct_NodeSelector := None;
     ct_ProxyService := "";
     ct_ProxyServiceReplicas := 0%Z;
     ct_TenantService := "";
     ct_TenantServiceReplicas := 0%Z;
     ct_RoleService := "";
     ct_RoleServiceReplicas := 0%Z;
     ct_StorageService := "";
     ct_StorageServiceReplicas := 0%Z;
     ct_AuthorizationController := "";
     ct_AuthorizationControllerReplicas := 0%Z;
     ct_LeaderElection := false;
     ct_OpenTelemetryCollectorAddress := "";
     ct_ControllerReconcileInterval := "";
     ct_Redis := "";
     ct_Commander := "";
     ct_Opa := "";
     ct_OpaKubeMgmt := "";
     ct_Hostname := "";
     ct_ProxyServerIngress := [];
     ct_Gateway := None;
     ct_Vaults := [];
     ct_SecretProviderClasses := None;
     ct_Secrets := ["powerstore"];
     ct_SkipCertificateValidation := false;
     ct_RedisUsername := "";
     ct_RedisPassword := "";
     ct_RedisName := "";
     ct_RedisCommander := "";
     ct_RedisReplicas := 0%Z;
     ct_Sentinel := "";
     ct_RedisSecretProviderClass := [];
     ct_ConfigSecretProviderClass := [];
     ct_Certificate := "";
     ct_PrivateKey := "";
     ct_CertificateAuthority := "" |}.

Definition demo_vault : ContainerTemplate :=
  {| ct_Name := AuthVaultComponent;
     ct_Enabled := None;
     ct_Image := "";
     ct_ImagePullPolicy := "";
     ct_Args := [];
     ct_Envs := None;
     ct_Tolerations := [];
     ct_NodeSelector := None;
     ct_ProxyService := "";
     ct_ProxyServiceReplicas := 0%Z;
     ct_TenantService := "";
     ct_TenantServiceReplicas := 0%Z;
     ct_RoleService := "";
     ct_RoleServiceReplicas := 0%Z;
     ct_StorageService := "";
     ct_StorageServiceReplicas := 0%Z;
     ct_AuthorizationController := "";
     ct_AuthorizationControllerReplicas := 0%Z;
     ct_LeaderElection := false;
     ct_OpenTelemetryCollectorAddress := "";
     ct_ControllerReconcileInterval := "";
     ct_Redis := "";
     ct_Commander := "";
     ct_Opa := "";
     ct_OpaKubeMgmt := "";
     ct_Hostname := "";
     ct_ProxyServerIngress := [];
     ct_Gateway := None;
     ct_Vaults := [mkVault "vault0" "https://vault" "" false "" "" "Y2E="];
     ct_SecretProviderClasses := None;
     ct_Secrets := [];
     ct_SkipCertificateValidation := false;
     ct_RedisUsername := "";
     ct_RedisPassword := "";
     ct_RedisName := "";
     ct_RedisCommander := "";
     ct_RedisReplicas := 0%Z;
     ct_Sentinel := "";
     ct_RedisSecretProviderClass := [];
     ct_ConfigSecretProviderClass := [];
     ct_Certificate := "";
     ct_PrivateKey := "";
     ct_CertificateAuthority := "" |}.

Definition server_module : Module :=
  mkModule AuthorizationServer true "v2.4.0" [demo_proxy; demo_redis; demo_credentials; demo_vault] false [].

Definition server_cr : CSM :=
  mkCSM "ContainerStorageModule" (named "dell" "csm")
    (mkSpec "" (mkDriver "" None "" 0 "" None None None [] [] [] "" "" None None)
       [server_module] "" false)
    zero_Status.

Definition server_host : Host := host_of
  {[ "/cfg/moduleconfig/authorization/v2.4.0/deployment.yaml" := "Deployment role-service";
     "/cfg/moduleconfig/authorization/v2.4.0/policies.yaml" := "ConfigMap policies" ]}
  ∅ ∅.

Section witnesses.
#[local] Existing Instances server_host demo_codec auth_directory.

Lemma server_deployment_spec_witness :
  let w := world_of [] obeys in
  ∃ w1 w2 w3 w',
    AuthorizationServerDeployment false modules_config server_cr zero_VersionSpec w = (Ok (), w')
    ∧ changes false [("Deployment", ("dell", "role-service")); ("Secret", ("dell", "redis-csm-secret"))] [] w w1
    ∧ writes_all false demo_redis (workload_keys server_cr demo_redis) w1 w2
    ∧ writes false demo_redis ("Deployment", ("dell", "storage-service")) w3 w'.
Proof.
  intros w.
  assert (E : fst (AuthorizationServerDeployment false modules_config server_cr zero_VersionSpec w) = Ok ())
    by (vm_compute; reflexivity).
  apply run_fst in E.
  destruct (server_deployment_spec false modules_config server_cr zero_VersionSpec server_module demo_redis w _ eq_refl eq_refl E)
    as (y & objs & ok & w1 & w2 & w3 & _ & Hy & Ho & Hok & Hc & Ha & _ & Hs).
  vm_compute in Hy. injection Hy as <-. vm_compute in Ho. injection Ho as <-.
  vm_compute in Hok. injection Hok as <-.
  exists w1, w2, w3. eexists. split; [exact E|]. split; [exact Hc|]. split; [exact Ha|exact Hs].
Defined.
End witnesses.
