(* ===== verification/AuthServerCerts.v ===== *)
(** The authorization server's check, versions and certificates (AuthServer.v): what the check
    promises, which version is the latest, that the ingress uses the certificate that is
    installed, and that the certificates of vault arrive as they were encoded. *)

From S2P Require Import Prelude.
From S2P Require Import GoStrings.
From S2P Require Import GoCrypto.
From S2P Require Import Types.
From S2P Require Import Versions.
From S2P Require Import Modules.
From S2P Require Import Images.
From S2P Require Import Cluster.
From S2P Require Import Resources.
From S2P Require Import Status.
From S2P Require Import Packages.
From S2P Require Import Manifests.
From S2P Require Import Drivers.
From S2P Require Import Pods.
From S2P Require Import ModCommon.
From S2P Require Import AuthSidecar.
From S2P Require Import AuthScaffold.
From S2P Require Import AuthServer.
From S2P Require Import AuthServerSpec.
From stdpp Require Import options.

Local Open Scope stdpp_scope.

(** ** The latest version *)

Section latest.
Context `{Directory}.
#[local] Set Default Proof Using "All".

Lemma latest_parsed latest d p :
  versionParser latest = Ok p → latest ≠ "" →
  latest_step latest d = Ok (match versionParser d with
                             | Ok q => if reaches p q then d else latest
                             | _ => latest
                             end).
Proof using.
  intros Hp Hl. unfold latest_step. rewrite decide_False by done.
  destruct (versionParser d) as [q|e|y] eqn:Hq.
  - rewrite (MinVersionCheck_parsed _ _ p q) by done. by destruct (reaches p q).
  - unfold MinVersionCheck. rewrite Hp. cbn. destruct p. cbn. by rewrite Hq.
  - revert Hq. unfold versionParser. by repeat case_match.
Qed.

Lemma latest_unparsed latest d e :
  versionParser latest = Fail e → latest ≠ "" → latest_step latest d = Ok latest.
Proof using.
  intros Hp Hl. unfold latest_step, MinVersionCheck. by rewrite decide_False, Hp.
Qed.

(** at least every version of the list that can be read *)
Definition at_least (ds : list string) (r : string) : Prop :=
  ∀ d, d ∈ ds → (∃ q, versionParser d = Ok q) → MinVersionCheck d r = Ok true.

Lemma empty_unparsed q : versionParser "" ≠ Ok q.
Proof using. by vm_compute. Qed.

Lemma latest_fold latest ds p :
  versionParser latest = Ok p → latest ≠ "" →
  ∃ r q, foldO latest_step latest ds = Ok r ∧ r ∈ latest :: ds ∧ r ≠ "" ∧ versionParser r = Ok q
    ∧ reaches p q = true ∧ at_least ds r.
Proof using.
  revert latest p. induction ds as [|d ds IH]; intros latest p Hp Hl.
  - exists latest, p. split_and!; [done|by left|done|done| |by intros ? ?%not_elem_of_nil].
    unfold reaches. apply bool_decide_eq_true. lia.
  - cbn [foldO]. rewrite (latest_parsed _ _ _ Hp Hl). cbn [mbind outcome_bind].
    destruct (versionParser d) as [q| |] eqn:Hq.
    1: destruct (reaches p q) eqn:Hr.
    + assert (d ≠ "") as Hd by (intros ->; by apply empty_unparsed in Hq).
      destruct (IH d q Hq Hd) as (r & q' & E & Hin & Hne & Hr' & Hle & Ha). exists r, q'.
      split_and!; [done|by right|done|done|by eapply reaches_trans|].
      intros x [->|Hx]%elem_of_cons Hp'; [|by apply Ha]. by rewrite (MinVersionCheck_parsed _ _ q q'), Hle.
    + destruct (IH latest p Hp Hl) as (r & q' & E & Hin & Hne & Hr' & Hle & Ha). exists r, q'.
      split_and!; [done|set_solver|done..|].
      intros x [->|Hx]%elem_of_cons Hp'; [|by apply Ha]. rewrite (MinVersionCheck_parsed _ _ q q') by done.
      f_equal. eapply reaches_trans; [|exact Hle]. destruct (reaches_total p q) as [Ht|Ht]; [congruence|done].
    + destruct (IH latest p Hp Hl) as (r & q' & E & Hin & Hne & Hr' & Hle & Ha). exists r, q'.
      split_and!; [done|set_solver|done..|].
      intros x [->|Hx]%elem_of_cons [q Hp']; [congruence|by apply Ha; [|exists q]].
    + destruct (IH latest p Hp Hl) as (r & q' & E & Hin & Hne & Hr' & Hle & Ha). exists r, q'.
      split_and!; [done|set_solver|done..|].
      intros x [->|Hx]%elem_of_cons [q Hp']; [congruence|by apply Ha; [|exists q]].
Qed.

(** The latest version of authorization. Of the directories of the configuration, the first of
    which has a name that can be read as a version, it is one that is at least every other that
    can be read; the ones that cannot are skipped. When the first one cannot be read it is
    taken for the latest, whatever the others are. *)
Theorem getLatestAuthVersion_spec dir files d ds :
  let path := dir +:+ "/moduleconfig/" +:+ Authorization in
  ReadDir path = inr files → filter (λ f, IsDir path f = true) files = d :: ds → d ≠ "" →
  match versionParser d with
  | Ok p => ∃ r, getLatestAuthVersion dir = Ok r ∧ r ∈ d :: ds ∧ at_least (d :: ds) r
  | _ => getLatestAuthVersion dir = Ok d
  end.
Proof using.
  intros path Hf Hds Hd. unfold getLatestAuthVersion. fold path. rewrite Hf. cbn [wrapErr res mbind outcome_bind].
  rewrite decide_False by (intros ->; done). rewrite Hds. cbn [foldO].
  replace (latest_step "" d) with (Ok d : outcome string) by done. cbn [mbind outcome_bind].
  destruct (versionParser d) as [p|e|y] eqn:Hp.
  - destruct (latest_fold d ds p Hp Hd) as (r & q & E & Hin & Hne & Hr & Hle & Ha). rewrite E.
    cbn [mbind outcome_bind]. rewrite decide_False by done. exists r. split_and!; [done..|].
    intros x [->|Hx]%elem_of_cons Hpx; [|by apply Ha]. by rewrite (MinVersionCheck_parsed _ _ p q), Hle.
  - replace (foldO latest_step d ds) with (Ok d); [by cbn; rewrite decide_False|].
    clear Hds. induction ds as [|x ds IH]; [done|]. cbn [foldO]. rewrite (latest_unparsed _ _ _ Hp Hd). exact IH.
  - revert Hp. unfold versionParser. by repeat case_match.
Qed.
End latest.

(** ** The check *)

Section spec.
Context {W : Type} `{Client W} `{!View W} `{!ClientLaws (W := W)} `{Host} `{MapOrder}
  `{ManifestCodec} `{Directory}.
#[local] Set Default Proof Using "All".

(** The proxy server's component has the ingress fields of its version only. *)
Definition proxy_fields_ok (isV25OrLater gateway : bool) (c : ContainerTemplate) : Prop :=
  ct_Name c = AuthProxyServerComponent →
    (isV25OrLater = true → gateway = true → ct_ProxyServerIngress c = [])
    ∧ (isV25OrLater = false → gateway = false → ct_Gateway c = None).

Lemma check_proxy_component_Ok v g c :
  check_proxy_component v g c = Ok () ↔ proxy_fields_ok v g c.
Proof using.
  unfold check_proxy_component, proxy_fields_ok. destruct (decide _) as [Hn|Hn]; [|naive_solver].
  destruct v, g; cbn; repeat case_bool_decide; naive_solver.
Qed.

Lemma check_components_Ok v g cs :
  foldO (λ _, check_proxy_component v g) () cs = Ok () ↔ Forall (proxy_fields_ok v g) cs.
Proof using.
  induction cs as [|c cs IH]; [by split; [constructor|]|]. cbn [foldO].
  rewrite outcome_bind_Ok, Forall_cons, <- IH, <- check_proxy_component_Ok. split.
  - by intros ([] & ? & ?).
  - by exists ().
Qed.

Lemma reads_server_check op auth cr : reads (server_check op auth cr).
Proof.
  unfold reads, server_check. repeat first
    [apply touches_bind; [apply touches_lift|intros ?] | case_match | apply touches_fail
    | apply touches_ret | apply reads_require_secret].
Qed.

(** C34: the check of the authorization server only reads, and leaves the request as it is. When it
    succeeds, the operator has a configuration of that version; nginx-gateway-fabric is enabled
    from version 2.5 on only; no component of the proxy server has ingress entries next to
    the enabled gateway, or before that version a gateway; and the secret of the
    configuration was found (or the error of its lookup was not "not found") unless a secret
    provider class is named for it. *)
Theorem AuthorizationServerPrecheck_spec op auth cr (w : World W) cr' err w' :
  AuthorizationServerPrecheck op auth cr w = (Ok (cr', err), w') →
  seen w' = seen w ∧ cr' = cr
  ∧ (err = None →
     ∃ version isV25OrLater, GetVersion cr op = Ok version
       ∧ checkVersion Authorization version (oc_ConfigDirectory op) = Ok ()
       ∧ MinVersionCheck "v2.5.0" version = Ok isV25OrLater
       ∧ let gateway := existsb gateway_enabled (m_Components auth) in
         (gateway = true → isV25OrLater = true)
         ∧ Forall (proxy_fields_ok isV25OrLater gateway) (m_Components auth)
         ∧ (config_class_found auth = false → found cr w "karavi-config-secret")).
Proof.
  intros E. apply reading_check_inv in E as (-> & r & E & Hr).
  split; [eapply reads_seen, E; apply reads_server_check|]. split; [done|]. intros ->. subst r.
  apply M_bind_Ok in E as (version & w1 & Ev & E). injection Ev as Ev <-.
  apply M_bind_Ok in E as ([] & w1 & Ec & E). injection Ec as Ec <-.
  apply M_bind_Ok in E as (v25 & w1 & Em & E). injection Em as Em <-. apply wrapErr_Ok in Em.
  exists version, v25. split_and!; [done..|]. cbn zeta in E |- *.
  destruct (existsb gateway_enabled _) eqn:Hg; destruct v25; cbn [andb negb] in E; try done.
  all: apply M_bind_Ok in E as ([] & w1 & Ef & E); injection Ef as Ef <-; apply check_components_Ok in Ef;
    split; [done|]; split; [done|]; intros Hc; rewrite Hc in E; by apply require_secret_Ok in E.
Qed.

(** ** The certificate of the ingress *)

Lemma getHosts_module cr hosts : getHosts cr = Ok hosts → ∃ auth, getAuthorizationModule cr = Ok auth.
Proof using. intros (auth & Ha & _)%outcome_bind_Ok. by exists auth. Qed.

(** What a loop of assignments leaves is what the last of them assigns. *)
Lemma assign_last {A} (f : A → AuthVars → AuthVars) xs (w w' : World W) :
  (∀ x y v, f y (f x v) = f y v) → forM (λ x, modify_vars (f x)) xs w = (Ok (), w') →
  seen w' = seen w
  ∧ w_auth w' = match last xs with Some x => f x (w_auth w) | None => w_auth w end.
Proof.
  intros Hf. revert w. induction xs as [|x xs IH]; intros w E; [by injection E as <-|].
  apply M_bind_Ok in E as ([] & w1 & E1 & E). apply IH in E as [-> ->]. rewrite last_cons.
  injection E1 as <-. split; [done|]. cbn. destruct (last xs); [apply Hf|done].
Qed.

Lemma reads_getClassName isOpenShift cr : reads (getClassName (W := W) isOpenShift cr).
Proof.
  unfold getClassName. case_match; [apply touches_ret|].
  apply touches_bind; [apply touches_lift|intros auth]. apply touches_bind.
  - apply touches_forM. intros c. apply touches_forM. intros i. apply reads_modify_vars.
  - intros _. apply touches_bind; [apply reads_get_vars|intros v; apply touches_ret].
Qed.

Lemma createIngress_run isOpenShift cr auth c (w w' : World W) o :
  getAuthorizationModule cr = Ok auth → last (proxy_components auth) = Some c →
  createIngress isOpenShift cr w = (Ok o, w') →
  seen w' = seen w
  ∧ ∃ m className hosts rules, getHosts cr = Ok hosts
      ∧ o = OOther (mkResource "Ingress" m (IngressBody className hosts (tls_secret c) rules)).
Proof.
  intros Ha Hc E. apply M_bind_Ok in E as (auth' & w1 & E1 & E). injection E1 as E1 <-.
  rewrite Ha in E1. injection E1 as <-.
  apply M_bind_Ok in E as (className & w1 & E1 & E). apply orFail_Ok in E1.
  apply reads_seen in E1; [|apply reads_getClassName].
  apply M_bind_Ok in E as (annotations & w2 & E2 & E). injection E2 as _ <-.
  apply M_bind_Ok in E as (hosts & w2 & E2 & E). injection E2 as E2 <-. apply wrapErr_Ok in E2.
  apply M_bind_Ok in E as (rules & w3 & E3 & E). injection E3 as _ <-.
  apply M_bind_Ok in E as ([] & w3 & E3 & E).
  apply (assign_last (λ c, set_secretName (tls_secret c))) in E3 as [Hs Hv]; [|done]. rewrite Hc in Hv.
  apply M_bind_Ok in E as (v & w4 & E4 & E). injection E4 as <- <-. injection E as <- <-.
  split; [by rewrite Hs|]. rewrite Hv. by eexists _, className, hosts, rules.
Qed.

Lemma getCerts_run op cr auth c (w w' : World W) self y :
  getAuthorizationModule cr = Ok auth → last (proxy_components auth) = Some c →
  getCerts op cr w = (Ok (self, y), w') →
  seen w' = seen w
  ∧ (self = true ∧ y = "" ∧ ct_Certificate c = "" ∧ ct_PrivateKey c = ""
     ∨ self = false ∧ ct_Certificate c ≠ "" ∧ ct_PrivateKey c ≠ ""
       ∧ ∃ buf, readConfigFile auth cr op AuthCustomCert = Ok buf
           ∧ y = substitute buf [(AuthNamespace, cr_Namespace cr); (AuthCert, ct_Certificate c);
                                 (AuthPrivateKey, ct_PrivateKey c)]).
Proof.
  intros Ha Hc E. apply M_bind_Ok in E as (auth' & w1 & E1 & E). injection E1 as E1 <-.
  rewrite Ha in E1. injection E1 as <-.
  apply M_bind_Ok in E as ([] & w1 & E1 & E).
  apply (assign_last (λ c, set_certs (ct_Hostname c) (ct_Certificate c) (ct_PrivateKey c))) in E1
    as [Hs Hv]; [|done].
  rewrite Hc in Hv. apply M_bind_Ok in E as (v & w2 & E2 & E). injection E2 as <- <-. rewrite Hv in E.
  cbn [authCertificate authPrivateKey set_certs] in E.
  destruct (decide (ct_Certificate c = "" ∧ ct_PrivateKey c = "")) as [[? ?]|Hn].
  - injection E as <- <- <-. split; [done|]. by left.
  - destruct (decide (ct_Certificate c ≠ "" ∧ ct_PrivateKey c ≠ "")) as [[? ?]|Hn']; [|done].
    apply M_bind_Ok in E as (buf & w2 & E2 & E). injection E2 as E2 <-. injection E as <- <- <-.
    split; [done|]. right. split_and!; [done..|]. by exists buf.
Qed.

(** C32: the certificate of the server. For a request whose last component of the proxy server is
    [c], the ingress that is made refers to one secret, and it is the one that the
    certificates that are installed fill: without certificate and key it is the secret of a
    self-signed certificate for the hosts of the ingress; with both it is the one of the manifest
    of given certificates, with their texts filled in; with one of them alone installation fails. *)
Theorem server_tls_spec isDeleting isOpenShift op cr auth c o (w0 w0' w w' : World W) :
  getAuthorizationModule cr = Ok auth → last (proxy_components auth) = Some c →
  createIngress isOpenShift cr w0 = (Ok o, w0') → InstallWithCerts isDeleting op cr w = (Ok (), w') →
  seen w0' = seen w0
  ∧ ∃ m className hosts secret rules,
      o = OOther (mkResource "Ingress" m (IngressBody className hosts secret rules))
      ∧ (secret = "karavi-selfsigned-tls" ∧ ct_Certificate c = "" ∧ ct_PrivateKey c = ""
         ∧ (∃ issuer certificate rest w1 w2,
              written (createSelfSignedIssuer cr "selfsigned") issuer
              ∧ written (createSelfSignedCertificate cr hosts "karavi-auth" secret "selfsigned") certificate
              ∧ GetModuleComponentObj "" = Ok rest
              ∧ changes isDeleting (obj_key <$> issuer) [] w w1
              ∧ changes isDeleting (obj_key <$> certificate) [] w1 w2
              ∧ changes isDeleting (obj_key <$> rest) [] w2 w')
         ∨ secret = "user-provided-tls" ∧ ct_Certificate c ≠ "" ∧ ct_PrivateKey c ≠ ""
           ∧ ∃ buf objs, readConfigFile auth cr op AuthCustomCert = Ok buf
               ∧ GetModuleComponentObj (substitute buf
                   [(AuthNamespace, cr_Namespace cr); (AuthCert, ct_Certificate c);
                    (AuthPrivateKey, ct_PrivateKey c)]) = Ok objs
               ∧ changes isDeleting (obj_key <$> objs) [] w w').
Proof.
  intros Ha Hc Ei E. eapply createIngress_run in Ei as (Hs & m & className & hosts & rules & Hh & ->); [|done..].
  split; [done|]. exists m, className, hosts, (tls_secret c), rules. split; [done|].
  apply M_bind_Ok in E as ([self y] & w1 & E1 & E). eapply getCerts_run in E1 as [Hw1 Hy]; [|done..].
  unfold tls_secret. destruct Hy as [(-> & -> & Hce & Hk)|(-> & Hce & Hk & buf & Hb & ->)].
  - left. rewrite decide_False by (intros [Hn _]; by apply Hn). split_and!; [done..|].
    apply M_bind_Ok in E as ([] & w2 & E2 & E). apply M_bind_Ok in E2 as ([] & w3 & E2 & E3).
    apply apply_object_run in E2 as (issuer & Hi & E2). apply (changes_seen _ _ _ _ _ _ Hw1) in E2.
    apply M_bind_Ok in E3 as (hosts' & w4 & E4 & E3). injection E4 as E4 <-.
    rewrite Hh in E4. injection E4 as <-. apply apply_object_run in E3 as (cert & Hcert & E3).
    apply applyDeleteObjects_run in E as (rest & Hr & E). by exists issuer, cert, rest, w3, w2.
  - right. rewrite decide_True by done. split_and!; [done..|].
    apply M_bind_Ok in E as ([] & w2 & E2 & E). injection E2 as <-.
    apply applyDeleteObjects_run in E as (objs & Ho & E). exists buf, objs. split_and!; [done..|].
    by eapply changes_seen.
Qed.

(** ** The certificates of vault *)

(** These objects were written, one after the other. *)
Fixpoint in_order (b : bool) (os : list Object) (w w' : World W) : Prop :=
  match os with
  | [] => seen w' = seen w
  | o :: os' => ∃ objs w1, written o objs ∧ changes b (obj_key <$> objs) [] w w1 ∧ in_order b os' w1 w'
  end.

Lemma in_order_app b os os' (w w1 w' : World W) :
  in_order b os w w1 → in_order b os' w1 w' → in_order b (os ++ os') w w'.
Proof.
  revert w. induction os as [|o os IH]; intros w; cbn [in_order app].
  - intros E. destruct os' as [|o os']; cbn [in_order]; [by rewrite E|].
    intros (objs & w2 & Hw & Hc & Ho). exists objs, w2. split_and!; [done| |done].
    by eapply changes_seen.
  - intros (objs & w2 & Hw & Hc & Ho) Ho'. exists objs, w2. split_and!; [done..|]. by apply IH.
Qed.

(** certificates of a vault, as bytes *)
Record Bundle := mkBundle { bd_id : string; bd_ca : string; bd_cert : string; bd_key : string }.

(** the entry of the request that carries them *)
Definition vault_of (x : Bundle) : Vault :=
  mkVault (bd_id x) "" "" false (EncodeToString (bd_cert x)) (EncodeToString (bd_key x))
    (EncodeToString (bd_ca x)).

Definition bundle_secrets (cr : CSM) (x : Bundle) : list Object :=
  [vault_secret cr ("vault-certificate-authority-" +:+ bd_id x) "Opaque" {[ "ca.crt" := bd_ca x ]};
   vault_secret cr ("vault-client-certificate-" +:+ bd_id x) "kubernetes.io/tls"
     {[ "tls.crt" := bd_cert x; "tls.key" := bd_key x ]}].

Lemma encoded_nonempty s : s ≠ "" → EncodeToString s ≠ "".
Proof using.
  intros Hs E. apply (f_equal DecodeString) in E. rewrite DecodeString_EncodeToString in E.
  vm_compute in E. by injection E.
Qed.

Lemma bundle_run b cr x (w w' : World W) :
  bd_ca x ≠ "" → bd_cert x ≠ "" → bd_key x ≠ "" →
  (_ ← when (negb (bool_decide (Types.va_CertificateAuthority (vault_of x) = "")))
         (vault_authority b cr (vault_of x));
   if decide (va_ClientCertificate (vault_of x) ≠ "" ∧ va_ClientKey (vault_of x) ≠ "")
   then vault_client b cr (vault_of x) else vault_selfsigned b cr (vault_of x)) w = (Ok (), w') →
  in_order b (bundle_secrets cr x) w w'.
Proof.
  intros Hca Hcert Hkey E. apply encoded_nonempty in Hca, Hcert, Hkey.
  cbn [vault_of Types.va_CertificateAuthority va_ClientCertificate va_ClientKey] in E.
  rewrite bool_decide_false in E by done. rewrite decide_True in E by done.
  apply M_bind_Ok in E as ([] & w1 & E1 & E).
  apply M_bind_Ok in E1 as (ca & w2 & E2 & E1). injection E2 as E2 <-.
  cbn [vault_of Types.va_CertificateAuthority] in E2. rewrite DecodeString_EncodeToString in E2. injection E2 as <-.
  apply apply_object_run in E1 as (objs & Hw & Hc).
  apply M_bind_Ok in E as (cert & w2 & E2 & E). injection E2 as E2 <-.
  cbn [vault_of va_ClientCertificate] in E2. rewrite DecodeString_EncodeToString in E2. injection E2 as <-.
  apply M_bind_Ok in E as (key & w2 & E2 & E). injection E2 as E2 <-.
  cbn [vault_of va_ClientKey] in E2. rewrite DecodeString_EncodeToString in E2. injection E2 as <-.
  apply apply_object_run in E as (objs' & Hw' & Hc').
  exists objs, w1. split_and!; [done..|]. by exists objs', w'.
Qed.

(** C33: the certificates of vault. What the request carries in base64 arrives: for vaults whose
    authority, client certificate and key are the encodings of these bytes, a success has written,
    vault by vault and in this order, the secrets that hold the very bytes, and nothing
    else. *)
Theorem vault_certificates_roundtrip b cr auth bundles (w w' : World W) :
  getAuthorizationModule cr = Ok auth → vaults_of auth = vault_of <$> bundles →
  Forall (λ x, bd_ca x ≠ "" ∧ bd_cert x ≠ "" ∧ bd_key x ≠ "") bundles →
  applyDeleteVaultCertificates b cr w = (Ok (), w') →
  in_order b (mjoin (bundle_secrets cr <$> bundles)) w w'.
Proof.
  intros Ha Hv Hb E. apply M_bind_Ok in E as (auth' & w1 & E1 & E). injection E1 as E1 <-.
  rewrite Ha in E1. injection E1 as <-. rewrite Hv in E. clear Hv. revert w E.
  induction Hb as [|x bundles (Hca & Hcert & Hkey) _ IH]; intros w E; [by injection E as <-|].
  apply M_bind_Ok in E as ([] & w1 & E1 & E). apply bundle_run in E1; [|done..].
  eapply in_order_app; [exact E1|]. by apply IH.
Qed.
End spec.

(** ** A server on which the hypotheses hold *)

Section witnesses.

Definition certs_vault : ContainerTemplate :=
  {| ct_Name := AuthVaultComponent;
     ct_Enabled := None;
     ct_Image := "";
     ct_ImagePullPolicy := "";
     ct_Args := [];
     ct_Envs := None;
     ct_Tolerations := [];
     ct_NodeSelector := None;
     ct_ProxyService := "";
     ct_ProxyServiceReplicas := 0%Z;
     ct_TenantService := "";
     ct_TenantServiceReplicas := 0%Z;
     ct_RoleService := "";
     ct_RoleServiceReplicas := 0%Z;
     ct_StorageService := "";
     ct_StorageServiceReplicas := 0%Z;
     ct_AuthorizationController := "";
     ct_AuthorizationControllerReplicas := 0%Z;
     ct_LeaderElection := false;
     ct_OpenTelemetryCollectorAddress := "";
     ct_ControllerReconcileInterval := "";
     ct_Redis := "";
     ct_Commander := "";
     ct_Opa := "";
     ct_OpaKubeMgmt := "";
     ct_Hostname := "";
     ct_ProxyServerIngress := [];
     ct_Gateway := None;
     ct_Vaults := [vault_of (mkBundle "vault0" "ca" "cert" "key")];
     ct_SecretProviderClasses := None;
     ct_Secrets := [];
     ct_SkipCertificateValidation := false;
     ct_RedisUsername := "";
     ct_RedisPassword := "";
     ct_RedisName := "";
     ct_RedisCommander := "";
     ct_RedisReplicas := 0%Z;
     ct_Sentinel := "";
     ct_RedisSecretProviderClass := [];
     ct_ConfigSecretProviderClass := [];
     ct_Certificate := "";
     ct_PrivateKey := "";
     ct_CertificateAuthority := "" |}.

Definition certs_module : Module :=
  mkModule AuthorizationServer true "v2.4.0" [demo_proxy; certs_vault] false [].

Definition certs_cr : CSM :=
  mkCSM "ContainerStorageModule" (named "dell" "csm")
    (mkSpec "" (mkDriver "" None "" 0 "" None None None [] [] [] "" "" None None)
       [certs_module] "" false)
    zero_Status.

(** one file and three directories *)
Definition certs_directory : Directory := {|
  ReadDir p := if decide (p ∈ ["/cfg/moduleconfig/authorization"; "/cfg/moduleconfig/authorization/"])
               then inr ["README.md"; "v2.3.0"; "v2.10.0"; "v2.4.0"] else inl (Errorf "no such directory");
  IsDir _ name := HasPrefix name "v"
|}.

#[local] Existing Instances server_host demo_codec certs_directory.

Lemma getLatestAuthVersion_spec_witness :
  ∃ r, getLatestAuthVersion "/cfg" = Ok r ∧ at_least ["v2.3.0"; "v2.10.0"; "v2.4.0"] r.
Proof.
  destruct (getLatestAuthVersion_spec "/cfg" ["README.md"; "v2.3.0"; "v2.10.0"; "v2.4.0"] "v2.3.0"
    ["v2.10.0"; "v2.4.0"] ltac:(by vm_compute) ltac:(by vm_compute) ltac:(done)) as (r & E & _ & Ha).
  by exists r.
Defined.

Lemma AuthorizationServerPrecheck_spec_witness :
  let w := world_of [OSecret (mkSecret (named "dell" "karavi-config-secret") None)] obeys in
  ∃ w', AuthorizationServerPrecheck modules_config certs_module certs_cr w = (Ok (certs_cr, None), w')
    ∧ seen w' = seen w ∧ found certs_cr w "karavi-config-secret".
Proof.
  intros w.
  assert (E : fst (AuthorizationServerPrecheck modules_config certs_module certs_cr w)
              = Ok (certs_cr, None)) by (vm_compute; reflexivity).
  apply run_fst in E. eexists. split; [exact E|].
  destruct (AuthorizationServerPrecheck_spec _ _ _ _ _ _ _ E) as (Hs & _ & Hok).
  split; [exact Hs|].
  destruct (Hok eq_refl) as (version & v25 & _ & _ & _ & _ & _ & Hf). by apply Hf.
Defined.

Lemma server_tls_spec_witness :
  let w := world_of [] obeys in
  ∃ o w0' w', createIngress true certs_cr w = (Ok o, w0')
    ∧ InstallWithCerts false modules_config certs_cr w = (Ok (), w')
    ∧ ∃ m className hosts rules,
        o = OOther (mkResource "Ingress" m (IngressBody className hosts "karavi-selfsigned-tls" rules))
        ∧ ∃ certificate, written (createSelfSignedCertificate certs_cr hosts "karavi-auth"
                                    "karavi-selfsigned-tls" "selfsigned") certificate.
Proof.
  intros w.
  destruct (createIngress true certs_cr w) as [[o|e|y] w0'] eqn:Ei; [|vm_compute in Ei; discriminate Ei..].
  assert (E : fst (InstallWithCerts false modules_config certs_cr w) = Ok ()) by (vm_compute; reflexivity).
  apply run_fst in E.
  destruct (server_tls_spec false true modules_config certs_cr certs_module demo_proxy o w w0' w _
              eq_refl eq_refl Ei E) as (_ & m & cls & hosts & secret & rules & -> & Hs).
  eexists _, w0', _. split; [reflexivity|]. split; [exact E|].
  destruct Hs as [(-> & _ & _ & issuer & cert & rest & w1 & w2 & _ & Hw & _)|(_ & Hc & _)].
  - exists m, cls, hosts, rules. split; [reflexivity|]. by exists cert.
  - exfalso. by apply Hc.
Defined.

Lemma vault_certificates_roundtrip_witness :
  let w := world_of [] obeys in
  ∃ w', applyDeleteVaultCertificates false certs_cr w = (Ok (), w')
    ∧ in_order false (bundle_secrets certs_cr (mkBundle "vault0" "ca" "cert" "key")) w w'.
Proof.
  intros w.
  assert (E : fst (applyDeleteVaultCertificates false certs_cr w) = Ok ()) by (vm_compute; reflexivity).
  apply run_fst in E. eexists. split; [exact E|].
  apply (vault_certificates_roundtrip false certs_cr certs_module [mkBundle "vault0" "ca" "cert" "key"]);
    [reflexivity|reflexivity|repeat constructor; done|exact E].
Defined.
End witnesses.
