(* ===== verification/ModPackage.v ===== *)
(** The package pkg/modules as a whole: what the reconciler calls ([ModulePackage]) is what the
    files of the modules define, and it obeys the laws of the interface. *)

From S2P Require Import Prelude.
From S2P Require Import GoStrings.
From S2P Require Import GoCrypto.
From S2P Require Import Types.
From S2P Require Import Versions.
From S2P Require Import Modules.
From S2P Require Import Images.
From S2P Require Import Cluster.
From S2P Require Import Resources.
From S2P Require Import Status.
From S2P Require Import Packages.
From S2P Require Import Manifests.
From S2P Require Import Drivers.
From S2P Require Import Pods.
From S2P Require Import ModCommon.
From S2P Require Import Resiliency.
From S2P Require Import Replication.
From S2P Require Import ReverseProxy.
From S2P Require Import AuthSidecar.
From S2P Require Import Observability.
From S2P Require Import AuthScaffold.
From S2P Require Import AuthServer.
From stdpp Require Import options.

Local Open Scope stdpp_scope.

(** The objects that [CreateReplicationConfigmap] returns are not used by its callers. *)
Definition module_package {W : Type} `{Client W} `{!Retry W} `{Host} `{MapOrder} `{ManifestCodec}
    `{SecretCodec} `{Directory} : ModulePackage W := {|
  Packages.ReverseProxyServer := ReverseProxy.ReverseProxyServer;
  Packages.ReverseProxyStartService := ReverseProxy.ReverseProxyStartService;
  Packages.ReverseProxyInjectDeployment := ReverseProxy.ReverseProxyInjectDeployment;
  Packages.AddReverseProxyServiceName := ReverseProxy.AddReverseProxyServiceName;
  Packages.UpdatePowerMaxConfigMap := ReverseProxy.UpdatePowerMaxConfigMap;
  Packages.ReverseProxyPrecheck := ReverseProxy.ReverseProxyPrecheck;
  Packages.AuthInjectDeployment := AuthSidecar.AuthInjectDeployment;
  Packages.AuthInjectDaemonset := AuthSidecar.AuthInjectDaemonset;
  Packages.AuthorizationPrecheck := AuthSidecar.AuthorizationPrecheck;
  Packages.AuthorizationServerPrecheck := AuthServer.AuthorizationServerPrecheck;
  Packages.AuthCrdDeploy := AuthServer.AuthCrdDeploy;
  Packages.AuthorizationServerDeployment := AuthServer.AuthorizationServerDeployment;
  Packages.InstallPolicies := AuthServer.InstallPolicies;
  Packages.NginxIngressControllerCleanup := AuthServer.NginxIngressControllerCleanup;
  Packages.NginxIngressController := AuthServer.NginxIngressController;
  Packages.GatewayController := AuthServer.GatewayController;
  Packages.AuthorizationIngress := AuthServer.AuthorizationIngress;
  Packages.InstallWithCerts := AuthServer.InstallWithCerts;
  Packages.ResiliencyInjectDeployment := Resiliency.ResiliencyInjectDeployment;
  Packages.ResiliencyInjectDaemonset := Resiliency.ResiliencyInjectDaemonset;
  Packages.ResiliencyInjectClusterRole := Resiliency.ResiliencyInjectClusterRole;
  Packages.ResiliencyInjectRole := Resiliency.ResiliencyInjectRole;
  Packages.ResiliencyPrecheck := Resiliency.ResiliencyPrecheck;
  Packages.ReplicationInjectDeployment := Replication.ReplicationInjectDeployment;
  Packages.ReplicationInjectClusterRole := Replication.ReplicationInjectClusterRole;
  Packages.ReplicationManagerController := Replication.ReplicationManagerController;
  Packages.CreateReplicationConfigmap := λ cr op, _ ← Replication.CreateReplicationConfigmap cr op; mret ();
  Packages.DeleteReplicationConfigmap := Replication.DeleteReplicationConfigmap;
  Packages.ReplicationCrdDeploy := Replication.ReplicationCrdDeploy;
  Packages.DeleteReplicationCrds := Replication.DeleteReplicationCrds;
  Packages.ReplicationPrecheck := Replication.ReplicationPrecheck;
  Packages.OtelCollector := Observability.OtelCollector;
  Packages.ObservabilityTopology := Observability.ObservabilityTopology;
  Packages.PowerScaleMetrics := Observability.PowerScaleMetrics;
  Packages.PowerFlexMetrics := Observability.PowerFlexMetrics;
  Packages.PowerMaxMetrics := Observability.PowerMaxMetrics;
  Packages.PowerStoreMetrics := Observability.PowerStoreMetrics;
  Packages.IssuerCertServiceObs := Observability.IssuerCertServiceObs;
  Packages.ObservabilityPrecheck := Observability.ObservabilityPrecheck;
  Packages.CommonCertManager := ModCommon.CommonCertManager;
  Packages.PatchCSMDRCRDs := ModCommon.PatchCSMDRCRDs
|}.

Section laws.
Context {W : Type} `{Client W} `{!View W} `{!ClientLaws (W := W)} `{!Retry W} `{Host} `{MapOrder}
  `{ManifestCodec} `{SecretCodec} `{Directory}.
#[local] Set Default Proof Using "All".

(** A check that only reads keeps the request. *)
Lemma reading_check_keeps cr (m : M (World W) ()) w cr' err w' :
  reading_check cr m w = (Ok (cr', err), w') → keeps eq cr cr'.
Proof using. intros E. apply reading_check_inv in E as [-> _]. reflexivity. Qed.

Lemma AuthorizationPrecheck_keeps m :
  check_keeps eq (λ cr op, AuthSidecar.AuthorizationPrecheck (W := W) op m cr).
Proof.
  intros cr op w cr' err w' E. unfold AuthSidecar.AuthorizationPrecheck in E.
  apply M_bind_Ok in E as (r & w1 & _ & E). destruct r as [e|[]].
  - by injection E as <- _ _.
  - apply reading_check_inv in E as [-> _]. apply complete_keeps.
Qed.

Lemma module_package_laws : ModuleLaws (ModulePackage0 := module_package).
Proof.
  split. repeat (apply Forall_cons; split); [..|by apply Forall_nil]; intros m cr op w cr' err w' E.
  1: exact (AuthorizationPrecheck_keeps m cr op w cr' err w' E).
  all: exact (reading_check_keeps _ _ _ _ _ _ E).
Qed.
End laws.
