(* ===== verification/Watch.v ===== *)
(** Watching the contents of a custom resource (controllers/csm_controller.go): the event
    handlers for deployments, daemon sets and pods, [informerUpdate], [ContentWatch], and the
    stop channels that the reconciler keeps per custom resource. *)

From S2P Require Import Prelude.
From S2P Require Import GoStrings.
From S2P Require Import Types.
From S2P Require Import Versions.
From S2P Require Import Modules.
From S2P Require Import Images.
From S2P Require Import Cluster.
From S2P Require Import Resources.
From S2P Require Import Status.
From stdpp Require Import options.

Local Open Scope stdpp_scope.

Definition CsmLabel : string := "csm".
Definition CsmNamespaceLabel : string := "csmNamespace".
Definition EventTypeNormal : string := "Normal".
Definition EventTypeWarning : string := "Warning".
Definition EventDeleted : string := "Deleted".
Definition EventUpdated : string := "Updated".
Definition EventCompleted : string := "Completed".
Definition RefreshEnvVar : string := "REFRESH_INTERVAL_MINUTES".

(** [new(csmv1.ContainerStorageModule)] *)

(** [v, _ := obj.( *T )], followed by a use of the pointer *)
Definition cast (T : Type) `{Kinded T} (o : Object) : outcome T := deref (proj_obj o).

(** ** Stop channels

    A channel is the number it was made with. Closing one that is closed panics. *)

Definition close_channel (n : nat) (w : Watches) : outcome Watches :=
  if decide (n ∈ wa_open w)
  then Ok (mkWatches (wa_channels w) (wa_open w ∖ {[n]}) (wa_next w))
  else Panic "close of closed channel".

(** [make(chan struct{})] *)
Definition open_channel (w : Watches) : nat * Watches :=
  (wa_next w, mkWatches (wa_channels w) ({[wa_next w]} ∪ wa_open w) (S (wa_next w))).

(** The new channel takes the place of the one that was there, which is closed. *)
Definition install_channel (name : string) (stop : nat) (w : Watches) : outcome Watches :=
  w ← match wa_channels w !! name with
      | Some stopCh => close_channel stopCh w
      | None => Ok w
      end;
  Ok (mkWatches (<[name := stop]> (wa_channels w)) (wa_open w) (wa_next w)).

Definition stop_channel (name : string) (w : Watches) : outcome Watches :=
  match wa_channels w !! name with
  | Some stopCh =>
      w ← close_channel stopCh w;
      Ok (mkWatches (delete name (wa_channels w)) (wa_open w) (wa_next w))
  | None => Ok w
  end.

(** Registering a handler with an informer of the shared factory (client-go): the refresh
    interval in minutes and the kind of the informer. *)
Class Informers (W : Type) := { AddEventHandler : Z → string → M (World W) () }.

Section watch.
Context {W : Type} `{Client W} `{Host} `{MapOrder} `{JSON} `{!Retry W}.

(** ** Handlers *)

Definition get_or_zero (ns name : string) : M (World W) CSM :=
  r ← attempt (getT CSM ns name);
  mret (match r with inr csm => csm | inl _ => zero_CSM end).

Definition handleDeploymentUpdate (config : OperatorConfig) (oldObj obj : Object)
    : M (World W) () :=
  d ← lift (cast Deployment obj);
  _ ← lift (cast Deployment oldObj);
  let name := map_get (dp_TemplateLabels d) CsmLabel in
  let ns := map_get (dp_TemplateLabels d) CsmNamespaceLabel in
  if decide (ns = "") then mret ()
  else
    csm ← get_or_zero ns name;
    let s := dp_Status d in
    let deploymentStatus := mkPodStatus (Itoa (dps_AvailableReplicas s)) (Itoa (dps_Replicas s))
                              (Itoa (dps_UnavailableReplicas s)) in
    '(_, err) ← UpdateStatus (mkInstance csm ∅) GetCSMStatus config (Some deploymentStatus);
    match err with
    | Some _ => mret ()
    | None => recordEvent EventTypeNormal EventCompleted "Driver deployment running OK"
    end.

(** [now] is [time.Now().UnixNano()]. *)
Definition handlePodsUpdate (config : OperatorConfig) (now : Z) (obj : Object)
    : M (World W) () :=
  p ← lift (cast Pod obj);
  let name := map_get (om_Labels (po_Meta p)) CsmLabel in
  let ns := map_get (om_Labels (po_Meta p)) CsmNamespaceLabel in
  if decide (ns = "") then mret ()
  else if om_Deleting (po_Meta p) then mret ()
  else
    csm ← get_or_zero ns name;
    '(h, err) ← UpdateStatus (mkInstance csm ∅) GetCSMStatus config None;
    let state := st_State (cr_Status (in_cr h)) in
    let stamp := "at " +:+ Itoa now in
    match err with
    | Some e =>
        if decide (state = "0")
        then recordEvent EventTypeNormal EventCompleted (stamp +:+ " Driver pods running OK")
        else recordEvent EventTypeWarning EventUpdated
               (stamp +:+ " Pod error details " +:+ error_text e)
    | None => recordEvent EventTypeNormal EventCompleted (stamp +:+ " Driver pods running OK")
    end.

Definition handleDaemonsetUpdate (config : OperatorConfig) (oldObj obj : Object)
    : M (World W) () :=
  d ← lift (cast DaemonSet obj);
  _ ← lift (cast DaemonSet oldObj);
  let name := map_get (dn_TemplateLabels d) CsmLabel in
  let ns := map_get (dn_TemplateLabels d) CsmNamespaceLabel in
  if decide (ns = "") then mret ()
  else
    csm ← get_or_zero ns name;
    '(_, err) ← UpdateStatus (mkInstance csm ∅) GetCSMStatus config None;
    match err with
    | Some _ => mret ()
    | None => recordEvent EventTypeNormal EventCompleted "Driver daemonset running OK"
    end.

(** The labels that name the custom resource of an object, when its kind is watched. *)
Definition watched_labels (o : Object) : option gomap :=
  match o with
  | ODaemonSet v => Some (dn_TemplateLabels v)
  | ODeployment v => Some (dp_TemplateLabels v)
  | OPod v => Some (om_Labels (po_Meta v))
  | _ => None
  end.

(** The namespace label is required, but not compared with the resource's namespace. *)
Definition concerns (csm : CSM) (labels : gomap) : bool :=
  match default ∅ labels !! CsmLabel, default ∅ labels !! CsmNamespaceLabel with
  | Some csmName, Some csmNamespace =>
      bool_decide (csmName ≠ "" ∧ csmNamespace ≠ "" ∧ csmName = cr_Name csm)
  | _, _ => false
  end.

Definition informerUpdate (config : OperatorConfig) (now : Z) (csm : CSM) (oldObj newObj : Object)
    : M (World W) () :=
  match watched_labels oldObj with
  | None => mret ()
  | Some labels =>
      if concerns csm labels then
        match oldObj with
        | ODaemonSet _ => handleDaemonsetUpdate config oldObj newObj
        | ODeployment _ => handleDeploymentUpdate config oldObj newObj
        | _ => handlePodsUpdate config now newObj
        end
      else mret ()
  end.

(** ** ContentWatch *)

Definition refreshMinutes : Z :=
  let refreshMinutes := match GetEnvironmentVariable RefreshEnvVar with
                        | Ok v => v
                        | _ => "60"
                        end in
  match Atoi refreshMinutes with
  | (n, None) => n
  | (_, Some _) => 60%Z
  end.

Definition set_watches (wa : Watches) (w : World W) : World W :=
  mkWorld (w_api w) (w_calls w) wa (w_updateCount w) (w_deployAsSidecar w) (w_auth w).

Definition make_channel : M (World W) nat := λ w,
  let '(n, wa) := open_channel (w_watches w) in (Ok n, set_watches wa w).

Definition on_watches (f : Watches → outcome Watches) : M (World W) () := λ w,
  match f (w_watches w) with
  | Ok wa => (Ok (), set_watches wa w)
  | Fail e => (Fail e, w)
  | Panic y => (Panic y, w)
  end.

Definition ContentWatch `{!Informers W} : M (World W) nat :=
  let refreshTime := refreshMinutes in
  let add informer :=
    orFail (AddEventHandler refreshTime informer)
      (λ e, Errorf ("ContentWatch failed adding event handler to " +:+ informer +:+ "Informer: "
                    +:+ error_text e)) in
  _ ← add "daemonset";
  _ ← add "deployment";
  _ ← add "pods";
  make_channel.
End watch.

(** ** The stop channels as a state machine

    Several reconciliations run at once. [ContentWatch] opens a channel outside the lock, so
    between opening and installing it other reconciliations can install or stop channels. *)

Record WatchState := mkWatchState {
  ws_watches : Watches;
  ws_pending : gset nat       (* opened, not yet installed *)
}.

Inductive watch_action :=
  | Open
  | Install (name : string) (stop : nat)
  | Stop (name : string).

Definition watch_do (a : watch_action) (s : WatchState) : outcome WatchState :=
  match a with
  | Open =>
      let '(n, w) := open_channel (ws_watches s) in
      Ok (mkWatchState w ({[n]} ∪ ws_pending s))
  | Install name stop =>
      w ← install_channel name stop (ws_watches s);
      Ok (mkWatchState w (ws_pending s ∖ {[stop]}))
  | Stop name =>
      w ← stop_channel name (ws_watches s);
      Ok (mkWatchState w (ws_pending s))
  end.

(** A reconciliation installs the channel it has opened. *)
Definition enabled (a : watch_action) (s : WatchState) : Prop :=
  match a with
  | Install _ stop => stop ∈ ws_pending s
  | _ => True
  end.

Inductive watch_step (s s' : WatchState) : Prop :=
  | watch_step_intro a : enabled a s → watch_do a s = Ok s' → watch_step s s'.

Definition no_watches : WatchState := mkWatchState (mkWatches ∅ ∅ 0) ∅.

(** The open channels are those that are installed, each under one name, and those that wait to
    be installed; a number is used once. *)
Record watches_ok (s : WatchState) : Prop := {
  wo_open n : n ∈ wa_open (ws_watches s) ↔
    n ∈ ws_pending s ∨ ∃ name, wa_channels (ws_watches s) !! name = Some n;
  wo_inj a b n : wa_channels (ws_watches s) !! a = Some n →
    wa_channels (ws_watches s) !! b = Some n → a = b;
  wo_pending name n : wa_channels (ws_watches s) !! name = Some n → n ∉ ws_pending s;
  wo_next n : n ∈ wa_open (ws_watches s) → n < wa_next (ws_watches s)
}.

Lemma watches_ok_init : watches_ok no_watches.
Proof.
  split; simpl; try (intros *; rewrite lookup_empty; done); [|set_solver].
  intros n. split; [set_solver|]. intros [?|[name E]]; [set_solver|]. by rewrite lookup_empty in E.
Qed.

Lemma stop_channel_ok name s : watches_ok s →
  ∃ w, stop_channel name (ws_watches s) = Ok w ∧ watches_ok (mkWatchState w (ws_pending s))
       ∧ wa_channels w = delete name (wa_channels (ws_watches s)).
Proof.
  intros Hs. unfold stop_channel.
  destruct (wa_channels (ws_watches s) !! name) as [n|] eqn:E.
  2:{ exists (ws_watches s). split_and!; [done|by destruct s|]. by rewrite delete_id. }
  unfold close_channel. rewrite decide_True by (apply wo_open; [done|]; right; by exists name).
  eexists. split_and!; [done| |done]. split; simpl.
  - intros m. rewrite elem_of_difference, not_elem_of_singleton, (wo_open s Hs). split.
    + intros [[Hm|[b Hb]] Hne]; [by left|right]. exists b. rewrite lookup_delete_ne; [done|].
      intros ->. congruence.
    + intros [Hm|[b Hb]].
      * split; [by left|]. intros ->. by eapply wo_pending.
      * apply lookup_delete_Some in Hb as [Hne Hb]. split; [right; by exists b|].
        intros ->. apply Hne. by eapply wo_inj.
  - intros a b m Ha Hb. apply lookup_delete_Some in Ha as [_ Ha].
    apply lookup_delete_Some in Hb as [_ Hb]. by eapply wo_inj.
  - intros a m Ha. apply lookup_delete_Some in Ha as [_ Ha]. by eapply wo_pending.
  - intros m Hm. apply (wo_next s Hs). set_solver.
Qed.

Lemma install_as_stop name stop w :
  install_channel name stop w =
    (w' ← stop_channel name w;
     Ok (mkWatches (<[name := stop]> (wa_channels w)) (wa_open w') (wa_next w'))).
Proof.
  unfold install_channel, stop_channel. destruct (wa_channels w !! name) as [n|]; [|done].
  unfold close_channel. by case_decide.
Qed.

Lemma watch_do_ok a s : watches_ok s → enabled a s →
  ∃ s', watch_do a s = Ok s' ∧ watches_ok s'.
Proof.
  intros Hs He. destruct a as [|name stop|name]; simpl in *.
  - eexists. split; [done|]. split; simpl.
    + intros n. rewrite elem_of_union, (wo_open s Hs). set_solver.
    + apply wo_inj, Hs.
    + intros name n Hn Hp. apply elem_of_union in Hp as [Hp|Hp]; [|by eapply wo_pending].
      apply elem_of_singleton in Hp as ->.
      assert (wa_next (ws_watches s) < wa_next (ws_watches s)); [|lia].
      apply (wo_next s Hs), (wo_open s Hs). right. by exists name.
    + intros n Hn. apply elem_of_union in Hn as [->%elem_of_singleton|Hn]; [lia|].
      apply (wo_next s Hs) in Hn. lia.
  - destruct (stop_channel_ok name s Hs) as (w & E & Hw & Ec).
    rewrite install_as_stop, E. simpl. eexists. split; [done|]. split; simpl.
    + intros n. rewrite (wo_open _ Hw n). simpl. rewrite Ec. split.
      * intros [Hn|[b Hb]].
        -- destruct (decide (n = stop)) as [->|]; [|set_solver]. right. exists name.
           apply lookup_insert_eq.
        -- apply lookup_delete_Some in Hb as [Hne Hb]. right. exists b.
           by rewrite lookup_insert_ne.
      * intros [Hn|[b Hb]]; [set_solver|].
        apply lookup_insert_Some in Hb as [[<- <-]|[Hne Hb]]; [by left|].
        right. exists b. by rewrite lookup_delete_ne.
    + intros a b n Ha Hb.
      apply lookup_insert_Some in Ha as [[<- <-]|[Hna Ha]];
        apply lookup_insert_Some in Hb as [[<- Eb]|[Hnb Hb]]; try done.
      * by destruct (wo_pending s Hs _ _ Hb).
      * subst n. by destruct (wo_pending s Hs _ _ Ha).
      * by eapply (wo_inj s Hs).
    + intros b n Hb Hp. apply lookup_insert_Some in Hb as [[<- <-]|[Hne Hb]]; [set_solver|].
      apply (wo_pending s Hs _ _ Hb). set_solver.
    + intros n Hn. by apply (wo_next _ Hw) in Hn.
  - destruct (stop_channel_ok name s Hs) as (w & E & Hw & _). rewrite E. by eexists.
Qed.

Lemma watch_steps_ok s s' : rtc watch_step s s' → watches_ok s → watches_ok s'.
Proof.
  induction 1 as [|s1 s2 s3 [a He Ea] _ IH]; [done|]. intros Hs. apply IH.
  destruct (watch_do_ok a s1 Hs He) as (s' & E & Hs'). congruence.
Qed.

(** C6: in every interleaving of reconciliations that open a content watch, install it in the
    place of an earlier one, or stop it, no channel is closed twice (every enabled action
    succeeds), every open channel is installed under exactly one name or about to be (none
    leaks), and a channel number is never used again. *)
Theorem watch_channels_safe s :
  rtc watch_step no_watches s →
  watches_ok s ∧ ∀ a, enabled a s → ∃ s', watch_do a s = Ok s' ∧ watch_step s s'.
Proof.
  intros Hr. assert (watches_ok s) as Hs by (eapply watch_steps_ok; [done|apply watches_ok_init]).
  split; [done|]. intros a He. destruct (watch_do_ok a s Hs He) as (s' & E & _).
  exists s'. split; [done|]. by exists a.
Qed.

Lemma watch_channels_safe_witness :
  let s := mkWatchState (mkWatches {[ "csm" := 1 ]} {[ 1 ]} 2) ∅ in
  rtc watch_step no_watches s ∧ ∃ s', watch_do (Stop "csm") s = Ok s' ∧ watch_step s s'.
Proof.
  intros s.
  assert (rtc watch_step no_watches s) as Hr.
  { apply (rtc_l _ _ (mkWatchState (mkWatches ∅ {[ 0 ]} 1) {[ 0 ]}));
      [exists Open; [done|vm_compute; reflexivity]|].
    apply (rtc_l _ _ (mkWatchState (mkWatches {[ "csm" := 0 ]} {[ 0 ]} 1) ∅));
      [exists (Install "csm" 0); [simpl; set_solver|vm_compute; reflexivity]|].
    apply (rtc_l _ _ (mkWatchState (mkWatches {[ "csm" := 0 ]} {[ 0; 1 ]} 2) {[ 1 ]}));
      [exists Open; [done|vm_compute; reflexivity]|].
    apply (rtc_l _ _ s);
      [exists (Install "csm" 1); [simpl; set_solver|vm_compute; reflexivity]|].
    apply rtc_refl. }
  split; [exact Hr|]. exact (proj2 (watch_channels_safe s Hr) (Stop "csm") I).
Defined.

(** ** Which events reach the status *)

Section informer.
Context {W : Type} `{Client W} `{Host} `{MapOrder} `{JSON} `{!Retry W}.

(** An event is passed on exactly when it is about a deployment, daemon set or pod whose
    labels carry a namespace and the name of the watched custom resource; every other event
    does nothing. The namespace in the label is not compared with the resource's own. *)
Theorem informerUpdate_spec config now csm o o' :
  let carries labels := ∃ ns, ns ≠ "" ∧ cr_Name csm ≠ ""
    ∧ default ∅ labels !! CsmLabel = Some (cr_Name csm)
    ∧ default ∅ labels !! CsmNamespaceLabel = Some ns in
  ((∃ labels, watched_labels o = Some labels ∧ carries labels) →
    informerUpdate (W := W) config now csm o o' =
      match o with
      | ODaemonSet _ => handleDaemonsetUpdate config o o'
      | ODeployment _ => handleDeploymentUpdate config o o'
      | _ => handlePodsUpdate config now o'
      end)
  ∧ (¬ (∃ labels, watched_labels o = Some labels ∧ carries labels) →
     informerUpdate (W := W) config now csm o o' = mret ()).
Proof.
  intros carries.
  assert (∀ labels, concerns csm labels = true ↔ carries labels) as Hc.
  { intros labels. unfold concerns, carries.
    destruct (default ∅ labels !! CsmLabel) as [n|]; [|naive_solver].
    destruct (default ∅ labels !! CsmNamespaceLabel) as [ns|]; [|naive_solver].
    rewrite bool_decide_eq_true. naive_solver. }
  unfold informerUpdate. destruct (watched_labels o) as [labels|] eqn:Ew.
  - split.
    + intros (l & [= <-] & Hl). by rewrite (proj2 (Hc labels) Hl).
    + intros Hn. destruct (concerns csm labels) eqn:E; [|done].
      destruct Hn. exists labels. split; [done|]. by apply Hc.
  - split; [by intros (l & ? & _)|done].
Qed.
End informer.

Definition demo_labels (name : string) : gomap :=
  Some {[ CsmLabel := name; CsmNamespaceLabel := "dell" ]}.

Definition labelled (name : string) : Object :=
  ODaemonSet (mkDaemonSet (named "dell" "x-node") (demo_labels name) [] 0 0 0 0).

Section witnesses.
#[local] Existing Instances demo_host demo_json.

Lemma informerUpdate_spec_witness :
  let csm := demo_cr PowerFlex [] in
  informerUpdate (W := Store) demo_config 0 csm (labelled "csm") (labelled "csm")
    = handleDaemonsetUpdate demo_config (labelled "csm") (labelled "csm")
  ∧ informerUpdate (W := Store) demo_config 0 csm (labelled "other") (labelled "other") = mret ().
Proof.
  intros csm. split.
  - refine (proj1 (informerUpdate_spec demo_config 0 csm (labelled "csm") (labelled "csm")) _).
    exists (demo_labels "csm"). split; [reflexivity|]. exists "dell".
    split_and!; [discriminate|discriminate|vm_compute; reflexivity|vm_compute; reflexivity].
  - refine (proj2 (informerUpdate_spec demo_config 0 csm (labelled "other") (labelled "other")) _).
    intros (labels & Hl & ns & _ & _ & Hn & _). injection Hl as <-. vm_compute in Hn. discriminate Hn.
Defined.
End witnesses.
