(* ===== verification/Sync.v ===== *)
(** Bringing the cluster to what a custom resource asks for, and taking it away again
    (controllers/csm_controller.go): [SyncCSM], the observability and authorization modules,
    [getDriverConfig], [removeDriver], [removeModule] and the metrics resources. *)

From S2P Require Import Prelude.
From S2P Require Import GoStrings.
From S2P Require Import Types.
From S2P Require Import Versions.
From S2P Require Import Modules.
From S2P Require Import Images.
From S2P Require Import Cluster.
From S2P Require Import Resources.
From S2P Require Import Status.
From S2P Require Import Packages.
From stdpp Require Import options.

Local Open Scope stdpp_scope.

Definition enabled (cr : CSM) (modT : string) : bool := fst (IsModuleEnabled cr modT).

Definition NodeYaml : string := "node.yaml".
Definition DisasterRecoveryMinVersion : string := "v2.16.0".
Definition ScaleioBinPath : string := "scaleio-path-bin".
Definition SftpKeys : string := "sftp-keys".


Definition set_dc_ConfigMap (v : ConfigMap) (d : DriverConfig) : DriverConfig :=
  mkDriverConfig (dc_Driver d) v (dc_Node d) (dc_Controller d).
Definition set_dc_Node (v : NodeYAML) (d : DriverConfig) : DriverConfig :=
  mkDriverConfig (dc_Driver d) (dc_ConfigMap d) (Some v) (dc_Controller d).
Definition set_dc_Controller (v : ControllerYAML) (d : DriverConfig) : DriverConfig :=
  mkDriverConfig (dc_Driver d) (dc_ConfigMap d) (dc_Node d) v.

(** ** Metrics of a driver *)

Definition metrics_labels (cr : CSM) : gomap := Some {[ "app" := cr_Name cr +:+ "-controller" ]}.

Definition metrics_meta (cr : CSM) (name : string) : ObjectMeta :=
  let bOwnerDeletion := match d_ForceRemoveDriver (sp_Driver (cr_Spec cr)) with
                        | Some b => negb b
                        | None => false
                        end in
  let ownerRef := mkOwnerReference "storage.dell.com/v1" (cr_Kind cr) (cr_Name cr)
                    (om_UID (cr_Meta cr)) (Some true) (Some bOwnerDeletion) in
  mkObjectMeta name (cr_Namespace cr) "" "" 0 false (metrics_labels cr) None []
    (Some [ownerRef]) [].

Definition metrics_service (cr : CSM) : Object :=
  let port := match d_Metrics (sp_Driver (cr_Spec cr)) with
              | Some metrics => if decide (dm_Port metrics = 0%Z) then 9090%Z else dm_Port metrics
              | None => 9090%Z
              end in
  OOther (mkResource "Service" (metrics_meta cr (cr_Name cr +:+ "-metrics"))
            (ServiceBody (cr_Name cr +:+ "-controller") port)).

Definition metricsEnabled (cr : CSM) : bool :=
  match d_Metrics (sp_Driver (cr_Spec cr)) with
  | Some metrics => dm_Enabled metrics
  | None => false
  end.

(** The monitor that is asked for, when it is and the metrics are not to be deleted. *)
Definition service_monitor (isDeleting : bool) (cr : CSM) : option MetricsServiceMonitorConfig :=
  if isDeleting || negb (metricsEnabled cr) then None
  else
    match d_Metrics (sp_Driver (cr_Spec cr)) with
    | Some metrics =>
        match dm_ServiceMonitor metrics with
        | Some sm => if sm_Enabled sm then Some sm else None
        | None => None
        end
    | None => None
    end.

Definition metrics_monitor (cr : CSM) (sm : option MetricsServiceMonitorConfig) : Object :=
  let interval := match sm with
                  | Some sm => if decide (sm_Interval sm = "") then "30s" else sm_Interval sm
                  | None => "30s"
                  end in
  let insecureSkipVerify := match sm with Some sm => sm_InsecureSkipVerify sm | None => false end in
  let tls := match d_Metrics (sp_Driver (cr_Spec cr)) with
             | Some metrics =>
                 if decide (dm_TLSCertSecret metrics = "") then None else Some insecureSkipVerify
             | None => None
             end in
  OOther (mkResource "ServiceMonitor" (metrics_meta cr (cr_Name cr +:+ "-metrics-monitor"))
            (ServiceMonitorBody (cr_Name cr +:+ "-controller") interval tls)).

Section sync.
Context {W : Type} `{Client W} `{Host} `{MapOrder} `{JSON}
  `{!DriverPackage W} `{!ModulePackage W} `{!Discovery W}.

Definition syncMetricsResources (isDeleting : bool) (cr : CSM) : M (World W) () :=
  let shouldDelete := isDeleting || negb (metricsEnabled cr) in
  let svc := metrics_service cr in
  _ ← (if shouldDelete then ignoreErr (DeleteObject svc)
       else orFail (ApplyObject svc)
              (errorf ("failed to sync metrics Service " +:+ cr_Name cr +:+ "-metrics")));
  let monitor := service_monitor isDeleting cr in
  let sm := metrics_monitor cr monitor in
  match monitor with
  | None => ignoreErr (DeleteObject sm)
  | Some _ =>
      orFail (ApplyObject sm)
        (errorf ("failed to sync ServiceMonitor " +:+ cr_Name cr +:+ "-metrics-monitor"))
  end.

(** ** Observability *)

(** the names of the components that are enabled *)
Definition enabled_components (cr : CSM) : outcome (list string) :=
  match IsModuleEnabled cr Observability with
  | (true, obs) =>
      foldO (λ acc comp,
          b ← IsModuleComponentEnabled cr Observability (ct_Name comp);
          Ok (if (b : bool) then acc ++ [ct_Name comp] else acc))
        [] (m_Components obs)
  | _ => Ok []
  end.

Definition old_version (configVersion : string) : bool :=
  Contains configVersion "v2.13" || Contains configVersion "v2.14".

Definition reconcile_component (isDeleting : bool) (op : OperatorConfig) (cr : CSM)
    (matched : VersionSpec) (configVersion comp : string) : M (World W) () :=
  if decide (comp = ObservabilityOtelCollectorName) then OtelCollector isDeleting op cr matched
  else if decide (comp = ObservabilityCertManagerComponent)
  then CommonCertManager isDeleting op cr matched
  else if decide (comp = ObservabilityTopologyName)
  then when (old_version configVersion) (ObservabilityTopology isDeleting op cr matched)
  else if decide (comp = ObservabilityMetricsPowerScaleName) then PowerScaleMetrics isDeleting op cr
  else if decide (comp = ObservabilityMetricsPowerFlexName) then PowerFlexMetrics isDeleting op cr
  else if decide (comp = ObservabilityMetricsPowerMaxName) then PowerMaxMetrics isDeleting op cr
  else if decide (comp = ObservabilityMetricsPowerStoreName) then PowerStoreMetrics isDeleting op cr
  else failM (Errorf ("unsupported component type: " +:+ comp)).

Definition wait_cert_manager (cr : CSM) : M (World W) () :=
  webhookDep ← orFail (getT Deployment (cr_Namespace cr) "cert-manager-webhook")
    (errorf "cert-manager-webhook deployment not found, will retry");
  let ready := dps_ReadyReplicas (dp_Status webhookDep) in
  if decide (ready < 1)%Z
  then failM (Errorf ("cert-manager-webhook is not ready yet (ready=" +:+ Itoa ready
                      +:+ "), will retry"))
  else mret ().

Definition reconcileObservability (isDeleting : bool) (op : OperatorConfig) (cr : CSM)
    (components : list string) (matched : VersionSpec) : M (World W) () :=
  configVersion ← lift (GetVersion cr op);
  components ← match components with
               | [] => lift (enabled_components cr)
               | _ => mret components
               end;
  _ ← forM (reconcile_component isDeleting op cr matched configVersion) components;
  _ ← (if isDeleting then mret ()
       else
         certs ← lift (IsModuleComponentEnabled cr Observability ObservabilityCertManagerComponent);
         when certs (wait_cert_manager cr));
  orFail (IssuerCertServiceObs isDeleting op cr)
    (errorf "unable to deploy Certificate & Issuer for Observability").

(** ** Authorization *)

Definition auth_component_enabled (cr : CSM) (comp : string) : M (World W) bool :=
  lift (IsModuleComponentEnabled cr AuthorizationServer comp).

(** [config] is the configuration of the reconciler, [op] the argument. *)
Definition reconcileAuthorization (config : OperatorConfig) (isDeleting : bool)
    (op : OperatorConfig) (cr : CSM) (matched : VersionSpec) : M (World W) () :=
  certs ← auth_component_enabled cr AuthCertManagerComponent;
  _ ← when certs (orFail (CommonCertManager isDeleting op cr matched)
                    (errorf "unable to reconcile cert-manager for authorization"));
  proxy ← auth_component_enabled cr AuthProxyServerComponent;
  _ ← when proxy
        (_ ← orFail (AuthorizationServerDeployment isDeleting op cr matched)
               (errorf "unable to reconcile authorization proxy server");
         orFail (InstallPolicies isDeleting op cr) (errorf "unable to install policies"));
  gatewayComponentEnabled ← auth_component_enabled cr AuthGatewayComponent;
  nginxComponentEnabled ← auth_component_enabled cr AuthNginxIngressComponent;
  let isV25OrLater := auth_useGatewayAPI (sp_Modules (cr_Spec cr)) in
  _ ← (if oc_IsOpenShift config then mret ()
       else if isV25OrLater && (gatewayComponentEnabled || nginxComponentEnabled) then
         _ ← when (negb isDeleting) (ignoreErr (NginxIngressControllerCleanup op cr));
         orFail (GatewayController isDeleting op cr)
           (errorf "unable to reconcile gateway API controller for authorization")
       else if nginxComponentEnabled then
         orFail (NginxIngressController isDeleting op cr)
           (errorf "unable to reconcile nginx ingress controller for authorization")
       else mret ());
  proxy ← auth_component_enabled cr AuthProxyServerComponent;
  _ ← when proxy (orFail (AuthorizationIngress isDeleting (oc_IsOpenShift config) cr)
                    (errorf "unable to reconcile authorization ingress rules"));
  orFail (InstallWithCerts isDeleting op cr)
    (errorf "unable to install certificates for Authorization").

Definition reconcileAuthorizationCRDS (op : OperatorConfig) (cr : CSM) : M (World W) () :=
  proxy ← auth_component_enabled cr AuthProxyServerComponent;
  when proxy (orFail (AuthCrdDeploy op cr) (errorf "unable to reconcile Authorization CRDs")).

Definition reconcileReplicationCRDS (op : OperatorConfig) (cr : CSM) : M (World W) () :=
  orFail (ReplicationCrdDeploy op cr) (errorf "unable to reconcile replication CRDs").

Definition reconcileReverseProxyServer (isDeleting : bool) (op : OperatorConfig) (cr : CSM)
    : M (World W) () :=
  orFail (ReverseProxyServer isDeleting op cr) (errorf "unable to reconcile reverse-proxy server").

(** ** The manifests of the driver

    [None] when no driver is specified; with the custom resource and the version as the caller
    finds them after [GetNode] and [GetController]. *)
Definition getDriverConfig (cr : CSM) (operatorConfig : OperatorConfig) (matched : VersionSpec)
    : M (World W) (option DriverConfig * CSM * VersionSpec) :=
  let driverType := GetDriverType cr in
  if decide (driverType = "") then mret (None, cr, matched)
  else
    let driverType := if decide (driverType = PowerScale) then PowerScaleName else driverType in
    '(driver, node, cr, matched) ←
      (if decide (driverType = Cosi) then mret (None, None, cr, matched)
       else
         driver ← orFail (lift (GetCSIDriver cr operatorConfig driverType))
           (errorf ("getting " +:+ driverType +:+ " CSIDriver"));
         '(node, cr, matched) ← orFail (GetNode cr operatorConfig driverType NodeYaml matched)
           (errorf ("getting " +:+ driverType +:+ " node"));
         mret (Some driver, Some node, cr, matched));
    configMap ← orFail (lift (GetConfigMap cr operatorConfig driverType))
      (errorf ("getting " +:+ driverType +:+ " configMap"));
    '(controller, matched) ← orFail (lift (GetController cr operatorConfig driverType matched))
      (errorf ("getting " +:+ driverType +:+ " controller"));
    mret (Some (mkDriverConfig driver configMap node controller), cr, matched).

(** ** Removal *)

Definition rbac_objects (r : RbacYAML) : list Object :=
  [OOther (rb_ServiceAccount r); OOther (rb_ClusterRole r); OOther (rb_ClusterRoleBinding r);
   OOther (rb_Role r); OOther (rb_RoleBinding r)].

(** what [removeDriverFromCluster] deletes by [DeleteObject], in its order *)
Definition driver_objects (d : DriverConfig) : list Object :=
  match dc_Node d with Some node => rbac_objects (ny_Rbac node) | None => [] end
  ++ rbac_objects (cy_Rbac (dc_Controller d))
  ++ [OConfigMap (dc_ConfigMap d)]
  ++ match dc_Driver d with Some driver => [OOther driver] | None => [] end.

Definition removeDriverFromCluster (d : DriverConfig) : M (World W) () :=
  _ ← forM DeleteObject (driver_objects d);
  _ ← match dc_Node d with
      | Some node => remove_workload DaemonSet id (ny_DaemonSet node)
      | None => mret ()
      end;
  remove_workload Deployment id (cy_Deployment (dc_Controller d)).

Definition not_owned_by (uid : string) (refs : list OwnerReference) : list OwnerReference :=
  filter (λ ref, or_UID ref ≠ uid) refs.

Definition removeDeploymentOwnerRef (csm : CSM) : M (World W) () :=
  deploy ← getT Deployment (cr_Namespace csm) (GetControllerName csm);
  let refs := default [] (om_OwnerReferences (dp_Meta deploy)) in
  let filtered := not_owned_by (om_UID (cr_Meta csm)) refs in
  if decide (length filtered = length refs) then mret ()
  else
    let refs := match filtered with [] => None | _ => Some filtered end in
    updateObject (set_obj_meta (set_om_OwnerReferences refs (dp_Meta deploy))
                    (ODeployment deploy)).

Definition removeDriver (instance : CSM) (operatorConfig : OperatorConfig) : M (World W) () :=
  '(driverConfig, instance, _) ← getDriverConfig instance operatorConfig zero_VersionSpec;
  match driverConfig with
  | None => mret ()
  | Some driverConfig =>
      _ ← removeDriverFromCluster driverConfig;
      _ ← when (enabled instance Replication)
            (_ ← ReplicationManagerController true operatorConfig instance;
             _ ← DeleteReplicationConfigmap;
             ignoreErr (DeleteReplicationCrds operatorConfig instance));
      _ ← when (enabled instance Observability)
            (reconcileObservability true operatorConfig instance [] zero_VersionSpec);
      sidecar ← IsReverseProxySidecar;
      _ ← when (bool_decide (GetDriverType instance = PowerMax) && sidecar)
            (orFail (ReverseProxyStartService true operatorConfig instance)
               (errorf "unable to reconcile reverse-proxy service"));
      _ ← when (bool_decide (GetDriverType instance = PowerStore))
            (orFail (PatchCSMDRCRDs true operatorConfig)
               (errorf "unable to remove the common CSM Disaster Recovery CRDs"));
      when (bool_decide (GetDriverType instance = PowerFlex))
        (syncMetricsResources true instance)
  end.

Definition removeModule (config : OperatorConfig) (instance : CSM)
    (operatorConfig : OperatorConfig) : M (World W) () :=
  _ ← when (enabled instance AuthorizationServer)
        (reconcileAuthorization config true operatorConfig instance zero_VersionSpec);
  sidecar ← IsReverseProxySidecar;
  when (enabled instance ReverseProxy && negb sidecar)
    (reconcileReverseProxyServer true operatorConfig instance).

(** ** Disaster recovery *)

Definition applyCSMDRCRD (cr : CSM) (isDeleting : bool) (op : OperatorConfig) : M (World W) () :=
  version ← lift (GetVersion cr op);
  isCompatible ← orFail (lift (MinVersionCheck DisasterRecoveryMinVersion version))
    (λ _, Errorf ("error checking version: " +:+ version));
  if (isCompatible : bool)
  then orFail (PatchCSMDRCRDs isDeleting op)
         (errorf "unable to patch the common CSM Disaster Recovery (DR) Controller")
  else orFail (PatchCSMDRCRDs true op)
         (errorf "unable to remove the common CSM DR Controller").

(** ** What an earlier configuration left behind *)

Definition replicaEnabled (cr : CSM) : bool :=
  match find_module Replication (sp_Modules (cr_Spec cr)) with
  | Some m => m_Enabled m
  | None => false
  end.

(** the observability components that were enabled and are not any more *)
Definition dropped_components (oldCR newCR : CSM) : outcome (list string) :=
  if enabled newCR Observability then
    match IsModuleEnabled oldCR Observability with
    | (true, oldObs) =>
        foldO (λ acc comp,
            old ← IsModuleComponentEnabled oldCR Observability (ct_Name comp);
            new ← IsModuleComponentEnabled newCR Observability (ct_Name comp);
            Ok (if (old : bool) && negb new then acc ++ [ct_Name comp] else acc))
          [] (m_Components oldObs)
    | _ => Ok []
    end
  else Ok [].

Definition cleanup_old (oldCR newCR : CSM) (operatorConfig : OperatorConfig) : M (World W) () :=
  _ ← when (replicaEnabled oldCR && negb (replicaEnabled newCR))
        (_ ← ReplicationManagerController true operatorConfig oldCR;
         ignoreErr (DeleteReplicationCrds operatorConfig oldCR));
  components ← lift (dropped_components oldCR newCR);
  when ((enabled oldCR Observability && negb (enabled newCR Observability))
        || bool_decide (0 < length components))
    (reconcileObservability true operatorConfig oldCR components zero_VersionSpec).

(** The copy of the custom resource that the annotation keeps. *)
Definition annotation_copy (cr : CSM) : CSM :=
  set_cr_Status zero_Status
    (set_cr_Meta
       (set_om_ManagedFields []
          (set_om_Annotations
             ((λ m, delete kubectlLastApplied (delete PreviouslyApplied m))
                <$> om_Annotations (cr_Meta cr)) (cr_Meta cr)))
       cr).

(** The annotation map is shared with the caller's custom resource: the results are the
    custom resource as the server answered and the map. *)
Definition oldStandAloneModuleCleanup (newCR : CSM) (operatorConfig : OperatorConfig)
    : M (World W) (CSM * gmap string string) :=
  let annotations := om_Annotations (cr_Meta newCR) in
  let oldCrJSON := map_get annotations PreviouslyApplied in
  _ ← (if decide (oldCrJSON = "") then mret ()
       else
         oldCR ← orFail (lift (res (json_Unmarshal oldCrJSON)))
           (errorf "error unmarshalling old annotation");
         cleanup_old oldCR newCR operatorConfig);
  out ← orFail (lift (res (json_Marshal (annotation_copy newCR))))
    (errorf "error marshalling CR to annotation");
  match annotations with
  | None => lift (Panic "assignment to entry in nil map")
  | Some annotations =>
      let annotations := <[PreviouslyApplied := out]> annotations in
      newCR ← updateCSM (set_cr_Meta (set_om_Annotations (Some annotations) (cr_Meta newCR)) newCR);
      mret (newCR, annotations)
  end.

(** ** Changing the manifests *)

Definition on_deployment (f : Workload → M (World W) Workload) (d : DriverConfig)
    : M (World W) DriverConfig :=
  dp ← f (cy_Deployment (dc_Controller d));
  mret (set_dc_Controller (mkControllerYAML dp (cy_Rbac (dc_Controller d))) d).

Definition on_controller_rbac (f : RbacYAML → M (World W) RbacYAML) (d : DriverConfig)
    : M (World W) DriverConfig :=
  r ← f (cy_Rbac (dc_Controller d));
  mret (set_dc_Controller (mkControllerYAML (cy_Deployment (dc_Controller d)) r) d).

Definition on_daemonset (f : Workload → M (World W) Workload) (d : DriverConfig)
    : M (World W) DriverConfig :=
  node ← lift (deref (dc_Node d));
  ds ← f (ny_DaemonSet node);
  mret (set_dc_Node (mkNodeYAML ds (ny_Rbac node)) d).

Definition on_node_rbac (f : RbacYAML → M (World W) RbacYAML) (d : DriverConfig)
    : M (World W) DriverConfig :=
  node ← lift (deref (dc_Node d));
  r ← f (ny_Rbac node);
  mret (set_dc_Node (mkNodeYAML (ny_DaemonSet node) r) d).

Definition cluster_role (f : Resource → M (World W) Resource) (r : RbacYAML)
    : M (World W) RbacYAML :=
  c ← f (rb_ClusterRole r); mret (set_rb_ClusterRole c r).
Definition role (f : Resource → M (World W) Resource) (r : RbacYAML) : M (World W) RbacYAML :=
  c ← f (rb_Role r); mret (set_rb_Role c r).

Definition mount_powermax (d : Workload) (cr : CSM) : M (World W) Workload :=
  dropErr (DynamicallyMountPowermaxContent d cr) d.

Definition adapt_powermax (cr : CSM) (op : OperatorConfig) (matched : VersionSpec)
    (d : DriverConfig) : M (World W) DriverConfig :=
  sidecar ← IsReverseProxySidecar;
  d ← (if (sidecar : bool) then
         _ ← orFail (ReverseProxyStartService false op cr)
               (errorf "unable to reconcile reverse-proxy service");
         on_deployment (λ dp, orFail (ReverseProxyInjectDeployment dp cr op matched)
                                (errorf "unable to inject ReverseProxy into deployment")) d
       else
         on_deployment (λ dp, dp ← lift (AddReverseProxyServiceName dp); mount_powermax dp cr) d);
  d ← on_daemonset (λ ds, mount_powermax ds cr) d;
  cm ← lift (UpdatePowerMaxConfigMap (dc_ConfigMap d) cr);
  mret (set_dc_ConfigMap cm d).

(** whether the node asks for an SFTP repository: the first environment variable of that
    name decides, without the list the answer is no *)
Definition sftp_enabled (cr : CSM) : bool :=
  match d_Node (sp_Driver (cr_Spec cr)) with
  | Some node =>
      match ct_Envs node with
      | Some envs =>
          match list_find (λ env, ev_Name env = "X_CSI_SDC_SFTP_REPO_ENABLED") envs with
          | Some (_, env) => bool_decide (ev_Value env = "true")
          | None => true
          end
      | None => false
      end
  | None => false
  end.

Definition adapt_powerflex (config : OperatorConfig) (isHarvester : bool) (cr : CSM)
    (d : DriverConfig) : M (World W) DriverConfig :=
  d ← (if oc_IsOpenShift config || isHarvester
       then on_daemonset (λ ds, dropErr (RemoveVolume ds ScaleioBinPath) ds) d else mret d);
  if sftp_enabled cr then mret d
  else on_daemonset (λ ds, dropErr (RemoveInitVolume ds SftpKeys) ds) d.

(** The injection of the authorization proxy completes the environment of its component, in the
    custom resource that it shares with its caller. *)
Definition inject_authorization (cr : CSM) (op : OperatorConfig) (d : DriverConfig)
    : M (World W) (DriverConfig * CSM) :=
  '(dp, cr) ← orFail (AuthInjectDeployment (cy_Deployment (dc_Controller d)) cr op)
                (errorf "injecting auth into deployment");
  let d := set_dc_Controller (mkControllerYAML dp (cy_Rbac (dc_Controller d))) d in
  node ← lift (deref (dc_Node d));
  '(ds, cr) ← orFail (AuthInjectDaemonset (ny_DaemonSet node) cr op)
                (errorf "injecting auth into deamonset");
  mret (set_dc_Node (mkNodeYAML ds (ny_Rbac node)) d, cr).

Definition inject_module (cr : CSM) (op : OperatorConfig) (matched : VersionSpec)
    (d : DriverConfig) (m : Module) : M (World W) DriverConfig :=
  if decide (m_Name m = Resiliency) then
    let driverName := GetDriverType cr in
    d ← on_deployment (λ dp, orFail (ResiliencyInjectDeployment dp cr op driverName matched)
                               (errorf "injecting resiliency into deployment")) d;
    d ← on_controller_rbac
          (cluster_role (λ r, orFail (ResiliencyInjectClusterRole r cr op "controller")
             (errorf "injecting resiliency into controller cluster role"))) d;
    d ← on_controller_rbac
          (role (λ r, orFail (ResiliencyInjectRole r cr op "controller")
             (errorf "injecting resiliency into controller role"))) d;
    d ← on_daemonset (λ ds, orFail (ResiliencyInjectDaemonset ds cr op driverName matched)
                              (errorf "injecting resiliency into daemonset")) d;
    d ← on_node_rbac
          (cluster_role (λ r, orFail (ResiliencyInjectClusterRole r cr op "node")
             (errorf "injecting resiliency into node cluster role"))) d;
    on_node_rbac
      (role (λ r, orFail (ResiliencyInjectRole r cr op "node")
         (errorf "injecting resiliency into controller role"))) d
  else if decide (m_Name m = Replication) then
    d ← on_deployment (λ dp, orFail (ReplicationInjectDeployment dp cr op matched)
                               (errorf "injecting replication into deployment")) d;
    on_controller_rbac
      (cluster_role (λ r, orFail (ReplicationInjectClusterRole r cr op)
         (errorf "injecting replication into controller cluster role"))) d
  else mret d.

Fixpoint inject_modules (cr : CSM) (op : OperatorConfig) (matched : VersionSpec)
    (d : DriverConfig) (ms : list Module) : M (World W) (DriverConfig * CSM) :=
  match ms with
  | [] => mret (d, cr)
  | m :: ms' =>
      '(d, cr) ← (if m_Enabled m then
                    if decide (m_Name m = Authorization) then inject_authorization cr op d
                    else d ← inject_module cr op matched d m; mret (d, cr)
                  else mret (d, cr));
      inject_modules cr op matched d ms'
  end.

(** ** Putting the manifests on the cluster *)

Definition sync_cosi (cr : CSM) (d : DriverConfig) : M (World W) () :=
  let controller := dc_Controller d in
  _ ← SyncServiceAccount (rb_ServiceAccount (cy_Rbac controller));
  _ ← SyncClusterRole (rb_ClusterRole (cy_Rbac controller));
  _ ← SyncClusterRoleBindings (rb_ClusterRoleBinding (cy_Rbac controller));
  _ ← SyncConfigMap (dc_ConfigMap d);
  SyncDeployment (cy_Deployment controller) (cr_Name cr).

(** everything up to the deployment of the controller *)
Definition sync_controller (cr : CSM) (d : DriverConfig) (node : NodeYAML) (driver : Resource)
    : M (World W) () :=
  let nr := ny_Rbac node in
  let cn := cy_Rbac (dc_Controller d) in
  _ ← SyncServiceAccount (rb_ServiceAccount nr);
  _ ← SyncServiceAccount (rb_ServiceAccount cn);
  _ ← SyncClusterRole (rb_ClusterRole nr);
  _ ← SyncClusterRole (rb_ClusterRole cn);
  _ ← SyncClusterRoleBindings (rb_ClusterRoleBinding nr);
  _ ← SyncClusterRoleBindings (rb_ClusterRoleBinding cn);
  _ ← SyncRole (rb_Role nr);
  _ ← SyncRole (rb_Role cn);
  _ ← SyncRoleBindings (rb_RoleBinding nr);
  _ ← SyncRoleBindings (rb_RoleBinding cn);
  _ ← SyncCSIDriver driver;
  _ ← SyncConfigMap (dc_ConfigMap d);
  SyncDeployment (cy_Deployment (dc_Controller d)) (cr_Name cr).

(** what follows the workloads: replication, observability, metrics *)
Definition sync_extras (cr : CSM) (op : OperatorConfig) (matched : VersionSpec)
    : M (World W) () :=
  _ ← when (enabled cr Replication)
        (_ ← orFail (ReplicationManagerController false op cr)
               (errorf "failed to deploy replication controller");
         orFail (CreateReplicationConfigmap cr op)
           (errorf "injecting replication into replication configmap"));
  _ ← when (enabled cr Observability) (reconcileObservability false op cr [] matched);
  when (bool_decide (GetDriverType cr = PowerFlex)) (syncMetricsResources false cr).

Definition sync_driver (cr : CSM) (op : OperatorConfig) (matched : VersionSpec)
    (d : DriverConfig) : M (World W) () :=
  if decide (GetDriverType cr = Cosi) then sync_cosi cr d
  else
    node ← lift (deref (dc_Node d));
    driver ← lift (deref (dc_Driver d));
    _ ← sync_controller cr d node driver;
    _ ← when (bool_decide (GetDriverType cr = PowerStore
                ∧ GetDriverCommonEnv cr "X_CSM_DR_ENABLED" "true" = "true"))
          (applyCSMDRCRD cr false op);
    _ ← SyncDaemonset (ny_DaemonSet node) (cr_Name cr);
    sync_extras cr op matched.

(** The result is the caller's custom resource, which shares its annotations and templates
    with the copy that is synced. *)
Definition SyncCSM (config : OperatorConfig) (cr : CSM) (op : OperatorConfig)
    : M (World W) CSM :=
  matched ← (if decide (sp_Version (cr_Spec cr) = "") then mret zero_VersionSpec
             else ResolveVersionFromConfigMap cr);
  if enabled cr AuthorizationServer then
    _ ← orFail (reconcileAuthorizationCRDS op cr)
          (errorf "failed to deploy authorization proxy server");
    _ ← orFail (reconcileAuthorization config false op cr matched)
          (errorf "failed to deploy authorization proxy server");
    mret cr
  else
    sidecar ← IsReverseProxySidecar;
    _ ← when (enabled cr ReverseProxy && negb sidecar)
          (orFail (reconcileReverseProxyServer false op cr)
             (errorf "failed to deploy reverseproxy proxy server"));
    _ ← when (enabled cr Replication)
          (orFail (reconcileReplicationCRDS op cr) (errorf "failed to deploy replication CRDs"));
    '(driverConfig, cr, matched) ← getDriverConfig cr op matched;
    match driverConfig with
    | None => mret cr
    | Some d =>
        '(updated, annotations) ← oldStandAloneModuleCleanup cr op;
        let caller := set_cr_Meta (set_om_Annotations (Some annotations) (cr_Meta cr)) cr in
        let cr := updated in
        d ← (if decide (GetDriverType cr = PowerMax) then adapt_powermax cr op matched d
             else mret d);
        isHarvester ← orFail IsHarvester (errorf "failed to detect harvester cluster");
        d ← (if decide (GetDriverType cr = PowerFlex) then adapt_powerflex config isHarvester cr d
             else mret d);
        '(d, cr) ← inject_modules cr op matched d (sp_Modules (cr_Spec cr));
        _ ← sync_driver cr op matched d;
        mret caller
    end.
End sync.

(** ** Removal: what is left *)

Section removal.
Context {W : Type} `{Client W} `{!View W} `{!ClientLaws (W := W)}.
#[local] Set Default Proof Using "All".

(** the daemon set, for a driver that has one *)
Definition remove_node (d : DriverConfig) : M (World W) () :=
  match dc_Node d with
  | Some node => remove_workload DaemonSet id (ny_DaemonSet node)
  | None => mret ()
  end.

Lemma remove_node_spec d w w' :
  remove_node d w = (Ok (), w') →
  (∀ k, (∀ node, dc_Node d = Some node → k ≠ workload_key DaemonSet (ny_DaemonSet node)) →
     seen w' !! k = seen w !! k)
  ∧ (∀ k, removed (seen w) k → removed (seen w') k)
  ∧ (∀ node, dc_Node d = Some node →
       removed (seen w') (workload_key DaemonSet (ny_DaemonSet node))
       ∨ lookup_fails DaemonSet (ny_DaemonSet node) w).
Proof.
  unfold remove_node. destruct (dc_Node d) as [node|]; [|by intros [= <-]].
  intros (F & R & N)%remove_workload_spec. split_and!; [|done|by intros node' [= <-]].
  intros k Hk. apply F. by apply Hk.
Qed.

(** C8: when [removeDriverFromCluster] reports success, every RBAC object, the config map
    and the CSIDriver object of the driver is absent or being deleted; so are the daemon set
    and the deployment, unless the API server did not answer when the run asked for one: with
    any error but "not found", which is taken for absence all the same. The daemon set is looked
    up in the state [w1] that deleting the objects leaves, the deployment in the state [w2] that
    removing the daemon set leaves. Nothing else on the cluster changed. *)
Theorem removeDriverFromCluster_spec d w w' :
  removeDriverFromCluster d w = (Ok (), w') →
  let controller := cy_Deployment (dc_Controller d) in
  ∃ w1 w2, forM DeleteObject (driver_objects d) w = (Ok (), w1)
    ∧ remove_node d w1 = (Ok (), w2)
    ∧ (∀ o, o ∈ driver_objects d → removed (seen w') (obj_key o))
    ∧ (removed (seen w') (workload_key Deployment controller)
       ∨ lookup_fails Deployment controller w2)
    ∧ (∀ node, dc_Node d = Some node →
         removed (seen w') (workload_key DaemonSet (ny_DaemonSet node))
         ∨ lookup_fails DaemonSet (ny_DaemonSet node) w1)
    ∧ (∀ k, k ∉ obj_key <$> driver_objects d →
         k ≠ workload_key Deployment controller →
         (∀ node, dc_Node d = Some node → k ≠ workload_key DaemonSet (ny_DaemonSet node)) →
         seen w' !! k = seen w !! k).
Proof.
  unfold removeDriverFromCluster. intros E.
  apply M_bind_Ok in E as ([] & w1 & E1 & E). apply M_bind_Ok in E as ([] & w2 & E2 & E3).
  exists w1, w2. split; [exact E1|]. split; [exact E2|].
  apply forM_DeleteObject in E1 as [F1 R1]. apply remove_node_spec in E2 as (F2 & R2 & N2).
  apply remove_workload_spec in E3 as (F3 & R3 & N3). split_and!.
  - intros o Ho. apply R3, R2, R1. left. by apply list_elem_of_fmap_2.
  - exact N3.
  - intros node Hn. destruct (N2 node Hn) as [N|N]; [left; by apply R3|by right].
  - intros k Hk Hd Hn. rewrite F3, F2, F1; done.
Qed.
End removal.

(** ** Installation: what is there *)

(** The kinds that the Go types of the manifests fix. *)
Definition well_kinded (r : RbacYAML) : Prop :=
  rs_Kind (rb_ServiceAccount r) = "ServiceAccount" ∧ rs_Kind (rb_ClusterRole r) = "ClusterRole"
  ∧ rs_Kind (rb_ClusterRoleBinding r) = "ClusterRoleBinding" ∧ rs_Kind (rb_Role r) = "Role"
  ∧ rs_Kind (rb_RoleBinding r) = "RoleBinding".

Definition res_key (r : Resource) : Key := obj_key (OOther r).

(** A role or role binding without a name is not synced. *)
Definition named_key (r : Resource) : list Key :=
  if decide (om_Name (rs_Meta r) = "") then [] else [res_key r].

Definition controller_keys (d : DriverConfig) (node : NodeYAML) (driver : Resource) : list Key :=
  let nr := ny_Rbac node in
  let cn := cy_Rbac (dc_Controller d) in
  [res_key (rb_ServiceAccount nr); res_key (rb_ServiceAccount cn);
   res_key (rb_ClusterRole nr); res_key (rb_ClusterRole cn);
   res_key (rb_ClusterRoleBinding nr); res_key (rb_ClusterRoleBinding cn)]
  ++ named_key (rb_Role nr) ++ named_key (rb_Role cn)
  ++ named_key (rb_RoleBinding nr) ++ named_key (rb_RoleBinding cn)
  ++ [res_key driver; obj_key (OConfigMap (dc_ConfigMap d));
      ("Deployment", (namespace_of (cy_Deployment (dc_Controller d)),
                      name_of (cy_Deployment (dc_Controller d))))].

Definition cosi_keys (d : DriverConfig) : list Key :=
  let cn := cy_Rbac (dc_Controller d) in
  [res_key (rb_ServiceAccount cn); res_key (rb_ClusterRole cn);
   res_key (rb_ClusterRoleBinding cn); obj_key (OConfigMap (dc_ConfigMap d));
   ("Deployment", (namespace_of (cy_Deployment (dc_Controller d)),
                   name_of (cy_Deployment (dc_Controller d))))].

Section installation.
Context {W : Type} `{Client W} `{!View W} `{!ClientLaws (W := W)}.
#[local] Set Default Proof Using "All".

Lemma ensures_all_named r (m1 m2 : M (World W) ()) ks :
  (if decide (om_Name (rs_Meta r) = "") then m1 = mret () else ensures (res_key r) m1) →
  ensures_all ks m2 → (∀ k, k ∈ named_key r → k ∉ ks) →
  ensures_all (named_key r ++ ks) (_ ← m1; m2).
Proof.
  unfold named_key. case_decide.
  - by intros -> ? _.
  - intros E1 E2 Hk. apply ensures_all_cons; [done|done|]. apply Hk. by left.
Qed.

Lemma SyncRole_named r : rs_Kind r = "Role" →
  if decide (om_Name (rs_Meta r) = "") then SyncRole r = mret () else ensures (res_key r) (SyncRole r).
Proof.
  destruct r as [kind m b]. simpl. intros ->. case_decide.
  - unfold SyncRole. by rewrite decide_True.
  - by apply SyncRole_ensures.
Qed.

Lemma SyncRoleBindings_named r : rs_Kind r = "RoleBinding" →
  if decide (om_Name (rs_Meta r) = "") then SyncRoleBindings r = mret ()
  else ensures (res_key r) (SyncRoleBindings r).
Proof.
  destruct r as [kind m b]. simpl. intros ->. case_decide.
  - unfold SyncRoleBindings. by rewrite decide_True.
  - by apply SyncRoleBindings_ensures.
Qed.

Lemma sa_ensures r : rs_Kind r = "ServiceAccount" → ensures (res_key r) (SyncServiceAccount r).
Proof. destruct r. simpl. intros ->. apply SyncServiceAccount_ensures. Qed.
Lemma cr_ensures r : rs_Kind r = "ClusterRole" → ensures (res_key r) (SyncClusterRole r).
Proof. destruct r. simpl. intros ->. apply SyncClusterRole_ensures. Qed.
Lemma crb_ensures r : rs_Kind r = "ClusterRoleBinding" →
  ensures (res_key r) (SyncClusterRoleBindings r).
Proof. destruct r. simpl. intros ->. apply SyncClusterRoleBindings_ensures. Qed.

Ltac no_dup :=
  intros; repeat match goal with H : NoDup (_ ++ _) |- _ => apply NoDup_app in H as (? & ? & H)
                         | H : NoDup (_ :: _) |- _ => apply NoDup_cons in H as [? H] end; auto.

End installation.

(** ** Owner references and metrics *)

Section owners.
Context {W : Type} `{Client W} `{!View W} `{!ClientLaws (W := W)}.
#[local] Set Default Proof Using "All".

Lemma updateObject_calls o w r w' : updateObject o w = (r, w') →
  ∃ ok, w_calls w' = w_calls w ++ [CUpdate o ok].
Proof.
  unfold updateObject, call, mbind, M_bind.
  destruct (api_Update o (w_api w)) as [[e|o'] api]; intros [= <- <-]; by eexists.
Qed.

Lemma not_owned_by_length uid refs :
  length (not_owned_by uid refs) = length refs ↔ ∀ r, r ∈ refs → or_UID r ≠ uid.
Proof.
  unfold not_owned_by. induction refs as [|r refs IH]; [split; [by intros _ r Hr%not_elem_of_nil|done]|].
  rewrite filter_cons. setoid_rewrite elem_of_cons. case_decide as Hr; simpl.
  - rewrite Nat.succ_inj_wd, IH. naive_solver.
  - split; [|naive_solver]. pose proof (length_filter (λ ref, or_UID ref ≠ uid) refs). lia.
Qed.

(** [removeDeploymentOwnerRef] leaves the cluster alone when the controller's deployment
    has no reference to the custom resource; otherwise it makes one update, of that
    deployment with exactly the references that do not point to it, and with no list rather
    than an empty one when none is left. Other objects are never touched. *)
Theorem removeDeploymentOwnerRef_spec csm w r w' :
  removeDeploymentOwnerRef csm w = (r, w') →
  let key := ("Deployment", (cr_Namespace csm, GetControllerName csm)) in
  (∀ k, k ≠ key → seen w' !! k = seen w !! k)
  ∧ (r = Ok () → ∃ deploy, seen w !! key = Some (ODeployment deploy) ∧
      let refs := default [] (om_OwnerReferences (dp_Meta deploy)) in
      ((∀ r, r ∈ refs → or_UID r ≠ om_UID (cr_Meta csm)) ∧ seen w' = seen w)
      ∨ ∃ deploy' calls ok, w_calls w' = calls ++ [CUpdate (ODeployment deploy') ok]
          ∧ dp_Containers deploy' = dp_Containers deploy
          ∧ om_OwnerReferences (dp_Meta deploy') ≠ Some []
          ∧ ∀ r, r ∈ default [] (om_OwnerReferences (dp_Meta deploy'))
                 ↔ r ∈ refs ∧ or_UID r ≠ om_UID (cr_Meta csm)).
Proof.
  unfold removeDeploymentOwnerRef. intros E. unfold mbind, M_bind in E.
  destruct (getT Deployment _ _ w) as [[deploy|e|y] w1] eqn:G;
    pose proof (getT_spec _ _ _ _ _ _ G) as [Hs Hg]; [|by injection E as <- <-; rewrite Hs|done].
  apply getT_key in G. simpl in Hg, G.
  set (refs := default [] (om_OwnerReferences (dp_Meta deploy))) in *.
  set (kept := not_owned_by (om_UID (cr_Meta csm)) refs) in *.
  case_decide as Hl.
  - injection E as <- <-. rewrite Hs. split; [done|]. intros _. exists deploy. split; [done|]. left.
    split; [|done]. by apply not_owned_by_length.
  - pose proof (updateObject_calls _ _ _ _ E) as [ok Hc].
    apply updateObject_spec in E as (Hf & _). split.
    { intros k Hk. rewrite Hf, Hs; [done|]. intros ->. apply Hk. symmetry. exact (eq_sym G). }
    intros _. exists deploy. split; [done|]. right.
    eexists _, (w_calls w1), ok. split; [exact Hc|]. simpl. split; [done|].
    assert (∀ r, r ∈ kept ↔ r ∈ refs ∧ or_UID r ≠ om_UID (cr_Meta csm)) as Hk.
    { intros r0. unfold kept, not_owned_by. rewrite list_elem_of_filter. naive_solver. }
    destruct kept; [split; [done|]; exact Hk|split; [done|exact Hk]].
Qed.

(** [syncMetricsResources] touches only the metrics Service and the ServiceMonitor of
    the custom resource. When it reports success for metrics that are enabled, the Service is
    there, and the ServiceMonitor too when one is asked for (unless being deleted before);
    the port of the Service is never 0. *)
Theorem syncMetricsResources_spec isDeleting cr w r w' :
  syncMetricsResources isDeleting cr w = (r, w') →
  let svc := obj_key (metrics_service cr) in
  let sm := obj_key (metrics_monitor cr (service_monitor isDeleting cr)) in
  (∀ k, k ≠ svc → k ≠ sm → seen w' !! k = seen w !! k)
  ∧ (r = Ok () → isDeleting = false → metricsEnabled cr = true →
       (is_Some (seen w' !! svc) ∨ dying (seen w) svc)
       ∧ (is_Some (service_monitor false cr) → is_Some (seen w' !! sm) ∨ dying (seen w) sm))
  ∧ ∀ m app port, metrics_service cr = OOther (mkResource "Service" m (ServiceBody app port)) →
      port ≠ 0%Z.
Proof.
  intros E svc sm. unfold syncMetricsResources in E. set (monitor := service_monitor isDeleting cr) in *.
  assert (svc ≠ sm) as Hne by done.
  assert (∀ o, touches (eq (obj_key o)) (ignoreErr (DeleteObject o))) as Hdel
    by (intros o; apply touches_ignoreErr, DeleteObject_touches).
  assert (∀ o g, ensures (obj_key o) (orFail (ApplyObject o) g)) as Happ
    by (intros o g; apply ensures_orFail, ApplyObject_ensures).
  split_and!.
  - intros k H1 H2. unfold mbind, M_bind in E.
    match type of E with match ?m1 w with _ => _ end = _ =>
      assert (touches (eq svc) m1) as T1 by (destruct (_ || _); [apply Hdel|apply Happ]);
      destruct (m1 w) as [[a|e|y] w1] eqn:E1;
      pose proof (T1 _ _ _ E1 k (not_eq_sym H1)) as Hk end;
      [|by injection E as <- <-..].
    rewrite <- Hk. destruct monitor; [by apply (proj1 (Happ _ _) _ _ _ E)|by apply (Hdel _ _ _ _ E)].
  - intros -> -> Hen. rewrite Hen in E. simpl in E.
    apply M_bind_Ok in E as ([] & w1 & E1 & E2).
    pose proof (proj1 (Happ _ _) _ _ _ E1) as T1. apply (proj2 (Happ _ _)) in E1.
    fold svc in E1, T1. unfold monitor in E2. split.
    + assert (seen w' !! svc = seen w1 !! svc) as ->; [|done].
      destruct (service_monitor false cr);
        [by apply (proj1 (Happ _ _) _ _ _ E2)|by apply (Hdel _ _ _ _ E2)].
    + intros [x Hx]. unfold sm, monitor. rewrite Hx in E2 |- *.
      apply (proj2 (Happ _ _)) in E2 as [E2|E2]; [by left|right].
      eapply dying_eq; [|exact E2]. by apply T1.
  - intros m app port [= _ _ <-]. destruct (d_Metrics _); [by case_decide|done].
Qed.
End owners.

(** ** A driver on which the hypotheses hold *)

Definition demo_resource (kind name : string) : Resource :=
  mkResource kind (named "dell" name) (Manifest "").

Definition demo_rbac (name : string) : RbacYAML :=
  mkRbacYAML (demo_resource "ServiceAccount" name) (demo_resource "ClusterRole" name)
    (demo_resource "ClusterRoleBinding" name) (demo_resource "Role" name)
    (demo_resource "RoleBinding" "").

Definition demo_workload (name : string) : Workload :=
  mkWorkload (Some (mkWorkloadMeta (Some name) (Some "dell") None None))
    (Some (mkWorkloadSpec None (Some (mkPodTemplateApply (Some (Some ∅))
       (Some (mkPodSpecApply [] [] [] [] None None "")))))) "".

Definition demo_node : NodeYAML := mkNodeYAML (demo_workload "csm-node") (demo_rbac "csm-node").

Definition demo_config_map : ConfigMap := mkConfigMap (named "dell" "csm-config") None.

Definition demo_driver_config : DriverConfig :=
  mkDriverConfig (Some (demo_resource "CSIDriver" "csm")) demo_config_map (Some demo_node)
    (mkControllerYAML (demo_workload "csm-controller") (demo_rbac "csm-controller")).

Lemma removeDriverFromCluster_spec_witness :
  ∃ w', removeDriverFromCluster demo_driver_config (demo_world (demo_cr PowerFlex [])) = (Ok (), w')
    ∧ (∀ o, o ∈ driver_objects demo_driver_config → removed (seen w') (obj_key o))
    ∧ removed (seen w') ("Deployment", ("dell", "csm-controller"))
    ∧ removed (seen w') ("DaemonSet", ("dell", "csm-node")).
Proof.
  assert (fst (removeDriverFromCluster demo_driver_config (demo_world (demo_cr PowerFlex [])))
    = Ok ()) as E by (vm_compute; reflexivity).
  apply run_fst in E. eexists. split; [exact E|].
  destruct (removeDriverFromCluster_spec _ _ _ E) as (w1 & w2 & E1 & E2 & Ho & Hd & Hn & _).
  apply (f_equal snd) in E1, E2. cbn [snd] in E1, E2. subst w1 w2. split; [exact Ho|]. split.
  - destruct Hd as [Hd|(e & G & Ne)]; [exact Hd|]. exfalso. vm_compute in G.
    by (discriminate G || (injection G as <-; vm_compute in Ne)).
  - destruct (Hn demo_node eq_refl) as [Hd'|(e & G & Ne)]; [exact Hd'|]. exfalso. vm_compute in G.
    by (discriminate G || (injection G as <-; vm_compute in Ne)).
Defined.


Lemma removeDeploymentOwnerRef_spec_witness :
  let cr := demo_cr PowerFlex [] in
  ∃ r w', removeDeploymentOwnerRef cr (demo_world cr) = (r, w')
    ∧ seen w' !! obj_key demo_daemonset = seen (demo_world cr) !! obj_key demo_daemonset.
Proof.
  intros cr. eexists _, _. split; [apply surjective_pairing|].
  refine (proj1 (removeDeploymentOwnerRef_spec cr (demo_world cr) _ _ (surjective_pairing _)) _ _).
  by vm_compute.
Defined.

Lemma syncMetricsResources_spec_witness :
  let cr := demo_cr PowerFlex [] in
  ∃ r w', syncMetricsResources false cr (demo_world cr) = (r, w')
    ∧ seen w' !! obj_key demo_daemonset = seen (demo_world cr) !! obj_key demo_daemonset.
Proof.
  intros cr. eexists _, _. split; [apply surjective_pairing|].
  refine (proj1 (syncMetricsResources_spec false cr (demo_world cr) _ _
    (surjective_pairing _)) _ _ _); by vm_compute.
Defined.
