(* ===== verification/Controller.v ===== *)
(** The reconciler (controllers/csm_controller.go): [PreChecks], [checkUpgrade], annotations,
    finalizers and [Reconcile], which joins status, sync, removal and content watch. *)

From S2P Require Import Prelude.
From S2P Require Import GoStrings.
From S2P Require Import Types.
From S2P Require Import Versions.
From S2P Require Import Modules.
From S2P Require Import Images.
From S2P Require Import Cluster.
From S2P Require Import Resources.
From S2P Require Import Status.
From S2P Require Import Packages.
From S2P Require Import Watch.
From S2P Require Import Sync.
From Stdlib Require Import Ascii.
From stdpp Require Import options.

Local Open Scope stdpp_scope.

Definition CSMFinalizerName : string := "finalizer.dell.emc.com".
Definition CSMVersion : string := "v1.17.1".
Definition configVersionKey : string := "storage.dell.com/CSMOperatorConfigVersion".
Definition CSMVersionKey : string := "storage.dell.com/CSMVersion".
Definition Creating : string := "Creating".

(** [url.Parse] of the standard library: the scheme and the host. *)
Class URLs := { url_Parse : string → error + string * string }.

Definition ValidateCustomRegistry `{URLs} (registry : string) : outcome () :=
  let registry := TrimSpace registry in
  if decide (registry = "") then Ok ()
  else
    let customRegistryURL := TrimRight registry "/"%char in
    let customRegistryURL :=
      if HasPrefix customRegistryURL "http://" || HasPrefix customRegistryURL "https://"
      then customRegistryURL else "http://" +:+ customRegistryURL in
    match url_Parse customRegistryURL with
    | inl err => Fail err
    | inr _ => Ok ()       (* an empty scheme or host is only logged: the error is nil *)
    end.

(** ** Which events reach the reconciler *)

Definition update_event_passes (objectOld objectNew : CSM) : bool :=
  negb (bool_decide (om_Generation (cr_Meta objectOld) = om_Generation (cr_Meta objectNew))).

Definition delete_event_passes (deleteStateUnknown : bool) : bool := negb deleteStateUnknown.

(** ** Annotations *)

Definition set_annotations (m : gmap string string) (cr : CSM) : CSM :=
  set_cr_Meta (set_om_Annotations (Some m) (cr_Meta cr)) cr.

(** The annotation map is changed in place: the version of the operator stays in it even when
    the result is [false]. *)
Definition applyConfigVersionAnnotations `{Host} `{MapOrder} (instance : CSM) (op : OperatorConfig)
    : CSM * bool :=
  let in_place m := match om_Annotations (cr_Meta instance) with
                    | None => instance
                    | Some _ => set_annotations m instance
                    end in
  let annotations := default ∅ (om_Annotations (cr_Meta instance)) in
  let annotations := <[CSMVersionKey := CSMVersion]> annotations in
  match GetVersion instance op with
  | Ok configVersion =>
      if decide (lookup_zero annotations configVersionKey = configVersion)
      then (in_place annotations, false)
      else (set_annotations (<[configVersionKey := configVersion]> annotations) instance, true)
  | _ => (in_place annotations, false)
  end.

(** ** Upgrades *)

Definition checkUpgrade `{Host} `{MapOrder} (cr : CSM) (operatorConfig : OperatorConfig)
    : outcome bool :=
  match default ∅ (om_Annotations (cr_Meta cr)) !! configVersionKey with
  | None => Ok true
  | Some oldVersion =>
      if HasModule cr AuthorizationServer then
        newVersion ←
          (if decide (sp_Version (cr_Spec cr) = "")
           then Ok (m_ConfigVersion (GetModule cr AuthorizationServer))
           else GetVersion cr operatorConfig);
        if (HasPrefix oldVersion "v1." && HasPrefix newVersion "v2.")
           || (HasPrefix oldVersion "v2." && HasPrefix newVersion "v1.")
        then Ok false
        else IsValidUpgrade oldVersion newVersion (AModule Authorization) operatorConfig
      else
        let driverType := GetDriverType cr in
        let driverType := if decide (driverType = PowerScale) then PowerScaleName else driverType in
        newVersion ← GetVersion cr operatorConfig;
        IsValidUpgrade oldVersion newVersion (ADriver driverType) operatorConfig
  end.

Section reconcile.
Context {W : Type} `{Client W} `{Host} `{MapOrder} `{JSON} `{URLs} `{!Retry W} `{!Informers W}
  `{!DriverPackage W} `{!ModulePackage W} `{!Discovery W}.

(** [atomic.AddInt32], which wraps *)
Definition IncrUpdateCount : M (World W) () := λ w,
  (Ok (), mkWorld (w_api w) (w_calls w) (w_watches w) (wrap_int32 (w_updateCount w + 1))
            (w_deployAsSidecar w) (w_auth w)).

(** ** PreChecks *)

Definition ZoneValidation (cr : CSM) : M (World W) () :=
  orFail (ValidateZones cr) (errorf "zone validation failed with error").

(** A check returns the custom resource as it leaves it, and its error. *)
Definition passed (cr : CSM) : M (World W) (CSM * option error) := mret (cr, None).
Definition failed (cr : CSM) (err : error) : M (World W) (CSM * option error) :=
  mret (cr, Some err).

(** [if err := m; err != nil { return wrap(err) }], for a call that changes no custom resource
    and for a check *)
Definition check {A} (cr : CSM) (m : M (World W) A) (wrap : error → error)
    (k : A → M (World W) (CSM * option error)) : M (World W) (CSM * option error) :=
  r ← attempt m;
  match r with
  | inl err => failed cr (wrap err)
  | inr a => k a
  end.
Definition checked (m : M (World W) (CSM * option error)) (wrap : error → error)
    (k : CSM → M (World W) (CSM * option error)) : M (World W) (CSM * option error) :=
  '(cr, err) ← m;
  match err with
  | Some err => failed cr (wrap err)
  | None => k cr
  end.

Definition precheck_driver (cr : CSM) (op : OperatorConfig) : M (World W) (CSM * option error) :=
  let t := GetDriverType cr in
  if decide (t = PowerScale) then
    checked (PrecheckPowerScale cr op) (errorf "failed powerscale validation") passed
  else if decide (t = PowerFlex) then
    checked (PrecheckPowerFlex cr op) (errorf "failed powerflex validation") (λ cr,
    check cr (ZoneValidation cr) (errorf "error during zone validation") (λ _, passed cr))
  else if decide (t = PowerStore) then
    checked (PrecheckPowerStore cr op) (errorf "failed powerstore validation") passed
  else if decide (t = Unity) then
    checked (PrecheckUnity cr op) (errorf "failed unity validation") passed
  else if decide (t = PowerMax) then
    checked (PrecheckPowerMax cr op) (errorf "failed powermax validation") passed
  else if decide (t = Cosi) then
    checked (PrecheckCosi cr op) (errorf "failed cosi validation") passed
  else if HasModule cr AuthorizationServer then passed cr
  else failed cr (Errorf ("unsupported driver type " +:+ t)).

Definition precheck_module (cr : CSM) (op : OperatorConfig) (m : Module)
    : M (World W) (CSM * option error) :=
  if m_Enabled m then
    if decide (m_Name m = Authorization) then
      checked (AuthorizationPrecheck op m cr) (errorf "failed authorization validation") passed
    else if decide (m_Name m = AuthorizationServer) then
      checked (AuthorizationServerPrecheck op m cr)
        (errorf "failed authorization proxy server validation") passed
    else if decide (m_Name m = Replication) then
      checked (ReplicationPrecheck op m cr) (errorf "failed replication validation") passed
    else if decide (m_Name m = Resiliency) then
      checked (ResiliencyPrecheck op m cr) (errorf "failed resiliency validation") passed
    else if decide (m_Name m = Observability) then
      checked (ObservabilityPrecheck op m cr) (errorf "failed observability validation") passed
    else if decide (m_Name m = ReverseProxy) then
      checked (ReverseProxyPrecheck op m cr) (errorf "failed reverseproxy validation") passed
    else failed cr (Errorf ("unsupported module type " +:+ m_Name m))
  else passed cr.

(** the loop over [cr.Spec.Modules], [n] modules from index [i] on: each iteration reads the
    slice, which earlier checks may have written to *)
Fixpoint precheck_modules (op : OperatorConfig) (n i : nat) (cr : CSM)
    : M (World W) (CSM * option error) :=
  match n with
  | O => passed cr
  | S n' =>
      match sp_Modules (cr_Spec cr) !! i with
      | Some m => checked (precheck_module cr op m) id (precheck_modules op n' (S i))
      | None => lift (Panic "index out of range")
      end
  end.

(** The owner is looked for by name. *)
Definition check_owner (cr : CSM) : M (World W) () :=
  r ← attempt (getT Deployment (cr_Namespace cr) (cr_Name cr +:+ "-controller"));
  match r with
  | inl _ => mret ()
  | inr driver =>
      match om_OwnerReferences (dp_Meta driver) with
      | None => mret ()
      | Some cred =>
          if existsb (λ m, bool_decide (or_Name m = cr_Name cr)) cred then mret ()
          else failM (Errorf "required Owner reference not found. Please re-install driver ")
      end
  end.

Definition PreChecks (cr : CSM) (op : OperatorConfig) : M (World W) (CSM * option error) :=
  checked (precheck_driver cr op) id (λ cr,
  check cr (lift (checkUpgrade cr op)) (errorf "failed upgrade check") (λ upgradeValid : bool,
  if negb upgradeValid then passed cr
  else
    check cr (lift (ValidateCustomRegistry (sp_CustomRegistry (cr_Spec cr))))
      (errorf "failed custom registry validation") (λ _,
    check cr (check_owner cr) id (λ _,
    precheck_modules op (length (sp_Modules (cr_Spec cr))) 0 cr)))).

(** ** Finalizers *)

Definition removeFinalizer (instance : CSM) : M (World W) CSM :=
  if HasFinalizer instance CSMFinalizerName
  then updateCSM (set_cr_Meta (set_om_Finalizers [] (cr_Meta instance)) instance)
  else mret instance.

Definition addFinalizer (instance : CSM) : M (World W) CSM :=
  let instance := set_cr_Meta (set_om_Finalizers [CSMFinalizerName] (cr_Meta instance)) instance in
  updateCSM (set_cr_Status (set_st_State Creating (cr_Status instance)) instance).

(** ** Reconcile *)

(** an error that is recorded as an event before it is returned *)
Definition orEvent {A} (m : M (World W) A) (reason msg : string) (wrap : error → error)
    : M (World W) A :=
  r ← attempt m;
  match r with
  | inl err => _ ← recordEvent EventTypeWarning reason (msg +:+ ": " +:+ error_text err);
               failM (wrap err)
  | inr a => mret a
  end.

Definition reconcile_delete (config : OperatorConfig) (csm : CSM) (op : OperatorConfig)
    : M (World W) Result :=
  force ← lift (deref (d_ForceRemoveDriver (sp_Driver (cr_Spec csm))));
  _ ← (if (force : bool)
       then orEvent (removeDriver csm op) EventDeleted "Failed to remove driver"
              (errorf "error when deleting driver")
       else ignoreErr (removeDeploymentOwnerRef csm));
  _ ← forM (λ m, when (m_ForceRemoveModule m)
                   (orEvent (removeModule config csm op) EventDeleted "Failed to remove module"
                      (errorf "error when deleting module")))
        (sp_Modules (cr_Spec csm));
  csm ← orEvent (removeFinalizer csm) EventDeleted "Failed to delete finalizer"
          (errorf "error when handling finalizer");
  _ ← on_watches (stop_channel (cr_Name csm));
  _ ← recordEvent EventTypeNormal EventDeleted "Object finalizer is deleted";
  mret (mkResult false).

Definition reconcile_update (config : OperatorConfig) (csm : CSM) (op : OperatorConfig)
    : M (World W) Result :=
  csm ← (if HasFinalizer csm CSMFinalizerName then mret csm
         else
           csm ← orEvent (addFinalizer csm) EventUpdated "Failed to add finalizer"
                   (errorf "error when adding finalizer");
           _ ← recordEvent EventTypeNormal EventUpdated "Object finalizer is added";
           mret csm);
  let '(csm, isUpdated) := applyConfigVersionAnnotations csm op in
  csm ← (if (isUpdated : bool) then updateCSM csm else mret csm);
  '(h, requeue) ← HandleSuccess (mkInstance csm ∅) GetCSMStatus GetCSMStatus op;
  let csm := in_cr h in
  syncErr ← attempt (SyncCSM config csm op);
  match syncErr, Requeue requeue with
  | inr synced, false =>
      let csm := set_cr_Status (cr_Status csm) synced in
      '(h, err) ← UpdateStatus (mkInstance csm ∅) GetCSMStatus op None;
      match err, DetermineUnitTestRun with
      | Some err, false => failM err
      | _, _ =>
          let csm := in_cr h in
          stop ← ContentWatch;
          _ ← on_watches (install_channel (cr_Name csm) stop);
          _ ← recordEvent EventTypeNormal EventCompleted
                ("install/update storage component: " +:+ cr_Name csm +:+ " completed OK");
          mret (mkResult false)
      end
  | _, _ =>
      let err := match syncErr with inl e => e | inr _ => Errorf "CSM state is failed" end in
      _ ← recordEvent EventTypeWarning EventUpdated ("Failed install: " +:+ error_text err);
      failM err
  end.

(** the configuration version of the first authorization server *)
Fixpoint set_auth_version (v : string) (ms : list Module) : list Module :=
  match ms with
  | [] => []
  | m :: ms' =>
      if decide (m_Name m = AuthorizationServer) then set_m_ConfigVersion v m :: ms'
      else m :: set_auth_version v ms'
  end.

Definition default_force_remove (csm : CSM) : CSM :=
  match d_ForceRemoveDriver (sp_Driver (cr_Spec csm)) with
  | Some _ => csm
  | None => set_cr_Driver (set_d_ForceRemoveDriver (Some true) (sp_Driver (cr_Spec csm))) csm
  end.

(** the defaults that are filled in before the checks *)
Definition with_defaults (csm : CSM) (op : OperatorConfig) : outcome CSM :=
  csm ← LoadDefaultComponents (default_force_remove csm) op;
  if HasModule csm AuthorizationServer then
    authVersion ← GetVersion csm op;
    Ok (set_cr_Modules (set_auth_version authVersion (sp_Modules (cr_Spec csm))) csm)
  else Ok csm.

Definition Reconcile (config : OperatorConfig) (ns name : string) : M (World W) Result :=
  _ ← IncrUpdateCount;
  r ← attempt (getT CSM ns name);
  match r with
  | inl _ => mret (mkResult false)
  | inr csm =>
      let op := config in
      csm ← lift (with_defaults csm op);
      '(csm, p) ← PreChecks csm op;
      match p with
      | Some err =>
          let csm := set_cr_Status (set_st_State InvalidConfig (cr_Status csm)) csm in
          _ ← recordEvent EventTypeWarning EventUpdated ("Failed Prechecks: " +:+ error_text err);
          HandleValidationError csm err
      | None =>
          if IsBeingDeleted csm then reconcile_delete config csm op
          else reconcile_update config csm op
      end
  end.
End reconcile.

(** ** Annotations and upgrades: properties *)

Section pure_claims.
Context `{Host} `{MapOrder}.

Lemma GetVersion_of_spec cr cr' op : cr_Spec cr' = cr_Spec cr → GetVersion cr' op = GetVersion cr op.
Proof. intros E. unfold GetVersion. by rewrite E. Qed.

Lemma annotations_settled m instance op :
  m !! CSMVersionKey = Some CSMVersion →
  (∀ v, GetVersion instance op = Ok v → lookup_zero m configVersionKey = v) →
  applyConfigVersionAnnotations (set_annotations m instance) op = (set_annotations m instance, false).
Proof.
  intros Hm Hv. unfold applyConfigVersionAnnotations.
  rewrite (GetVersion_of_spec instance) by done. simpl. rewrite (insert_id m) by done.
  destruct (GetVersion instance op) as [v|e|y]; [|done..]. by rewrite decide_True by auto.
Qed.

(** [applyConfigVersionAnnotations] asks for an update exactly when the version of the
    custom resource is known and differs from the one its annotations record; it changes
    nothing but annotations; after it asked, the annotations record that version and the
    version of the operator; and applying it again changes nothing and asks for nothing. *)
Theorem applyConfigVersionAnnotations_spec instance op cr' b :
  applyConfigVersionAnnotations instance op = (cr', b) →
  cr_Spec cr' = cr_Spec instance ∧ cr_Status cr' = cr_Status instance
  ∧ (b = true ↔ ∃ v, GetVersion instance op = Ok v
       ∧ map_get (om_Annotations (cr_Meta instance)) configVersionKey ≠ v)
  ∧ (b = true → GetVersion instance op
                  = Ok (map_get (om_Annotations (cr_Meta cr')) configVersionKey)
                ∧ map_get (om_Annotations (cr_Meta cr')) CSMVersionKey = CSMVersion)
  ∧ applyConfigVersionAnnotations cr' op = (cr', false).
Proof.
  intros E. pose proof E as E0. unfold applyConfigVersionAnnotations in E.
  unfold map_get. set (m := default ∅ (om_Annotations (cr_Meta instance))) in *.
  set (m1 := <[CSMVersionKey := CSMVersion]> m) in *.
  assert (lookup_zero m1 configVersionKey = lookup_zero m configVersionKey) as Hm
    by (unfold lookup_zero, m1; by rewrite lookup_insert_ne).
  assert (m1 !! CSMVersionKey = Some CSMVersion) as Hm1 by apply lookup_insert_eq.
  assert (b = false → (∀ v, GetVersion instance op = Ok v → lookup_zero m configVersionKey = v) →
    cr' = match om_Annotations (cr_Meta instance) with
          | None => instance | Some _ => set_annotations m1 instance end →
    cr_Spec cr' = cr_Spec instance ∧ cr_Status cr' = cr_Status instance
    ∧ applyConfigVersionAnnotations cr' op = (cr', false)) as Hfalse.
  { intros -> Hv Ecr. destruct (om_Annotations (cr_Meta instance)); rewrite Ecr.
    - split_and!; [done..|]. apply annotations_settled; [done|]. intros v. rewrite Hm. apply Hv.
    - split_and!; [done..|]. by rewrite Ecr in E0. }
  destruct (GetVersion instance op) as [v|e|y] eqn:Ev.
  2,3: injection E as <- <-; destruct Hfalse as (? & ? & ?); [done..|];
    split_and!; try done; split; [done|]; by intros (? & ? & _).
  rewrite Hm in E. case_decide as Hd; injection E as <- <-.
  - destruct Hfalse as (? & ? & ?); [done| |done|]; [by intros v' [= <-]|].
    split_and!; try done. split; [done|]. by intros (v' & [= <-] & ?).
  - split_and!; [done|done| | |].
    + split; [|done]. intros _. by exists v.
    + intros _. unfold lookup_zero. simpl. rewrite lookup_insert_eq.
      rewrite lookup_insert_ne by done. by rewrite Hm1.
    + apply annotations_settled; [by rewrite lookup_insert_ne|].
      intros v'. rewrite Ev. intros [= <-]. unfold lookup_zero. by rewrite lookup_insert_eq.
Qed.
End pure_claims.

(** ** The reconciler: properties *)

Definition supported_drivers : list string :=
  [PowerScale; PowerFlex; PowerStore; Unity; PowerMax; Cosi].
Definition supported_modules : list string :=
  [Authorization; AuthorizationServer; Replication; Resiliency; Observability; ReverseProxy].

Section reconcile_claims.
Context {W : Type} `{Client W} `{Host} `{MapOrder} `{JSON} `{URLs} `{!Retry W} `{!Informers W}
  `{!DriverPackage W} `{!ModulePackage W} `{!Discovery W}.
#[local] Set Default Proof Using "Type".

Lemma IsValidUpgrade_true old new t op b : IsValidUpgrade old new t op = Ok b → b = true.
Proof.
  unfold IsValidUpgrade. case_decide; [by intros [= <-]|].
  intros E. apply outcome_bind_Ok in E as (v & _ & E). destruct v; congruence.
Qed.

Lemma checkUpgrade_keeps flag cr cr' op :
  keeps flag cr cr' → checkUpgrade cr' op = checkUpgrade cr op.
Proof.
  intros K. unfold checkUpgrade, GetDriverType, GetModule.
  rewrite (keeps_HasModule _ _ _ _ K), (keeps_GetVersion _ _ _ _ K).
  pose proof (keeps_find_module flag AuthorizationServer _ _ (keeps_modules _ _ _ K)) as E.
  destruct K as [-> -> -> _ _]. case_match; [|done]. case_match; [|done].
  destruct (find_module _ (sp_Modules (cr_Spec cr'))), (find_module _ (sp_Modules (cr_Spec cr)));
    simpl in *; [by injection E as ->|done..].
Qed.

(** A check that passes. *)
Lemma checked_passed (m : M (World W) (CSM * option error)) wrap k w cr' w' :
  checked m wrap k w = (Ok (cr', None), w') →
  ∃ cr1 w1, m w = (Ok (cr1, None), w1) ∧ k cr1 w1 = (Ok (cr', None), w').
Proof.
  unfold checked. intros E. apply M_bind_Ok in E as ([cr1 [e|]] & w1 & E1 & E); [done|]. eauto.
Qed.

Lemma check_passed {A} cr (m : M (World W) A) wrap k w cr' w' :
  check cr m wrap k w = (Ok (cr', None), w') →
  ∃ a w1, m w = (Ok a, w1) ∧ k a w1 = (Ok (cr', None), w').
Proof.
  unfold check, attempt, mbind, M_bind. destruct (m w) as [[a|e|y] w1] eqn:E; [|done..]. eauto.
Qed.

Lemma passed_inv cr (w : World W) cr' e w' :
  passed cr w = (Ok (cr', e), w') → cr' = cr ∧ e = None ∧ w' = w.
Proof. by intros [= -> -> ->]. Qed.

Section laws.
Context `{!DriverLaws (W := W)} `{!ModuleLaws (W := W)}.
#[local] Set Default Proof Using "All".

Lemma precheck_driver_passed cr op w cr' w' :
  precheck_driver cr op w = (Ok (cr', None), w') →
  keeps stays cr cr'
  ∧ (GetDriverType cr ∈ supported_drivers ∨ HasModule cr AuthorizationServer = true).
Proof.
  pose proof driver_checks as L. rewrite !Forall_cons in L. unfold check_keeps in L.
  destruct L as (L1 & L2 & L3 & L4 & L5 & L6 & _).
  unfold precheck_driver, supported_drivers. rewrite !elem_of_cons. intros E.
  repeat (case_decide;
    [split; [|by auto 10]; apply checked_passed in E as (cr1 & w1 & E1 & E);
     first [apply passed_inv in E as (-> & _ & _)
           |apply check_passed in E as (? & ? & _ & E); apply passed_inv in E as (-> & _ & _)];
     by eauto|]).
  destruct (HasModule cr AuthorizationServer); [|by unfold failed in E].
  apply passed_inv in E as (-> & _ & _). split; [done|by right].
Qed.

Lemma precheck_module_passed cr op m w cr' w' :
  precheck_module cr op m w = (Ok (cr', None), w') →
  keeps eq cr cr' ∧ (m_Enabled m = true → m_Name m ∈ supported_modules).
Proof.
  pose proof module_checks as L. rewrite !Forall_cons in L. unfold check_keeps in L.
  destruct L as (L1 & L2 & L3 & L4 & L5 & L6 & _).
  unfold precheck_module, supported_modules. rewrite !elem_of_cons. intros E.
  destruct (m_Enabled m); [|apply passed_inv in E as (-> & _ & _); by split].
  repeat (case_decide;
    [split; [|by auto 10]; apply checked_passed in E as (cr1 & w1 & E1 & E);
     apply passed_inv in E as (-> & _ & _); by eauto|]).
  by unfold failed in E.
Qed.

Lemma precheck_modules_passed op n i cr w cr' w' :
  precheck_modules op n i cr w = (Ok (cr', None), w') →
  keeps eq cr cr'
  ∧ ∀ j m, i ≤ j < i + n → sp_Modules (cr_Spec cr') !! j = Some m → m_Enabled m = true →
      m_Name m ∈ supported_modules.
Proof.
  revert i cr w. induction n as [|n IH]; intros i cr w E; simpl in E.
  - apply passed_inv in E as (-> & _ & _). split; [done|]. lia.
  - destruct (sp_Modules (cr_Spec cr) !! i) as [m|] eqn:Hm; [|done].
    apply checked_passed in E as (cr1 & w1 & E1 & E).
    apply precheck_module_passed in E1 as [K1 S1]. apply IH in E as [K S].
    split; [by etrans|]. intros j m' Hj Hm' He.
    destruct (decide (j = i)) as [->|]; [|apply (S j m'); [lia|done..]].
    assert (keeps eq cr cr') as K' by (by etrans).
    destruct (Forall2_lookup_lr _ _ _ _ _ _ (keeps_modules _ _ _ K') Hm Hm') as (Hn & _ & Hf).
    rewrite Hn. apply S1. by rewrite Hf.
Qed.

(** The recorded and the requested version of an authorization server are v1 and v2, or v2 and
    v1. *)
Definition switches_major (cr : CSM) (op : OperatorConfig) : Prop :=
  HasModule cr AuthorizationServer = true
  ∧ ∃ old new, default ∅ (om_Annotations (cr_Meta cr)) !! configVersionKey = Some old
      ∧ (if decide (sp_Version (cr_Spec cr) = "")
         then new = m_ConfigVersion (GetModule cr AuthorizationServer)
         else GetVersion cr op = Ok new)
      ∧ ((HasPrefix old "v1." = true ∧ HasPrefix new "v2." = true)
         ∨ (HasPrefix old "v2." = true ∧ HasPrefix new "v1." = true)).

Lemma checkUpgrade_false cr op : checkUpgrade cr op = Ok false → switches_major cr op.
Proof.
  unfold checkUpgrade, switches_major. intros E.
  destruct (default ∅ _ !! configVersionKey) as [old|]; [|done].
  destruct (HasModule cr AuthorizationServer).
  - split; [done|]. exists old. apply outcome_bind_Ok in E as (new & En & E). exists new.
    split; [done|]. split; [case_decide; [by injection En|done]|].
    destruct (_ || _) eqn:Eb; [|by apply IsValidUpgrade_true in E].
    apply orb_true_iff in Eb. rewrite !andb_true_iff in Eb. exact Eb.
  - apply outcome_bind_Ok in E as (v & _ & E). by apply IsValidUpgrade_true in E.
Qed.

(** C10: when [PreChecks] passes, it left the request as it was, up to the components of modules
    and modules it enabled; the driver is one of the six supported ones, or the resource holds
    an authorization server; when it holds none, a recorded version leads to the requested one
    by a valid upgrade or downgrade; and when the upgrade check said yes, the registry was
    accepted and every enabled module is one of the six supported ones. That check says no, and
    lets the request pass without the last two, only for a switch between the major versions of
    authorization. *)
Theorem PreChecks_spec cr op w cr' w' :
  PreChecks cr op w = (Ok (cr', None), w') →
  keeps stays cr cr'
  ∧ (GetDriverType cr ∈ supported_drivers ∨ HasModule cr AuthorizationServer = true)
  ∧ (HasModule cr AuthorizationServer = false →
     ∀ old, default ∅ (om_Annotations (cr_Meta cr)) !! configVersionKey = Some old →
     ∃ v, GetVersion cr op = Ok v
       ∧ IsValidUpgrade old v
           (ADriver (if decide (GetDriverType cr = PowerScale) then PowerScaleName
                     else GetDriverType cr)) op = Ok true)
  ∧ ∃ b, checkUpgrade cr op = Ok b
     ∧ (b = false → switches_major cr op)
     ∧ (b = true → ValidateCustomRegistry (sp_CustomRegistry (cr_Spec cr)) = Ok ()
          ∧ ∀ m, m ∈ sp_Modules (cr_Spec cr') → m_Enabled m = true →
              m_Name m ∈ supported_modules).
Proof.
  unfold PreChecks. intros E. apply checked_passed in E as (cr1 & w1 & Ed & E).
  apply precheck_driver_passed in Ed as [K1 Hd].
  apply check_passed in E as (b & w2 & Eu & E). injection Eu as Eu <-.
  rewrite (checkUpgrade_keeps _ _ _ _ K1) in Eu.
  assert (keeps stays cr cr'
    ∧ (b = true → ValidateCustomRegistry (sp_CustomRegistry (cr_Spec cr)) = Ok ()
         ∧ ∀ m, m ∈ sp_Modules (cr_Spec cr') → m_Enabled m = true →
             m_Name m ∈ supported_modules)) as [K Hb].
  { destruct b; simpl in E; [|by apply passed_inv in E as (-> & _ & _)].
    apply check_passed in E as ([] & w2 & Er & E). injection Er as Er <-.
    apply check_passed in E as ([] & w2 & _ & E).
    apply precheck_modules_passed in E as [K S]. split.
    - etrans; [exact K1|]. eapply keeps_weaken; [|exact K]. by intros ? ? ->.
    - intros _. split; [by rewrite <- (keeps_registry _ _ _ K1)|].
      intros m Hm He. apply list_elem_of_lookup in Hm as [j Hj]. eapply S; [|done..].
      rewrite (Forall2_length _ _ _ (keeps_modules _ _ _ K)).
      apply lookup_lt_Some in Hj. lia. }
  split_and!; [done|done| |].
  2:{ exists b. split_and!; [done| |exact Hb]. intros ->. by apply checkUpgrade_false. }
  intros Hno old Ho. unfold checkUpgrade in Eu. rewrite Ho, Hno in Eu.
  apply outcome_bind_Ok in Eu as (v & Ev & Eu). exists v. split; [done|].
  by rewrite <- (IsValidUpgrade_true _ _ _ _ _ Eu).
Qed.
End laws.

(** Switching an authorization server between v1 and v2 is logged as impossible, but
    [PreChecks] passes: it checks neither registry, owner nor modules and reports no error,
    so the reconciliation goes on. *)
Theorem PreChecks_accepts_major_switch cr op w old :
  GetDriverType cr ∉ supported_drivers → HasModule cr AuthorizationServer = true →
  default ∅ (om_Annotations (cr_Meta cr)) !! configVersionKey = Some old →
  sp_Version (cr_Spec cr) = "" → HasPrefix old "v1." = true →
  HasPrefix (m_ConfigVersion (GetModule cr AuthorizationServer)) "v2." = true →
  PreChecks cr op w = (Ok (cr, None), w).
Proof.
  intros Hd Hm Ho Hv Hp1 Hp2. unfold supported_drivers in Hd.
  assert (precheck_driver (W := W) cr op = passed cr) as Ed.
  { rewrite !not_elem_of_cons in Hd. destruct Hd as (? & ? & ? & ? & ? & ? & _).
    unfold precheck_driver. rewrite !decide_False by done. by rewrite Hm. }
  assert (checkUpgrade cr op = Ok false) as Eu.
  { unfold checkUpgrade. rewrite Ho, Hm, decide_True by done. simpl. by rewrite Hp1, Hp2. }
  unfold PreChecks, checked, check. rewrite Ed. erewrite M_bind_step by done. simpl.
  erewrite M_bind_step; [|by rewrite Eu]. done.
Qed.

Lemma forM_Ok {A} (f : A → M (World W) ()) xs w w' :
  forM f xs w = (Ok (), w') → ∀ x, x ∈ xs → ∃ w1 w2, f x w1 = (Ok (), w2).
Proof.
  revert w. induction xs as [|x xs IH]; intros w E y Hy; [by apply not_elem_of_nil in Hy|].
  apply M_bind_Ok in E as ([] & w1 & E1 & E). apply elem_of_cons in Hy as [->|Hy]; eauto.
Qed.

(** [addFinalizer] sends one update, in which the operator's finalizer is the only one;
    [removeFinalizer] does nothing without the operator's finalizer and otherwise sends one
    update, in which there is no finalizer left. Finalizers of others are dropped by both. *)
Theorem finalizers_spec cr :
  (∀ w r w', addFinalizer cr w = (r, w') →
     ∃ cr' ok, w_calls w' = w_calls w ++ [CUpdate (OCSM cr') ok]
       ∧ om_Finalizers (cr_Meta cr') = [CSMFinalizerName] ∧ cr_Spec cr' = cr_Spec cr)
  ∧ (∀ w r w', removeFinalizer cr w = (r, w') →
     if HasFinalizer cr CSMFinalizerName
     then ∃ cr' ok, w_calls w' = w_calls w ++ [CUpdate (OCSM cr') ok]
            ∧ om_Finalizers (cr_Meta cr') = [] ∧ cr_Spec cr' = cr_Spec cr
     else r = Ok cr ∧ w' = w).
Proof.
  assert (∀ cr1 w r w', updateCSM cr1 w = (r, w') →
    ∃ ok, w_calls w' = w_calls w ++ [CUpdate (OCSM cr1) ok]) as Hu.
  { intros cr1 w r w'. unfold updateCSM, call, mbind, M_bind.
    destruct (api_Update (OCSM cr1) (w_api w)) as [[e|o] api]; [by intros [= <- <-]; eexists|].
    destruct o; intros [= <- <-]; by eexists. }
  split; intros w r w' E.
  - apply Hu in E as [ok E]. by eexists _, ok.
  - unfold removeFinalizer in E. destruct (HasFinalizer cr CSMFinalizerName).
    + apply Hu in E as [ok E]. by eexists _, ok.
    + by injection E as <- <-.
Qed.

(** A read error of any kind ends a reconciliation without an error, without another
    try and without any write: only the failed read is in the trace. *)
Theorem Reconcile_drops_read_errors config ns name w e api :
  api_Get ("ContainerStorageModule", (ns, name)) (w_api w) = (inl e, api) →
  ∃ w', Reconcile config ns name w = (Ok (mkResult false), w')
    ∧ w_calls w' = w_calls w ++ [CGet ("ContainerStorageModule", (ns, name)) false]
    ∧ w_watches w' = w_watches w.
Proof.
  intros E. eexists. split.
  - unfold Reconcile, attempt, getT, getObject, call, mbind, M_bind. simpl. rewrite E. reflexivity.
  - done.
Qed.
End reconcile_claims.

(** Registering event handlers touches neither the server nor what the reconciler keeps. *)
Class InformerLaws (W : Type) `{!Informers W} : Prop := {
  handler_keeps n k (w : World W) r w' : AddEventHandler n k w = (r, w') → w' = w
}.

Section lifecycle.
Context {W : Type} `{Client W} `{!View W} `{!ClientLaws (W := W)} `{Host} `{MapOrder} `{JSON}
  `{URLs} `{!Retry W} `{!RetryLaws W} `{!Informers W} `{!InformerLaws W}
  `{!DriverPackage W} `{!ModulePackage W} `{!Discovery W}.
#[local] Set Default Proof Using "All".

Lemma orEvent_Ok {A} (m : M (World W) A) reason msg wrap w a w' :
  orEvent m reason msg wrap w = (Ok a, w') → m w = (Ok a, w').
Proof.
  unfold orEvent, attempt, mbind, M_bind. destruct (m w) as [[b|e|y] w1]; [|done..].
  by intros [= <- <-].
Qed.

Lemma orEvent_Fail {A} (m : M (World W) A) reason msg wrap w e w1 :
  m w = (Fail e, w1) →
  orEvent m reason msg wrap w
  = (Fail (wrap e), mkWorld (w_api w1) (w_calls w1
       ++ [CEvent EventTypeWarning reason (msg +:+ ": " +:+ error_text e)])
       (w_watches w1) (w_updateCount w1) (w_deployAsSidecar w1) (w_auth w1)).
Proof. intros E. unfold orEvent, attempt, mbind, M_bind. by rewrite E. Qed.

Lemma on_watches_Ok f w w' : on_watches f w = (Ok (), w') →
  ∃ wa, f (w_watches w) = Ok wa ∧ w' = set_watches wa w (W := W).
Proof.
  unfold on_watches. destruct (f (w_watches w)) as [wa|e|y]; [|done..]. intros [= <-]. by exists wa.
Qed.

Lemma stop_channel_gone name wa wa' :
  stop_channel name wa = Ok wa' → wa_channels wa' !! name = None.
Proof.
  unfold stop_channel. destruct (wa_channels wa !! name) as [n|] eqn:E; [|by intros [= <-]].
  unfold close_channel. case_decide; [|done]. intros [= <-]. apply lookup_delete_eq.
Qed.

(** C5: the deletion of a custom resource. When the removal of its driver is asked for and
    fails, the reconciliation fails with that error right away: no module is removed, the
    finalizer stays, and the server is as the failed removal left it. When it succeeds, the
    driver was removed first, then the standalone modules that ask for it, and only after
    that the finalizer; nothing more was done to the server, and no content watch of the
    resource is left. *)
Theorem reconcile_delete_spec config csm op w :
  (∀ e w1, d_ForceRemoveDriver (sp_Driver (cr_Spec csm)) = Some true →
     removeDriver csm op w = (Fail e, w1) →
     ∃ w', reconcile_delete config csm op w = (Fail (errorf "error when deleting driver" e), w')
       ∧ w_api w' = w_api w1 ∧ w_watches w' = w_watches w1)
  ∧ (∀ r w', reconcile_delete config csm op w = (Ok r, w') →
     Requeue r = false ∧ ∃ force w1 w2 csm' w3,
       d_ForceRemoveDriver (sp_Driver (cr_Spec csm)) = Some force
       ∧ (force = true → removeDriver csm op w = (Ok (), w1))
       ∧ (∀ m, m ∈ sp_Modules (cr_Spec csm) → m_ForceRemoveModule m = true →
            ∃ v1 v2, removeModule config csm op v1 = (Ok (), v2))
       ∧ removeFinalizer csm w2 = (Ok csm', w3)
       ∧ w_api w' = w_api w3
       ∧ wa_channels (w_watches w') !! cr_Name csm = None).
Proof.
  split.
  - intros e w1 Hf Hr. eexists. unfold reconcile_delete. rewrite Hf. erewrite M_bind_step by done.
    split; [|split].
    + erewrite M_bind_Fail; [done|]. by eapply orEvent_Fail.
    + done.
    + done.
  - intros r w' E. unfold reconcile_delete in E.
    apply M_bind_Ok in E as (force & w0 & Ef & E). injection Ef as Ef <-.
    apply M_bind_Ok in E as ([] & w1 & Ed & E). apply M_bind_Ok in E as ([] & w2 & Em & E).
    apply M_bind_Ok in E as (csm' & w3 & Er & E). apply orEvent_Ok in Er.
    apply M_bind_Ok in E as ([] & w4 & Es & E). apply on_watches_Ok in Es as (wa & Es & ->).
    injection E as <- <-. split; [done|]. exists force, w1, w2, csm', w3.
    assert (cr_Name csm' = cr_Name csm) as Hname.
    { unfold removeFinalizer in Er. destruct (HasFinalizer _ _); [|by injection Er as <-].
      apply updateCSM_spec in Er as [_ Er]. destruct (Er csm' eq_refl) as [K _]. by injection K. }
    split_and!; try done.
    + destruct (d_ForceRemoveDriver _); [by injection Ef as ->|done].
    + intros ->. by apply orEvent_Ok in Ed.
    + intros m Hm Hforce. destruct (forM_Ok _ _ _ _ Em m Hm) as (v1 & v2 & Ev).
      simpl in Ev. rewrite Hforce in Ev. apply orEvent_Ok in Ev. by exists v1, v2.
    + rewrite <- Hname. simpl. by eapply stop_channel_gone.
Qed.

Lemma ContentWatch_Ok w n w' : ContentWatch w = (Ok n, w') →
  w_calls w' = w_calls w ∧ n = wa_next (w_watches w)
  ∧ w_watches w' = snd (open_channel (w_watches w)).
Proof.
  unfold ContentWatch. intros E.
  apply M_bind_Ok in E as ([] & w1 & E1 & E). apply M_bind_Ok in E as ([] & w2 & E2 & E).
  apply M_bind_Ok in E as ([] & w3 & E3 & E). apply orFail_Ok in E1, E2, E3.
  apply handler_keeps in E1 as ->. apply handler_keeps in E2 as ->.
  apply handler_keeps in E3 as ->. by injection E as <- <-.
Qed.

Lemma install_channel_there name n wa wa' :
  install_channel name n wa = Ok wa' → wa_channels wa' !! name = Some n.
Proof.
  unfold install_channel. intros E. apply outcome_bind_Ok in E as (wa1 & _ & [= <-]).
  apply lookup_insert_eq.
Qed.

(** C4: outside unit tests a reconciliation of a live custom resource reports success only
    after the resource was synced and its status written in state Succeeded: the last call
    but the completion event was a successful status update with that state, and a fresh
    content watch is installed under the resource's name. It never asks to be requeued
    without an error. *)
Theorem reconcile_update_spec config csm op w r w' :
  DetermineUnitTestRun = false →
  reconcile_update config csm op w = (Ok r, w') →
  Requeue r = false
  ∧ ∃ csm0 v1 v2 v3 synced h, SyncCSM config csm0 op v1 = (Ok synced, v2)
    ∧ UpdateStatus (mkInstance (set_cr_Status (cr_Status csm0) synced) ∅) GetCSMStatus op None v2
        = (Ok (h, None), v3)
    ∧ ∃ written calls msg,
        w_calls w' = calls ++ [CStatusUpdate (OCSM written) true;
                               CEvent EventTypeNormal EventCompleted msg]
        ∧ st_State (cr_Status written) = Succeeded
        ∧ wa_channels (w_watches w') !! cr_Name (in_cr h) = Some (wa_next (w_watches v3)).
Proof.
  intros Hut E. unfold reconcile_update in E.
  apply M_bind_Ok in E as (csm1 & w1 & _ & E).
  destruct (applyConfigVersionAnnotations csm1 op) as [csm2 isUpdated].
  apply M_bind_Ok in E as (csm3 & w2 & _ & E).
  apply M_bind_Ok in E as ([h requeue] & w3 & _ & E).
  apply M_bind_Ok in E as (syncErr & v2 & Es & E). unfold attempt in Es.
  destruct (SyncCSM config (in_cr h) op w3) as [[synced|e|y] v2'] eqn:Sy; [| |done];
    injection Es as <- <-; [|by destruct (Requeue requeue)].
  destruct (Requeue requeue); [done|].
  apply M_bind_Ok in E as ([h' err] & v3 & Eu & E).
  destruct err as [e|]; [by rewrite Hut in E|].
  pose proof (UpdateStatus_run _ _ _ _ _ _ _ _ Eu) as (_ & _ & Hst).
  destruct (Hst eq_refl) as (Hstate & written & calls & Hcalls & Hw & _).
  apply M_bind_Ok in E as (stop & w4 & Ec & E). apply ContentWatch_Ok in Ec as (Hc & -> & Hwa).
  apply M_bind_Ok in E as ([] & w5 & Ei & E). apply on_watches_Ok in Ei as (wa & Ei & ->).
  apply install_channel_there in Ei. injection E as <- <-. split; [done|].
  exists (in_cr h), w3, v2', v3, synced, h'. split_and!; [done|done|].
  eexists written, calls, _. split_and!.
  - simpl. rewrite Hc, Hcalls, <- app_assoc. reflexivity.
  - by rewrite Hw.
  - done.
Qed.
End lifecycle.

(** ** Packages on which the hypotheses hold

    Drivers whose manifests are those of [demo_driver_config], modules that do nothing. *)

Definition demo_drivers : DriverPackage Store := {|
  GetCSIDriver cr op t := Ok (demo_resource "CSIDriver" "csm");
  GetConfigMap cr op t := Ok demo_config_map;
  GetNode cr op t f matched := mret (demo_node, cr, matched);
  GetController cr op t matched :=
    Ok (mkControllerYAML (demo_workload "csm-controller") (demo_rbac "csm-controller"), matched);
  PrecheckPowerScale cr op := mret (cr, None);
  PrecheckPowerFlex cr op := mret (cr, None);
  PrecheckPowerStore cr op := mret (cr, None);
  PrecheckUnity cr op := mret (cr, None);
  PrecheckPowerMax cr op := mret (cr, None);
  PrecheckCosi cr op := mret (cr, None);
  ValidateZones cr := mret ();
  DynamicallyMountPowermaxContent d cr := Ok d;
  RemoveVolume d v := Ok d;
  RemoveInitVolume d v := Ok d
|}.

Definition demo_modules : ModulePackage Store := {|
  ReverseProxyServer b op cr := mret ();
  ReverseProxyStartService b op cr := mret ();
  ReverseProxyInjectDeployment d cr op matched := mret d;
  AddReverseProxyServiceName d := Ok d;
  UpdatePowerMaxConfigMap c cr := Ok c;
  ReverseProxyPrecheck op m cr := mret (cr, None);
  AuthInjectDeployment d cr op := mret (d, cr);
  AuthInjectDaemonset d cr op := mret (d, cr);
  AuthorizationPrecheck op m cr := mret (cr, None);
  AuthorizationServerPrecheck op m cr := mret (cr, None);
  AuthCrdDeploy op cr := mret ();
  AuthorizationServerDeployment b op cr matched := mret ();
  InstallPolicies b op cr := mret ();
  NginxIngressControllerCleanup op cr := mret ();
  NginxIngressController b op cr := mret ();
  GatewayController b op cr := mret ();
  AuthorizationIngress b o cr := mret ();
  InstallWithCerts b op cr := mret ();
  ResiliencyInjectDeployment d cr op n matched := mret d;
  ResiliencyInjectDaemonset d cr op n matched := mret d;
  ResiliencyInjectClusterRole r cr op n := mret r;
  ResiliencyInjectRole r cr op n := mret r;
  ResiliencyPrecheck op m cr := mret (cr, None);
  ReplicationInjectDeployment d cr op matched := mret d;
  ReplicationInjectClusterRole r cr op := mret r;
  ReplicationManagerController b op cr := mret ();
  CreateReplicationConfigmap cr op := mret ();
  DeleteReplicationConfigmap := mret ();
  ReplicationCrdDeploy op cr := mret ();
  DeleteReplicationCrds op cr := mret ();
  ReplicationPrecheck op m cr := mret (cr, None);
  OtelCollector b op cr matched := mret ();
  ObservabilityTopology b op cr matched := mret ();
  PowerScaleMetrics b op cr := mret ();
  PowerFlexMetrics b op cr := mret ();
  PowerMaxMetrics b op cr := mret ();
  PowerStoreMetrics b op cr := mret ();
  IssuerCertServiceObs b op cr := mret ();
  ObservabilityPrecheck op m cr := mret (cr, None);
  CommonCertManager b op cr matched := mret ();
  PatchCSMDRCRDs b op := mret ()
|}.

Definition demo_urls : URLs := {| url_Parse s := inr ("http", s) |}.
Definition demo_informers : Informers Store := {| AddEventHandler n k := mret () |}.
Definition demo_discovery : Discovery Store := {| ServerGroups := mret ["apps"] |}.

Lemma demo_informer_laws : InformerLaws Store (Informers0 := demo_informers).
Proof. split. by intros n k w r w' [= <- <-]. Qed.

Ltac solve_checks :=
  unfold check_keeps; intros; match goal with E : _ = (Ok _, _) |- _ => by injection E as <- _ _ end.

Lemma demo_driver_laws : DriverLaws (DriverPackage0 := demo_drivers).
Proof. split. repeat (apply Forall_cons; split; [solve_checks|]). by apply Forall_nil. Qed.

Lemma demo_module_laws : ModuleLaws (ModulePackage0 := demo_modules).
Proof. split. repeat (apply Forall_cons; split; [solve_checks|]). by apply Forall_nil. Qed.

Section witnesses.
#[local] Existing Instances demo_host demo_json demo_drivers demo_modules demo_urls
  demo_informers demo_discovery demo_informer_laws demo_driver_laws demo_module_laws.

Definition annotated (v : string) (cr : CSM) : CSM :=
  set_annotations {[ configVersionKey := v ]} cr.

Lemma applyConfigVersionAnnotations_spec_witness :
  let cr := annotated "v2.16.0" (demo_cr PowerFlex []) in
  let '(cr', b) := applyConfigVersionAnnotations cr demo_config in
  b = true ∧ applyConfigVersionAnnotations cr' demo_config = (cr', false).
Proof.
  intros cr. destruct (applyConfigVersionAnnotations cr demo_config) as [cr' b] eqn:E.
  split.
  - apply (proj2 (proj1 (proj2 (proj2 (applyConfigVersionAnnotations_spec _ _ _ _ E))))).
    exists "v2.17.0". split; [reflexivity|by vm_compute].
  - exact (proj2 (proj2 (proj2 (proj2 (applyConfigVersionAnnotations_spec _ _ _ _ E))))).
Defined.

Lemma PreChecks_spec_witness :
  let cr := demo_cr PowerFlex [mkModule Resiliency true "" [] false []] in
  ∃ w', PreChecks cr demo_config (demo_world cr) = (Ok (cr, None), w')
    ∧ GetDriverType cr ∈ supported_drivers.
Proof.
  intros cr.
  assert (fst (PreChecks cr demo_config (demo_world cr)) = Ok (cr, None)) as E
    by (vm_compute; reflexivity).
  apply run_fst in E. eexists. split; [exact E|].
  destruct (proj1 (proj2 (PreChecks_spec _ _ _ _ _ E))) as [Hs|Hs];
    [exact Hs|by vm_compute in Hs].
Defined.

Lemma PreChecks_accepts_major_switch_witness :
  let cr := annotated "v1.12.0" (demo_cr "" [demo_auth_module]) in
  PreChecks cr demo_config (demo_world cr) = (Ok (cr, None), demo_world cr).
Proof.
  intros cr. apply (PreChecks_accepts_major_switch cr demo_config (demo_world cr) "v1.12.0");
    try (vm_compute; reflexivity).
  decide_goal.
Defined.

Lemma Reconcile_drops_read_errors_witness :
  ∃ w', Reconcile demo_config "dell" "csm" (world_of [] obeys) = (Ok (mkResult false), w').
Proof.
  destruct (Reconcile_drops_read_errors demo_config "dell" "csm" (world_of [] obeys)
    (NotFound ("ContainerStorageModule", ("dell", "csm"))) (w_api (world_of [] obeys)))
    as (w' & E & _); [vm_compute; reflexivity|].
  exists w'. exact E.
Defined.

(** The driver's service account cannot be deleted. *)
Definition refusing (verb : string) (k : Key) : option error :=
  if decide (verb = "Delete" ∧ k.1 = "ServiceAccount") then Some (StatusError "Forbidden" "no")
  else None.

Definition demo_refusing_world : World Store :=
  world_of [OOther (demo_resource "ServiceAccount" "csm-node")] refusing.

Lemma reconcile_delete_spec_witness :
  (∃ w', reconcile_delete demo_config (demo_cr PowerFlex []) demo_config demo_refusing_world
    = (Fail (Errorf "error when deleting driver: no"), w'))
  ∧ Requeue (mkResult false) = false
  ∧ ∃ w', reconcile_delete demo_config (demo_cr PowerFlex []) demo_config
            (demo_world (demo_cr PowerFlex [])) = (Ok (mkResult false), w').
Proof.
  assert (fst (removeDriver (demo_cr PowerFlex []) demo_config demo_refusing_world)
    = Fail (StatusError "Forbidden" "no")) as Er by (vm_compute; reflexivity).
  apply run_fst in Er.
  assert (fst (reconcile_delete demo_config (demo_cr PowerFlex []) demo_config
    (demo_world (demo_cr PowerFlex []))) = Ok (mkResult false)) as Ed by (vm_compute; reflexivity).
  apply run_fst in Ed. split; [|split].
  - destruct (proj1 (reconcile_delete_spec demo_config (demo_cr PowerFlex []) demo_config
      demo_refusing_world) _ _ eq_refl Er) as (w' & E & _). exists w'. exact E.
  - exact (proj1 (proj2 (reconcile_delete_spec demo_config (demo_cr PowerFlex []) demo_config
      (demo_world (demo_cr PowerFlex []))) _ _ Ed)).
  - eexists. exact Ed.
Defined.

Lemma finalizers_spec_witness :
  let cr := demo_cr PowerFlex [] in
  (∃ cr' ok, w_calls (snd (addFinalizer cr (demo_world cr)))
     = [CUpdate (OCSM cr') ok] ∧ om_Finalizers (cr_Meta cr') = [CSMFinalizerName])
  ∧ snd (removeFinalizer cr (demo_world cr)) = demo_world cr.
Proof.
  intros cr. split.
  - destruct (proj1 (finalizers_spec cr) _ _ _ (surjective_pairing (addFinalizer cr (demo_world cr))))
      as (cr' & ok & E & Hf & _). exists cr', ok. split; [exact E|exact Hf].
  - exact (proj2 (proj2 (finalizers_spec cr) _ _ _
      (surjective_pairing (removeFinalizer cr (demo_world cr))))).
Defined.

Lemma reconcile_update_spec_witness :
  let cr := demo_cr PowerFlex [] in
  ∃ w', reconcile_update demo_config cr demo_config (demo_world cr) = (Ok (mkResult false), w')
    ∧ ∃ written calls msg,
        w_calls w' = calls ++ [CStatusUpdate (OCSM written) true;
                               CEvent EventTypeNormal EventCompleted msg]
        ∧ st_State (cr_Status written) = Succeeded.
Proof.
  intros cr.
  assert (fst (reconcile_update demo_config cr demo_config (demo_world cr))
    = Ok (mkResult false)) as E by (vm_compute; reflexivity).
  apply run_fst in E. eexists. split; [exact E|].
  assert (DetermineUnitTestRun = false) as Hut by (vm_compute; reflexivity).
  destruct (reconcile_update_spec demo_config cr demo_config (demo_world cr) _ _
    Hut E)
    as (_ & csm0 & v1 & v2 & v3 & synced & h & _ & _ & written & calls & msg & Hc & Hs & _).
  exists written, calls, msg. split; [exact Hc|exact Hs].
Defined.
End witnesses.
