(* ===== verification/Settling.v ===== *)
(** The reconciler's own updates settle: the defaults, the finalizer and the annotations that
    [Reconcile] adds to a resource (controllers/csm_controller.go) are a fixed point after one
    pass. *)

From S2P Require Import Prelude.
From S2P Require Import GoStrings.
From S2P Require Import Types.
From S2P Require Import Versions.
From S2P Require Import Modules.
From S2P Require Import Images.
From S2P Require Import Cluster.
From S2P Require Import Resources.
From S2P Require Import Status.
From S2P Require Import Packages.
From S2P Require Import Watch.
From S2P Require Import Sync.
From S2P Require Import Controller.
From stdpp Require Import options.

Local Open Scope stdpp_scope.

(** What the loading of default components looks at in a resource. *)
Record same_loading (cr cr' : CSM) : Prop := mkSameLoading {
  sl_driver : sp_Driver (cr_Spec cr') = sp_Driver (cr_Spec cr);
  sl_modules : Forall2 (λ m m', m_Name m' = m_Name m ∧ m_Enabled m' = m_Enabled m
                          ∧ m_Components m' = m_Components m)
                 (sp_Modules (cr_Spec cr)) (sp_Modules (cr_Spec cr'))
}.

Lemma same_loading_HasModule cr cr' t :
  same_loading cr cr' → HasModule cr' t = HasModule cr t.
Proof.
  intros [_ F]. unfold HasModule.
  induction F as [|m m' ms ms' (Hn & _) _ IH]; simpl; [done|]. rewrite Hn. by case_decide.
Qed.

Lemma same_loading_enabled cr cr' t :
  same_loading cr cr' → fst (IsModuleEnabled cr' t) = fst (IsModuleEnabled cr t).
Proof.
  intros [_ F]. unfold IsModuleEnabled.
  assert (is_Some (first_enabled t (sp_Modules (cr_Spec cr')))
    ↔ is_Some (first_enabled t (sp_Modules (cr_Spec cr)))) as Hi.
  { induction F as [|m m' ms ms' (Hn & He & _) _ IH]; simpl; [done|]. rewrite Hn, He.
    case_match; [|done]. done. }
  destruct (first_enabled t (sp_Modules (cr_Spec cr'))), (first_enabled t (sp_Modules (cr_Spec cr)));
    try done; exfalso; [destruct (proj1 Hi)|destruct (proj2 Hi)]; by eauto.
Qed.

Lemma same_loading_component cr cr' t n :
  same_loading cr cr' → HasModuleComponent cr' t n = HasModuleComponent cr t n.
Proof.
  intros [_ F]. unfold HasModuleComponent, GetModule.
  induction F as [|m m' ms ms' (Hn & _ & Hc) _ IH]; simpl; [done|]. rewrite Hn.
  case_decide; simpl; [by rewrite Hc|done].
Qed.

Section settle.
Context `{Host} `{MapOrder}.
#[local] Set Default Proof Using "Type".

Lemma LoadDefaultComponents_same cr cr' op :
  LoadDefaultComponents cr op = Ok cr → same_loading cr cr' →
  LoadDefaultComponents cr' op = Ok cr'.
Proof.
  intros E S. pose proof (LoadDefaultComponents_run _ _ _ E) as (_ & _ & L).
  unfold LoadDefaultComponents in E |- *. cbn [foldO] in E |- *. unfold load_module in *.
  assert (GetDriverType cr' = GetDriverType cr) as Hd
    by (unfold GetDriverType; by rewrite (sl_driver _ _ S)).
  rewrite (same_loading_HasModule _ _ _ S), (same_loading_enabled _ _ _ S), Hd.
  destruct (HasModule cr Observability); [|done].
  destruct (getDefaultComponents (GetDriverType cr) Observability op) as [comps| |]; [|done..].
  destruct (fst (IsModuleEnabled cr Observability)); [|done].
  destruct (L eq_refl) as (comps' & [= <-] & Hc). simpl. rewrite load_all_id; [done|].
  intros c Hin. rewrite (same_loading_component _ _ _ _ S). by apply Hc.
Qed.

Lemma set_auth_version_same v ms :
  Forall2 (λ m m', m_Name m' = m_Name m ∧ m_Enabled m' = m_Enabled m
             ∧ m_Components m' = m_Components m) ms (set_auth_version v ms).
Proof using.
  induction ms as [|m ms IH]; simpl; [constructor|]. case_decide; constructor; try done.
  by apply Forall_Forall2_diag, Forall_true.
Qed.

Lemma set_auth_version_twice v ms :
  set_auth_version v (set_auth_version v ms) = set_auth_version v ms.
Proof using.
  induction ms as [|m ms IH]; simpl; [done|].
  destruct (decide (m_Name m = AuthorizationServer)) as [E|E]; simpl.
  - by rewrite decide_True.
  - by rewrite decide_False, IH.
Qed.

Lemma find_auth_version v ms :
  find_module AuthorizationServer (set_auth_version v ms)
  = set_m_ConfigVersion v <$> find_module AuthorizationServer ms.
Proof using.
  induction ms as [|m ms IH]; simpl; [done|].
  destruct (decide (m_Name m = AuthorizationServer)) as [E|E]; simpl.
  - by rewrite decide_True.
  - by rewrite decide_False.
Qed.

(** The version that was filled in is the version of the resource that it is filled into. *)
Lemma GetVersion_filled cr op v :
  GetVersion cr op = Ok v →
  GetVersion (set_cr_Modules (set_auth_version v (sp_Modules (cr_Spec cr))) cr) op = Ok v.
Proof.
  unfold GetVersion. cbn [cr_Spec set_cr_Modules sp_Version sp_Driver sp_Modules].
  rewrite find_auth_version. intros E.
  destruct (find_module AuthorizationServer (sp_Modules (cr_Spec cr))); cbn [fmap option_fmap option_map];
    [|exact E].
  case_decide; [exact E|]. case_decide; [done|exact E].
Qed.

Lemma set_annotations_id m cr : om_Annotations (cr_Meta cr) = Some m → set_annotations m cr = cr.
Proof using. destruct cr as [k [] sp st]. simpl. by intros ->. Qed.

Lemma version_annotations_same cr cr' op :
  cr_Spec cr' = cr_Spec cr → om_Annotations (cr_Meta cr') = om_Annotations (cr_Meta cr) →
  applyConfigVersionAnnotations cr op = (cr, false) →
  applyConfigVersionAnnotations cr' op = (cr', false).
Proof.
  intros Es Ea. unfold applyConfigVersionAnnotations. rewrite (GetVersion_of_spec _ _ _ Es), Ea.
  assert (∀ m, om_Annotations (cr_Meta cr) = Some m → ∀ m', set_annotations m' cr = cr →
    set_annotations m' cr' = cr') as Hs.
  { intros m Hm m' E. apply set_annotations_id. rewrite Ea. by rewrite <- E. }
  destruct (om_Annotations (cr_Meta cr)) as [m|] eqn:Hm; destruct (GetVersion cr op);
    try case_decide; simpl; try done; intros [= E]; f_equal; by eapply Hs.
Qed.

(** C35: the update loop stops. Let [cr4] be a resource with the spec, the annotations and the
    finalizers that a reconciliation writes back, after it filled in the defaults, added its
    finalizer and recorded the versions. Then the next reconciliation of [cr4] fills nothing in,
    has no finalizer to add and asks for no update of the annotations: what the operator writes
    does not make it write again. *)
Theorem completion_settles cr op cr1 cr2 cr3 b cr4 :
  with_defaults cr op = Ok cr1 →
  cr_Spec cr2 = cr_Spec cr1 → HasFinalizer cr2 CSMFinalizerName = true →
  applyConfigVersionAnnotations cr2 op = (cr3, b) →
  cr_Spec cr4 = cr_Spec cr3 → om_Annotations (cr_Meta cr4) = om_Annotations (cr_Meta cr3) →
  om_Finalizers (cr_Meta cr4) = om_Finalizers (cr_Meta cr3) →
  with_defaults cr4 op = Ok cr4 ∧ HasFinalizer cr4 CSMFinalizerName = true
  ∧ applyConfigVersionAnnotations cr4 op = (cr4, false).
Proof.
  intros E1 S2 F2 E3 S4 A4 F4.
  pose proof (applyConfigVersionAnnotations_spec _ _ _ _ E3) as (S3 & _ & _ & _ & Settled).
  assert (cr_Spec cr4 = cr_Spec cr1) as S by congruence. split_and!.
  - unfold with_defaults in E1 |- *. apply outcome_bind_Ok in E1 as (cr0 & E0 & E1).
    pose proof (LoadDefaultComponents_run _ _ _ E0) as (X & I & _).
    assert (d_ForceRemoveDriver (sp_Driver (cr_Spec cr0)) ≠ None) as Hforce.
    { rewrite (ext_driver _ _ X). unfold default_force_remove.
      by destruct (d_ForceRemoveDriver (sp_Driver (cr_Spec cr))) eqn:?; simpl; [congruence|]. }
    assert (same_loading cr0 cr4 ∧ (HasModule cr0 AuthorizationServer = true → ∃ v,
      GetVersion cr4 op = Ok v
      ∧ set_auth_version v (sp_Modules (cr_Spec cr4)) = sp_Modules (cr_Spec cr4))) as [SL V].
    { destruct (HasModule cr0 AuthorizationServer).
      - apply outcome_bind_Ok in E1 as (v & Ev & [= <-]). split.
        + split; rewrite S; [done|]. apply set_auth_version_same.
        + intros _. exists v. rewrite (GetVersion_of_spec _ _ _ S), S. cbn [cr_Spec set_cr_Modules sp_Modules].
          split; [by apply GetVersion_filled|apply set_auth_version_twice].
      - injection E1 as <-. split; [|done]. split; rewrite S; [done|].
        by apply Forall_Forall2_diag, Forall_true. }
    assert (default_force_remove cr4 = cr4) as ->.
    { unfold default_force_remove. rewrite (sl_driver _ _ SL). by destruct (d_ForceRemoveDriver _). }
    rewrite (LoadDefaultComponents_same _ _ _ I SL). simpl.
    rewrite (same_loading_HasModule _ _ _ SL). destruct (HasModule cr0 AuthorizationServer); [|done].
    destruct (V eq_refl) as (v & -> & Ev). simpl. rewrite Ev. by destruct cr4 as [? ? []].
  - unfold HasFinalizer in *. rewrite F4. revert F2 E3. unfold applyConfigVersionAnnotations.
    intros F2 E3. repeat case_match; injection E3 as <- _; exact F2.
  - by apply (version_annotations_same cr3).
Qed.
End settle.

Section witnesses.
#[local] Existing Instance demo_components_host.

(** Observability is asked for without its components, and without a version. *)
Lemma completion_settles_witness :
  ∃ cr, with_defaults cr demo_config = Ok cr ∧ HasFinalizer cr CSMFinalizerName = true
    ∧ applyConfigVersionAnnotations cr demo_config = (cr, false).
Proof.
  assert (∃ cr1, with_defaults demo_observability demo_config = Ok cr1) as [cr1 E1]
    by (eexists; vm_compute; reflexivity).
  set (cr2 := set_cr_Meta (set_om_Finalizers [CSMFinalizerName] (cr_Meta cr1)) cr1).
  destruct (applyConfigVersionAnnotations cr2 demo_config) as [cr3 b] eqn:E3. exists cr3.
  exact (completion_settles demo_observability demo_config cr1 cr2 cr3 b cr3 E1 eq_refl eq_refl E3
    eq_refl eq_refl eq_refl).
Defined.
End witnesses.
