(* ===== verification/Frames.v ===== *)
(** What the packages that the reconciler calls leave alone: an interface beside those of
    Packages.v. No operation of pkg/drivers or pkg/modules writes a custom resource
    ([apart]); the manifests of a driver have the kinds of their fields. With it every part of
    [SyncCSM] and of the removal of a resource is shown to touch no custom resource but the
    one that is synced. The laws are discharged in PackageFrames.v and used for the whole
    reconciler in Isolation.v. *)

From S2P Require Import Prelude.
From S2P Require Import GoStrings.
From S2P Require Import Types.
From S2P Require Import Versions.
From S2P Require Import Modules.
From S2P Require Import Images.
From S2P Require Import Cluster.
From S2P Require Import Resources.
From S2P Require Import Status.
From S2P Require Import Packages.
From S2P Require Import Watch.
From S2P Require Import Sync.
From stdpp Require Import options.

Local Open Scope stdpp_scope.

Definition cr_kind : string := "ContainerStorageModule".

(** the key of an object that is no custom resource *)
Definition apart (k : Key) : Prop := k.1 ≠ cr_kind.

(** the key of a custom resource *)
Definition cr_key (cr : CSM) : Key := obj_key (OCSM cr).

(** ** What a call does to the cluster and what it returns *)

Section within.
Context {W : Type} `{View W}.

(** Whatever the outcome, the objects before and after [m] are related by [R]; a result
    satisfies [Q]. *)
Definition within (R : relation (gmap Key Object)) {A} (Q : A → Prop) (m : M (World W) A) : Prop :=
  ∀ w r w', m w = (r, w') → R (seen w) (seen w') ∧ ∀ a, r = Ok a → Q a.

Lemma within_weaken (R R' : relation (gmap Key Object)) {A} (Q Q' : A → Prop) m :
  within R Q m → (∀ x y, R x y → R' x y) → (∀ a, Q a → Q' a) → within R' Q' m.
Proof. intros Hm HR HQ w r w' E. destruct (Hm _ _ _ E). split; auto. Qed.

Section rules.
Context (R : relation (gmap Key Object)) `{!PreOrder R}.
#[local] Set Default Proof Using "All".

Lemma within_ret {A} (Q : A → Prop) a : Q a → within R Q (mret a).
Proof. intros HQ w r w' [= <- <-]. split; [done|]. by intros ? [= <-]. Qed.

Lemma within_fail {A} (Q : A → Prop) e : within R Q (failM e).
Proof. by intros w r w' [= <- <-]. Qed.

Lemma within_lift {A} (Q : A → Prop) (o : outcome A) :
  (∀ a, o = Ok a → Q a) → within R Q (lift o).
Proof. by intros HQ w r w' [= <- <-]. Qed.

Lemma within_bind {A B} (Q : A → Prop) (Q' : B → Prop) m f :
  within R Q m → (∀ a, Q a → within R Q' (f a)) → within R Q' (m ≫= f).
Proof.
  intros Hm Hf w r w' E. unfold mbind, M_bind in E.
  destruct (m w) as [[a|e|y] w1] eqn:E1; destruct (Hm _ _ _ E1) as [R1 Q1];
    [|by injection E as <- <-..].
  destruct (Hf a (Q1 a eq_refl) _ _ _ E) as [R2 Q2]. split; [by etrans|done].
Qed.

Lemma within_then {A B} (Q : B → Prop) (m : M (World W) A) f :
  within R (λ _, True) m → (∀ a, within R Q (f a)) → within R Q (m ≫= f).
Proof. intros Hm Hf. by apply (within_bind (λ _, True)). Qed.

Lemma within_attempt {A} (Q : A → Prop) m :
  within R Q m → within R (λ s, ∀ a, s = inr a → Q a) (attempt m).
Proof.
  intros Hm w r w' E. unfold attempt in E.
  destruct (m w) as [[a|e|y] w1] eqn:E1; destruct (Hm _ _ _ E1) as [R1 Q1];
    injection E as <- <-; (split; [done|]); intros s [= <-] b; [|done].
  intros [= <-]. by apply Q1.
Qed.

Lemma within_orFail {A} (Q : A → Prop) m wrap : within R Q m → within R Q (orFail m wrap).
Proof.
  intros Hm w r w' E. unfold orFail in E.
  destruct (m w) as [[a|e|y] w1] eqn:E1; destruct (Hm _ _ _ E1) as [R1 Q1];
    by injection E as <- <-.
Qed.

Lemma within_ignoreErr {A} (Q : A → Prop) m :
  within R Q m → within R (λ _, True) (ignoreErr m).
Proof.
  intros Hm w r w' E. unfold ignoreErr in E.
  destruct (m w) as [[a|e|y] w1] eqn:E1; destruct (Hm _ _ _ E1) as [R1 Q1];
    by injection E as <- <-.
Qed.

Lemma within_forM {A} (f : A → M (World W) ()) xs :
  (∀ x, x ∈ xs → within R (λ _, True) (f x)) → within R (λ _, True) (forM f xs).
Proof.
  induction xs as [|x xs IH]; intros Hf; [by apply within_ret|].
  apply within_then; [apply Hf; by left|]. intros _. apply IH. intros y Hy. apply Hf. by right.
Qed.

Lemma within_when (b : bool) (m : M (World W) ()) :
  within R (λ _, True) m → within R (λ _, True) (when b m).
Proof. destruct b; [done|]. intros _. by apply within_ret. Qed.
End rules.

(** no custom resource changes *)
Definition aside (m m' : gmap Key Object) : Prop := ∀ k, ¬ apart k → m' !! k = m !! k.

#[export] Instance aside_preorder : PreOrder aside.
Proof. split; unfold aside; [done|]. intros m1 m2 m3 E1 E2 k Hk. by rewrite E2, E1. Qed.

Lemma within_aside {A} (m : M (World W) A) : within aside (λ _, True) m ↔ touches apart m.
Proof.
  split.
  - intros Hm w r w' E k Hk. by apply (Hm _ _ _ E).
  - intros Hm w r w' E. split; [|done]. intros k Hk. by apply (Hm _ _ _ E).
Qed.
End within.

(** an operation on other objects than custom resources whose result satisfies [Q] *)
Abbreviation yields Q m := (within aside Q m) (only parsing).

Section frames.
Context (W : Type) `{Client W} `{!View W}.

(** ** pkg/drivers *)

Class DriverFrames `{!DriverPackage W} : Prop := {
  PrecheckPowerScale_apart cr op : touches apart (PrecheckPowerScale cr op);
  PrecheckPowerFlex_apart cr op : touches apart (PrecheckPowerFlex cr op);
  PrecheckPowerStore_apart cr op : touches apart (PrecheckPowerStore cr op);
  PrecheckUnity_apart cr op : touches apart (PrecheckUnity cr op);
  PrecheckPowerMax_apart cr op : touches apart (PrecheckPowerMax cr op);
  PrecheckCosi_apart cr op : touches apart (PrecheckCosi cr op);
  ValidateZones_apart cr : touches apart (ValidateZones cr);
  GetNode_kinds cr op t file matched :
    yields (λ '(node, cr', _), well_kinded (ny_Rbac node) ∧ cr_key cr' = cr_key cr)
      (GetNode cr op t file matched);
  GetController_kinds cr op t matched c matched' :
    GetController cr op t matched = Ok (c, matched') → well_kinded (cy_Rbac c);
  GetCSIDriver_kind cr op t r : GetCSIDriver cr op t = Ok r → rs_Kind r = "CSIDriver"
}.

(** ** pkg/modules *)

Class ModuleFrames `{!ModulePackage W} : Prop := {
  (* checks *)
  AuthorizationPrecheck_apart op m cr : touches apart (AuthorizationPrecheck op m cr);
  AuthorizationServerPrecheck_apart op m cr : touches apart (AuthorizationServerPrecheck op m cr);
  ReplicationPrecheck_apart op m cr : touches apart (ReplicationPrecheck op m cr);
  ResiliencyPrecheck_apart op m cr : touches apart (ResiliencyPrecheck op m cr);
  ObservabilityPrecheck_apart op m cr : touches apart (ObservabilityPrecheck op m cr);
  ReverseProxyPrecheck_apart op m cr : touches apart (ReverseProxyPrecheck op m cr);
  (* what is applied and deleted for a request *)
  ReverseProxyServer_apart b op cr : touches apart (ReverseProxyServer b op cr);
  ReverseProxyStartService_apart b op cr : touches apart (ReverseProxyStartService b op cr);
  InstallPolicies_apart b op cr : touches apart (InstallPolicies b op cr);
  NginxIngressController_apart b op cr : touches apart (NginxIngressController b op cr);
  GatewayController_apart b op cr : touches apart (GatewayController b op cr);
  InstallWithCerts_apart b op cr : touches apart (InstallWithCerts b op cr);
  ReplicationManagerController_apart b op cr :
    touches apart (ReplicationManagerController b op cr);
  PowerScaleMetrics_apart b op cr : touches apart (PowerScaleMetrics b op cr);
  PowerFlexMetrics_apart b op cr : touches apart (PowerFlexMetrics b op cr);
  PowerMaxMetrics_apart b op cr : touches apart (PowerMaxMetrics b op cr);
  PowerStoreMetrics_apart b op cr : touches apart (PowerStoreMetrics b op cr);
  IssuerCertServiceObs_apart b op cr : touches apart (IssuerCertServiceObs b op cr);
  AuthorizationServerDeployment_apart b op cr matched :
    touches apart (AuthorizationServerDeployment b op cr matched);
  OtelCollector_apart b op cr matched : touches apart (OtelCollector b op cr matched);
  ObservabilityTopology_apart b op cr matched :
    touches apart (ObservabilityTopology b op cr matched);
  CommonCertManager_apart b op cr matched : touches apart (CommonCertManager b op cr matched);
  AuthCrdDeploy_apart op cr : touches apart (AuthCrdDeploy op cr);
  NginxIngressControllerCleanup_apart op cr : touches apart (NginxIngressControllerCleanup op cr);
  ReplicationCrdDeploy_apart op cr : touches apart (ReplicationCrdDeploy op cr);
  DeleteReplicationCrds_apart op cr : touches apart (DeleteReplicationCrds op cr);
  AuthorizationIngress_apart b o cr : touches apart (AuthorizationIngress b o cr);
  CreateReplicationConfigmap_apart cr op : touches apart (CreateReplicationConfigmap cr op);
  DeleteReplicationConfigmap_apart : touches apart (DeleteReplicationConfigmap);
  PatchCSMDRCRDs_apart b op : touches apart (PatchCSMDRCRDs b op);
  (* what is injected into workloads and roles *)
  ReverseProxyInjectDeployment_apart d cr op matched :
    touches apart (ReverseProxyInjectDeployment d cr op matched);
  ReplicationInjectDeployment_apart d cr op matched :
    touches apart (ReplicationInjectDeployment d cr op matched);
  AuthInjectDeployment_apart d cr op : touches apart (AuthInjectDeployment d cr op);
  AuthInjectDaemonset_apart d cr op : touches apart (AuthInjectDaemonset d cr op);
  ResiliencyInjectDeployment_apart d cr op n matched :
    touches apart (ResiliencyInjectDeployment d cr op n matched);
  ResiliencyInjectDaemonset_apart d cr op n matched :
    touches apart (ResiliencyInjectDaemonset d cr op n matched);
  ResiliencyInjectClusterRole_kind r cr op n :
    yields (λ r', rs_Kind r' = rs_Kind r) (ResiliencyInjectClusterRole r cr op n);
  ResiliencyInjectRole_kind r cr op n :
    yields (λ r', rs_Kind r' = rs_Kind r) (ResiliencyInjectRole r cr op n);
  ReplicationInjectClusterRole_kind r cr op :
    yields (λ r', rs_Kind r' = rs_Kind r) (ReplicationInjectClusterRole r cr op)
}.

Class DiscoveryFrames `{!Discovery W} : Prop := {
  ServerGroups_apart : touches apart ServerGroups
}.
End frames.

Create HintDb frames.
#[export] Hint Resolve PrecheckPowerScale_apart PrecheckPowerFlex_apart PrecheckPowerStore_apart
  PrecheckUnity_apart PrecheckPowerMax_apart PrecheckCosi_apart ValidateZones_apart
  AuthorizationPrecheck_apart AuthorizationServerPrecheck_apart ReplicationPrecheck_apart
  ResiliencyPrecheck_apart ObservabilityPrecheck_apart ReverseProxyPrecheck_apart
  ReverseProxyServer_apart ReverseProxyStartService_apart InstallPolicies_apart
  NginxIngressController_apart GatewayController_apart InstallWithCerts_apart
  ReplicationManagerController_apart PowerScaleMetrics_apart PowerFlexMetrics_apart
  PowerMaxMetrics_apart PowerStoreMetrics_apart IssuerCertServiceObs_apart
  AuthorizationServerDeployment_apart OtelCollector_apart ObservabilityTopology_apart
  CommonCertManager_apart AuthCrdDeploy_apart NginxIngressControllerCleanup_apart
  ReplicationCrdDeploy_apart DeleteReplicationCrds_apart AuthorizationIngress_apart
  CreateReplicationConfigmap_apart DeleteReplicationConfigmap_apart PatchCSMDRCRDs_apart
  ReverseProxyInjectDeployment_apart ReplicationInjectDeployment_apart AuthInjectDeployment_apart
  AuthInjectDaemonset_apart ResiliencyInjectDeployment_apart ResiliencyInjectDaemonset_apart
  ServerGroups_apart : frames.

(** ** Operations on other objects *)

Section basics.
Context {W : Type} `{Client W} `{!View W} `{!ClientLaws (W := W)}.
#[local] Set Default Proof Using "All".

Lemma ensures_apart k (m : M (World W) ()) : ensures k m → apart k → touches apart m.
Proof. intros [Hm _] Hk. eapply touches_mono; [exact Hm|]. by intros k' <-. Qed.

Lemma touches_when (P : Key → Prop) b (m : M (World W) ()) : touches P m → touches P (when b m).
Proof. destruct b; [done|]. intros _. apply touches_ret. Qed.

Lemma touches_IsReverseProxySidecar P : touches P (IsReverseProxySidecar (W := W)).
Proof. by intros w r w' [= <- <-]. Qed.

Lemma DeleteObject_apart o : obj_kind o ≠ cr_kind → touches apart (DeleteObject (W := W) o).
Proof. intros Ho. eapply touches_mono; [apply DeleteObject_touches|]. by intros k <-. Qed.

Lemma ApplyObject_apart o : obj_kind o ≠ cr_kind → touches apart (ApplyObject (W := W) o).
Proof. intros Ho. by eapply ensures_apart; [apply ApplyObject_ensures|]. Qed.
Lemma remove_workload_touches (P : Key → Prop) (T : Type) `{Kinded T} wrap d :
  (∀ q, P (kind_of T, q)) → touches P (remove_workload (W := W) T wrap d).
Proof.
  intros HT. unfold remove_workload. apply touches_lift_bind. intros ns _.
  apply touches_lift_bind. intros name _. apply touches_bind_run; [solve_touches|].
  intros [e|found] w w' E; [apply touches_ret|]. unfold attempt in E.
  destruct (getT T ns name w) as [[t|e|y] w1] eqn:G; [|done..].
  injection E as -> _. apply getT_key in G. solve_touches. by rewrite G.
Qed.

Lemma remove_workload_apart (T : Type) `{Kinded T} wrap d :
  kind_of T ≠ cr_kind → touches apart (remove_workload (W := W) T wrap d).
Proof. intros HT. by apply remove_workload_touches. Qed.
End basics.

(** Case by case, with the laws of the packages and the lemmas above. *)
Ltac solve_apart :=
  repeat first
    [ progress intros
    | progress cbv zeta
    | solve [eauto with frames]
    | apply touches_when
    | apply touches_IsReverseProxySidecar
    | apply touches_forM
    | apply DeleteObject_apart; done
    | apply ApplyObject_apart; done
    | progress solve_touches ].
