(* ===== verification/PackageFrames.v ===== *)
(** The packages pkg/drivers and pkg/modules as they are modelled write no custom resource: the
    laws of Frames.v hold for [driver_package] and [module_package]. Whatever a manifest says,
    its objects have one of the kinds that [GetModuleComponentObj] knows, and the objects that
    the code builds itself are of other kinds. *)

From S2P Require Import Prelude.
From S2P Require Import GoStrings.
From S2P Require Import GoCrypto.
From S2P Require Import Types.
From S2P Require Import Versions.
From S2P Require Import Modules.
From S2P Require Import Images.
From S2P Require Import Cluster.
From S2P Require Import Resources.
From S2P Require Import Status.
From S2P Require Import Packages.
From S2P Require Import Manifests.
From S2P Require Import Drivers.
From S2P Require Import Pods.
From S2P Require Import ModCommon.
From S2P Require Import Resiliency.
From S2P Require Import Replication.
From S2P Require Import ReverseProxy.
From S2P Require Import AuthSidecar.
From S2P Require Import Observability.
From S2P Require Import AuthScaffold.
From S2P Require Import AuthServer.
From S2P Require Import AuthServerSpec.
From S2P Require Import AuthServerCerts.
From S2P Require Import ModPackage.
From S2P Require Import Watch.
From S2P Require Import Sync.
From S2P Require Import Frames.
From stdpp Require Import options.

Local Open Scope stdpp_scope.

(** ** Kinds of manifests *)

Lemma module_kind_apart o : obj_kind o ∈ module_kinds → obj_kind o ≠ cr_kind.
Proof. intros Ho E. rewrite E in Ho. revert Ho. by apply (bool_decide_unpack _). Qed.

Lemma decoded_kind `{ManifestCodec} kind raw r :
  decode_resource kind raw = Ok r → rs_Kind r = kind.
Proof.
  unfold decode_resource. case_decide; intros E; apply outcome_bind_Ok in E as (x & _ & E);
    [destruct x as [[meta rules] rest]|destruct x as [meta rest]]; by injection E as <-.
Qed.

Lemma driver_step_kinds `{ManifestCodec} kind st raw st' :
  well_kinded (fst st) → driver_step kind st raw = Ok st' → well_kinded (fst st').
Proof.
  destruct st as [[sa cr crb role rb] pod]. intros (? & ? & ? & ? & ?) E.
  apply outcome_bind_Ok in E as (k & _ & E).
  repeat (case_decide; [first [injection E as <-|apply outcome_bind_Ok in E as (r & Er & E);
    apply decoded_kind in Er; injection E as <-]; by split_and!|]).
  injection E as <-. by split_and!.
Qed.

Definition yaml_rbac (d : DriverYaml) : RbacYAML :=
  match d with
  | ControllerManifest y => cy_Rbac y
  | NodeManifest y => ny_Rbac y
  end.

Lemma GetDriverYaml_kinds `{ManifestCodec} y kind d :
  GetDriverYaml y kind = Ok d → well_kinded (yaml_rbac d).
Proof.
  unfold GetDriverYaml. intros E. apply outcome_bind_Ok in E as (docs & _ & E).
  apply outcome_bind_Ok in E as ([rbac pod] & Hf & E).
  assert (∀ docs st, well_kinded (fst st) → foldO (driver_step kind) st docs = Ok (rbac, pod) →
    well_kinded rbac) as Hfold.
  { clear. intros docs. induction docs as [|raw docs IH]; intros st Hst Hf; [by injection Hf as ->|].
    apply outcome_bind_Ok in Hf as (st' & Hs & Hf). eapply IH; [|done].
    by eapply driver_step_kinds. }
  apply Hfold in Hf; [|by split_and!].
  repeat case_decide; [| |done]; apply outcome_bind_Ok in E as (wl & _ & E); by injection E as <-.
Qed.

(** ** pkg/drivers *)

Section checks.
Context {W : Type} `{Client W} `{!View W} `{!ClientLaws (W := W)}.
#[local] Set Default Proof Using "All".

Lemma reading_check_touches P cr (m : M (World W) ()) :
  touches P m → touches P (reading_check cr m).
Proof. intros Hm. unfold reading_check. solve_touches. Qed.

End checks.

Section drivers.
Context {W : Type} `{Client W} `{!View W} `{!ClientLaws (W := W)} `{Host} `{MapOrder}
  `{ManifestCodec} `{SecretCodec} (capacity : list string → nat).
#[local] Set Default Proof Using "All".

(** A check made of lookups. *)
Ltac solve_check :=
  repeat first
    [ progress intros
    | progress cbv zeta
    | apply reads_touches; solve [apply reads_require_secret|apply reads_GetSecret
                                 |apply reads_GetMDMFromSecret]
    | apply touches_forM
    | progress solve_touches ].

Lemma driver_prechecks_read : Forall (λ c, ∀ cr op, reads (ck_run c cr op)) checks.
Proof.
  unfold checks. repeat (apply Forall_cons; split; [intros cr op|]); [..|by apply Forall_nil].
  all: unfold cert_check, reads; cbn [ck_run];
    first [apply reading_check_touches|unfold PrecheckPowerMax]; solve_check.
Qed.

Lemma ValidateZones_read cr : reads (ValidateZones (W := W) cr).
Proof. unfold ValidateZones, ValidateZonesInSecret, reads. solve_check. Qed.

Lemma set_auth_env_meta cr : cr_Meta (fst (set_auth_env cr)) = cr_Meta cr.
Proof using. unfold set_auth_env. by repeat case_match. Qed.

Lemma modify_node_meta y cr : cr_Meta (snd (modify_node y cr)) = cr_Meta cr.
Proof using.
  unfold modify_node, ModifyPowerstoreCR. pose proof (set_auth_env_meta cr) as E.
  destruct (set_auth_env cr) as [cr' b]. repeat case_decide; done.
Qed.

Lemma same_meta cr cr' : cr_Meta cr' = cr_Meta cr → cr_key cr' = cr_key cr.
Proof using. unfold cr_key, obj_key. simpl. by intros ->. Qed.

Lemma GetNode_yields cr op t file matched :
  yields (λ '(node, cr', _), well_kinded (ny_Rbac node) ∧ cr_key cr' = cr_key cr)
    (GetNode (W := W) capacity cr op t file matched).
Proof.
  unfold GetNode. apply within_then; [apply _|apply within_aside, touches_lift|]. intros buf.
  pose proof (modify_node_meta (ModifyCommonCR buf cr) cr) as Em.
  destruct (modify_node _ cr) as [y cr1]. simpl in Em.
  apply (within_bind _ (λ d, well_kinded (yaml_rbac d))).
  { apply within_lift; [apply _|]. intros d. apply GetDriverYaml_kinds. }
  intros [yc|yn] Hk; [by apply within_lift; [apply _|]|]. simpl in Hk.
  apply within_then; [apply _|apply within_aside, touches_lift|]. intros p.
  apply within_then; [apply _|apply within_aside, touches_lift|]. intros [m1 cs].
  apply (within_bind _ (λ '(_, cr2), cr_Meta cr2 = cr_Meta cr1)).
  { case_decide; [|by apply within_ret; [apply _|]]. unfold SetSDCinitContainers.
    apply within_then; [apply _|apply within_aside; solve_check|]. intros r.
    by apply within_ret; [apply _|]. }
  intros [upd cr2] Em2.
  apply within_then; [apply _|apply within_aside, touches_lift|]. intros [m2 ics].
  apply within_then; [apply _|apply within_aside, touches_lift|]. intros vs.
  apply within_ret; [apply _|]. split; [done|]. apply same_meta. congruence.
Qed.

Lemma driver_package_frames : DriverFrames W (DriverPackage0 := driver_package capacity).
Proof.
  pose proof driver_prechecks_read as L. unfold checks in L. rewrite !Forall_cons in L.
  destruct L as (L1 & L2 & L3 & L4 & L5 & L6 & _).
  split; [intros; apply reads_touches; first [apply L1|apply L2|apply L3|apply L4|apply L5|apply L6]..
         |intros; apply reads_touches, ValidateZones_read|apply GetNode_yields| |].
  - intros cr op t matched c matched' E. unfold driver_package in E. cbn in E.
    unfold GetController in E. apply outcome_bind_Ok in E as (buf & _ & E).
    apply outcome_bind_Ok in E as (y & _ & E). apply outcome_bind_Ok in E as (d & Ed & E).
    apply GetDriverYaml_kinds in Ed. destruct d as [yc|yn]; [|done].
    apply outcome_bind_Ok in E as ([d m] & _ & E). by injection E as <- _.
  - intros cr op t r E. cbn in E. unfold GetCSIDriver in E.
    apply outcome_bind_Ok in E as (buf & _ & E). apply outcome_bind_Ok in E as ([[me po] re] & _ & E).
    by injection E as <-.
Qed.
End drivers.

(** ** Objects of manifests *)

Definition manifest_kinds (objs : list Object) : Prop :=
  Forall (λ o, obj_kind o ∈ module_kinds) objs.

Lemma manifest_kind objs o : manifest_kinds objs → o ∈ objs → obj_kind o ∈ module_kinds.
Proof. intros Hk Ho. exact (proj1 (Forall_forall _ _) Hk o Ho). Qed.

Lemma set_container_image_kinds objs d c image :
  obj_kind <$> set_container_image objs d c image = obj_kind <$> objs.
Proof.
  induction objs as [|o objs IH]; [done|].
  destruct o as [x| | | | | |]; try (simpl; f_equal; exact IH). simpl.
  destruct (EqualFold _ d); [destruct (dp_Containers x); [done|]|]; simpl; f_equal; exact IH.
Qed.

Lemma SetContainerImage_kinds objs d c image :
  manifest_kinds objs → manifest_kinds (SetContainerImage objs d c image).
Proof.
  unfold SetContainerImage. case_decide; [done|].
  assert (∀ os, manifest_kinds os ↔ Forall (λ k, k ∈ module_kinds) (obj_kind <$> os)) as Hk
    by (intros os; by rewrite Forall_fmap).
  rewrite !Hk. by rewrite set_container_image_kinds.
Qed.

Section objects.
Context {W : Type} `{Client W} `{!View W} `{!ClientLaws (W := W)}.
#[local] Set Default Proof Using "All".

Lemma each_object_apart apply b objs :
  (∀ o, ensures (obj_key o) (apply o)) → manifest_kinds objs →
  touches apart (each_object (W := W) apply b objs).
Proof.
  intros Ha Hk. eapply touches_mono; [by apply each_object_touches|]. intros k Hin.
  apply list_elem_of_fmap in Hin as (o & -> & Ho).
  by apply (module_kind_apart o), manifest_kind with objs.
Qed.

Lemma apply_or_delete_apart b objs :
  manifest_kinds objs → touches apart (apply_or_delete (W := W) b objs).
Proof. apply each_object_apart, ApplyObject_ensures. Qed.

Lemma apply_ctrl_or_delete_apart b objs :
  manifest_kinds objs → touches apart (apply_ctrl_or_delete (W := W) b objs).
Proof. apply each_object_apart, ApplyCTRLObject_ensures. Qed.

Lemma applyDeleteObjects_apart `{ManifestCodec} y b :
  touches apart (applyDeleteObjects (W := W) y b).
Proof.
  unfold applyDeleteObjects. apply touches_lift_bind. intros objs E.
  by apply apply_or_delete_apart, GetModuleComponentObj_kinds with y.
Qed.

Lemma touches_PollUntilTimeout `{!Retry W} `{!RetryLaws W} (P : Key → Prop) (f : M (World W) bool) :
  touches P f → touches P (PollUntilTimeout f).
Proof.
  intros Hf w r w' E. apply poll_runs in E. induction E as [| | | |w w1 r w' E _ IH]; intros k Hk;
    [by eapply Hf..|]. rewrite IH by done. by eapply Hf.
Qed.
End objects.

#[export] Hint Resolve applyDeleteObjects_apart : frames.

(** ** pkg/modules *)

Section modules.
Context {W : Type} `{Client W} `{!View W} `{!ClientLaws (W := W)} `{Host} `{MapOrder}
  `{ManifestCodec} `{SecretCodec} `{Directory} `{!Retry W} `{!RetryLaws W}.
#[local] Set Default Proof Using "All".

Ltac solve_module :=
  repeat first
    [ progress intros
    | progress cbv zeta
    | apply applyDeleteObjects_apart
    | apply touches_when
    | apply reading_check_touches
    | solve [apply reads_touches; first
        [apply reads_ResolveVersion|apply reads_require_secret|apply reads_GetSecret
        |apply reads_GetMDMFromSecret]]
    | apply touches_forM
    | progress solve_touches ].

(** *** Shared operations *)

Lemma CommonCertManager_frame b op cr matched :
  touches apart (ModCommon.CommonCertManager (W := W) b op cr matched).
Proof.
  unfold ModCommon.CommonCertManager. apply touches_lift_bind. intros [objs crds] E.
  unfold cert_manager_objects in E. apply outcome_bind_Ok in E as (y & _ & E).
  apply outcome_bind_Ok in E as (y' & _ & E). apply outcome_bind_Ok in E as (os & Eo & E).
  apply outcome_bind_Ok in E as (cs & Ec & E). injection E as <- <-.
  apply GetModuleComponentObj_kinds in Eo, Ec.
  apply touches_bind; [|intros _; by apply apply_or_delete_apart].
  apply touches_forM_in. intros o Ho. apply touches_when, ApplyObject_apart.
  by apply module_kind_apart, manifest_kind with cs.
Qed.

Lemma PatchCSMDRCRDs_frame b op : touches apart (ModCommon.PatchCSMDRCRDs (W := W) b op).
Proof.
  unfold ModCommon.PatchCSMDRCRDs. apply touches_bind; [apply touches_lift|intros y].
  apply (applyDeleteObjects_apart y b).
Qed.

Lemma inject_rules_kind m cr op filename r r' :
  inject_rules m cr op filename r = Ok r' → rs_Kind r' = rs_Kind r.
Proof using Type.
  intros E. apply outcome_bind_Ok in E as (buf & _ & E). apply outcome_bind_Ok in E as (rules & _ & E).
  by injection E as <-.
Qed.

(** *** The reverse proxy *)

Lemma prepare_proxy_kind op cr o o' :
  prepare_proxy op cr o = Ok o' → obj_kind o' = obj_kind o.
Proof using Type.
  destruct o; simpl; try by intros [= <-]. case_decide; [|by intros [= <-]].
  intros E. apply outcome_bind_Ok in E as ([] & _ & E); [|by injection E as <-].
  apply outcome_bind_Ok in E as (d' & _ & E). by injection E as <-.
Qed.

Lemma ReverseProxyServer_frame b op cr :
  touches apart (ReverseProxy.ReverseProxyServer (W := W) b op cr).
Proof.
  unfold ReverseProxy.ReverseProxyServer. apply touches_bind; [solve_module|intros matched].
  apply touches_bind; [apply touches_lift|intros y]. apply touches_lift_bind. intros objs E.
  apply GetModuleComponentObj_kinds in E. apply touches_forM_in. intros o Ho.
  apply touches_lift_bind. intros o' Eo. apply prepare_proxy_kind in Eo.
  assert (obj_kind o' ≠ cr_kind) as Hk
    by (apply module_kind_apart; rewrite Eo; by apply manifest_kind with objs).
  destruct b; [by apply DeleteObject_apart|by apply ApplyObject_apart].
Qed.

Lemma ReverseProxyStartService_frame b op cr :
  touches apart (ReverseProxy.ReverseProxyStartService (W := W) b op cr).
Proof.
  unfold ReverseProxy.ReverseProxyStartService.
  apply touches_bind; [apply touches_lift|intros y]. apply (applyDeleteObjects_apart y b).
Qed.

Lemma setDeployAsSidecar_touches P b : touches P (setDeployAsSidecar (W := W) b).
Proof. by intros w r w' [= <- <-]. Qed.

Lemma ReverseProxyPrecheck_read op m cr :
  reads (ReverseProxy.ReverseProxyPrecheck (W := W) op m cr).
Proof.
  unfold ReverseProxy.ReverseProxyPrecheck, reverseproxy_check, require, reads.
  solve_module; apply setDeployAsSidecar_touches.
Qed.

(** *** Replication *)

Lemma set_first_image_kind image o o' :
  set_first_image image o = Ok o' → obj_kind o' = obj_kind o.
Proof using Type. destruct o; simpl; try by intros [= <-]. case_match; [done|]. by intros [= <-]. Qed.

Lemma getReplicaController_kinds op cr matched objs :
  getReplicaController op cr matched = Ok objs → manifest_kinds objs.
Proof using Type.
  intros E. apply outcome_bind_Ok in E as (m & _ & E). apply outcome_bind_Ok in E as (buf & _ & E).
  apply outcome_bind_Ok in E as (os & Eo & E). apply GetModuleComponentObj_kinds in Eo.
  case_decide; [by injection E as <-|].
  assert (∀ os acc, manifest_kinds os → manifest_kinds acc → ∀ image,
    foldO (λ objs o, o ← set_first_image image o; Ok (objs ++ [o])) acc os = Ok objs →
    manifest_kinds objs) as Hfold.
  { clear. intros os. induction os as [|o os IH]; intros acc Ho Ha image E; [by injection E as <-|].
    apply Forall_cons in Ho as [Ho Hos]. apply outcome_bind_Ok in E as (acc' & E1 & E).
    apply outcome_bind_Ok in E1 as (o' & Eo & E1). apply set_first_image_kind in Eo.
    injection E1 as <-. eapply IH; [done| |done]. apply Forall_app. split; [done|].
    apply Forall_singleton. congruence. }
  eapply Hfold; [exact Eo| |exact E]. constructor.
Qed.

Lemma ReplicationManagerController_frame b op cr :
  touches apart (Replication.ReplicationManagerController (W := W) b op cr).
Proof.
  unfold Replication.ReplicationManagerController.
  apply touches_bind; [solve_module|intros matched]. apply touches_lift_bind. intros objs E.
  by apply apply_or_delete_apart, getReplicaController_kinds with op cr matched.
Qed.

Lemma ReplicationPrecheck_read op m cr :
  reads (Replication.ReplicationPrecheck (W := W) op m cr).
Proof.
  unfold Replication.ReplicationPrecheck, replication_check, driver_check, reads. solve_module.
Qed.

Lemma CreateReplicationConfigmap_frame cr op :
  touches apart (Replication.CreateReplicationConfigmap (W := W) cr op).
Proof. unfold Replication.CreateReplicationConfigmap. solve_module. Qed.

Lemma DeleteReplicationConfigmap_frame :
  touches apart (Replication.DeleteReplicationConfigmap (W := W)).
Proof. unfold Replication.DeleteReplicationConfigmap. solve_module. Qed.

(** *** Observability *)

Lemma ObservabilityTopology_frame b op cr matched :
  touches apart (Observability.ObservabilityTopology (W := W) b op cr matched).
Proof.
  unfold Observability.ObservabilityTopology. apply touches_bind; [apply touches_lift|intros v].
  destruct (Observability.old_version v); [|apply touches_fail]. apply touches_lift_bind. intros objs E.
  apply apply_ctrl_or_delete_apart. unfold getTopology in E.
  apply outcome_bind_Ok in E as (m & _ & E). apply outcome_bind_Ok in E as (y & _ & E).
  destruct (foldl _ _ _) as [image level]. apply outcome_bind_Ok in E as (os & Eo & [= <-]).
  by apply SetContainerImage_kinds, GetModuleComponentObj_kinds with (1 := Eo).
Qed.

Lemma OtelCollector_frame b op cr matched :
  touches apart (Observability.OtelCollector (W := W) b op cr matched).
Proof.
  unfold Observability.OtelCollector. apply touches_bind; [apply touches_lift|intros y].
  apply touches_lift_bind. intros objs E.
  by apply apply_ctrl_or_delete_apart, GetModuleComponentObj_kinds with y.
Qed.

Lemma IssuerCertServiceObs_frame b op cr :
  touches apart (Observability.IssuerCertServiceObs (W := W) b op cr).
Proof. unfold Observability.IssuerCertServiceObs. solve_module. Qed.

Lemma reads_metrics_objects k adapt b op cr :
  adapts adapt → reads (metrics_objects (W := W) k adapt b op cr).
Proof.
  intros Ha. unfold metrics_objects, reads. apply touches_bind.
  { case_decide; [apply touches_ret|apply reads_ResolveVersion]. }
  intros matched. apply touches_bind; [apply touches_lift|intros objs].
  destruct (first_deployment objs) as [[i d]|]; [|apply touches_fail].
  apply touches_bind; [apply reads_parse|intros [dp cr']]. cbv zeta.
  apply touches_bind; [apply (Ha cr' dp)|intros dp']. apply touches_bind; [|intros; apply touches_ret].
  destruct b; [|apply touches_ret]. apply touches_bind; [apply touches_lift|intros v].
  destruct (Observability.old_version v); [|apply touches_ret]. apply touches_orFail, reads_append_secrets.
Qed.

Lemma get_metrics_objects_kinds k op cr matched objs :
  get_metrics_objects k op cr matched = Ok objs → manifest_kinds objs.
Proof using Type.
  unfold get_metrics_objects. intros E. apply outcome_bind_Ok in E as (m & _ & E).
  apply outcome_bind_Ok in E as (y & _ & E). destruct (foldl _ _ _) as [image settings].
  apply outcome_bind_Ok in E as (os & Eo & [= <-]).
  by apply SetContainerImage_kinds, GetModuleComponentObj_kinds with (1 := Eo).
Qed.

Lemma metrics_objects_kinds k adapt b op cr w dp objs w' :
  adapts adapt → metrics_objects (W := W) k adapt b op cr w = (Ok (dp, objs), w') →
  manifest_kinds objs.
Proof.
  intros Ha E. apply metrics_objects_run in E as (pre & d & post & secrets & Hr & ->); [|done].
  pose proof (metrics_ready_copied _ _ _ _ _ _ _ _ _ _ _ _ Hr) as Hs.
  destruct Hr as [(matched & Em & _) _ _ _ _]. apply Forall_app. split.
  - apply get_metrics_objects_kinds in Em. unfold manifest_kinds in *.
    rewrite swap_remove_middle. apply Forall_app in Em as [Hpre [_ Hpost]%Forall_cons].
    by apply Forall_app.
  - eapply Forall_impl; [exact Hs|]. intros o (s & -> & _). by apply (bool_decide_unpack _).
Qed.

Lemma metrics_frame k adapt withSecrets b op cr :
  adapts adapt → touches apart (metrics (W := W) k adapt withSecrets b op cr).
Proof.
  intros Ha. unfold metrics. apply touches_bind_run; [by apply reads_touches, reads_metrics_objects|].
  intros [dp objs] w w' E. apply metrics_objects_kinds in E; [|done].
  apply touches_bind; [by apply apply_ctrl_or_delete_apart|intros _]. destruct b.
  - intros w1 r w2 E' k' Hk. unfold delete_deployment in E'. revert E' k' Hk.
    by apply remove_workload_apart.
  - eapply ensures_apart; [apply SyncDeployment_ensures|done].
Qed.

(** *** The authorization server *)

Lemma modify_vars_touches P f : touches P (modify_vars (W := W) f).
Proof. apply reads_touches, reads_modify_vars. Qed.

Lemma get_vars_touches P : touches P (get_vars (W := W)).
Proof. apply reads_touches, reads_get_vars. Qed.

Lemma apply_object_frame b f g o : touches apart (apply_object (W := W) b f g o).
Proof. unfold apply_object. solve_module. Qed.

Lemma over_components_touches {S} (f : S → ContainerTemplate → M (World W) S) st cs :
  (∀ st c, reads (f st c)) → touches apart (over_components f st cs).
Proof. intros Hf. by apply reads_touches, reads_over_components. Qed.

Ltac solve_server :=
  repeat first
    [ progress intros
    | progress cbv zeta
    | apply apply_object_frame
    | apply modify_vars_touches
    | apply get_vars_touches
    | apply over_components_touches; intros; first
        [apply reads_redis_component|apply reads_service_step|apply reads_storage_step]
    | solve [apply reads_touches, reads_redis_checksum]
    | progress solve_module ].

Lemma redis_statefulset_frame b cr auth matched :
  touches apart (applyDeleteAuthorizationRedisStatefulsetV2 (W := W) b cr auth matched).
Proof. unfold applyDeleteAuthorizationRedisStatefulsetV2, apply_workload. solve_server. Qed.

Lemma sentinel_statefulset_frame b cr auth matched :
  touches apart (applyDeleteAuthorizationSentinelStatefulsetV2 (W := W) b cr auth matched).
Proof. unfold applyDeleteAuthorizationSentinelStatefulsetV2, apply_workload. solve_server. Qed.

Lemma commander_frame b cr auth matched :
  touches apart (applyDeleteAuthorizationRediscommanderDeploymentV2 (W := W) b cr auth matched).
Proof. unfold applyDeleteAuthorizationRediscommanderDeploymentV2, apply_workload. solve_server. Qed.

Lemma proxy_server_frame b cr auth matched op :
  touches apart (applyDeleteAuthorizationProxyServerV2 (W := W) b cr auth matched op).
Proof. unfold applyDeleteAuthorizationProxyServerV2, apply_workload. solve_server. Qed.

Lemma tenant_service_frame b cr auth matched op :
  touches apart (applyDeleteAuthorizationTenantServiceV2 (W := W) b cr auth matched op).
Proof. unfold applyDeleteAuthorizationTenantServiceV2, apply_workload. solve_server. Qed.

Lemma vault_certificates_frame b cr :
  touches apart (applyDeleteVaultCertificates (W := W) b cr).
Proof.
  unfold applyDeleteVaultCertificates, vault_authority, vault_client, vault_selfsigned,
    apply_workload. solve_server.
Qed.

Lemma removeVault_apart cr dp : touches apart (removeVaultFromStorageService (W := W) cr dp).
Proof. unfold removeVaultFromStorageService. solve_server. apply vault_certificates_frame. Qed.

Lemma storage_service_frame b cr auth matched op :
  touches apart (authorizationStorageServiceV2 (W := W) b cr auth matched op).
Proof. unfold authorizationStorageServiceV2. solve_server. apply removeVault_apart. Qed.

Lemma AuthorizationServerDeployment_frame b op cr matched :
  touches apart (AuthServer.AuthorizationServerDeployment (W := W) b op cr matched).
Proof.
  unfold AuthServer.AuthorizationServerDeployment.
  solve_module; auto using redis_statefulset_frame, sentinel_statefulset_frame, commander_frame,
    proxy_server_frame, tenant_service_frame, storage_service_frame.
Qed.

Lemma AuthorizationServerPrecheck_read op m cr :
  reads (AuthServer.AuthorizationServerPrecheck (W := W) op m cr).
Proof.
  unfold AuthServer.AuthorizationServerPrecheck. apply reading_check_touches, reads_server_check.
Qed.

Lemma AuthorizationPrecheck_read op m cr :
  reads (AuthSidecar.AuthorizationPrecheck (W := W) op m cr).
Proof.
  unfold AuthSidecar.AuthorizationPrecheck, reads. solve_module. apply reads_auth_check.
Qed.

Lemma ResiliencyPrecheck_read op m cr :
  reads (Resiliency.ResiliencyPrecheck (W := W) op m cr).
Proof. unfold Resiliency.ResiliencyPrecheck, reads. solve_module. Qed.

Lemma ObservabilityPrecheck_read op m cr :
  reads (Observability.ObservabilityPrecheck (W := W) op m cr).
Proof. unfold Observability.ObservabilityPrecheck, reads. solve_module. Qed.

Lemma cleanup_versions_frame op cr versions :
  touches apart (cleanup_versions (W := W) op cr versions).
Proof.
  induction versions as [|v vs IH]; [apply touches_ret|]. cbn [cleanup_versions]. cbv zeta.
  destruct (getNginxIngressController _ _) as [y|e|y];
    [apply applyDeleteObjects_apart|exact IH|apply touches_lift].
Qed.

Lemma NginxIngressControllerCleanup_frame op cr :
  touches apart (AuthServer.NginxIngressControllerCleanup (W := W) op cr).
Proof.
  unfold AuthServer.NginxIngressControllerCleanup.
  destruct (getAuthorizationModule cr); [apply cleanup_versions_frame|apply touches_ret..].
Qed.

Lemma GatewayController_frame b op cr :
  touches apart (AuthServer.GatewayController (W := W) b op cr).
Proof.
  unfold AuthServer.GatewayController. apply touches_bind; [apply touches_lift|intros y].
  apply touches_bind; [apply applyDeleteObjects_apart|intros _]. apply touches_when.
  apply touches_forM_in. intros [o msg] Ho. apply touches_orFail, DeleteObject_apart. revert Ho.
  unfold data_plane. rewrite !elem_of_cons, elem_of_nil. by intros [[= -> _]|[[= -> _]|[]]].
Qed.

Lemma AuthorizationIngress_frame b o cr :
  touches apart (AuthServer.AuthorizationIngress (W := W) b o cr).
Proof.
  unfold AuthServer.AuthorizationIngress, authorizationHTTPRoute, createIngress, getClassName,
    WaitForGatewayController, WaitForNginxController, getNginxControllerStatus,
    getGatewayControllerStatus.
  repeat first [progress solve_server|apply touches_PollUntilTimeout].
Qed.

Lemma InstallWithCerts_frame b op cr : touches apart (AuthServer.InstallWithCerts (W := W) b op cr).
Proof. unfold AuthServer.InstallWithCerts, getCerts. solve_server. Qed.

Lemma module_package_frames : ModuleFrames W (ModulePackage0 := module_package).
Proof.
  split; unfold module_package; cbn; intros.
  - apply reads_touches, AuthorizationPrecheck_read.
  - apply reads_touches, AuthorizationServerPrecheck_read.
  - apply reads_touches, ReplicationPrecheck_read.
  - apply reads_touches, ResiliencyPrecheck_read.
  - apply reads_touches, ObservabilityPrecheck_read.
  - apply reads_touches, ReverseProxyPrecheck_read.
  - apply ReverseProxyServer_frame.
  - apply ReverseProxyStartService_frame.
  - unfold AuthServer.InstallPolicies. solve_module.
  - unfold AuthServer.NginxIngressController. solve_module.
  - apply GatewayController_frame.
  - apply InstallWithCerts_frame.
  - apply ReplicationManagerController_frame.
  - apply metrics_frame, keep_adapts.
  - apply metrics_frame, keep_adapts.
  - apply metrics_frame, adapt_metrics_adapts.
  - apply metrics_frame, keep_adapts.
  - apply IssuerCertServiceObs_frame.
  - apply AuthorizationServerDeployment_frame.
  - apply OtelCollector_frame.
  - apply ObservabilityTopology_frame.
  - apply CommonCertManager_frame.
  - unfold AuthServer.AuthCrdDeploy. solve_module.
  - apply NginxIngressControllerCleanup_frame.
  - unfold Replication.ReplicationCrdDeploy. solve_module.
  - unfold Replication.DeleteReplicationCrds. solve_module.
  - apply AuthorizationIngress_frame.
  - apply touches_bind; [apply CreateReplicationConfigmap_frame|intros; apply touches_ret].
  - apply DeleteReplicationConfigmap_frame.
  - apply PatchCSMDRCRDs_frame.
  - apply touches_lift.
  - apply touches_lift.
  - apply reads_touches, reads_inject_proxy.
  - apply reads_touches, reads_inject_proxy.
  - apply touches_lift.
  - apply touches_lift.
  - apply within_lift; [apply _|]. intros r' E. apply outcome_bind_Ok in E as (m & _ & E).
    by apply inject_rules_kind in E.
  - apply within_lift; [apply _|]. intros r' E. unfold Resiliency.inject_role in E.
    case_decide; [by injection E as <-|]. apply outcome_bind_Ok in E as (m & _ & E).
    apply outcome_bind_Ok in E as (v & _ & E). apply outcome_bind_Ok in E as ([] & _ & E);
      [by injection E as <-|by apply inject_rules_kind in E].
  - apply within_lift; [apply _|]. intros r' E. apply outcome_bind_Ok in E as (m & _ & E).
    by apply inject_rules_kind in E.
Qed.
End modules.
