(* ===== verification/Isolation.v ===== *)
(** Each custom resource is served by itself: what a reconciliation of one resource does to the
    others, and what becomes of the resource. [turn] is the abstract machine over the custom
    resources of the cluster; [Reconcile] refines it, on every outcome. *)

From S2P Require Import Prelude.
From S2P Require Import GoStrings.
From S2P Require Import Types.
From S2P Require Import Versions.
From S2P Require Import Modules.
From S2P Require Import Images.
From S2P Require Import Cluster.
From S2P Require Import Resources.
From S2P Require Import Status.
From S2P Require Import Packages.
From S2P Require Import Watch.
From S2P Require Import Sync.
From S2P Require Import Controller.
From S2P Require Import Frames.
From stdpp Require Import options.

Local Open Scope stdpp_scope.

(** ** Syncing and removing touch no custom resource but the one they are about *)

Section apart.
Context {W : Type} `{Client W} `{!View W} `{!ClientLaws (W := W)} `{Host} `{MapOrder} `{JSON}
  `{!DriverPackage W} `{!ModulePackage W} `{!Discovery W}
  `{!DriverFrames W} `{!ModuleFrames W} `{!DiscoveryFrames W}.
#[local] Set Default Proof Using "All".

Lemma syncMetricsResources_apart b cr : touches apart (syncMetricsResources b cr).
Proof. unfold syncMetricsResources. solve_apart. Qed.

Lemma reconcile_component_apart b op cr matched v comp :
  touches apart (reconcile_component b op cr matched v comp).
Proof. unfold reconcile_component. solve_apart. Qed.

Lemma reconcileObservability_apart b op cr comps matched :
  touches apart (reconcileObservability b op cr comps matched).
Proof.
  unfold reconcileObservability, wait_cert_manager. solve_apart. apply reconcile_component_apart.
Qed.

Lemma reconcileAuthorization_apart config b op cr matched :
  touches apart (reconcileAuthorization config b op cr matched).
Proof. unfold reconcileAuthorization, auth_component_enabled. solve_apart. Qed.

(** *** The manifests keep the kinds of their fields *)

Record config_kinds (d : DriverConfig) : Prop := mkConfigKinds {
  ck_controller : well_kinded (cy_Rbac (dc_Controller d));
  ck_node : ∀ node, dc_Node d = Some node → well_kinded (ny_Rbac node);
  ck_driver : ∀ driver, dc_Driver d = Some driver → rs_Kind driver = "CSIDriver"
}.

Lemma set_rb_ClusterRole_kinds c r :
  well_kinded r → rs_Kind c = rs_Kind (rb_ClusterRole r) → well_kinded (set_rb_ClusterRole c r).
Proof using. intros (? & ? & ? & ? & ?) E. split_and!; simpl; congruence. Qed.

Lemma set_rb_Role_kinds c r :
  well_kinded r → rs_Kind c = rs_Kind (rb_Role r) → well_kinded (set_rb_Role c r).
Proof using. intros (? & ? & ? & ? & ?) E. split_and!; simpl; congruence. Qed.

Lemma cluster_role_kinds f r :
  yields (λ c, rs_Kind c = rs_Kind (rb_ClusterRole r)) (f (rb_ClusterRole r)) → well_kinded r →
  yields well_kinded (cluster_role (W := W) f r).
Proof.
  intros Hf Hr. eapply within_bind; [apply _|exact Hf|]. intros c Hc.
  apply within_ret; [apply _|]. by apply set_rb_ClusterRole_kinds.
Qed.

Lemma role_kinds f r :
  yields (λ c, rs_Kind c = rs_Kind (rb_Role r)) (f (rb_Role r)) → well_kinded r →
  yields well_kinded (role (W := W) f r).
Proof.
  intros Hf Hr. eapply within_bind; [apply _|exact Hf|]. intros c Hc.
  apply within_ret; [apply _|]. by apply set_rb_Role_kinds.
Qed.

Lemma on_deployment_kinds f d :
  (∀ dp, touches apart (f dp)) → config_kinds d → yields config_kinds (on_deployment (W := W) f d).
Proof.
  intros Hf []. eapply within_then; [apply _|by apply within_aside|]. intros dp.
  by apply within_ret; [apply _|].
Qed.

Lemma on_controller_rbac_kinds f d :
  (∀ r, well_kinded r → yields well_kinded (f r)) → config_kinds d →
  yields config_kinds (on_controller_rbac (W := W) f d).
Proof.
  intros Hf []. eapply within_bind; [apply _|by apply Hf|]. intros r Hr.
  by apply within_ret; [apply _|].
Qed.

Lemma deref_Some {A} (p : option A) a : deref p = Ok a → p = Some a.
Proof using. destruct p; simpl; congruence. Qed.

Lemma on_daemonset_kinds f d :
  (∀ ds, touches apart (f ds)) → config_kinds d → yields config_kinds (on_daemonset (W := W) f d).
Proof.
  intros Hf [Hc Hn Hd]. apply (within_bind _ (λ node, well_kinded (ny_Rbac node))).
  - apply within_lift; [apply _|]. intros node E. by apply Hn, deref_Some.
  - intros node Hnode. eapply within_then; [apply _|by apply within_aside|]. intros ds.
    apply within_ret; [apply _|]. split; [done| |done]. by intros ? [= <-].
Qed.

Lemma on_node_rbac_kinds f d :
  (∀ r, well_kinded r → yields well_kinded (f r)) → config_kinds d →
  yields config_kinds (on_node_rbac (W := W) f d).
Proof.
  intros Hf [Hc Hn Hd]. apply (within_bind _ (λ node, well_kinded (ny_Rbac node))).
  - apply within_lift; [apply _|]. intros node E. by apply Hn, deref_Some.
  - intros node Hnode. eapply within_bind; [apply _|by apply Hf|]. intros r Hr.
    apply within_ret; [apply _|]. split; [done| |done]. by intros ? [= <-].
Qed.

Lemma getDriverConfig_kinds cr op matched :
  yields (λ '(d, cr', _), cr_key cr' = cr_key cr ∧ ∀ d', d = Some d' → config_kinds d')
    (getDriverConfig cr op matched).
Proof.
  unfold getDriverConfig. case_decide; [by apply within_ret; [apply _|]|].
  eapply (within_bind _ (λ '(driver, node, cr', _), cr_key cr' = cr_key cr
    ∧ (∀ r, driver = Some r → rs_Kind r = "CSIDriver")
    ∧ (∀ n, node = Some n → well_kinded (ny_Rbac n)))).
  - destruct (decide (_ = Cosi)); [by apply within_ret; [apply _|]|].
    eapply (within_bind _ (λ r, rs_Kind r = "CSIDriver")).
    { apply within_orFail, within_lift; [apply _..|]. intros r. exact (GetCSIDriver_kind W _ _ _ r). }
    intros r Hr. eapply within_bind; [apply _|apply within_orFail; [apply _|]; apply (GetNode_kinds W)|].
    intros [[node cr'] m'] [Hn Hk]. apply within_ret; [apply _|].
    split_and!; [done|by intros ? [= <-]..].
  - intros [[[driver node] cr'] m'] (Hk & Hd & Hn).
    apply within_then; [apply _|by apply within_aside; solve_apart|]. intros cm.
    eapply (within_bind _ (λ '(c, _), well_kinded (cy_Rbac c))).
    { apply within_orFail, within_lift; [apply _..|]. intros [c m2]. exact (GetController_kinds W _ _ _ _ c m2). }
    intros [c m2] Hc. apply within_ret; [apply _|]. split; [done|]. by intros d' [= <-].
Qed.

Lemma adapt_powermax_kinds cr op matched d :
  config_kinds d → yields config_kinds (adapt_powermax cr op matched d).
Proof.
  intros Hd. unfold adapt_powermax, mount_powermax, dropErr.
  apply within_then; [apply _|apply within_aside, touches_IsReverseProxySidecar|]. intros sidecar.
  eapply (within_bind _ config_kinds).
  { destruct sidecar; [apply within_then; [apply _|apply within_aside; solve_apart|]; intros []|];
      apply on_deployment_kinds; solve_apart. }
  intros d1 K1. eapply (within_bind _ config_kinds); [apply on_daemonset_kinds; solve_apart|].
  intros d2 []. apply within_then; [apply _|by apply within_aside; solve_apart|]. intros cm.
  by apply within_ret; [apply _|].
Qed.

Lemma adapt_powerflex_kinds config b cr d :
  config_kinds d → yields config_kinds (adapt_powerflex (W := W) config b cr d).
Proof.
  intros Hd. unfold adapt_powerflex, dropErr. eapply (within_bind _ config_kinds).
  - case_match; [apply on_daemonset_kinds; solve_apart|by apply within_ret; [apply _|]].
  - intros d1 K1. case_match; [by apply within_ret; [apply _|]|].
    apply on_daemonset_kinds; solve_apart.
Qed.

Lemma inject_authorization_kinds cr op d :
  config_kinds d → yields (λ '(d', _), config_kinds d') (inject_authorization cr op d).
Proof.
  intros [Hc Hn Hd]. unfold inject_authorization.
  apply within_then; [apply _|apply within_aside; solve_apart|]. intros [dp cr1].
  apply (within_bind _ (λ node, well_kinded (ny_Rbac node))).
  { apply within_lift; [apply _|]. intros node E. by apply Hn, deref_Some. }
  intros node Hnode.
  apply within_then; [apply _|apply within_aside; solve_apart|]. intros [ds cr2].
  apply within_ret; [apply _|]. split; [done| |done]. by intros ? [= <-].
Qed.

(** One injection after the other. *)
Ltac next_injection :=
  eapply (within_bind _ config_kinds);
  [first [apply on_deployment_kinds|apply on_daemonset_kinds
         |apply on_controller_rbac_kinds|apply on_node_rbac_kinds]; [|done]|].

Lemma inject_module_kinds cr op matched d m :
  config_kinds d → yields config_kinds (inject_module cr op matched d m).
Proof.
  intros Hd. unfold inject_module. case_decide; [|case_decide; [|by apply within_ret; [apply _|]]].
  - next_injection; [solve_apart|intros d1 K1].
    next_injection; [|intros d2 K2].
    { intros r Hr. by apply cluster_role_kinds; [apply within_orFail;
        [apply _|apply (ResiliencyInjectClusterRole_kind W)]|]. }
    next_injection; [|intros d3 K3].
    { intros r Hr. by apply role_kinds; [apply within_orFail;
        [apply _|apply (ResiliencyInjectRole_kind W)]|]. }
    next_injection; [solve_apart|intros d4 K4].
    next_injection; [|intros d5 K5].
    { intros r Hr. by apply cluster_role_kinds; [apply within_orFail;
        [apply _|apply (ResiliencyInjectClusterRole_kind W)]|]. }
    apply on_node_rbac_kinds; [|done].
    intros r Hr. by apply role_kinds; [apply within_orFail;
      [apply _|apply (ResiliencyInjectRole_kind W)]|].
  - next_injection; [solve_apart|intros d1 K1].
    apply on_controller_rbac_kinds; [|done]. intros r Hr.
    by apply cluster_role_kinds; [apply within_orFail;
      [apply _|apply (ReplicationInjectClusterRole_kind W)]|].
Qed.

Lemma inject_modules_kinds cr op matched d ms :
  config_kinds d → yields (λ '(d', _), config_kinds d') (inject_modules cr op matched d ms).
Proof.
  revert cr d. induction ms as [|m ms IH]; intros cr d Hd; [by apply within_ret; [apply _|]|].
  cbn [inject_modules]. eapply (within_bind _ (λ '(d', _), config_kinds d')).
  - destruct (m_Enabled m); [|by apply within_ret; [apply _|]].
    case_decide; [by apply inject_authorization_kinds|].
    eapply within_bind; [apply _|by apply inject_module_kinds|]. intros d' Hd'.
    by apply within_ret; [apply _|].
  - intros [d' cr'] Hd'. by apply IH.
Qed.

(** *** Putting the manifests on the cluster *)

Lemma SyncRole_apart r : rs_Kind r = "Role" → touches apart (SyncRole (W := W) r).
Proof.
  intros Hr. pose proof (SyncRole_named r Hr) as E. case_decide; [rewrite E; apply touches_ret|].
  eapply ensures_apart; [exact E|]. by unfold apart; simpl; rewrite Hr.
Qed.

Lemma SyncRoleBindings_apart r :
  rs_Kind r = "RoleBinding" → touches apart (SyncRoleBindings (W := W) r).
Proof.
  intros Hr. pose proof (SyncRoleBindings_named r Hr) as E.
  case_decide; [rewrite E; apply touches_ret|].
  eapply ensures_apart; [exact E|]. by unfold apart; simpl; rewrite Hr.
Qed.

(** one object that the named lemma puts there *)
Ltac put_object L := eapply ensures_apart; [by apply L|]; unfold apart, cr_kind; simpl; congruence.

Ltac put_objects :=
  repeat lazymatch goal with |- touches _ (_ ≫= _) => apply touches_bind; [|intros _] end;
  first [by apply SyncRole_apart|by apply SyncRoleBindings_apart|put_object sa_ensures
        |put_object cr_ensures|put_object crb_ensures|put_object SyncCSIDriver_ensures
        |put_object SyncConfigMap_ensures|put_object SyncDeployment_ensures].

Lemma sync_cosi_apart cr d :
  well_kinded (cy_Rbac (dc_Controller d)) → touches apart (sync_cosi (W := W) cr d).
Proof. intros (? & ? & ? & ? & ?). unfold sync_cosi. put_objects. Qed.

Lemma sync_controller_apart cr d node driver :
  well_kinded (cy_Rbac (dc_Controller d)) → well_kinded (ny_Rbac node) →
  rs_Kind driver = "CSIDriver" → touches apart (sync_controller (W := W) cr d node driver).
Proof. intros (? & ? & ? & ? & ?) (? & ? & ? & ? & ?) ?. unfold sync_controller. put_objects. Qed.

Lemma SyncDaemonset_apart d name : touches apart (SyncDaemonset (W := W) d name).
Proof. put_object SyncDaemonset_ensures. Qed.

Lemma sync_extras_apart cr op matched : touches apart (sync_extras cr op matched).
Proof.
  unfold sync_extras. solve_apart; auto using reconcileObservability_apart, syncMetricsResources_apart.
Qed.

Lemma sync_driver_apart cr op matched d :
  config_kinds d → touches apart (sync_driver cr op matched d).
Proof.
  intros [Hc Hn Hd]. unfold sync_driver. case_decide; [by apply sync_cosi_apart|].
  apply touches_lift_bind. intros node En%deref_Some.
  apply touches_lift_bind. intros driver Ed%deref_Some.
  apply touches_bind; [apply sync_controller_apart; auto|intros _].
  apply touches_bind; [unfold applyCSMDRCRD; solve_apart|intros _].
  apply touches_bind; [apply SyncDaemonset_apart|intros _]. apply sync_extras_apart.
Qed.

(** *** Taking them away *)

Lemma rbac_objects_apart r o : well_kinded r → o ∈ rbac_objects r → obj_kind o ≠ cr_kind.
Proof using.
  intros (? & ? & ? & ? & ?). unfold rbac_objects, cr_kind. rewrite !elem_of_cons, elem_of_nil.
  intros [->|[->|[->|[->|[->|[]]]]]]; simpl; congruence.
Qed.

Lemma removeDriverFromCluster_apart d :
  config_kinds d → touches apart (removeDriverFromCluster (W := W) d).
Proof.
  intros [Hc Hn Hd]. unfold removeDriverFromCluster. apply touches_bind; [|intros _].
  - apply touches_forM_in. intros o Ho. apply DeleteObject_apart. revert Ho.
    unfold driver_objects. rewrite !elem_of_app. intros [Ho|[Ho|[Ho|Ho]]].
    + destruct (dc_Node d) as [node|]; [|by apply not_elem_of_nil in Ho].
      by eapply rbac_objects_apart; [apply Hn|].
    + by eapply rbac_objects_apart.
    + by apply list_elem_of_singleton in Ho as ->.
    + destruct (dc_Driver d) as [driver|]; [|by apply not_elem_of_nil in Ho].
      apply list_elem_of_singleton in Ho as ->. simpl. by rewrite (Hd driver eq_refl).
  - apply touches_bind; [|intros _; by apply remove_workload_apart].
    destruct (dc_Node d); [by apply remove_workload_apart|apply touches_ret].
Qed.

Lemma removeDriver_apart cr op : touches apart (removeDriver cr op).
Proof.
  apply within_aside. unfold removeDriver.
  eapply within_bind; [apply _|apply getDriverConfig_kinds|]. intros [[[d|] cr'] m'] [_ Hd];
    [|by apply within_ret; [apply _|]].
  apply within_aside. apply touches_bind; [by apply removeDriverFromCluster_apart, Hd|intros _].
  solve_apart; auto using reconcileObservability_apart, syncMetricsResources_apart.
Qed.

Lemma removeModule_apart config cr op : touches apart (removeModule config cr op).
Proof.
  unfold removeModule, reconcileReverseProxyServer. solve_apart.
  apply reconcileAuthorization_apart.
Qed.

Lemma removeDeploymentOwnerRef_apart cr : touches apart (removeDeploymentOwnerRef (W := W) cr).
Proof. unfold removeDeploymentOwnerRef. solve_apart. Qed.

Lemma cleanup_old_apart old new op : touches apart (cleanup_old old new op).
Proof. unfold cleanup_old. solve_apart. apply reconcileObservability_apart. Qed.
End apart.

(** ** The abstract machine

    What users see of the operator: the custom resources that exist. One turn serves one
    request. *)

Definition Request : Type := string * string.
Definition Registry : Type := Request → option Object.

Definition key_at (req : Request) : Key := (cr_kind, req).

Definition registry (m : gmap Key Object) : Registry := λ req, m !! key_at req.

Inductive phase := Absent | Live | Dying.

Definition phase_of (o : option Object) : phase :=
  match o with
  | None => Absent
  | Some o => if is_deleting o then Dying else Live
  end.

(** A resource is neither created nor marked for deletion, and only one that is being deleted
    can go away. *)
Inductive ages : relation phase :=
  | ages_stays p : ages p p
  | ages_goes : ages Dying Absent.

#[export] Instance ages_preorder : PreOrder ages.
Proof.
  split; [constructor|]. intros p q r [] E; [done|]. inversion E. constructor.
Qed.

Record turn (req : Request) (r r' : Registry) : Prop := mkTurn {
  turn_others : ∀ other, other ≠ req → r' other = r other;
  turn_own : ages (phase_of (r req)) (phase_of (r' req))
}.

#[export] Instance turn_preorder req : PreOrder (turn req).
Proof.
  split; [done|]. intros r1 r2 r3 [E1 O1] [E2 O2]. split; [|by etrans].
  intros other Ho. by rewrite E2, E1.
Qed.

(** Requests that are served one after the other. *)
Inductive turns : list Request → relation Registry :=
  | turns_none r : turns [] r r
  | turns_next req reqs r1 r2 r3 :
      turn req r1 r2 → turns reqs r2 r3 → turns (req :: reqs) r1 r3.

Lemma turns_others reqs r r' : turns reqs r r' → ∀ req, req ∉ reqs → r' req = r req.
Proof.
  induction 1 as [|req reqs r1 r2 r3 [Ho _] _ IH]; [done|].
  intros q [Hq Hqs]%not_elem_of_cons. by rewrite IH, Ho.
Qed.

Lemma turns_ages reqs r r' : turns reqs r r' → ∀ req, ages (phase_of (r req)) (phase_of (r' req)).
Proof.
  induction 1 as [|req reqs r1 r2 r3 [Ho Hown] _ IH]; [done|].
  intros q. etrans; [|apply IH]. destruct (decide (q = req)) as [->|Hq]; [done|by rewrite Ho].
Qed.

(** ** What the API server guarantees for custom resources

    Updating or writing the status of one creates none, and neither sets nor clears its
    deletion timestamp. A resource that is being deleted may go with an update, and goes with
    the update that takes away the last finalizer. *)
Class RegistryLaws (W : Type) `{Client W} `{!View W} : Prop := {
  update_ages cr w r w' : api_Update (OCSM cr) w = (r, w') →
    ages (phase_of (view w !! cr_key cr)) (phase_of (view w' !! cr_key cr));
  status_ages cr w r w' : api_StatusUpdate (OCSM cr) w = (r, w') →
    phase_of (view w' !! cr_key cr) = phase_of (view w !! cr_key cr);
  update_drops cr w o w' : api_Update (OCSM cr) w = (inr o, w') →
    dying (view w) (cr_key cr) → om_Finalizers (cr_Meta cr) = [] → view w' !! cr_key cr = None
}.

#[export] Instance store_registry_laws : RegistryLaws Store.
Proof.
  split; cbn [api_Update api_StatusUpdate store_client]; unfold guarded, view, stored_view;
    intros cr w r w'.
  - destruct (refused _ _ _); [by intros [= <- <-]|].
    fold (cr_key cr). destruct (stored w !! cr_key cr) as [old|] eqn:E; intros [= <- <-];
      [|by rewrite E].
    rewrite stored_put_or_drop, answer_key, answer_deleting, decide_True by done. simpl.
    destruct (is_deleting old) eqn:D; simpl; [case_match; [apply ages_goes|]|];
      simpl; by rewrite answer_deleting, D.
  - destruct (refused _ _ _); [by intros [= <- <-]|].
    fold (cr_key cr). destruct (stored w !! cr_key cr) as [old|] eqn:E; intros [= <- <-];
      [|by rewrite E].
    pose proof (store_status_key old (OCSM cr)) as K. cbn [store_status] in K.
    rewrite stored_put, K, (stored_key _ _ _ E), decide_True by done.
    by destruct old.
  - destruct (refused _ _ _); [done|]. fold (cr_key cr).
    destruct (stored w !! cr_key cr) as [old|] eqn:E; intros [= <- <-].
    intros (old' & E' & D) Hf. rewrite E in E'. injection E' as <-.
    rewrite stored_put_or_drop, answer_key, answer_deleting, D, decide_True by done.
    simpl. rewrite bool_decide_true; [done|]. by destruct old.
Qed.

(** ** The reconciler as such a machine *)

Section refinement.
Context {W : Type} `{Client W} `{!View W} `{!ClientLaws (W := W)} `{!RegistryLaws W} `{Host}
  `{MapOrder} `{JSON} `{URLs} `{!Retry W} `{!RetryLaws W} `{!Informers W} `{!InformerLaws W}
  `{!DriverPackage W} `{!ModulePackage W} `{!Discovery W}
  `{!DriverLaws (W := W)} `{!ModuleLaws (W := W)}
  `{!DriverFrames W} `{!ModuleFrames W} `{!DiscoveryFrames W}.
#[local] Set Default Proof Using "All".

(** a turn for [req], on the objects of the cluster *)
Definition turned (req : Request) (m m' : gmap Key Object) : Prop :=
  turn req (registry m) (registry m').

#[local] Instance turned_preorder (req : Request) : PreOrder (turned req).
Proof using. split; unfold turned; [by intros m|]. intros m1 m2 m3 E1 E2. by etrans. Qed.

Lemma aside_turned (req : Request) (m m' : gmap Key Object) : aside m m' → turned req m m'.
Proof using.
  intros E. assert (∀ q, registry m' q = registry m q) as Er.
  { intros q. apply E. unfold apart. by intros []. }
  split; [by intros q _|]. by rewrite Er.
Qed.

Lemma within_turned (req : Request) {A} (m : M (World W) A) :
  touches apart m → within (turned req) (λ _, True) m.
Proof.
  intros Hm%within_aside. eapply within_weaken; [exact Hm| |done].
  intros x y. apply aside_turned.
Qed.

Lemma yields_turned (req : Request) {A} (Q : A → Prop) (m : M (World W) A) :
  yields Q m → within (turned req) Q m.
Proof. intros Hm. eapply within_weaken; [exact Hm| |done]. intros x y. apply aside_turned. Qed.

Lemma own_turned (req : Request) (m m' : gmap Key Object) :
  (∀ k, k ≠ key_at req → m' !! k = m !! k) →
  ages (phase_of (registry m req)) (phase_of (registry m' req)) → turned req m m'.
Proof using. intros E A. split; [|done]. intros q Hq. apply E. unfold key_at. congruence. Qed.

Lemma updateCSM_turned (req : Request) cr :
  cr_key cr = key_at req →
  within (turned req) (λ cr', cr_key cr' = key_at req) (updateCSM (W := W) cr).
Proof.
  intros Hk w r w' E. pose proof (updateCSM_spec _ _ _ _ E) as [Hf Hr].
  fold (cr_key cr) in Hf, Hr. rewrite Hk in Hf, Hr. split.
  - apply own_turned; [done|]. unfold updateCSM, mbind, M_bind in E.
    destruct (call _ _ w) as [r1 w1] eqn:C. apply call_inv in C as (r0 & C & ->).
    apply update_ages in C. rewrite Hk in C.
    assert (w' = w1) as -> by (destruct r0 as [|[]]; by injection E). exact C.
  - intros cr' ->. by destruct (Hr cr' eq_refl).
Qed.

Lemma statusUpdate_turned (req : Request) cr :
  cr_key cr = key_at req →
  within (turned req) (λ _, True) (statusUpdate (W := W) (OCSM cr)).
Proof.
  intros Hk w r w' E. split; [|done]. pose proof (statusUpdate_spec _ _ _ _ E) as [Hf _].
  fold (cr_key cr) in Hf. rewrite Hk in Hf. apply own_turned; [done|].
  apply call_inv in E as (r0 & E & _). apply status_ages in E. rewrite Hk in E.
  unfold registry, seen. by rewrite E.
Qed.

Lemma retried_turned (req : Request) f w r w' :
  within (turned req) (λ _, True) f → retried f w r w' → turned req (seen (W := W) w) (seen w').
Proof.
  intros Hf. induction 1 as [w r w' E|w e w1 r w' E _ _ IH]; [by apply (Hf _ _ _ E)|].
  etrans; [by apply (Hf _ _ _ E)|done].
Qed.

Lemma put_status_turned (req : Request) cr :
  cr_key cr = key_at req → within (turned req) (λ _, True) (put_status (W := W) cr).
Proof.
  intros Hk. apply (within_bind _ (λ csm, cr_key csm = key_at req)).
  - intros w r w' E. split; [exact (proj1 (within_turned req _ (touches_getT apart _ _ _) _ _ _ E))|].
    intros csm ->. apply getT_key in E. rewrite <- Hk. exact E.
  - intros csm Hcsm. by apply statusUpdate_turned.
Qed.

Lemma UpdateStatus_turned (req : Request) h p op ov :
  cr_key (in_cr h) = key_at req →
  within (turned req) (λ '(h', _), cr_key (in_cr h') = key_at req) (UpdateStatus h p op ov).
Proof.
  intros Hk. unfold UpdateStatus.
  apply (within_bind _ (λ '(h', _, _), cr_key (in_cr h') = key_at req)).
  { intros w r w' E. split.
    - apply aside_turned. intros k _. by rewrite (reads_seen _ _ _ _ (calculateState_reads _ _ _ _) E).
    - intros [[h1 b] err] ->. apply calculateState_inv in E as ((_ & Em & _) & _).
      unfold cr_key, obj_key in *. simpl in *. by rewrite Em. }
  intros [[h1 running] merr] Hk1. destruct (record_applied_spec h1 p running) as [(_ & Em & _) _].
  assert (cr_key (in_cr (record_applied h1 p running)) = key_at req) as Hk2.
  { unfold cr_key, obj_key in *. simpl in *. by rewrite Em. }
  apply within_then; [apply _| |].
  - intros w r w' E. split; [|done]. unfold attempt in E.
    destruct (RetryOnConflict _ w) as [ru wu] eqn:R. apply retry_runs in R.
    apply retried_turned with (req := req) in R; [|by apply put_status_turned].
    destruct ru; by injection E as <- <-.
  - intros [e|[]]; [|destruct running]; by apply within_ret; [apply _|].
Qed.

(** *** The parts of a reconciliation *)

Lemma oldStandAloneModuleCleanup_turned (req : Request) cr op :
  cr_key cr = key_at req →
  within (turned req) (λ '(cr', _), cr_key cr' = key_at req) (oldStandAloneModuleCleanup cr op).
Proof.
  intros Hk. unfold oldStandAloneModuleCleanup. apply within_then; [apply _| |intros []].
  { apply within_turned. case_decide; solve_touches. apply cleanup_old_apart. }
  apply within_then; [apply _|apply within_turned; solve_touches|]. intros out.
  destruct (om_Annotations _) as [annotations|]; [|by apply within_lift; [apply _|]].
  eapply within_bind; [apply _|by apply (updateCSM_turned req)|]. intros cr' Hk'.
  by apply within_ret; [apply _|].
Qed.

Lemma SyncCSM_turned (req : Request) config cr op :
  cr_key cr = key_at req →
  within (turned req) (λ cr', cr_key cr' = key_at req) (SyncCSM config cr op).
Proof.
  intros Hk. unfold SyncCSM. apply within_then; [apply _| |intros matched].
  { apply within_turned. unfold ResolveVersionFromConfigMap, FetchConfigMap. solve_apart. }
  destruct (enabled cr AuthorizationServer).
  { apply within_then; [apply _| |intros []].
    - apply within_turned. unfold reconcileAuthorizationCRDS, auth_component_enabled. solve_apart.
    - apply within_then; [apply _| |intros []; by apply within_ret; [apply _|]].
      apply within_turned, touches_orFail, reconcileAuthorization_apart. }
  apply within_then; [apply _|apply within_turned, touches_IsReverseProxySidecar|intros sidecar].
  apply within_then; [apply _| |intros []].
  { apply within_turned. unfold reconcileReverseProxyServer. solve_apart. }
  apply within_then; [apply _| |intros []].
  { apply within_turned. unfold reconcileReplicationCRDS. solve_apart. }
  eapply within_bind; [apply _|apply yields_turned, getDriverConfig_kinds|].
  intros [[[d|] cr1] m1] [K1 Kd]; [|apply within_ret; [apply _|congruence]].
  eapply within_bind; [apply _|apply oldStandAloneModuleCleanup_turned; congruence|].
  intros [cr2 annotations] _.
  apply (within_bind _ config_kinds).
  { apply yields_turned. case_decide; [by apply adapt_powermax_kinds, Kd|].
    apply within_ret; [apply _|]. by apply Kd. }
  intros d2 K2. apply within_then; [apply _| |intros isHarvester].
  { apply within_turned. unfold IsHarvester. solve_apart. }
  apply (within_bind _ config_kinds).
  { apply yields_turned. case_decide; [by apply adapt_powerflex_kinds|].
    by apply within_ret; [apply _|]. }
  intros d3 K3. eapply within_bind; [apply _|by apply yields_turned, inject_modules_kinds|].
  intros [d4 cr4] K4. apply within_then; [apply _|by apply within_turned, sync_driver_apart|].
  intros []. apply within_ret; [apply _|]. by rewrite <- Hk, <- K1.
Qed.

(** A check leaves the cluster alone and the metadata of the resource as it is. *)
Definition keeps_meta_of (cr : CSM) (r : CSM * option error) : Prop := cr_Meta (fst r) = cr_Meta cr.

Lemma passed_meta cr : yields (keeps_meta_of cr) (passed (W := W) cr).
Proof. by apply within_ret; [apply _|]. Qed.
Lemma failed_meta cr e : yields (keeps_meta_of cr) (failed (W := W) cr e).
Proof. by apply within_ret; [apply _|]. Qed.

Lemma checked_meta cr (m : M (World W) (CSM * option error)) wrap k :
  yields (keeps_meta_of cr) m →
  (∀ cr', cr_Meta cr' = cr_Meta cr → yields (keeps_meta_of cr) (k cr')) →
  yields (keeps_meta_of cr) (checked m wrap k).
Proof.
  intros Hm Hk. eapply within_bind; [apply _|exact Hm|]. intros [cr' [e|]] Hcr'; [|by apply Hk].
  by apply within_ret; [apply _|].
Qed.

Lemma check_meta {A} cr0 cr (m : M (World W) A) wrap k :
  cr_Meta cr = cr_Meta cr0 → touches apart m → (∀ a, yields (keeps_meta_of cr0) (k a)) →
  yields (keeps_meta_of cr0) (check cr m wrap k).
Proof.
  intros Hcr Hm Hk. apply within_then; [apply _|by apply within_aside, touches_attempt|].
  intros [e|a]; [|done]. by apply within_ret; [apply _|].
Qed.

Lemma keeping_meta flag f cr op :
  check_keeps flag f → touches apart (f cr op) → yields (keeps_meta_of cr) (f cr op).
Proof.
  intros Hf Ht w r w' E. split; [intros k Hk; exact (Ht _ _ _ E k Hk)|].
  intros [cr' err] ->. by apply Hf, keeps_meta in E.
Qed.

Lemma precheck_driver_meta cr op : yields (keeps_meta_of cr) (precheck_driver cr op).
Proof.
  pose proof (driver_checks (W := W)) as L. rewrite !Forall_cons in L.
  destruct L as (L1 & L2 & L3 & L4 & L5 & L6 & _). unfold precheck_driver, ZoneValidation.
  repeat case_decide;
    try (apply checked_meta; [eapply keeping_meta; [eassumption|solve_apart]|intros cr' Hcr']).
  all: try (by apply within_ret; [apply _|]).
  - apply check_meta; [done|solve_apart|]. intros _. by apply within_ret; [apply _|].
  - case_match; [apply passed_meta|apply failed_meta].
Qed.

Lemma precheck_module_meta cr op m : yields (keeps_meta_of cr) (precheck_module cr op m).
Proof.
  pose proof (module_checks (W := W)) as L. rewrite !Forall_cons in L.
  destruct L as (L1 & L2 & L3 & L4 & L5 & L6 & _). unfold precheck_module.
  destruct (m_Enabled m); [|apply passed_meta].
  repeat case_decide; try apply failed_meta; (apply checked_meta;
    [|intros cr' Hcr'; by apply within_ret; [apply _|]]).
  - apply (keeping_meta eq (λ cr op, AuthorizationPrecheck op m cr)); [apply L1|solve_apart].
  - apply (keeping_meta eq (λ cr op, AuthorizationServerPrecheck op m cr)); [apply L2|solve_apart].
  - apply (keeping_meta eq (λ cr op, ReplicationPrecheck op m cr)); [apply L3|solve_apart].
  - apply (keeping_meta eq (λ cr op, ResiliencyPrecheck op m cr)); [apply L4|solve_apart].
  - apply (keeping_meta eq (λ cr op, ObservabilityPrecheck op m cr)); [apply L5|solve_apart].
  - apply (keeping_meta eq (λ cr op, ReverseProxyPrecheck op m cr)); [apply L6|solve_apart].
Qed.

Lemma precheck_modules_meta op n i cr : yields (keeps_meta_of cr) (precheck_modules op n i cr).
Proof.
  revert i cr. induction n as [|n IH]; intros i cr; simpl; [apply passed_meta|].
  destruct (_ !! i) as [m|]; [|by apply within_lift; [apply _|]].
  apply checked_meta; [apply precheck_module_meta|]. intros cr' Hcr'.
  eapply within_weaken; [apply IH|done|]. intros r. unfold keeps_meta_of. congruence.
Qed.

Lemma PreChecks_meta cr op : yields (keeps_meta_of cr) (PreChecks cr op).
Proof.
  unfold PreChecks. apply checked_meta; [apply precheck_driver_meta|]. intros cr' Hcr'.
  apply check_meta; [done|apply touches_lift|]. intros [|]; [|by apply within_ret; [apply _|]].
  apply check_meta; [done|apply touches_lift|]. intros _.
  apply check_meta; [done|unfold check_owner; solve_touches|]. intros _.
  eapply within_weaken; [apply precheck_modules_meta|done|].
  intros r. unfold keeps_meta_of. congruence.
Qed.

Lemma touches_orEvent P {A} (m : M (World W) A) reason msg wrap :
  touches P m → touches P (orEvent m reason msg wrap).
Proof. intros Hm. unfold orEvent. solve_touches. Qed.

Lemma within_orEvent (req : Request) {A} (Q : A → Prop) (m : M (World W) A) reason msg wrap :
  within (turned req) Q m → within (turned req) Q (orEvent m reason msg wrap).
Proof.
  intros Hm. eapply within_bind; [apply _|by apply within_attempt; [apply _|]|].
  intros [e|a] Ha; [|by apply within_ret; [apply _|]; apply Ha].
  apply within_then; [apply _|apply within_turned, touches_recordEvent|]. intros [].
  apply within_fail; apply _.
Qed.

Lemma touches_on_watches P f : touches P (on_watches (W := W) f).
Proof.
  intros w r w' E k _. unfold on_watches in E. destruct (f (w_watches w)); by injection E as <- <-.
Qed.

Lemma removeFinalizer_turned (req : Request) cr :
  cr_key cr = key_at req →
  within (turned req) (λ cr', cr_key cr' = key_at req) (removeFinalizer (W := W) cr).
Proof.
  intros Hk. unfold removeFinalizer. destruct (HasFinalizer _ _); [by apply updateCSM_turned|].
  by apply within_ret; [apply _|].
Qed.

Lemma reconcile_delete_turned (req : Request) config cr op :
  cr_key cr = key_at req → within (turned req) (λ _, True) (reconcile_delete config cr op).
Proof.
  intros Hk. unfold reconcile_delete.
  apply within_then; [apply _|apply within_turned, touches_lift|intros force].
  apply within_then; [apply _| |intros []].
  { apply within_turned. destruct force; [apply touches_orEvent, removeDriver_apart|].
    apply touches_ignoreErr, removeDeploymentOwnerRef_apart. }
  apply within_then; [apply _| |intros []].
  { apply within_turned, touches_forM. intros m. destruct (m_ForceRemoveModule m);
      [apply touches_orEvent, removeModule_apart|apply touches_ret]. }
  eapply within_bind; [apply _|by apply within_orEvent, (removeFinalizer_turned req)|].
  intros cr' Hk'. apply within_turned. solve_touches; apply touches_on_watches.
Qed.

Lemma applyConfigVersionAnnotations_key cr op :
  cr_key (fst (applyConfigVersionAnnotations cr op)) = cr_key cr.
Proof. unfold applyConfigVersionAnnotations. by repeat case_match. Qed.

Lemma ContentWatch_touches P : touches P (ContentWatch (W := W)).
Proof.
  intros w r w' E k _. unfold ContentWatch in E. revert E.
  assert (∀ n i wrap, ∃ r, orFail (AddEventHandler (W := W) n i) wrap w = (r, w)) as Ha.
  { intros n i wrap. unfold orFail. destruct (AddEventHandler n i w) as [ra wa] eqn:E.
    apply handler_keeps in E as ->. destruct ra; by eexists. }
  unfold mbind, M_bind.
  do 3 (match goal with |- context [orFail (AddEventHandler ?n ?i) ?g ?v] =>
    destruct (Ha n i g) as [r1 ->]; destruct r1; [|by intros [= <- <-]..] end).
  unfold make_channel. by intros [= <- <-].
Qed.

Lemma reconcile_update_turned (req : Request) config cr op :
  cr_key cr = key_at req → within (turned req) (λ _, True) (reconcile_update config cr op).
Proof.
  intros Hk. unfold reconcile_update.
  apply (within_bind _ (λ cr, cr_key cr = key_at req)).
  { destruct (HasFinalizer _ _); [by apply within_ret; [apply _|]|].
    apply (within_bind _ (λ cr, cr_key cr = key_at req));
      [by apply within_orEvent, updateCSM_turned|].
    intros cr1 K1. apply within_then; [apply _|apply within_turned, touches_recordEvent|].
    intros []. by apply within_ret; [apply _|]. }
  intros cr1 K1. pose proof (applyConfigVersionAnnotations_key cr1 op) as K2.
  destruct (applyConfigVersionAnnotations cr1 op) as [cr2 isUpdated]. simpl in K2.
  apply (within_bind _ (λ cr, cr_key cr = key_at req)).
  { destruct isUpdated; [apply updateCSM_turned|apply within_ret; [apply _|]]; congruence. }
  intros cr3 K3. apply (within_bind _ (λ '(h, _), cr_key (in_cr h) = key_at req)).
  { intros w r w' E. split.
    - apply aside_turned. intros k _. unfold HandleSuccess in E. revert k.
      intros k. assert (reads (HandleSuccess (mkInstance cr3 ∅) GetCSMStatus GetCSMStatus op)) as Hr.
      { unfold HandleSuccess, reads. apply touches_bind; [apply calculateState_reads|].
        intros [[h b] err]. solve_touches. }
      by rewrite (reads_seen _ _ _ _ Hr E).
    - intros [h res] ->. apply HandleSuccess_spec in E as (_ & (_ & Em & _) & _).
      unfold cr_key, obj_key in *. simpl in *. by rewrite Em. }
  intros [h requeue] Kh.
  eapply within_bind; [apply _|apply within_attempt; [apply _|by apply SyncCSM_turned]|].
  intros [e|synced] Ks; [apply within_turned; solve_touches|].
  destruct (Requeue requeue); [apply within_turned; solve_touches|].
  eapply within_bind; [apply _|apply (UpdateStatus_turned req); by apply (Ks synced)|].
  intros [h' err] _. apply within_turned.
  solve_touches; first [apply ContentWatch_touches|apply touches_on_watches].
Qed.

Lemma with_defaults_meta cr op cr' : with_defaults cr op = Ok cr' → cr_Meta cr' = cr_Meta cr.
Proof.
  unfold with_defaults. intros E. apply outcome_bind_Ok in E as (cr1 & E1 & E).
  apply LoadDefaultComponents_run in E1 as [E1 _]. apply ext_meta in E1.
  assert (cr_Meta cr1 = cr_Meta cr) as Em.
  { rewrite E1. unfold default_force_remove.
    by destruct (d_ForceRemoveDriver (sp_Driver (cr_Spec cr))). }
  destruct (HasModule cr1 AuthorizationServer); [|by injection E as <-].
  apply outcome_bind_Ok in E as (v & _ & E). by injection E as <-.
Qed.

Lemma IncrUpdateCount_touches P : touches P (IncrUpdateCount (W := W)).
Proof. by intros w r w' [= <- <-]. Qed.

Lemma same_meta_key cr cr' : cr_Meta cr' = cr_Meta cr → cr_key cr' = cr_key cr.
Proof. unfold cr_key, obj_key. simpl. by intros ->. Qed.

Lemma Reconcile_turned config ns name :
  within (turned (ns, name)) (λ _, True) (Reconcile config ns name).
Proof.
  unfold Reconcile.
  apply within_then; [apply _|apply within_turned, IncrUpdateCount_touches|intros []].
  eapply (within_bind _ (λ r, ∀ cr, r = inr cr → cr_key cr = key_at (ns, name))).
  { apply within_attempt; [apply _|]. intros w r w' E. split.
    - exact (proj1 (within_turned (ns, name) _ (touches_getT apart CSM ns name) _ _ _ E)).
    - intros cr ->. by apply getT_key in E. }
  intros [e|cr] Hk; [by apply within_ret; [apply _|]|]. specialize (Hk cr eq_refl).
  apply (within_bind _ (λ cr, cr_key cr = key_at (ns, name))).
  { apply within_lift; [apply _|]. intros cr' E%with_defaults_meta%same_meta_key. congruence. }
  intros cr1 K1. eapply within_bind; [apply _|apply yields_turned, PreChecks_meta|].
  intros [cr2 p] K2. apply same_meta_key in K2. simpl in K2. destruct p as [err|].
  - apply within_then; [apply _|apply within_turned, touches_recordEvent|intros []].
    unfold HandleValidationError. apply within_then; [apply _| |intros []].
    + eapply within_ignoreErr; [apply _|]. apply statusUpdate_turned. etrans; [|exact K1]. exact K2.
    + apply within_fail; apply _.
  - destruct (IsBeingDeleted cr2); [apply reconcile_delete_turned|apply reconcile_update_turned];
      congruence.
Qed.

(** The requests of the work queue, one after the other: an error of one is logged and does not
    keep the next from being served; a panic ends the process. *)
Definition serve (config : OperatorConfig) (reqs : list Request) : M (World W) () :=
  forM (λ '(ns, name), ignoreErr (Reconcile config ns name)) reqs.

Lemma serve_turns config reqs w r w' :
  serve config reqs w = (r, w') →
  ∃ served, served `prefix_of` reqs ∧ (r = Ok () → served = reqs)
    ∧ turns served (registry (seen w)) (registry (seen w')).
Proof.
  unfold serve. revert w. induction reqs as [|[ns name] reqs IH]; intros w E.
  { injection E as <- <-. exists []. split_and!; [done|done|constructor]. }
  cbn [forM] in E. unfold mbind, M_bind in E. destruct (ignoreErr _ w) as [r1 w1] eqn:E1.
  apply (within_ignoreErr (turned (ns, name)) (λ _, True)) in E1 as [T1 _];
    [|apply Reconcile_turned].
  destruct r1 as [[]|e|y].
  - apply IH in E as (served & Hp & Hs & Ht). exists ((ns, name) :: served). split_and!.
    + by apply prefix_cons.
    + intros ->. by rewrite Hs.
    + by econstructor.
  - injection E as <- <-. exists [(ns, name)]. split_and!; [|done|].
    + apply prefix_cons, prefix_nil.
    + econstructor; [exact T1|constructor].
  - injection E as <- <-. exists [(ns, name)]. split_and!; [|done|].
    + apply prefix_cons, prefix_nil.
    + econstructor; [exact T1|constructor].
Qed.

(** The reconciler refines the machine of [turn]: whatever the API server answers, serving a
    list of requests runs a prefix of them as turns, all of them unless one panics. So a custom
    resource that is not asked for stays exactly as it is, and the operator neither creates a
    resource nor marks one for deletion, and makes none go away that is not being deleted. *)
Lemma serve_refines_run config reqs w r w' :
  serve config reqs w = (r, w') →
  (∃ served, served `prefix_of` reqs ∧ (r = Ok () → served = reqs)
     ∧ turns served (registry (seen w)) (registry (seen w')))
  ∧ (∀ req, req ∉ reqs → registry (seen w') req = registry (seen w) req)
  ∧ ∀ req, ages (phase_of (registry (seen w) req)) (phase_of (registry (seen w') req)).
Proof.
  intros E. pose proof (serve_turns _ _ _ _ _ E) as (served & [rest Hp] & Hs & Ht).
  split; [exists served; split_and!; [by exists rest|done..]|]. split.
  - intros req Hreq. apply (turns_others _ _ _ Ht). rewrite Hp in Hreq.
    intros Hin. apply Hreq, elem_of_app. by left.
  - by apply turns_ages with served.
Qed.

(** ** A deletion that is not stopped by an error completes *)

Lemma apart_dying {A} (m : M (World W) A) req w r w' :
  touches apart m → m w = (r, w') → dying (seen w) (key_at req) → dying (seen w') (key_at req).
Proof.
  intros Hm E. apply dying_eq. symmetry. apply (Hm _ _ _ E). unfold apart. by intros [].
Qed.

Lemma removeFinalizer_drops req cr w cr' w' :
  removeFinalizer cr w = (Ok cr', w') → cr_key cr = key_at req →
  HasFinalizer cr CSMFinalizerName = true → dying (seen w) (key_at req) →
  registry (seen w') req = None.
Proof.
  unfold removeFinalizer, updateCSM, mbind, M_bind. intros E Hk Hf Hd. rewrite Hf in E.
  destruct (call _ _ w) as [r1 w1] eqn:C. apply call_inv in C as (r0 & C & ->).
  destruct r0 as [e|o]; [done|]. assert (w' = w1) as -> by (destruct o; by injection E).
  apply update_drops in C; [|unfold seen in Hd; by rewrite <- Hk in Hd|done].
  unfold registry. rewrite <- Hk. exact C.
Qed.

Lemma reconcile_delete_drops req config cr op w r w' :
  reconcile_delete config cr op w = (Ok r, w') → cr_key cr = key_at req →
  HasFinalizer cr CSMFinalizerName = true → dying (seen w) (key_at req) →
  registry (seen w') req = None ∧ wa_channels (w_watches w') !! req.2 = None.
Proof.
  intros E Hk Hf Hd. unfold reconcile_delete in E.
  apply M_bind_Ok in E as (force & w0 & Ef & E). injection Ef as Ef <-.
  apply M_bind_Ok in E as ([] & w1 & E1 & E). apply M_bind_Ok in E as ([] & w2 & E2 & E).
  apply M_bind_Ok in E as (cr' & w3 & E3 & E). apply orEvent_Ok in E3.
  apply M_bind_Ok in E as ([] & w4 & E4 & E). apply on_watches_Ok in E4 as (wa & E4 & ->).
  injection E as _ <-. eapply apart_dying in Hd; [|clear E2|exact E1].
  2:{ destruct force; [apply touches_orEvent, removeDriver_apart|].
      apply touches_ignoreErr, removeDeploymentOwnerRef_apart. }
  eapply apart_dying in Hd; [| |exact E2].
  2:{ apply touches_forM. intros m. destruct (m_ForceRemoveModule m);
        [apply touches_orEvent, removeModule_apart|apply touches_ret]. }
  split; [by apply (removeFinalizer_drops req) in E3|].
  assert (cr_Name cr' = req.2) as <-; [|by eapply stop_channel_gone].
  apply (removeFinalizer_turned req) in E3 as [_ E3]; [|done]. specialize (E3 cr' eq_refl).
  by injection E3 as <-.
Qed.

(** A deletion completes: when the resource that is asked for is being deleted and still has
    the operator's finalizer, and the reconciliation reports success, then the resource is gone
    from the cluster, every other one is as it was, and no content watch of it is left. *)
Lemma deletion_completes_run config ns name cr api w r w' :
  api_Get (key_at (ns, name)) (w_api w) = (inr (OCSM cr), api) →
  IsBeingDeleted cr = true → HasFinalizer cr CSMFinalizerName = true →
  Reconcile config ns name w = (Ok r, w') →
  registry (seen w') (ns, name) = None
  ∧ (∀ other, other ≠ (ns, name) → registry (seen w') other = registry (seen w) other)
  ∧ wa_channels (w_watches w') !! name = None.
Proof.
  intros G Hdel Hfin E. pose proof (Reconcile_turned config ns name _ _ _ E) as [[To _] _].
  unfold Reconcile in E. apply M_bind_Ok in E as ([] & w0 & E0 & E). injection E0 as <-.
  apply M_bind_Ok in E as (g & w1 & E1 & E).
  assert (w_api w1 = api ∧ g = inr cr) as [<- ->].
  { unfold attempt, getT, getObject, call, mbind, M_bind in E1. cbn [w_api] in E1.
    change (key_at (ns, name)) with (kind_of CSM, (ns, name)) in G. rewrite G in E1.
    by injection E1 as <- <-. }
  apply M_bind_Ok in E as (cr1 & w2 & E2 & E). injection E2 as E2 <-.
  apply with_defaults_meta in E2. pose proof G as [Hs [Hg Hk]]%get_reads.
  apply M_bind_Ok in E as ([cr2 p] & w3 & E3 & E).
  apply PreChecks_meta in E3 as [A3 K3]. specialize (K3 _ eq_refl). unfold keeps_meta_of in K3.
  simpl in K3. destruct p as [e|].
  { apply M_bind_Ok in E as ([] & w4 & _ & E). unfold HandleValidationError in E.
    by apply M_bind_Ok in E as ([] & w5 & _ & E). }
  assert (cr_Meta cr2 = cr_Meta cr) as Em by congruence.
  assert (IsBeingDeleted cr2 = true) as Hdel2 by (unfold IsBeingDeleted in *; by rewrite Em).
  rewrite Hdel2 in E. apply (reconcile_delete_drops (ns, name)) in E as [E Hw].
  - done.
  - rewrite <- Hk. by apply same_meta_key.
  - unfold HasFinalizer in *. by rewrite Em.
  - exists (OCSM cr). split; [|done]. rewrite A3 by (unfold apart; by intros []).
    unfold seen. by rewrite Hs.
Qed.
End refinement.
