(* ===== verification/Spares.v ===== *)
(** Calls that delete nothing: the API server sets a deletion mark, or takes an object away that
    has none, only when it is asked to. So an object that was put there is still there after
    calls that never ask ([spares]), and a sequence of such calls leaves every object that one of
    them puts there ([brings]). With it: that syncing a driver brings all its objects. *)

From S2P Require Import Prelude.
From S2P Require Import GoStrings.
From S2P Require Import Types.
From S2P Require Import Versions.
From S2P Require Import Modules.
From S2P Require Import Images.
From S2P Require Import Cluster.
From S2P Require Import Resources.
From S2P Require Import Status.
From S2P Require Import Packages.
From S2P Require Import Manifests.
From S2P Require Import Watch.
From S2P Require Import Sync.
From S2P Require Import Controller.
From S2P Require Import Frames.
From S2P Require Import Isolation.
From stdpp Require Import options.

Local Open Scope stdpp_scope.

(** ** Objects last *)

(** Of the objects with a key in [P] none is newly marked for deletion, and none goes away but
    those marked already. *)
Definition lasts (P : Key → Prop) (m m' : gmap Key Object) : Prop := ∀ k, P k →
  (dying m' k → dying m k) ∧ (is_Some (m !! k) → is_Some (m' !! k) ∨ dying m k).

#[export] Instance lasts_preorder P : PreOrder (lasts P).
Proof.
  split; [by intros m k _; auto|]. intros m1 m2 m3 L1 L2 k Pk.
  destruct (L1 k Pk) as [D1 S1], (L2 k Pk) as [D2 S2]. split; [by auto|].
  intros [S|D]%S1; [|by right]. apply S2 in S as [S|D]; auto.
Qed.

Lemma lasts_weaken (P Q : Key → Prop) m m' : (∀ k, P k → Q k) → lasts Q m m' → lasts P m m'.
Proof. intros I L k Pk. by apply L, I. Qed.

Lemma lasts_same (P : Key → Prop) m m' : (∀ k, P k → m' !! k = m !! k) → lasts P m m'.
Proof. intros E k Pk. unfold dying. rewrite (E k Pk). auto. Qed.

(** [m] deletes no object with a key in [P] *)
Abbreviation spares P m := (within (lasts P) (λ _, True) m).

(** What a request asks of its driver, without what the API server or the operator fill in when
    it is left out: the number of replicas, the metrics, and whether the driver is removed with
    the resource. *)
Definition asked (d : Driver) : Driver :=
  mkDriver (d_CSIDriverType d) (d_CSIDriverSpec d) (d_ConfigVersion d) 0 (d_DNSPolicy d)
    (d_Common d) (d_Controller d) (d_Node d) (d_SideCars d) (d_InitContainers d)
    (d_SnapshotClass d) (d_AuthSecret d) (d_TLSCertSecret d) None None.

Definition module_names (cr : CSM) : list string := m_Name <$> sp_Modules (cr_Spec cr).

(** The same resource, asking for the same version and driver, for images of the same registry,
    and for the same modules, by their names. *)
Record alike (cr cr' : CSM) : Prop := {
  alike_name : cr_Name cr' = cr_Name cr;
  alike_namespace : cr_Namespace cr' = cr_Namespace cr;
  alike_version : sp_Version (cr_Spec cr') = sp_Version (cr_Spec cr);
  alike_registry : sp_CustomRegistry (cr_Spec cr') = sp_CustomRegistry (cr_Spec cr);
  alike_driver : asked (sp_Driver (cr_Spec cr')) = asked (sp_Driver (cr_Spec cr));
  alike_modules : module_names cr' = module_names cr
}.

#[export] Instance alike_preorder : PreOrder alike.
Proof. split; [done|]. intros cr1 cr2 cr3 [] []. split; congruence. Qed.

Lemma alike_type cr cr' : alike cr cr' → GetDriverType cr' = GetDriverType cr.
Proof. intros A. exact (f_equal d_CSIDriverType (alike_driver _ _ A)). Qed.

Lemma same_spec_alike cr cr' :
  cr_Spec cr' = cr_Spec cr → cr_Name cr' = cr_Name cr → cr_Namespace cr' = cr_Namespace cr →
  alike cr cr'.
Proof. intros E En Ens. split; unfold module_names; by rewrite ?E. Qed.

Lemma HasModule_names cr t : HasModule cr t = bool_decide (t ∈ module_names cr).
Proof.
  unfold HasModule, module_names. induction (sp_Modules (cr_Spec cr)) as [|m ms IH]; [done|].
  rewrite fmap_cons. cbn [find_module].
  destruct (decide (m_Name m = t)) as [E|E].
  - symmetry. apply bool_decide_eq_true_2. rewrite E. apply list_elem_of_here.
  - rewrite IH. apply bool_decide_ext. rewrite elem_of_cons. naive_solver.
Qed.

Lemma alike_HasModule cr cr' t : alike cr cr' → HasModule cr' t = HasModule cr t.
Proof. intros A. by rewrite !HasModule_names, (alike_modules _ _ A). Qed.

(** The documented behaviour of the API server: creating, updating and applying an object, and
    writing its status, sets no deletion mark, and makes no object go away that has none; an
    update of a custom resource answers with the resource as it was sent, in which the defaults
    of its definition fill only what is left out (replicas and the port of the metrics). *)
Class DeletionLaws (W : Type) `{Client W} `{!View W} : Prop := {
  create_lasts o w r w' : api_Create o w = (r, w') → lasts (λ _, True) (view w) (view w');
  update_lasts o w r w' : api_Update o w = (r, w') → lasts (λ _, True) (view w) (view w');
  status_lasts o w r w' : api_StatusUpdate o w = (r, w') → lasts (λ _, True) (view w) (view w');
  apply_lasts o w r w' : api_Apply o w = (r, w') → lasts (λ _, True) (view w) (view w');
  update_alike cr w cr' w' :
    api_Update (OCSM cr) w = (inr (OCSM cr'), w') → alike cr cr'
}.

(** an object that is written in place of [old] *)
Lemma lasts_replaced (old o : Object) (m m' : gmap Key Object) :
  m !! obj_key o = Some old → (∀ k, k ≠ obj_key o → m' !! k = m !! k) →
  (is_deleting old = false → ∃ o', m' !! obj_key o = Some o' ∧ is_deleting o' = false) →
  lasts (λ _, True) m m'.
Proof.
  intros E F L k _. destruct (decide (k = obj_key o)) as [->|Hk].
  - unfold dying. destruct (is_deleting old) eqn:D.
    + split; intros _; [|right]; by exists old.
    + destruct (L eq_refl) as (o' & E' & D'). rewrite E'. split; [|by eauto].
      intros (o2 & [= <-] & D2). congruence.
  - unfold dying. rewrite (F k Hk). auto.
Qed.

Lemma lasts_added (o : Object) (m m' : gmap Key Object) :
  m !! obj_key o = None → (∀ k, k ≠ obj_key o → m' !! k = m !! k) →
  (∀ o', m' !! obj_key o = Some o' → is_deleting o' = false) → lasts (λ _, True) m m'.
Proof.
  intros E F L k _. destruct (decide (k = obj_key o)) as [->|Hk].
  - rewrite E. split; [|by intros []]. intros (o' & E' & D). rewrite (L o' E') in D. done.
  - unfold dying. rewrite (F k Hk). auto.
Qed.

Lemma answer_lasts (s : Store) (o old : Object) :
  stored s !! obj_key o = Some old →
  lasts (λ _, True) (stored s) (stored (put_or_drop (answer old o) s)).
Proof.
  intros E. apply (lasts_replaced old o); [done|..].
  - intros k Hk. by rewrite stored_put_or_drop, answer_key, decide_False.
  - intros D. rewrite stored_put_or_drop, answer_key, answer_deleting, D, decide_True by done.
    eexists. split; [done|]. by rewrite answer_deleting.
Qed.

Lemma fresh_lasts (s : Store) (o : Object) :
  stored s !! obj_key o = None → lasts (λ _, True) (stored s) (stored (put (fresh_object o) s)).
Proof.
  intros E. apply (lasts_added o); [done|..].
  - intros k Hk. by rewrite stored_put, fresh_object_key, decide_False.
  - intros o'. rewrite stored_put, fresh_object_key, decide_True by done. intros [= <-].
    apply fresh_object_deleting.
Qed.

Lemma store_status_deleting old o : is_deleting (store_status old o) = is_deleting old.
Proof. by destruct o, old. Qed.

#[export] Instance store_deletion_laws : DeletionLaws Store.
Proof.
  split; cbn [api_Create api_Update api_StatusUpdate api_Apply store_client];
    unfold guarded, view, stored_view; [intros o w r w'..|intros cr w cr' w'].
  1-4: (destruct (refused _ _ _); [by intros [= <- <-]|]);
    destruct (stored w !! obj_key o) as [old|] eqn:E; intros [= <- <-]; try done.
  - by apply fresh_lasts.
  - by apply answer_lasts.
  - apply (lasts_replaced old o); [done|..]; rewrite ?stored_put.
    + intros k Hk. rewrite stored_put, store_status_key, (stored_key _ _ _ E). by rewrite decide_False.
    + intros D. rewrite store_status_key, (stored_key _ _ _ E), decide_True by done.
      eexists. split; [done|]. by rewrite store_status_deleting.
  - by apply answer_lasts.
  - by apply fresh_lasts.
  - destruct (refused _ _ _); [done|]. destruct (stored w !! _) as [old|]; [|done].
    destruct old; by intros [= <- _].
Qed.

(** ** Calls that spare objects *)

Section spares.
Context {W : Type} `{Client W} `{!View W} `{!ClientLaws (W := W)} `{!DeletionLaws W}.
Context (P : Key → Prop).
#[local] Set Default Proof Using "All".

Lemma touches_spares {A} (Q : Key → Prop) (m : M (World W) A) :
  touches Q m → (∀ k, P k → ¬ Q k) → spares P m.
Proof.
  intros Hm Hd w r w' E. split; [|done]. apply lasts_same. intros k Pk. eapply Hm; [done|]. by apply Hd.
Qed.

Lemma reads_spares {A} (m : M (World W) A) : reads m → spares P m.
Proof. intros Hm. by apply (touches_spares (λ _, False)); [|tauto]. Qed.

Lemma call_spares {A} (f : W → (error + A) * W) log :
  (∀ w r w', f w = (r, w') → lasts (λ _, True) (view w) (view w')) → spares P (call f log).
Proof.
  intros Hf w r w' E. split; [|done]. apply call_inv in E as (r0 & E & _).
  eapply lasts_weaken; [|by eapply Hf]. done.
Qed.

Lemma createObject_spares o : spares P (createObject (W := W) o).
Proof. apply call_spares. intros w r w'. apply create_lasts. Qed.
Lemma updateObject_spares o : spares P (updateObject (W := W) o).
Proof.
  apply within_then; [apply _| |intros _; by apply within_ret; [apply _|]].
  apply call_spares. intros w r w'. apply update_lasts.
Qed.
Lemma updateCSM_spares cr : spares P (updateCSM (W := W) cr).
Proof.
  apply within_then; [apply _|apply call_spares; intros w r w'; apply update_lasts|].
  intros []; first [by apply within_ret; [apply _|]|apply within_fail; apply _].
Qed.
Lemma statusUpdate_spares o : spares P (statusUpdate (W := W) o).
Proof. apply call_spares. intros w r w'. apply status_lasts. Qed.
Lemma applyObject_spares o : spares P (applyObject (W := W) o).
Proof. apply call_spares. intros w r w'. apply apply_lasts. Qed.

Lemma spares_lift {A} (o : outcome A) : spares P (lift (W := World W) o).
Proof. by apply within_lift; [apply _|]. Qed.
Lemma spares_ret {A} (a : A) : spares P (mret a : M (World W) A).
Proof. by apply within_ret; [apply _|]. Qed.
Lemma spares_fail {A} e : spares P (failM e : M (World W) A).
Proof. apply within_fail; apply _. Qed.
Lemma spares_bind {A B} (m : M (World W) A) (f : A → M (World W) B) :
  spares P m → (∀ a, spares P (f a)) → spares P (m ≫= f).
Proof. apply within_then, _. Qed.
Lemma spares_bind_run {A B} (m : M (World W) A) (f : A → M (World W) B) :
  spares P m → (∀ a w w', m w = (Ok a, w') → spares P (f a)) → spares P (m ≫= f).
Proof.
  intros Hm Hf w r w' E. split; [|done]. unfold mbind, M_bind in E.
  destruct (m w) as [[a|e|y] w1] eqn:Em; pose proof (proj1 (Hm _ _ _ Em)) as L;
    [|by injection E as _ <-..].
  etrans; [exact L|]. by apply (Hf _ _ _ Em _ _ _ E).
Qed.
Lemma spares_lift_bind {A B} (o : outcome A) (f : A → M (World W) B) :
  (∀ a, o = Ok a → spares P (f a)) → spares P (lift o ≫= f).
Proof.
  intros Hf. apply spares_bind_run; [by apply within_lift; [apply _|]|].
  intros a w w' [= E _]. by apply Hf.
Qed.
Lemma spares_attempt {A} (m : M (World W) A) : spares P m → spares P (attempt m).
Proof.
  intros Hm. eapply within_weaken; [apply (within_attempt (lasts P)); exact Hm|done|done].
Qed.
Lemma spares_orFail {A} (m : M (World W) A) wrap : spares P m → spares P (orFail m wrap).
Proof. apply within_orFail, _. Qed.
Lemma spares_ignoreErr {A} (m : M (World W) A) : spares P m → spares P (ignoreErr m).
Proof. apply within_ignoreErr, _. Qed.
Lemma spares_forM {A} (f : A → M (World W) ()) xs :
  (∀ x, x ∈ xs → spares P (f x)) → spares P (forM f xs).
Proof. apply within_forM, _. Qed.
Lemma spares_when b (m : M (World W) ()) : (b = true → spares P m) → spares P (when b m).
Proof. destruct b; [auto|intros _; apply spares_ret]. Qed.
End spares.

(** Case by case, with the lemmas for the calls of the API server and those of [spares]. *)
Create HintDb spares.

Ltac solve_spares :=
  repeat first
    [ progress intros
    | progress cbv zeta
    | solve [eauto with spares]
    | solve [apply reads_spares; eauto with spares]
    | lazymatch goal with
      | |- within _ _ (_ ≫= _) => apply spares_bind
      | |- within _ _ (match _ with _ => _ end) => case_match
      | |- within _ _ (getObject _) => apply reads_spares, touches_getObject
      | |- within _ _ (getT _ _ _) => apply reads_spares, touches_getT
      | |- within _ _ (listT _ _ _) => apply reads_spares, touches_listT
      | |- within _ _ (recordEvent _ _ _) => apply reads_spares, touches_recordEvent
      | |- within _ _ (createObject _) => apply createObject_spares
      | |- within _ _ (updateObject _) => apply updateObject_spares
      | |- within _ _ (updateCSM _) => apply updateCSM_spares
      | |- within _ _ (statusUpdate _) => apply statusUpdate_spares
      | |- within _ _ (applyObject _) => apply applyObject_spares
      | |- within _ _ (attempt _) => apply spares_attempt
      | |- within _ _ (orFail _ _) => apply spares_orFail
      | |- within _ _ (ignoreErr _) => apply spares_ignoreErr
      | |- within _ _ (forM _ _) => apply spares_forM
      | |- within _ _ (when _ _) => apply spares_when
      | |- within _ _ (lift _) => apply spares_lift
      | |- within _ _ (failM _) => apply spares_fail
      | |- within _ _ (mret _) => apply spares_ret
      end ];
  try done.

(** ** Putting objects there *)

Section operations.
Context {W : Type} `{Client W} `{!View W} `{!ClientLaws (W := W)} `{!DeletionLaws W}.
Context (P : Key → Prop).
#[local] Set Default Proof Using "All".

Lemma SyncServiceAccount_spares r : spares P (SyncServiceAccount (W := W) r).
Proof. unfold SyncServiceAccount, getResource. solve_spares. Qed.
Lemma SyncClusterRole_spares r : spares P (SyncClusterRole (W := W) r).
Proof. unfold SyncClusterRole, getResource. solve_spares. Qed.
Lemma SyncRole_spares r : spares P (SyncRole (W := W) r).
Proof. unfold SyncRole, getResource. solve_spares. Qed.
Lemma SyncClusterRoleBindings_spares r : spares P (SyncClusterRoleBindings (W := W) r).
Proof. unfold SyncClusterRoleBindings, getResource. solve_spares. Qed.
Lemma SyncRoleBindings_spares r : spares P (SyncRoleBindings (W := W) r).
Proof. unfold SyncRoleBindings, getResource. solve_spares. Qed.
Lemma SyncConfigMap_spares c : spares P (SyncConfigMap (W := W) c).
Proof. unfold SyncConfigMap. solve_spares. Qed.
Lemma SyncCSIDriver_spares r : spares P (SyncCSIDriver (W := W) r).
Proof. unfold SyncCSIDriver. solve_spares. Qed.
Lemma SyncDaemonset_spares d n : spares P (SyncDaemonset (W := W) d n).
Proof. unfold SyncDaemonset. solve_spares. Qed.
Lemma SyncDeployment_spares d n : spares P (SyncDeployment (W := W) d n).
Proof. unfold SyncDeployment. solve_spares. Qed.
Lemma ApplyObject_spares o : spares P (ApplyObject (W := W) o).
Proof. unfold ApplyObject. solve_spares. Qed.
Lemma ApplyCTRLObject_spares o : spares P (ApplyCTRLObject (W := W) o).
Proof. unfold ApplyCTRLObject. solve_spares. Qed.
Lemma DeleteObject_spares o : ¬ P (obj_key o) → spares P (DeleteObject (W := W) o).
Proof. intros N. eapply touches_spares; [apply DeleteObject_touches|]. by intros k Pk <-. Qed.

(** After success every object of [ks] is there, but those that were being deleted before. *)
Definition brings (ks : list Key) (m : M (World W) ()) : Prop :=
  spares P m
  ∧ ∀ w w', m w = (Ok (), w') → ∀ k, P k → k ∈ ks → is_Some (seen w' !! k) ∨ dying (seen w) k.

Lemma brings_none m : spares P m → brings [] m.
Proof. intros Hm. split; [done|]. by intros w w' _ k _ Hk%not_elem_of_nil. Qed.

Lemma brings_ensured k m : spares P m → ensures k m → brings [k] m.
Proof. intros Hm [_ E]. split; [done|]. intros w w' R k' _ ->%list_elem_of_singleton. by eapply E. Qed.

Lemma brings_then ks1 ks2 m1 m2 : brings ks1 m1 → brings ks2 m2 → brings (ks1 ++ ks2) (_ ← m1; m2).
Proof.
  intros [S1 B1] [S2 B2]. split; [by apply spares_bind|]. intros w w' E k Pk Hk.
  apply M_bind_Ok in E as ([] & w1 & E1 & E2).
  destruct (S1 _ _ _ E1) as [L1 _], (S2 _ _ _ E2) as [L2 _].
  destruct (L1 k Pk) as [D1 _], (L2 k Pk) as [_ K2]. apply elem_of_app in Hk as [Hk|Hk].
  - destruct (B1 _ _ E1 k Pk Hk) as [X|X]; [|by right]. apply K2 in X as [X|X]; auto.
  - destruct (B2 _ _ E2 k Pk Hk) as [X|X]; auto.
Qed.

Lemma brings_cons k ks m1 m2 : brings [k] m1 → brings ks m2 → brings (k :: ks) (_ ← m1; m2).
Proof. apply (brings_then [k]). Qed.

Lemma SyncRole_brings r : rs_Kind r = "Role" → brings (named_key r) (SyncRole (W := W) r).
Proof.
  intros K. pose proof (SyncRole_named r K) as E. unfold named_key. case_decide; 
    [apply brings_none|apply brings_ensured; [|done]]; apply SyncRole_spares.
Qed.

Lemma SyncRoleBindings_brings r :
  rs_Kind r = "RoleBinding" → brings (named_key r) (SyncRoleBindings (W := W) r).
Proof.
  intros K. pose proof (SyncRoleBindings_named r K) as E. unfold named_key. case_decide;
    [apply brings_none|apply brings_ensured; [|done]]; apply SyncRoleBindings_spares.
Qed.
End operations.

(** ** What the packages promise

    Checks, injections and lookups only read; what is installed for a request deletes nothing. *)

Section interface.
Context (W : Type) `{Client W} `{!View W}.

Class DriverReads `{!DriverPackage W} : Prop := {
  PrecheckPowerScale_reads cr op : reads (PrecheckPowerScale cr op);
  PrecheckPowerFlex_reads cr op : reads (PrecheckPowerFlex cr op);
  PrecheckPowerStore_reads cr op : reads (PrecheckPowerStore cr op);
  PrecheckUnity_reads cr op : reads (PrecheckUnity cr op);
  PrecheckPowerMax_reads cr op : reads (PrecheckPowerMax cr op);
  PrecheckCosi_reads cr op : reads (PrecheckCosi cr op);
  ValidateZones_reads cr : reads (ValidateZones cr);
  GetNode_reads cr op t file matched : reads (GetNode cr op t file matched)
}.

Class ModuleReads `{!ModulePackage W} : Prop := {
  AuthorizationPrecheck_reads op m cr : reads (AuthorizationPrecheck op m cr);
  AuthorizationServerPrecheck_reads op m cr : reads (AuthorizationServerPrecheck op m cr);
  ReplicationPrecheck_reads op m cr : reads (ReplicationPrecheck op m cr);
  ResiliencyPrecheck_reads op m cr : reads (ResiliencyPrecheck op m cr);
  ObservabilityPrecheck_reads op m cr : reads (ObservabilityPrecheck op m cr);
  ReverseProxyPrecheck_reads op m cr : reads (ReverseProxyPrecheck op m cr);
  ReverseProxyInjectDeployment_reads d cr op matched :
    reads (ReverseProxyInjectDeployment d cr op matched);
  ReplicationInjectDeployment_reads d cr op matched :
    reads (ReplicationInjectDeployment d cr op matched);
  AuthInjectDeployment_reads d cr op : reads (AuthInjectDeployment d cr op);
  AuthInjectDaemonset_reads d cr op : reads (AuthInjectDaemonset d cr op);
  ResiliencyInjectDeployment_reads d cr op n matched :
    reads (ResiliencyInjectDeployment d cr op n matched);
  ResiliencyInjectDaemonset_reads d cr op n matched :
    reads (ResiliencyInjectDaemonset d cr op n matched);
  ResiliencyInjectClusterRole_reads r cr op n : reads (ResiliencyInjectClusterRole r cr op n);
  ResiliencyInjectRole_reads r cr op n : reads (ResiliencyInjectRole r cr op n);
  ReplicationInjectClusterRole_reads r cr op : reads (ReplicationInjectClusterRole r cr op)
}.

Class DiscoveryReads `{!Discovery W} : Prop := { ServerGroups_reads : reads ServerGroups }.

(** What a removal takes away has one of the kinds that a manifest of a module can have. *)
Definition clean (b : bool) (P : Key → Prop) : Prop := b = true → ∀ k, P k → k.1 ∉ module_kinds.

Lemma clean_false P : clean false P.
Proof. done. Qed.

Class ModuleSpares `{!ModulePackage W} : Prop := {
  ReverseProxyServer_spares P b op cr : clean b P → spares P (ReverseProxyServer b op cr);
  ReverseProxyStartService_spares P b op cr :
    clean b P → spares P (ReverseProxyStartService b op cr);
  ReplicationManagerController_spares P b op cr :
    clean b P → spares P (ReplicationManagerController b op cr);
  OtelCollector_spares P b op cr matched : clean b P → spares P (OtelCollector b op cr matched);
  ObservabilityTopology_spares P b op cr matched :
    clean b P → spares P (ObservabilityTopology b op cr matched);
  CommonCertManager_spares P b op cr matched :
    clean b P → spares P (CommonCertManager b op cr matched);
  PowerScaleMetrics_spares P b op cr : clean b P → spares P (PowerScaleMetrics b op cr);
  PowerFlexMetrics_spares P b op cr : clean b P → spares P (PowerFlexMetrics b op cr);
  PowerMaxMetrics_spares P b op cr : clean b P → spares P (PowerMaxMetrics b op cr);
  PowerStoreMetrics_spares P b op cr : clean b P → spares P (PowerStoreMetrics b op cr);
  IssuerCertServiceObs_spares P b op cr : clean b P → spares P (IssuerCertServiceObs b op cr);
  PatchCSMDRCRDs_spares P b op : clean b P → spares P (PatchCSMDRCRDs b op);
  ReplicationCrdDeploy_spares P op cr : spares P (ReplicationCrdDeploy op cr);
  DeleteReplicationCrds_spares P op cr : clean true P → spares P (DeleteReplicationCrds op cr);
  CreateReplicationConfigmap_spares P cr op : spares P (CreateReplicationConfigmap cr op)
}.
End interface.

#[export] Hint Resolve PrecheckPowerScale_reads PrecheckPowerFlex_reads PrecheckPowerStore_reads
  PrecheckUnity_reads PrecheckPowerMax_reads PrecheckCosi_reads ValidateZones_reads GetNode_reads
  AuthorizationPrecheck_reads AuthorizationServerPrecheck_reads ReplicationPrecheck_reads
  ResiliencyPrecheck_reads ObservabilityPrecheck_reads ReverseProxyPrecheck_reads
  ReverseProxyInjectDeployment_reads ReplicationInjectDeployment_reads AuthInjectDeployment_reads
  AuthInjectDaemonset_reads ResiliencyInjectDeployment_reads ResiliencyInjectDaemonset_reads
  ResiliencyInjectClusterRole_reads ResiliencyInjectRole_reads ReplicationInjectClusterRole_reads
  ServerGroups_reads : spares.

#[export] Hint Resolve ReverseProxyServer_spares ReverseProxyStartService_spares
  ReplicationCrdDeploy_spares ReplicationManagerController_spares CreateReplicationConfigmap_spares
  OtelCollector_spares ObservabilityTopology_spares CommonCertManager_spares
  PowerScaleMetrics_spares PowerFlexMetrics_spares PowerMaxMetrics_spares
  PowerStoreMetrics_spares IssuerCertServiceObs_spares PatchCSMDRCRDs_spares DeleteReplicationCrds_spares clean_false
  SyncDaemonset_spares SyncDeployment_spares ApplyObject_spares ApplyCTRLObject_spares : spares.

(** the objects of a driver, by the manifests that are synced for it: only COSI has no node *)
Definition driver_keys (d : DriverConfig) : list Key :=
  match dc_Node d, dc_Driver d with
  | Some node, Some driver =>
      controller_keys d node driver ++ [workload_key DaemonSet (ny_DaemonSet node)]
  | _, _ => cosi_keys d
  end.

(** [d] has the parts that the type of [cr] asks for *)
Definition fits (cr : CSM) (d : DriverConfig) : Prop :=
  match dc_Node d, dc_Driver d with
  | Some _, Some _ => GetDriverType cr ≠ Cosi
  | None, None => GetDriverType cr = Cosi
  | _, _ => False
  end.

(** ** Syncing a driver *)

Section sync.
Context {W : Type} `{Client W} `{!View W} `{!ClientLaws (W := W)} `{!DeletionLaws W} `{Host}
  `{MapOrder} `{JSON} `{!DriverPackage W} `{!ModulePackage W} `{!Discovery W} `{!ModuleSpares W}.

(** The objects that no step of a sync means to take away. A sync removes the monitoring objects
    of a resource, for an old version the definitions of disaster recovery, and what an earlier
    configuration, as an annotation keeps it, had and this one has not. *)
Record untouched (op : OperatorConfig) (P : Key → Prop) : Prop := mkUntouched {
  monitoring_apart k : P k → k.1 ≠ "Service" ∧ k.1 ≠ "ServiceMonitor";
  recovery_apart : spares P (PatchCSMDRCRDs true op);
  cleanup_apart s old new : json_Unmarshal s = inr old → spares P (cleanup_old old new op)
}.

Context (P : Key → Prop).
#[local] Set Default Proof Using "All".

Lemma reconcileObservability_spares b op cr comps matched :
  clean b P → spares P (reconcileObservability b op cr comps matched).
Proof. unfold reconcileObservability, reconcile_component, wait_cert_manager. solve_spares. Qed.

(** such are the objects of kinds that no manifest of a module has *)
Lemma kinds_untouched :
  clean true P → (∀ k, P k → k.1 ≠ "ServiceMonitor") → ∀ op, untouched op P.
Proof.
  intros C M op. split.
  - intros k Pk. split; [|by apply M]. intros E. apply (C eq_refl k Pk). rewrite E.
    by apply (bool_decide_unpack _).
  - solve_spares.
  - intros s old new _. unfold cleanup_old. solve_spares; by apply reconcileObservability_spares.
Qed.

Context (op : OperatorConfig) (U : untouched op P).

Lemma DeleteObject_monitoring o :
  obj_kind o = "Service" ∨ obj_kind o = "ServiceMonitor" → spares P (DeleteObject (W := W) o).
Proof.
  intros Ho. apply DeleteObject_spares. intros Pk. apply (monitoring_apart op P U) in Pk.
  unfold obj_key in Pk. simpl in Pk. tauto.
Qed.

Lemma syncMetricsResources_spares cr : spares P (syncMetricsResources (W := W) false cr).
Proof.
  unfold syncMetricsResources. solve_spares; apply DeleteObject_monitoring; auto.
Qed.

Lemma applyCSMDRCRD_spares cr : spares P (applyCSMDRCRD cr false op).
Proof. destruct U. unfold applyCSMDRCRD. solve_spares. Qed.

Lemma sync_extras_spares cr matched : spares P (sync_extras cr op matched).
Proof.
  unfold sync_extras. solve_spares;
    first [by apply reconcileObservability_spares|apply syncMetricsResources_spares].
Qed.

(** one object after the other *)
Ltac bring_object :=
  first [by apply SyncRole_brings|by apply SyncRoleBindings_brings
        |apply brings_ensured; [first [apply SyncServiceAccount_spares|apply SyncClusterRole_spares
            |apply SyncClusterRoleBindings_spares|apply SyncConfigMap_spares
            |apply SyncCSIDriver_spares|apply SyncDeployment_spares|apply SyncDaemonset_spares]
          |first [by apply sa_ensures|by apply cr_ensures|by apply crb_ensures
            |apply SyncConfigMap_ensures|apply SyncCSIDriver_ensures|apply SyncDeployment_ensures
            |apply SyncDaemonset_ensures]]].

Lemma sync_cosi_brings cr d :
  well_kinded (cy_Rbac (dc_Controller d)) → brings P (cosi_keys d) (sync_cosi (W := W) cr d).
Proof.
  intros (? & ? & ? & ? & ?). unfold sync_cosi, cosi_keys.
  repeat (apply brings_cons; [bring_object|]). bring_object.
Qed.

Lemma sync_controller_brings cr d node driver :
  well_kinded (ny_Rbac node) → well_kinded (cy_Rbac (dc_Controller d)) →
  brings P (controller_keys d node driver) (sync_controller (W := W) cr d node driver).
Proof.
  intros (? & ? & ? & ? & ?) (? & ? & ? & ? & ?). unfold sync_controller, controller_keys.
  cbn [app]. do 6 (apply brings_cons; [bring_object|]). do 4 (apply brings_then; [bring_object|]).
  do 2 (apply brings_cons; [bring_object|]). bring_object.
Qed.

Lemma brings_ends ks m : brings P ks m → ∀ m', spares P m' → brings P ks (_ ← m; m').
Proof.
  intros B m' S. rewrite <- (app_nil_r ks). apply brings_then; [done|by apply brings_none].
Qed.

Lemma sync_driver_brings cr matched d :
  config_kinds d → fits cr d → brings P (driver_keys d) (sync_driver cr op matched d).
Proof.
  intros [Hc Hn Hd] F. unfold sync_driver, driver_keys. unfold fits in F.
  destruct (dc_Node d) as [node|], (dc_Driver d) as [driver|]; try done;
    [rewrite decide_False by done|rewrite decide_True by done; by apply sync_cosi_brings].
  change (brings P (controller_keys d node driver ++ [workload_key DaemonSet (ny_DaemonSet node)])
    (_ ← sync_controller cr d node driver;
     _ ← when (bool_decide (GetDriverType cr = PowerStore
                ∧ GetDriverCommonEnv cr "X_CSM_DR_ENABLED" "true" = "true"))
          (applyCSMDRCRD cr false op);
     _ ← SyncDaemonset (ny_DaemonSet node) (cr_Name cr);
     sync_extras cr op matched)).
  apply brings_then; [by apply sync_controller_brings; [apply Hn|]|].
  apply (brings_then P []); [apply brings_none; solve_spares; apply applyCSMDRCRD_spares|].
  apply brings_ends; [bring_object|apply sync_extras_spares].
Qed.
End sync.
