(* ===== verification/Names.v ===== *)
(** The objects of a driver are those that its manifests name: what is done to a driver's
    configuration between reading the manifests and syncing them (adapting it to PowerMax or
    PowerFlex, injecting modules) changes what the objects contain, never their kinds and names.
    Stated as an interface beside Packages.v ([InjectionNames], [MountNames]) with the reconciler
    proved against it; the packages obey it by PackageSpares.v. *)

From S2P Require Import Prelude.
From S2P Require Import GoStrings.
From S2P Require Import Types.
From S2P Require Import Versions.
From S2P Require Import Modules.
From S2P Require Import Images.
From S2P Require Import Cluster.
From S2P Require Import Resources.
From S2P Require Import Status.
From S2P Require Import Packages.
From S2P Require Import Watch.
From S2P Require Import Sync.
From S2P Require Import Frames.
From S2P Require Import Isolation.
From S2P Require Import Spares.
From stdpp Require Import options.

Local Open Scope stdpp_scope.

(** ** Names *)

Definition resource_name (r : Resource) : string * ObjectMeta := (rs_Kind r, rs_Meta r).
Definition workload_name (d : Workload) : option string * option string :=
  (wl_Namespace d, wl_Name d).

Definition same_rbac (r r' : RbacYAML) : Prop :=
  resource_name (rb_ServiceAccount r') = resource_name (rb_ServiceAccount r)
  ∧ resource_name (rb_ClusterRole r') = resource_name (rb_ClusterRole r)
  ∧ resource_name (rb_ClusterRoleBinding r') = resource_name (rb_ClusterRoleBinding r)
  ∧ resource_name (rb_Role r') = resource_name (rb_Role r)
  ∧ resource_name (rb_RoleBinding r') = resource_name (rb_RoleBinding r).

Definition same_node (n n' : NodeYAML) : Prop :=
  workload_name (ny_DaemonSet n') = workload_name (ny_DaemonSet n)
  ∧ same_rbac (ny_Rbac n) (ny_Rbac n').

Record same_names (d d' : DriverConfig) : Prop := mkSameNames {
  sn_deployment : workload_name (cy_Deployment (dc_Controller d'))
                  = workload_name (cy_Deployment (dc_Controller d));
  sn_rbac : same_rbac (cy_Rbac (dc_Controller d)) (cy_Rbac (dc_Controller d'));
  sn_node : option_Forall2 same_node (dc_Node d) (dc_Node d');
  sn_driver : dc_Driver d' = dc_Driver d;
  sn_config : cm_Meta (dc_ConfigMap d') = cm_Meta (dc_ConfigMap d)
}.

#[export] Instance same_rbac_preorder : PreOrder same_rbac.
Proof.
  split; unfold same_rbac; [done|]. intros r1 r2 r3 (?&?&?&?&?) (?&?&?&?&?).
  split_and!; congruence.
Qed.

#[export] Instance same_node_preorder : PreOrder same_node.
Proof.
  split; [by intros n|]. intros n1 n2 n3 [? ?] [? ?]. split; [congruence|by etrans].
Qed.

#[export] Instance same_names_preorder : PreOrder same_names.
Proof.
  split; [intros d; split; done|]. intros d1 d2 d3 [] []. split; try congruence; by etrans.
Qed.

Lemma res_key_name r r' : resource_name r' = resource_name r → res_key r' = res_key r.
Proof. destruct r, r'. unfold resource_name. by intros [= -> ->]. Qed.

Lemma named_key_name r r' : resource_name r' = resource_name r → named_key r' = named_key r.
Proof.
  intros E. unfold named_key. rewrite (res_key_name _ _ E). unfold resource_name in E.
  injection E as _ E. by rewrite E.
Qed.

Lemma workload_names d d' :
  workload_name d' = workload_name d → namespace_of d' = namespace_of d ∧ name_of d' = name_of d.
Proof. unfold workload_name, namespace_of, name_of. by intros [= -> ->]. Qed.

(** Equal names are equal objects of the cluster. *)
Lemma same_names_keys d d' : same_names d d' → driver_keys d' = driver_keys d.
Proof.
  intros [Ed Er En Edr Em]. apply workload_names in Ed as [Ns Na].
  assert (obj_key (OConfigMap (dc_ConfigMap d')) = obj_key (OConfigMap (dc_ConfigMap d))) as Ec.
  { unfold obj_key. simpl. by rewrite Em. }
  unfold driver_keys, cosi_keys, controller_keys. rewrite Edr, Ec, Ns, Na.
  destruct Er as (E1 & E2 & E3 & E4 & E5).
  apply res_key_name in E1, E2, E3. apply named_key_name in E4, E5.
  rewrite E1, E2, E3, E4, E5.
  destruct En as [n n' [Wn Rn]|]; [|done]. destruct Rn as (N1 & N2 & N3 & N4 & N5).
  apply res_key_name in N1, N2, N3. apply named_key_name in N4, N5.
  apply workload_names in Wn as [Wns Wna]. unfold workload_key.
  by rewrite N1, N2, N3, N4, N5, Wns, Wna.
Qed.

(** ** The interfaces *)

(** whatever the API server does, a result of [m] satisfies [Q] *)
Definition always (m m' : gmap Key Object) : Prop := True.
#[export] Instance always_preorder : PreOrder always.
Proof. by split. Qed.

Abbreviation gives Q m := (within always Q m).

Section interface.
Context (W : Type) `{Client W} `{!View W}.

Class MountNames `{!DriverPackage W} : Prop := {
  DynamicallyMountPowermaxContent_name d cr d' :
    DynamicallyMountPowermaxContent d cr = Ok d' → workload_name d' = workload_name d;
  RemoveVolume_name d v d' : RemoveVolume d v = Ok d' → workload_name d' = workload_name d;
  RemoveInitVolume_name d v d' : RemoveInitVolume d v = Ok d' → workload_name d' = workload_name d;
  GetNode_type cr op t file matched :
    gives (λ '(_, cr', _), GetDriverType cr' = GetDriverType cr) (GetNode cr op t file matched)
}.

Class InjectionNames `{!ModulePackage W} : Prop := {
  ReverseProxyInjectDeployment_name d cr op matched :
    gives (λ d', workload_name d' = workload_name d) (ReverseProxyInjectDeployment d cr op matched);
  AddReverseProxyServiceName_name d d' :
    AddReverseProxyServiceName d = Ok d' → workload_name d' = workload_name d;
  UpdatePowerMaxConfigMap_name cm cr cm' :
    UpdatePowerMaxConfigMap cm cr = Ok cm' → cm_Meta cm' = cm_Meta cm;
  AuthInjectDeployment_name d cr op :
    gives (λ '(d', cr'), workload_name d' = workload_name d ∧ GetDriverType cr' = GetDriverType cr)
      (AuthInjectDeployment d cr op);
  AuthInjectDaemonset_name d cr op :
    gives (λ '(d', cr'), workload_name d' = workload_name d ∧ GetDriverType cr' = GetDriverType cr)
      (AuthInjectDaemonset d cr op);
  ResiliencyInjectDeployment_name d cr op n matched :
    gives (λ d', workload_name d' = workload_name d) (ResiliencyInjectDeployment d cr op n matched);
  ResiliencyInjectDaemonset_name d cr op n matched :
    gives (λ d', workload_name d' = workload_name d) (ResiliencyInjectDaemonset d cr op n matched);
  ResiliencyInjectClusterRole_name r cr op n :
    gives (λ r', resource_name r' = resource_name r) (ResiliencyInjectClusterRole r cr op n);
  ResiliencyInjectRole_name r cr op n :
    gives (λ r', resource_name r' = resource_name r) (ResiliencyInjectRole r cr op n);
  ReplicationInjectDeployment_name d cr op matched :
    gives (λ d', workload_name d' = workload_name d) (ReplicationInjectDeployment d cr op matched);
  ReplicationInjectClusterRole_name r cr op :
    gives (λ r', resource_name r' = resource_name r) (ReplicationInjectClusterRole r cr op)
}.
End interface.

(** ** Preparing a driver keeps its names *)

Section names.
Context {W : Type} `{Client W} `{!View W} `{!ClientLaws (W := W)} `{Host} `{MapOrder} `{JSON}
  `{!DriverPackage W} `{!ModulePackage W} `{!Discovery W} `{!MountNames W} `{!InjectionNames W}.
#[local] Set Default Proof Using "All".

(** the configuration [d0] that was read, with other contents *)
Context (d0 : DriverConfig).

Abbreviation named_alike m := (gives (same_names d0) m).

Lemma same_names_deployment d dp :
  same_names d0 d → workload_name dp = workload_name (cy_Deployment (dc_Controller d)) →
  same_names d0 (set_dc_Controller (mkControllerYAML dp (cy_Rbac (dc_Controller d))) d).
Proof using. intros S E. etrans; [exact S|]. by split. Qed.

Lemma same_names_node d n n' :
  same_names d0 d → dc_Node d = Some n → same_node n n' → same_names d0 (set_dc_Node n' d).
Proof using.
  intros S E F. etrans; [exact S|]. split; try done. rewrite E. by constructor.
Qed.

Lemma gives_any {A} (m : M (World W) A) : gives (λ _, True) m.
Proof using. intros w r w' _. by split. Qed.

Lemma on_deployment_names f d :
  same_names d0 d →
  (∀ dp, gives (λ dp', workload_name dp' = workload_name dp) (f dp)) →
  named_alike (on_deployment (W := W) f d).
Proof.
  intros S Hf. eapply within_bind; [apply _|apply Hf|]. intros dp E.
  apply within_ret; [apply _|]. by apply same_names_deployment.
Qed.

Lemma deref_gives {A} (p : option A) : gives (λ a, p = Some a) (lift (W := World W) (deref p)).
Proof. apply within_lift; [apply _|]. intros a. by destruct p; intros [= ->]. Qed.

Lemma on_daemonset_names f d :
  same_names d0 d →
  (∀ ds, gives (λ ds', workload_name ds' = workload_name ds) (f ds)) →
  named_alike (on_daemonset (W := W) f d).
Proof.
  intros S Hf. eapply within_bind; [apply _|apply deref_gives|]. intros node En.
  eapply within_bind; [apply _|apply Hf|]. intros ds E. apply within_ret; [apply _|].
  by apply same_names_node with node.
Qed.

Lemma on_controller_rbac_names f d :
  same_names d0 d → (∀ r, gives (same_rbac r) (f r)) → named_alike (on_controller_rbac (W := W) f d).
Proof.
  intros S Hf. eapply within_bind; [apply _|apply Hf|]. intros r E. apply within_ret; [apply _|].
  etrans; [exact S|]. by split.
Qed.

Lemma on_node_rbac_names f d :
  same_names d0 d → (∀ r, gives (same_rbac r) (f r)) → named_alike (on_node_rbac (W := W) f d).
Proof.
  intros S Hf. eapply within_bind; [apply _|apply deref_gives|]. intros node En.
  eapply within_bind; [apply _|apply Hf|]. intros r E. apply within_ret; [apply _|].
  by apply same_names_node with node.
Qed.

Lemma cluster_role_names f r :
  (∀ c, gives (λ c', resource_name c' = resource_name c) (f c)) →
  gives (same_rbac r) (cluster_role (W := W) f r).
Proof.
  intros Hf. eapply within_bind; [apply _|apply Hf|]. intros c E. by apply within_ret; [apply _|].
Qed.

Lemma role_names f r :
  (∀ c, gives (λ c', resource_name c' = resource_name c) (f c)) →
  gives (same_rbac r) (role (W := W) f r).
Proof.
  intros Hf. eapply within_bind; [apply _|apply Hf|]. intros c E. by apply within_ret; [apply _|].
Qed.

Lemma dropErr_names (m : outcome Workload) d :
  (∀ d', m = Ok d' → workload_name d' = workload_name d) →
  gives (λ d', workload_name d' = workload_name d) (dropErr (W := W) m d).
Proof.
  intros Hm. apply within_lift; [apply _|]. intros a E. destruct m; by simplify_eq; auto.
Qed.

Lemma adapt_powermax_names cr op matched d :
  same_names d0 d → named_alike (adapt_powermax cr op matched d).
Proof.
  intros S. unfold adapt_powermax. apply within_then; [apply _|apply gives_any|]. intros sidecar.
  apply (within_bind _ (same_names d0)).
  { destruct sidecar.
    - apply within_then; [apply _|apply gives_any|]. intros _. apply on_deployment_names; [done|]. intros dp.
      apply within_orFail; [apply _|]. apply (ReverseProxyInjectDeployment_name W).
    - apply on_deployment_names; [done|]. intros dp.
      eapply within_bind; [apply _|apply within_lift; [apply _|]; apply (AddReverseProxyServiceName_name W)|].
      intros dp' <-. apply dropErr_names, (DynamicallyMountPowermaxContent_name W). }
  intros d1 S1. eapply within_bind; [apply _|apply on_daemonset_names; [exact S1|]|].
  { intros ds. apply dropErr_names, (DynamicallyMountPowermaxContent_name W). }
  intros d2 S2. eapply within_bind; [apply _|apply within_lift; [apply _|]; apply (UpdatePowerMaxConfigMap_name W)|].
  intros cm E. apply within_ret; [apply _|]. etrans; [exact S2|]. by split.
Qed.

Lemma adapt_powerflex_names config b cr d :
  same_names d0 d → named_alike (adapt_powerflex (W := W) config b cr d).
Proof.
  intros S. unfold adapt_powerflex. apply (within_bind _ (same_names d0)).
  - case_match; [|by apply within_ret; [apply _|]]. apply on_daemonset_names; [done|].
    intros ds. apply dropErr_names, (RemoveVolume_name W).
  - intros d1 S1. case_match; [by apply within_ret; [apply _|]|].
    apply on_daemonset_names; [done|]. intros ds. apply dropErr_names, (RemoveInitVolume_name W).
Qed.

Lemma inject_authorization_names cr op d :
  same_names d0 d →
  gives (λ '(d', cr'), same_names d0 d' ∧ GetDriverType cr' = GetDriverType cr)
    (inject_authorization cr op d).
Proof.
  intros S. unfold inject_authorization.
  eapply within_bind; [apply _|apply within_orFail; [apply _|]; apply (AuthInjectDeployment_name W)|].
  intros [dp cr1] [E T1]. apply same_names_deployment with (d := d) in E; [|done].
  eapply within_bind; [apply _|apply deref_gives|]. intros node En.
  eapply within_bind; [apply _|apply within_orFail; [apply _|]; apply (AuthInjectDaemonset_name W)|].
  intros [ds cr2] [E2 T2]. apply within_ret; [apply _|]. split; [|congruence].
  eapply same_names_node; [exact E|exact En|by split].
Qed.

Lemma inject_module_names cr op matched d m :
  same_names d0 d → named_alike (inject_module cr op matched d m).
Proof.
  intros S. unfold inject_module. case_decide; [|case_decide; [|by apply within_ret; [apply _|]]].
  - eapply within_bind; [apply _|apply on_deployment_names; [exact S|]|].
    { intros dp. apply within_orFail, (ResiliencyInjectDeployment_name W); apply _. }
    intros d1 S1. eapply within_bind; [apply _|apply on_controller_rbac_names; [exact S1|]|].
    { intros r. apply cluster_role_names. intros c.
      apply within_orFail, (ResiliencyInjectClusterRole_name W); apply _. }
    intros d2 S2. eapply within_bind; [apply _|apply on_controller_rbac_names; [exact S2|]|].
    { intros r. apply role_names. intros c.
      apply within_orFail, (ResiliencyInjectRole_name W); apply _. }
    intros d3 S3. eapply within_bind; [apply _|apply on_daemonset_names; [exact S3|]|].
    { intros ds. apply within_orFail, (ResiliencyInjectDaemonset_name W); apply _. }
    intros d4 S4. eapply within_bind; [apply _|apply on_node_rbac_names; [exact S4|]|].
    { intros r. apply cluster_role_names. intros c.
      apply within_orFail, (ResiliencyInjectClusterRole_name W); apply _. }
    intros d5 S5. apply on_node_rbac_names; [exact S5|].
    intros r. apply role_names. intros c. apply within_orFail, (ResiliencyInjectRole_name W); apply _.
  - eapply within_bind; [apply _|apply on_deployment_names; [exact S|]|].
    { intros dp. apply within_orFail, (ReplicationInjectDeployment_name W); apply _. }
    intros d1 S1. apply on_controller_rbac_names; [exact S1|].
    intros r. apply cluster_role_names. intros c.
    apply within_orFail, (ReplicationInjectClusterRole_name W); apply _.
Qed.

Lemma inject_modules_names cr op matched d ms :
  same_names d0 d →
  gives (λ '(d', cr'), same_names d0 d' ∧ GetDriverType cr' = GetDriverType cr)
    (inject_modules cr op matched d ms).
Proof.
  revert cr d. induction ms as [|m ms IH]; intros cr d S; [by apply within_ret; [apply _|]|].
  cbn [inject_modules].
  eapply (within_bind _ (λ '(d', cr'), same_names d0 d' ∧ GetDriverType cr' = GetDriverType cr)).
  - destruct (m_Enabled m); [|by apply within_ret; [apply _|]].
    case_decide; [by apply inject_authorization_names|].
    eapply within_bind; [apply _|by apply inject_module_names|]. intros d' S'.
    by apply within_ret; [apply _|].
  - intros [d' cr'] [S' T']. eapply within_weaken; [by apply IH|done|]. intros [d2 cr2] []. split; [done|]. congruence.
Qed.
End names.
