(* ===== verification/Installing.v ===== *)
(** What a successful reconciliation leaves on the cluster: the objects that the manifests of the
    driver name. Proved against the interfaces of the packages; Operator.v puts the packages
    in. *)

From S2P Require Import Prelude.
From S2P Require Import GoStrings.
From S2P Require Import Types.
From S2P Require Import Versions.
From S2P Require Import Modules.
From S2P Require Import Images.
From S2P Require Import Cluster.
From S2P Require Import Resources.
From S2P Require Import Status.
From S2P Require Import Packages.
From S2P Require Import Watch.
From S2P Require Import Sync.
From S2P Require Import Controller.
From S2P Require Import Frames.
From S2P Require Import Isolation.
From S2P Require Import Spares.
From S2P Require Import Names.
From stdpp Require Import options.

Local Open Scope stdpp_scope.

Section installing.
Context {W : Type} `{Client W} `{!View W} `{!ClientLaws (W := W)} `{!DeletionLaws W} `{Host}
  `{MapOrder} `{JSON} `{URLs} `{!Retry W} `{!RetryLaws W} `{!Informers W} `{!InformerLaws W}
  `{!DriverPackage W} `{!ModulePackage W} `{!Discovery W}
  `{!DriverFrames W} `{!ModuleFrames W} `{!DiscoveryFrames W}
  `{!DriverReads W} `{!ModuleReads W} `{!DiscoveryReads W} `{!ModuleSpares W}
  `{!MountNames W} `{!InjectionNames W}.

(** the objects that are looked at *)
Context (P : Key → Prop) (conf : OperatorConfig) (U : untouched conf P).
#[local] Set Default Proof Using "All".

Lemma within_run {R A} (Q : A → Prop) (m : M (World W) A) w a w' :
  within R Q m → m w = (Ok a, w') → Q a.
Proof using. intros Hm E. by apply (Hm _ _ _ E). Qed.

Lemma spares_run {A} (m : M (World W) A) w r w' :
  spares P m → m w = (r, w') → lasts P (seen w) (seen w').
Proof using. intros Hm E. by apply (Hm _ _ _ E). Qed.

(** *** The configuration of the driver *)

Lemma getDriverConfig_spares cr op matched : spares P (getDriverConfig cr op matched).
Proof. unfold getDriverConfig. solve_spares. Qed.

Lemma getDriverConfig_fits cr op matched :
  gives (λ '(d, cr', _), GetDriverType cr' = GetDriverType cr
           ∧ (GetDriverType cr ≠ "" → ∃ d', d = Some d' ∧ fits cr' d'))
    (getDriverConfig cr op matched).
Proof.
  unfold getDriverConfig. case_decide; [by apply within_ret; [apply _|]|].
  eapply (within_bind _ (λ '(driver, node, cr', _), GetDriverType cr' = GetDriverType cr
    ∧ match (node : option NodeYAML), (driver : option Resource) with
      | Some _, Some _ => GetDriverType cr ≠ Cosi
      | None, None => GetDriverType cr = Cosi
      | _, _ => False
      end)).
  - destruct (decide (_ = Cosi)) as [E|E].
    + apply within_ret; [apply _|]. split; [done|]. by case_decide.
    + eapply within_then; [apply _|apply gives_any|]. intros driver.
      eapply within_bind; [apply _|apply within_orFail; [apply _|]; apply (GetNode_type W)|].
      intros [[node cr'] m'] T. apply within_ret; [apply _|]. split; [done|].
      intros C. apply E. by rewrite C.
  - intros [[[driver node] cr'] m'] [T F].
    eapply within_then; [apply _|apply gives_any|]. intros cm.
    eapply within_then; [apply _|apply gives_any|]. intros [c m2].
    apply within_ret; [apply _|]. split; [done|]. intros _. eexists. split; [done|].
    unfold fits. simpl. by rewrite T.
Qed.

(** *** Syncing *)

Lemma oldStandAloneModuleCleanup_spares cr : spares P (oldStandAloneModuleCleanup cr conf).
Proof.
  destruct U as [_ _ C]. unfold oldStandAloneModuleCleanup. apply spares_bind; [|intros _; solve_spares].
  case_decide; [apply spares_ret|]. apply spares_bind_run; [solve_spares|]. intros old w w' E.
  apply orFail_Ok in E. injection E as E _.
  destruct (json_Unmarshal _) as [e|old'] eqn:J; [done|]. injection E as ->. by eapply C.
Qed.

Lemma updateCSM_alike cr : gives (alike cr) (updateCSM (W := W) cr).
Proof.
  intros w r w' E. split; [done|]. intros cr' ->. unfold updateCSM in E.
  apply M_bind_Ok in E as (o & w1 & E1 & E). apply call_inv in E1 as (r0 & E1 & Er).
  destruct r0 as [e|o']; [done|]. injection Er as ->. destruct o'; try done. injection E as <- _.
  by eapply update_alike.
Qed.

Lemma oldStandAloneModuleCleanup_type cr op :
  gives (λ '(cr', _), GetDriverType cr' = GetDriverType cr) (oldStandAloneModuleCleanup cr op).
Proof.
  unfold oldStandAloneModuleCleanup. apply within_then; [apply _|apply gives_any|]. intros [].
  apply within_then; [apply _|apply gives_any|]. intros out.
  destruct (om_Annotations _) as [annotations|]; [|by apply within_lift; [apply _|]].
  eapply within_bind; [apply _|apply updateCSM_alike|]. intros cr' A. apply within_ret; [apply _|]. exact (alike_type _ _ A).
Qed.

Lemma adapt_powermax_spares cr op matched d : spares P (adapt_powermax cr op matched d).
Proof.
  unfold adapt_powermax, on_deployment, on_daemonset, mount_powermax, dropErr, IsReverseProxySidecar.
  apply spares_bind; [by intros w r w' [= <- <-]|]. solve_spares.
Qed.

Lemma adapt_powerflex_spares config b cr d : spares P (adapt_powerflex (W := W) config b cr d).
Proof. unfold adapt_powerflex, on_daemonset, dropErr. solve_spares. Qed.

Lemma inject_module_spares cr op matched d m : spares P (inject_module cr op matched d m).
Proof.
  unfold inject_module, on_deployment, on_daemonset, on_controller_rbac, on_node_rbac, cluster_role,
    role. solve_spares.
Qed.

Lemma inject_modules_spares cr op matched d ms : spares P (inject_modules cr op matched d ms).
Proof.
  revert cr d. induction ms as [|m ms IH]; intros cr d; [by apply spares_ret|]. cbn [inject_modules].
  apply spares_bind; [|intros [d' cr']; apply IH].
  destruct (m_Enabled m); [|by apply spares_ret]. case_decide.
  - unfold inject_authorization. solve_spares.
  - apply spares_bind; [apply inject_module_spares|intros d']. apply spares_ret.
Qed.

(** [m] changes what the objects of [d] contain and deletes nothing. *)
Definition prepares (d : DriverConfig) (m : M (World W) DriverConfig) : Prop :=
  spares P m ∧ yields config_kinds m ∧ gives (same_names d) m.

Lemma prepares_ret d : config_kinds d → prepares d (mret d).
Proof. intros K. split_and!; by apply within_ret; [apply _|]. Qed.

Lemma prepares_if {Q : Prop} (b : {Q} + {¬ Q}) d m1 m2 :
  prepares d m1 → prepares d m2 → prepares d (if b then m1 else m2).
Proof. by destruct b. Qed.

Lemma adapt_powermax_prepares cr op matched d :
  config_kinds d → prepares d (adapt_powermax cr op matched d).
Proof.
  intros K. split_and!; [apply adapt_powermax_spares|by apply adapt_powermax_kinds|].
  by apply adapt_powermax_names.
Qed.

Lemma adapt_powerflex_prepares config b cr d :
  config_kinds d → prepares d (adapt_powerflex config b cr d).
Proof.
  intros K. split_and!; [apply adapt_powerflex_spares|by apply adapt_powerflex_kinds|].
  by apply adapt_powerflex_names.
Qed.

Lemma prepares_run d m w d' w' : prepares d m → m w = (Ok d', w') →
  lasts P (seen w) (seen w') ∧ config_kinds d' ∧ same_names d d'.
Proof.
  intros (S & K & N) E. split_and!; [by eapply spares_run|by eapply (within_run config_kinds)|].
  by eapply (within_run (same_names d)).
Qed.

Lemma inject_modules_run cr op matched d ms w d' cr' w' :
  config_kinds d → inject_modules cr op matched d ms w = (Ok (d', cr'), w') →
  lasts P (seen w) (seen w') ∧ config_kinds d' ∧ same_names d d' ∧ GetDriverType cr' = GetDriverType cr.
Proof.
  intros K E. split; [eapply spares_run; [apply inject_modules_spares|exact E]|].
  split; [exact (within_run _ _ _ _ _ (inject_modules_kinds cr op matched d ms K) E)|].
  exact (within_run _ _ _ _ _ (inject_modules_names d cr op matched d ms (reflexivity d)) E).
Qed.

Lemma fits_names cr cr' d d' :
  same_names d d' → GetDriverType cr' = GetDriverType cr → fits cr d → fits cr' d'.
Proof using.
  intros [_ _ N E _] T. unfold fits. rewrite T, E. by destruct N.
Qed.

(** from the configuration that was read on *)
Definition sync_from (config : OperatorConfig) (cr : CSM)
    (matched : VersionSpec) (d : DriverConfig) : M (World W) () :=
  '(updated, _) ← oldStandAloneModuleCleanup cr conf;
  d ← (if decide (GetDriverType updated = PowerMax) then adapt_powermax updated conf matched d
       else mret d);
  isHarvester ← orFail IsHarvester (errorf "failed to detect harvester cluster");
  d ← (if decide (GetDriverType updated = PowerFlex)
       then adapt_powerflex config isHarvester updated d else mret d);
  '(d, cr) ← inject_modules updated conf matched d (sp_Modules (cr_Spec updated));
  sync_driver cr conf matched d.

Lemma sync_from_brings config cr matched d w w' :
  config_kinds d → fits cr d → sync_from config cr matched d w = (Ok (), w') →
  lasts P (seen w) (seen w')
  ∧ ∀ k, P k → k ∈ driver_keys d → is_Some (seen w' !! k) ∨ dying (seen w) k.
Proof.
  intros K F E. unfold sync_from in E.
  apply M_bind_Ok in E as ([updated annotations] & w1 & E1 & E).
  pose proof (within_run _ _ _ _ _ (oldStandAloneModuleCleanup_type cr conf) E1) as T1. simpl in T1.
  apply spares_run in E1; [|apply oldStandAloneModuleCleanup_spares].
  apply M_bind_Ok in E as (d2 & w2 & E2 & E). apply (prepares_run d) in E2 as (L2 & K2 & N2);
    [|apply prepares_if; [by apply adapt_powermax_prepares|by apply prepares_ret]].
  apply M_bind_Ok in E as (isHarvester & w3 & E3 & E).
  apply spares_run in E3; [|unfold IsHarvester; solve_spares].
  apply M_bind_Ok in E as (d4 & w4 & E4 & E). apply (prepares_run d2) in E4 as (L4 & K4 & N4);
    [|apply prepares_if; [by apply adapt_powerflex_prepares|by apply prepares_ret]].
  apply M_bind_Ok in E as ([d5 cr5] & w5 & E5 & E).
  apply inject_modules_run in E5 as (L5 & K5 & N5 & T5); [|done].
  assert (same_names d d5) as N by (etrans; [exact N2|]; by etrans).
  assert (lasts P (seen w) (seen w5)) as L by (do 4 (etrans; [eassumption|]); exact L5).
  destruct (sync_driver_brings P conf U cr5 matched d5) as [S B];
    [done|apply (fits_names cr _ d); [exact N|congruence|exact F]|].
  split; [etrans; [exact L|by eapply spares_run]|].
  intros k Pk Hk. rewrite <- (same_names_keys _ _ N) in Hk.
  destruct (B _ _ E k Pk Hk) as [X|X]; [by left|]. right. by apply (L k Pk).
Qed.

(** the list of images that a resource is synced with *)
Definition images_of (cr : CSM) (matched : VersionSpec) (w : World W) : Prop :=
  if decide (sp_Version (cr_Spec cr) = "") then matched = zero_VersionSpec
  else fst (ResolveVersionFromConfigMap cr w) = Ok matched.

(** A sync that succeeds has read the configuration of the driver, and every object of it is
    there afterwards, but for those that were being deleted when the sync began. *)
Lemma SyncCSM_brings config cr w synced w' :
  SyncCSM config cr conf w = (Ok synced, w') →
  enabled cr AuthorizationServer = false → GetDriverType cr ≠ "" →
  ∃ d, (∃ matched v cr1 m1 v', images_of cr matched w
          ∧ getDriverConfig cr conf matched v = (Ok (Some d, cr1, m1), v'))
    ∧ lasts P (seen w) (seen w')
    ∧ ∀ k, P k → k ∈ driver_keys d → is_Some (seen w' !! k) ∨ dying (seen w) k.
Proof.
  intros E A T. unfold SyncCSM in E.
  apply M_bind_Ok in E as (matched & w1 & E1 & E). rewrite A in E.
  assert (images_of cr matched w) as Im.
  { unfold images_of. case_decide; [by injection E1 as <- _|by rewrite E1]. }
  apply spares_run in E1; [|unfold ResolveVersionFromConfigMap, FetchConfigMap; solve_spares].
  apply M_bind_Ok in E as (sidecar & w2 & E2 & E).
  apply spares_run in E2; [|by intros v r v' [= <- <-]].
  apply M_bind_Ok in E as ([] & w3 & E3 & E).
  apply spares_run in E3; [|unfold reconcileReverseProxyServer; solve_spares].
  apply M_bind_Ok in E as ([] & w4 & E4 & E).
  apply spares_run in E4; [|unfold reconcileReplicationCRDS; solve_spares].
  apply M_bind_Ok in E as ([[p cr1] m1] & w5 & E5 & E).
  pose proof (within_run _ _ _ _ _ (getDriverConfig_fits cr conf matched) E5) as [T1 F].
  destruct (F T) as (d & -> & F1).
  pose proof (within_run _ _ _ _ _ (getDriverConfig_kinds cr conf matched) E5) as [_ K].
  exists d. split; [by exists matched, w4, cr1, m1, w5|].
  apply spares_run in E5; [|apply getDriverConfig_spares].
  assert (lasts P (seen w) (seen w5)) as L by (do 4 (etrans; [eassumption|]); exact E5).
  assert (sync_from config cr1 m1 d w5 = (Ok (), w')) as Es.
  { unfold sync_from. apply M_bind_Ok in E as ([updated annotations] & w6 & E6 & E).
    rewrite (M_bind_step _ _ _ _ _ E6).
    do 3 (apply M_bind_Ok in E as (? & ? & E7 & E); rewrite (M_bind_step _ _ _ _ _ E7); clear E7).
    apply M_bind_Ok in E as ([d4 cr4] & w10 & E10 & E). rewrite (M_bind_step _ _ _ _ _ E10).
    apply M_bind_Ok in E as ([] & w11 & E11 & E). by injection E as _ <-. }
  destruct (sync_from_brings _ _ _ _ _ _ (K d eq_refl) F1 Es) as [L2 B].
  split; [by etrans|]. intros k Pk Hk. destruct (B k Pk Hk) as [X|X];
    [by left|]. right. by apply (L k Pk).
Qed.
(** *** The checks *)

Context `{!DriverLaws (W := W)} `{!ModuleLaws (W := W)} `{!RegistryLaws W}.

Lemma keeps_alike flag cr cr' : keeps flag cr cr' → alike cr cr'.
Proof using.
  intros [Emeta Ev Ed Er Em]. split; unfold cr_Name, cr_Namespace; rewrite ?Emeta, ?Ed; try done.
  unfold module_names.
  induction Em as [|m m' ms ms' (En & _ & _) _ IH]; [done|]. rewrite !fmap_cons. by rewrite En, IH.
Qed.

Lemma checked_spares (m : M (World W) (CSM * option error)) wrap k :
  spares P m → (∀ cr, spares P (k cr)) → spares P (checked m wrap k).
Proof. intros Hm Hk. unfold checked, failed. solve_spares. Qed.

Lemma check_spares {A} cr (m : M (World W) A) wrap k :
  spares P m → (∀ a, spares P (k a)) → spares P (check cr m wrap k).
Proof. intros Hm Hk. unfold check, failed. solve_spares. Qed.

Lemma precheck_driver_spares cr op : spares P (precheck_driver cr op).
Proof.
  unfold precheck_driver, ZoneValidation.
  repeat case_decide; try (apply checked_spares; [solve_spares|intros cr']);
    try apply spares_ret.
  - apply check_spares; [solve_spares|intros _; apply spares_ret].
  - destruct (HasModule _ _); apply spares_ret.
Qed.

Lemma precheck_module_spares cr op m : spares P (precheck_module cr op m).
Proof.
  unfold precheck_module. destruct (m_Enabled m); [|apply spares_ret].
  repeat case_decide; try (apply checked_spares; [solve_spares|intros cr']); apply spares_ret.
Qed.

Lemma precheck_modules_spares op n i cr : spares P (precheck_modules op n i cr).
Proof.
  revert i cr. induction n as [|n IH]; intros i cr; [apply spares_ret|]. cbn [precheck_modules].
  destruct (_ !! i); [|apply spares_lift].
  apply checked_spares; [apply precheck_module_spares|apply IH].
Qed.

Lemma PreChecks_spares cr op : spares P (PreChecks cr op).
Proof.
  unfold PreChecks, check_owner. apply checked_spares; [apply precheck_driver_spares|intros cr'].
  apply check_spares; [apply spares_lift|intros []; [|apply spares_ret]].
  apply check_spares; [apply spares_lift|intros _].
  apply check_spares; [solve_spares|intros _]. apply precheck_modules_spares.
Qed.

Lemma PreChecks_alike cr op w cr' w' :
  PreChecks cr op w = (Ok (cr', None), w') →
  alike cr cr' ∧ (HasModule cr AuthorizationServer = false → GetDriverType cr ≠ "").
Proof.
  unfold PreChecks. intros E. apply checked_passed in E as (cr1 & w1 & Ed & E).
  apply precheck_driver_passed in Ed as [K Hd]. apply keeps_alike in K. split.
  - etrans; [exact K|]. apply check_passed in E as (b & w2 & _ & E).
    destruct b; [|by apply passed_inv in E as (-> & _)]. cbn [negb] in E.
    apply check_passed in E as ([] & w3 & _ & E). apply check_passed in E as ([] & w4 & _ & E).
    apply precheck_modules_passed in E as [K2 _]. by eapply keeps_alike.
  - intros Ha. destruct Hd as [Hd|Hd]; [|congruence]. intros E0. rewrite E0 in Hd. revert Hd.
    unfold supported_drivers. rewrite !elem_of_cons, elem_of_nil. by intuition.
Qed.

(** *** The defaults *)

Lemma set_auth_version_names v ms : m_Name <$> set_auth_version v ms = m_Name <$> ms.
Proof using.
  induction ms as [|m ms IH]; [done|]. cbn [set_auth_version].
  case_decide; rewrite !fmap_cons; [done|]. by rewrite IH.
Qed.

Lemma extends_alike cr cr' : extends cr cr' → alike cr cr'.
Proof using.
  intros [Emeta _ _ Ev Er Ed Em].
  split; unfold cr_Name, cr_Namespace; rewrite ?Emeta, ?Ed; try done. unfold module_names.
  induction Em as [|m m' ms ms' (extra & -> & _) _ IH]; [done|]. rewrite !fmap_cons. by rewrite IH.
Qed.

Lemma with_defaults_alike cr o cr' : with_defaults cr o = Ok cr' → alike cr cr'.
Proof.
  unfold with_defaults. intros E. apply outcome_bind_Ok in E as (cr1 & E1 & E).
  apply LoadDefaultComponents_run in E1 as [E1 _]. apply extends_alike in E1.
  trans (default_force_remove cr);
    [unfold default_force_remove; by destruct (d_ForceRemoveDriver (sp_Driver (cr_Spec cr)))|].
  trans cr1; [done|]. destruct (HasModule cr1 AuthorizationServer); [|by injection E as <-].
  apply outcome_bind_Ok in E as (v & _ & E). injection E as <-. split; try done.
  apply set_auth_version_names.
Qed.

Lemma annotations_alike cr o cr' b :
  applyConfigVersionAnnotations cr o = (cr', b) → alike cr cr'.
Proof.
  unfold applyConfigVersionAnnotations. intros E. apply same_spec_alike; repeat case_match; by simplify_eq.
Qed.
(** *** Status and watches *)

Lemma orEvent_spares {A} (m : M (World W) A) reason msg wrap :
  spares P m → spares P (orEvent m reason msg wrap).
Proof. intros Hm. unfold orEvent. solve_spares. Qed.

Lemma HandleSuccess_spares h p q op : spares P (HandleSuccess h p q op).
Proof.
  unfold HandleSuccess. apply spares_bind; [apply reads_spares, calculateState_reads|].
  intros [[h1 b] err]. apply spares_ret.
Qed.

Lemma retried_spares f w r w' :
  spares P f → retried f w r w' → lasts P (seen (W := W) w) (seen w').
Proof.
  intros Hf. induction 1 as [w r w' E|w e w1 r w' E _ _ IH]; [by eapply spares_run|].
  etrans; [by eapply spares_run|done].
Qed.

Lemma RetryOnConflict_spares f : spares P f → spares P (RetryOnConflict (W := W) f).
Proof. intros Hf w r w' E%retry_runs. split; [by eapply retried_spares|done]. Qed.

Lemma UpdateStatus_spares h p op ov : spares P (UpdateStatus h p op ov).
Proof.
  unfold UpdateStatus. apply spares_bind; [apply reads_spares, calculateState_reads|].
  intros [[h1 running] merr]. apply spares_bind; [|intros r; solve_spares].
  apply spares_attempt, RetryOnConflict_spares. unfold put_status. solve_spares.
Qed.

(** *** Reconciling *)

(** [m] gives the resource again, with other metadata or another status. *)
Definition readies (cr : CSM) (m : M (World W) CSM) : Prop := spares P m ∧ gives (alike cr) m.

Lemma readies_ret cr cr' : alike cr cr' → readies cr (mret cr').
Proof. intros A. split; by apply within_ret; [apply _|]. Qed.

Lemma readies_updateCSM cr cr' : alike cr cr' → readies cr (updateCSM cr').
Proof.
  intros A. split; [apply updateCSM_spares|].
  eapply within_weaken; [apply updateCSM_alike|done|]. intros cr2 A2. by etrans.
Qed.

Lemma readies_run cr m w cr' w' : readies cr m → m w = (Ok cr', w') →
  lasts P (seen w) (seen w') ∧ alike cr cr'.
Proof.
  intros [S G] E. split; [by eapply spares_run|]. exact (within_run _ _ _ _ _ G E).
Qed.

(** the finalizer *)
Lemma readies_finalizer cr :
  readies cr (if HasFinalizer cr CSMFinalizerName then mret cr
              else csm ← orEvent (addFinalizer cr) EventUpdated "Failed to add finalizer"
                           (errorf "error when adding finalizer");
                   _ ← recordEvent EventTypeNormal EventUpdated "Object finalizer is added";
                   mret csm).
Proof.
  destruct (HasFinalizer _ _); [by apply readies_ret|].
  assert (readies cr (addFinalizer cr)) as [S G] by by apply readies_updateCSM, same_spec_alike.
  split.
  - apply spares_bind; [by apply orEvent_spares|]. intros cr'. solve_spares.
  - eapply (within_bind _ (alike cr)).
    + unfold orEvent. eapply within_bind; [apply _|apply within_attempt; [apply _|exact G]|].
      intros [e|a] A; [|by apply within_ret; [apply _|]; apply A].
      eapply within_then; [apply _|apply gives_any|]. intros _. apply within_fail; apply _.
    + intros cr' A. eapply within_then; [apply _|apply gives_any|]. intros _.
      by apply within_ret; [apply _|].
Qed.

(** A reconciliation of a live resource that succeeds has synced it. *)
Lemma reconcile_update_syncs config cr w r w' :
  reconcile_update config cr conf w = (Ok r, w') →
  ∃ cr1 v synced v', SyncCSM config cr1 conf v = (Ok synced, v') ∧ alike cr cr1
    ∧ lasts P (seen w) (seen v) ∧ lasts P (seen v') (seen w').
Proof.
  intros E. unfold reconcile_update in E.
  apply M_bind_Ok in E as (cr1 & w1 & E1 & E).
  apply (readies_run cr) in E1 as [L1 A1]; [|apply readies_finalizer].
  destruct (applyConfigVersionAnnotations cr1 conf) as [cr2 isUpdated] eqn:Ea.
  apply annotations_alike in Ea.
  apply M_bind_Ok in E as (cr3 & w3 & E3 & E). apply (readies_run cr2) in E3 as [L3 A3];
    [|by destruct isUpdated; [apply readies_updateCSM|apply readies_ret]].
  apply M_bind_Ok in E as ([h requeue] & w4 & E4 & E).
  pose proof E4 as (_ & (_ & Em & Es) & _)%HandleSuccess_spec.
  assert (alike cr3 (in_cr h)) as A4 by (apply same_spec_alike; [exact Es|..]; unfold cr_Name, cr_Namespace; by rewrite Em).
  apply spares_run in E4; [|apply HandleSuccess_spares].
  apply M_bind_Ok in E as (res & w5 & E5 & E). unfold attempt in E5.
  destruct (SyncCSM config (in_cr h) conf w4) as [[synced|e|y] v'] eqn:Sy; [| |done];
    injection E5 as <- <-; [|by destruct (Requeue requeue)].
  exists (in_cr h), w4, synced, v'. split_and!; [exact Sy|by do 3 (etrans; [eassumption|])| |].
  { etrans; [exact L1|]. by etrans. }
  destruct (Requeue requeue); [done|].
  apply M_bind_Ok in E as ([h' err] & w6 & E6 & E). apply spares_run in E6; [|apply UpdateStatus_spares].
  etrans; [exact E6|]. eapply spares_run; [|exact E].
  solve_spares; apply reads_spares;
    first [apply ContentWatch_touches|apply touches_on_watches].
Qed.
(** up to the sync *)
Lemma Reconcile_syncs ns name cr api w r w' :
  api_Get (key_at (ns, name)) (w_api w) = (inr (OCSM cr), api) → IsBeingDeleted cr = false →
  Reconcile conf ns name w = (Ok r, w') →
  ∃ cr1 v synced v', SyncCSM conf cr1 conf v = (Ok synced, v') ∧ alike cr cr1
    ∧ (HasModule cr AuthorizationServer = false → GetDriverType cr ≠ "")
    ∧ lasts P (seen w) (seen v) ∧ lasts P (seen v') (seen w').
Proof.
  intros G Hdel E. unfold Reconcile in E.
  apply M_bind_Ok in E as ([] & w0 & E0 & E). injection E0 as <-.
  apply M_bind_Ok in E as (g & w1 & E1 & E).
  assert (w_api w1 = api ∧ g = inr cr) as [<- ->].
  { unfold attempt, getT, getObject, call, mbind, M_bind in E1. cbn [w_api] in E1.
    change (key_at (ns, name)) with (kind_of CSM, (ns, name)) in G. rewrite G in E1.
    by injection E1 as <- <-. }
  pose proof G as [Hs _]%get_reads.
  apply M_bind_Ok in E as (cr1 & w2 & E2 & E). injection E2 as E2 <-.
  pose proof (with_defaults_meta _ _ _ E2) as M1. apply with_defaults_alike in E2.
  apply M_bind_Ok in E as ([cr2 p] & w3 & E3 & E). pose proof E3 as L3.
  apply spares_run in L3; [|apply PreChecks_spares].
  pose proof (proj2 (PreChecks_meta _ _ _ _ _ E3) _ eq_refl) as M2. unfold keeps_meta_of in M2.
  simpl in M2. destruct p as [e|].
  { apply M_bind_Ok in E as ([] & w4 & _ & E). unfold HandleValidationError in E.
    by apply M_bind_Ok in E as ([] & w5 & _ & E). }
  apply PreChecks_alike in E3 as [A3 T3].
  assert (IsBeingDeleted cr2 = false) as Hdel2.
  { unfold IsBeingDeleted in *. rewrite M2, M1. exact Hdel. }
  rewrite Hdel2 in E. apply reconcile_update_syncs in E as (cr4 & v & synced & v' & Sy & A4 & L4 & L5).
  exists cr4, v, synced, v'. split_and!; [exact Sy|by do 2 (etrans; [eassumption|])| | |exact L5].
  - intros Ha. rewrite <- (alike_type _ _ E2). apply T3. by rewrite (alike_HasModule _ _ _ E2).
  - etrans; [|exact L4]. etrans; [|exact L3]. unfold seen. by rewrite Hs.
Qed.

Lemma no_server_enabled cr :
  HasModule cr AuthorizationServer = false → enabled cr AuthorizationServer = false.
Proof using.
  unfold enabled, IsModuleEnabled. destruct (first_enabled _ _) as [m|] eqn:F; [|done].
  apply first_enabled_Some in F as (Hin & Hn & _). rewrite HasModule_names.
  intros Hf%bool_decide_eq_false_1. exfalso. apply Hf. rewrite <- Hn.
  by apply list_elem_of_fmap_2.
Qed.

(** Installation completes: when the reconciliation of a live resource that is no authorization
    server reports success, its driver was synced from a configuration that was read for it, and
    every object that this configuration names is on the cluster, but for those that were being
    deleted when the reconciliation began. *)
Lemma Reconcile_brings ns name cr api w r w' :
  api_Get (key_at (ns, name)) (w_api w) = (inr (OCSM cr), api) → IsBeingDeleted cr = false →
  HasModule cr AuthorizationServer = false → Reconcile conf ns name w = (Ok r, w') →
  ∃ d, (∃ cr1 u matched v cr2 m v', alike cr cr1 ∧ images_of cr1 matched u
          ∧ getDriverConfig cr1 conf matched v = (Ok (Some d, cr2, m), v'))
    ∧ ∀ k, P k → k ∈ driver_keys d → is_Some (seen w' !! k) ∨ dying (seen w) k.
Proof.
  intros G Hdel Ha E.
  eapply Reconcile_syncs in E as (cr1 & v & synced & v' & Sy & A & T & L1 & L2); [|done..].
  specialize (T Ha). apply SyncCSM_brings in Sy as (d & (matched & u & cr2 & m & u' & I & D) & L & B).
  - exists d. split; [by exists cr1, v, matched, u, cr2, m, u'|]. intros k Pk Hk.
    destruct (L1 k Pk) as [D1 _], (L k Pk) as [D2 _], (L2 k Pk) as [_ K2].
    destruct (B k Pk Hk) as [X|X]; [|by right; apply D1].
    apply K2 in X as [X|X]; [by left|]. right. by apply D1, D2.
  - apply no_server_enabled. by rewrite (alike_HasModule _ _ _ A).
  - by rewrite (alike_type _ _ A).
Qed.
End installing.
