(* ===== verification/PackageSpares.v ===== *)
(** The packages pkg/drivers and pkg/modules as they are modelled obey the laws of Spares.v and
    Names.v: checks and injections only read, installing deletes nothing, a removal takes away
    only objects of the kinds that manifests have, and what is done to a driver's workloads and
    roles leaves their kinds and names alone. *)

From S2P Require Import Prelude.
From S2P Require Import GoStrings.
From S2P Require Import GoCrypto.
From S2P Require Import Types.
From S2P Require Import Versions.
From S2P Require Import Modules.
From S2P Require Import Images.
From S2P Require Import Cluster.
From S2P Require Import Resources.
From S2P Require Import Status.
From S2P Require Import Packages.
From S2P Require Import Manifests.
From S2P Require Import Drivers.
From S2P Require Import Pods.
From S2P Require Import ModCommon.
From S2P Require Import Resiliency.
From S2P Require Import Replication.
From S2P Require Import ReverseProxy.
From S2P Require Import AuthSidecar.
From S2P Require Import Observability.
From S2P Require Import AuthServer.
From S2P Require Import AuthServerSpec.
From S2P Require Import ModPackage.
From S2P Require Import Watch.
From S2P Require Import Sync.
From S2P Require Import Frames.
From S2P Require Import PackageFrames.
From S2P Require Import Spares.
From S2P Require Import Names.
From stdpp Require Import options.

Local Open Scope stdpp_scope.

(** ** pkg/drivers *)

Section drivers.
Context {W : Type} `{Client W} `{!View W} `{!ClientLaws (W := W)} `{Host} `{MapOrder}
  `{ManifestCodec} `{SecretCodec} (capacity : list string → nat).
#[local] Set Default Proof Using "All".

Lemma GetNode_read cr op t file matched : reads (GetNode (W := W) capacity cr op t file matched).
Proof.
  unfold GetNode, reads. apply touches_bind; [apply touches_lift|intros buf].
  destruct (modify_node _ cr) as [y cr1]. apply touches_bind; [apply touches_lift|intros d].
  destruct d; [apply touches_lift|]. apply touches_bind; [apply touches_lift|intros p].
  apply touches_bind; [apply touches_lift|intros [m1 cs]]. apply touches_bind.
  { case_decide; [apply (reads_SetSDCinitContainers capacity)|apply touches_ret]. }
  intros [upd cr2]. solve_touches.
Qed.

Lemma driver_package_reads : DriverReads W (DriverPackage0 := driver_package capacity).
Proof.
  pose proof (driver_prechecks_read (W := W) capacity) as L. unfold checks in L. rewrite !Forall_cons in L.
  destruct L as (L1 & L2 & L3 & L4 & L5 & L6 & _).
  split; [intros; first [apply L1|apply L2|apply L3|apply L4|apply L5|apply L6]..| |].
  - apply (ValidateZones_read capacity).
  - apply GetNode_read.
Qed.

(** *** Names *)

Lemma set_pod_name p d : workload_name (set_pod p d) = workload_name d.
Proof using. done. Qed.

Lemma set_auth_env_type cr : GetDriverType (fst (set_auth_env cr)) = GetDriverType cr.
Proof using. unfold set_auth_env. by repeat case_match. Qed.

Lemma modify_node_type y cr : GetDriverType (snd (modify_node y cr)) = GetDriverType cr.
Proof using.
  unfold modify_node, ModifyPowerstoreCR. pose proof (set_auth_env_type cr) as E.
  destruct (set_auth_env cr) as [cr' b]. repeat case_decide; done.
Qed.

Lemma GetNode_gives_type cr op t file matched :
  gives (λ '(_, cr', _), GetDriverType cr' = GetDriverType cr)
    (GetNode (W := W) capacity cr op t file matched).
Proof.
  unfold GetNode. apply within_then; [apply _|apply gives_any|]. intros buf.
  pose proof (modify_node_type (ModifyCommonCR buf cr) cr) as Et.
  destruct (modify_node _ cr) as [y cr1]. simpl in Et.
  apply within_then; [apply _|apply gives_any|]. intros [yc|yn]; [by apply within_lift; [apply _|]|].
  do 2 (apply within_then; [apply _|apply gives_any|]; intros ?). case_match.
  apply (within_bind _ (λ '(_, cr2), GetDriverType cr2 = GetDriverType cr1)).
  { case_decide; [|by apply within_ret; [apply _|]]. unfold SetSDCinitContainers.
    apply within_then; [apply _|apply gives_any|]. intros r. by apply within_ret; [apply _|]. }
  intros [upd cr2] Et2. apply within_then; [apply _|apply gives_any|]. intros [m2 ics].
  apply within_then; [apply _|apply gives_any|]. intros vs.
  apply within_ret; [apply _|]. congruence.
Qed.

Lemma mount_name d cr d' :
  DynamicallyMountPowermaxContent d cr = Ok d' → workload_name d' = workload_name d.
Proof using.
  unfold DynamicallyMountPowermaxContent. intros E. go_inv. case_match; [|done]. go_inv. by subst.
Qed.

Lemma driver_package_names : MountNames W (DriverPackage0 := driver_package capacity).
Proof.
  split; cbn; intros; [..|apply GetNode_gives_type].
  - by eapply mount_name.
  - unfold RemoveVolume in *. go_inv. by subst.
  - unfold RemoveInitVolume in *. go_inv. by subst.
Qed.
End drivers.

(** ** pkg/modules *)

Section objects.
Context {W : Type} `{Client W} `{!View W} `{!ClientLaws (W := W)} `{!DeletionLaws W}.
Context (P : Key → Prop).
#[local] Set Default Proof Using "All".

Lemma each_object_spares apply b objs :
  clean b P → (∀ o, spares P (apply o)) → manifest_kinds objs →
  spares P (each_object (W := W) apply b objs).
Proof.
  intros C Ha K. apply spares_forM. intros o Ho. destruct b; [|apply Ha].
  apply DeleteObject_spares. intros Po. apply (C eq_refl _ Po). by apply manifest_kind with objs.
Qed.

Lemma apply_or_delete_spares b objs :
  clean b P → manifest_kinds objs → spares P (apply_or_delete (W := W) b objs).
Proof. intros C. apply each_object_spares; [done|]. intros o. apply ApplyObject_spares. Qed.

Lemma apply_ctrl_or_delete_spares b objs :
  clean b P → manifest_kinds objs → spares P (apply_ctrl_or_delete (W := W) b objs).
Proof. intros C. apply each_object_spares; [done|]. intros o. apply ApplyCTRLObject_spares. Qed.

Lemma applyDeleteObjects_spares `{ManifestCodec} y b :
  clean b P → spares P (applyDeleteObjects (W := W) y b).
Proof.
  intros C. apply spares_lift_bind. intros objs E%GetModuleComponentObj_kinds.
  by apply apply_or_delete_spares.
Qed.
End objects.

#[export] Hint Resolve applyDeleteObjects_spares : spares.

Section modules.
Context {W : Type} `{Client W} `{!View W} `{!ClientLaws (W := W)} `{!DeletionLaws W} `{Host}
  `{MapOrder} `{ManifestCodec} `{SecretCodec} `{Directory} `{!Retry W} `{!RetryLaws W}.
#[local] Set Default Proof Using "All".

Section clean.
Context (P : Key → Prop) (b : bool) (C : clean b P).

Lemma ResolveVersion_spares cr : spares P (ResolveVersionFromConfigMap (W := W) cr).
Proof. apply reads_spares, reads_ResolveVersion. Qed.
#[local] Hint Resolve ResolveVersion_spares : spares.

Lemma CommonCertManager_safe op cr matched :
  spares P (ModCommon.CommonCertManager (W := W) b op cr matched).
Proof.
  unfold ModCommon.CommonCertManager. apply spares_lift_bind. intros [objs crds] E.
  unfold cert_manager_objects in E. go_inv. subst. apply spares_bind; [solve_spares|intros []].
  apply apply_or_delete_spares; [exact C|]. by eapply GetModuleComponentObj_kinds.
Qed.

Lemma PatchCSMDRCRDs_safe op : spares P (ModCommon.PatchCSMDRCRDs (W := W) b op).
Proof.
  unfold ModCommon.PatchCSMDRCRDs. apply spares_lift_bind. intros y _.
  apply spares_lift_bind. intros objs E%GetModuleComponentObj_kinds. by apply apply_or_delete_spares.
Qed.

Lemma ReverseProxyServer_safe op cr :
  spares P (ReverseProxy.ReverseProxyServer (W := W) b op cr).
Proof.
  unfold ReverseProxy.ReverseProxyServer. apply spares_bind; [solve_spares|intros matched].
  apply spares_lift_bind. intros y _. apply spares_lift_bind. intros objs E%GetModuleComponentObj_kinds.
  apply spares_forM. intros o Ho. apply spares_lift_bind. intros o' Eo%prepare_proxy_kind.
  destruct b; [|apply ApplyObject_spares]. apply DeleteObject_spares. intros Po.
  apply (C eq_refl _ Po). unfold obj_key. simpl. rewrite Eo. by apply manifest_kind with objs.
Qed.

Lemma ReverseProxyStartService_safe op cr :
  spares P (ReverseProxy.ReverseProxyStartService (W := W) b op cr).
Proof.
  unfold ReverseProxy.ReverseProxyStartService. apply spares_lift_bind. intros y _.
  apply spares_lift_bind. intros objs E%GetModuleComponentObj_kinds. by apply apply_or_delete_spares.
Qed.

Lemma ReplicationManagerController_safe op cr :
  spares P (Replication.ReplicationManagerController (W := W) b op cr).
Proof.
  unfold Replication.ReplicationManagerController. apply spares_bind; [solve_spares|intros matched].
  apply spares_lift_bind. intros objs E%getReplicaController_kinds. by apply apply_or_delete_spares.
Qed.

Lemma OtelCollector_safe op cr matched :
  spares P (Observability.OtelCollector (W := W) b op cr matched).
Proof.
  unfold Observability.OtelCollector. apply spares_lift_bind. intros y _.
  apply spares_lift_bind. intros objs E%GetModuleComponentObj_kinds. by apply apply_ctrl_or_delete_spares.
Qed.

Lemma getTopology_kinds op cr matched objs :
  getTopology op cr matched = Ok objs → manifest_kinds objs.
Proof using Type.
  intros E. unfold getTopology in E. apply outcome_bind_Ok in E as (m & _ & E).
  apply outcome_bind_Ok in E as (y & _ & E). destruct (foldl _ _ _) as [image level].
  apply outcome_bind_Ok in E as (os & Eo & [= <-]).
  by apply SetContainerImage_kinds, GetModuleComponentObj_kinds with (1 := Eo).
Qed.

Lemma ObservabilityTopology_safe op cr matched :
  spares P (Observability.ObservabilityTopology (W := W) b op cr matched).
Proof.
  unfold Observability.ObservabilityTopology. apply spares_lift_bind. intros v _.
  destruct (Observability.old_version v); [|apply spares_fail]. apply spares_lift_bind.
  intros objs E%getTopology_kinds. by apply apply_ctrl_or_delete_spares.
Qed.

Lemma metrics_safe k adapt withSecrets op cr :
  adapts adapt → spares P (metrics (W := W) k adapt withSecrets b op cr).
Proof.
  intros Ha. unfold metrics. apply spares_bind_run; [by apply reads_spares, reads_metrics_objects|].
  intros [dp objs] w w' E%metrics_objects_kinds; [|done].
  apply spares_bind; [by apply apply_ctrl_or_delete_spares|intros _].
  destruct b; [|apply SyncDeployment_spares]. unfold delete_deployment.
  apply (touches_spares P (λ k, k.1 = "Deployment")); [by apply remove_workload_touches|].
  intros key Pk Hk. apply (C eq_refl _ Pk). rewrite Hk. by apply (bool_decide_unpack _).
Qed.

Lemma IssuerCertServiceObs_safe op cr :
  spares P (Observability.IssuerCertServiceObs (W := W) b op cr).
Proof. unfold Observability.IssuerCertServiceObs. solve_spares. Qed.
End clean.

Lemma module_package_spares : ModuleSpares W (ModulePackage0 := module_package).
Proof.
  split; unfold module_package; cbn; intros.
  - by apply ReverseProxyServer_safe.
  - by apply ReverseProxyStartService_safe.
  - by apply ReplicationManagerController_safe.
  - by apply OtelCollector_safe.
  - by apply ObservabilityTopology_safe.
  - by apply CommonCertManager_safe.
  - apply metrics_safe, keep_adapts. done.
  - apply metrics_safe, keep_adapts. done.
  - apply metrics_safe, adapt_metrics_adapts. done.
  - apply metrics_safe, keep_adapts. done.
  - by apply IssuerCertServiceObs_safe.
  - by apply PatchCSMDRCRDs_safe.
  - unfold Replication.ReplicationCrdDeploy. solve_spares.
  - unfold Replication.DeleteReplicationCrds. solve_spares.
  - unfold Replication.CreateReplicationConfigmap. solve_spares.
Qed.

Lemma module_package_reads : ModuleReads W (ModulePackage0 := module_package).
Proof.
  split; unfold module_package; cbn; intros.
  - apply AuthorizationPrecheck_read.
  - apply AuthorizationServerPrecheck_read.
  - apply ReplicationPrecheck_read.
  - apply ResiliencyPrecheck_read.
  - apply ObservabilityPrecheck_read.
  - apply ReverseProxyPrecheck_read.
  - apply touches_lift.
  - apply touches_lift.
  - apply reads_inject_proxy.
  - apply reads_inject_proxy.
  - apply touches_lift.
  - apply touches_lift.
  - apply touches_lift.
  - apply touches_lift.
  - apply touches_lift.
Qed.

(** *** Names *)

Lemma add_rules_name rules r : resource_name (add_rules rules r) = resource_name r.
Proof using. done. Qed.

Lemma add_proxy_name container vols d d' :
  add_proxy container vols d = Ok d' → workload_name d' = workload_name d.
Proof using.
  unfold add_proxy, annotate. intros E. go_inv. subst. destruct d as [[m|] spec rest]; [|done].
  simplify_eq/=. done.
Qed.

Lemma inject_proxy_names d cr op :
  gives (λ '(d', cr'), workload_name d' = workload_name d ∧ GetDriverType cr' = GetDriverType cr)
    (inject_proxy (W := W) d cr op).
Proof.
  intros w r w' E. split; [done|]. intros [d' cr'] ->. unfold inject_proxy in E.
  apply M_bind_Ok in E as ([[[m c] matched] cr1] & w1 & E1 & E).
  apply getAuthApplyCR_inv in E1 as (_ & -> & _). go_inv. subst. split; [|done].
  match goal with A : (add_proxy _ _ _, _) = _ |- _ => injection A as A _; by apply add_proxy_name in A end.
Qed.

Lemma config_mounts_name d m cr d' :
  setReverseProxyConfigMapMounts d m cr = Ok d' → workload_name d' = workload_name d.
Proof using. unfold setReverseProxyConfigMapMounts. intros E. go_inv. by subst. Qed.

Lemma proxy_deployment_name d cr op matched d' :
  ReverseProxy.inject_deployment d cr op matched = Ok d' → workload_name d' = workload_name d.
Proof using.
  intros E. apply outcome_bind_Ok in E as ([m c] & _ & E). apply outcome_bind_Ok in E as (c' & _ & E).
  apply outcome_bind_Ok in E as (p & _ & E). apply outcome_bind_Ok in E as (cs & _ & E).
  apply outcome_bind_Ok in E as (supported & _ & E). apply outcome_bind_Ok in E as (d1 & E1 & E).
  trans (workload_name d1).
  - destruct (UseReverseProxySecret cr); [by injection E as <-|by apply config_mounts_name in E].
  - destruct (supported && _); [by apply mount_name in E1|by injection E1 as <-].
Qed.

(** the steps of an injection, one after the other *)
Ltac solve_name :=
  intros ? E; repeat first
    [ progress go_inv
    | progress subst
    | match goal with E : match ?x with _ => _ end = Ok _ |- _ => destruct x end ];
  done.

Lemma module_package_names : InjectionNames W (ModulePackage0 := module_package).
Proof.
  split; unfold module_package; cbn; intros.
  - apply within_lift; [apply _|]. intros d'. apply proxy_deployment_name.
  - unfold ReverseProxy.AddReverseProxyServiceName in *. go_inv. by subst.
  - unfold ReverseProxy.UpdatePowerMaxConfigMap in *. repeat case_match; by simplify_eq.
  - apply inject_proxy_names.
  - apply inject_proxy_names.
  - apply within_lift; [apply _|]. unfold Resiliency.inject_deployment. solve_name.
  - apply within_lift; [apply _|]. unfold Resiliency.inject_daemonset. solve_name.
  - apply within_lift; [apply _|]. unfold Resiliency.inject_cluster_role, inject_rules.
    solve_name.
  - apply within_lift; [apply _|]. unfold Resiliency.inject_role, inject_rules.
    solve_name.
  - apply within_lift; [apply _|]. unfold Replication.inject_deployment. solve_name.
  - apply within_lift; [apply _|]. unfold Replication.inject_cluster_role, inject_rules.
    solve_name.
Qed.
End modules.
