(* ===== verification/Operator.v ===== *)
(** The operator as a whole: the reconciler of controllers/ with the packages pkg/drivers and
    pkg/modules as they are modelled, not as their interfaces promise. What is assumed is the
    documented behaviour of the API server, client-go and the discovery of API groups. *)

From S2P Require Import Prelude.
From S2P Require Import GoStrings.
From S2P Require Import Types.
From S2P Require Import Versions.
From S2P Require Import Modules.
From S2P Require Import Images.
From S2P Require Import Cluster.
From S2P Require Import Resources.
From S2P Require Import Status.
From S2P Require Import Packages.
From S2P Require Import Manifests.
From S2P Require Import Drivers.
From S2P Require Import Pods.
From S2P Require Import ModCommon.
From S2P Require Import AuthServerCerts.
From S2P Require Import ModPackage.
From S2P Require Import Watch.
From S2P Require Import Sync.
From S2P Require Import Controller.
From S2P Require Import Frames.
From S2P Require Import PackageFrames.
From S2P Require Import Isolation.
From S2P Require Import Spares.
From S2P Require Import Names.
From S2P Require Import PackageSpares.
From S2P Require Import Installing.
From stdpp Require Import options.

Local Open Scope stdpp_scope.

Section operator.
Context {W : Type} `{Client W} `{!View W} `{!ClientLaws (W := W)} `{!RegistryLaws W} `{Host}
  `{MapOrder} `{JSON} `{URLs} `{!Retry W} `{!RetryLaws W} `{!Informers W} `{!InformerLaws W}
  `{!Discovery W} `{!DiscoveryFrames W} `{ManifestCodec} `{SecretCodec} `{Directory}
  (capacity : list string → nat).
#[local] Set Default Proof Using "All".

#[local] Instance drivers : DriverPackage W := driver_package capacity.
#[local] Instance modules : ModulePackage W := module_package.
#[local] Instance drivers_laws : DriverLaws (W := W) := driver_package_laws capacity.
#[local] Instance modules_laws : ModuleLaws (W := W) := module_package_laws.
#[local] Instance drivers_frames : DriverFrames W := driver_package_frames capacity.
#[local] Instance modules_frames : ModuleFrames W := module_package_frames.

(** C1: the operator refines the machine of [turn] over the custom resources of the cluster.
    Whatever the API server answers, serving a list of requests runs a prefix of them as turns,
    all of them unless one panics. So a custom resource that is not asked for stays exactly as
    it is; the operator creates none and marks none for deletion, and none goes away that is not
    being deleted already. *)
Theorem operator_refines config reqs w r w' :
  serve config reqs w = (r, w') →
  (∃ served, served `prefix_of` reqs ∧ (r = Ok () → served = reqs)
     ∧ turns served (registry (seen w)) (registry (seen w')))
  ∧ (∀ req, req ∉ reqs → registry (seen w') req = registry (seen w) req)
  ∧ ∀ req, ages (phase_of (registry (seen w) req)) (phase_of (registry (seen w') req)).
Proof. apply serve_refines_run. Qed.

(** C2: a deletion completes. When the resource that is asked for is being deleted and still has
    the operator's finalizer, and the reconciliation reports success, then the resource is gone
    from the cluster, every other one is as it was, and no content watch of it is left. *)
Theorem operator_completes_deletion config ns name cr api w r w' :
  api_Get (key_at (ns, name)) (w_api w) = (inr (OCSM cr), api) →
  IsBeingDeleted cr = true → HasFinalizer cr CSMFinalizerName = true →
  Reconcile config ns name w = (Ok r, w') →
  registry (seen w') (ns, name) = None
  ∧ (∀ other, other ≠ (ns, name) → registry (seen w') other = registry (seen w) other)
  ∧ wa_channels (w_watches w') !! name = None.
Proof. apply deletion_completes_run. Qed.

Context `{!DeletionLaws W} `{!DiscoveryReads W}.
#[local] Instance drivers_reads : DriverReads W := driver_package_reads capacity.
#[local] Instance modules_reads : ModuleReads W := module_package_reads.
#[local] Instance modules_spares : ModuleSpares W := module_package_spares.
#[local] Instance drivers_names : MountNames W := driver_package_names capacity.
#[local] Instance modules_names : InjectionNames W := module_package_names.

(** C3: an installation completes. When the resource that is asked for is live and no
    authorization server, and the reconciliation reports success, then the operator read the
    manifests of its driver, as a resource with the same name, namespace, version, registry,
    settings of the driver and names of modules has them ([alike]), and every object that they
    name is on the cluster afterwards: service accounts, roles and their bindings, the CSIDriver
    object, the config map, the controller's deployment and the node's daemon set. Excepted are
    what was being deleted already when the reconciliation began, and the keys outside [P]: a
    sync means to take away the objects of what an earlier configuration had and this one has
    not, and [P] is any set of keys that this does not concern ([untouched]). *)
Theorem operator_installs P config ns name cr api w r w' :
  untouched config P →
  api_Get (key_at (ns, name)) (w_api w) = (inr (OCSM cr), api) → IsBeingDeleted cr = false →
  HasModule cr AuthorizationServer = false → Reconcile config ns name w = (Ok r, w') →
  ∃ d, (∃ cr1 u matched v cr2 m v', alike cr cr1 ∧ images_of cr1 matched u
          ∧ getDriverConfig cr1 config matched v = (Ok (Some d, cr2, m), v'))
    ∧ ∀ k, P k → k ∈ driver_keys d → is_Some (seen w' !! k) ∨ dying (seen w) k.
Proof. intros U G D M E. exact (Reconcile_brings P config U ns name cr api w r w' G D M E). Qed.
End operator.

(** ** A cluster with two resources

    One is an authorization server that waits for the operator to let it go. *)

Lemma demo_discovery_frames : DiscoveryFrames Store (Discovery0 := demo_discovery).
Proof. split. apply touches_ret. Qed.

Definition demo_dying : CSM :=
  mkCSM "ContainerStorageModule"
    (mkObjectMeta "csm" "dell" "" "" 0 true None None [CSMFinalizerName] None [])
    (mkSpec "" (set_d_ForceRemoveDriver (Some false) (demo_driver ""))
       [mkModule AuthorizationServer false "v2.5.0" [] true []] "" false) zero_Status.

Definition demo_other : CSM := set_cr_Meta (named "dell" "other") (demo_cr PowerFlex []).

Definition demo_pair : World Store := world_of [OCSM demo_dying; OCSM demo_other] obeys.

(** A cluster where a Unity driver is being installed: its secret is there, its pods run. *)
Definition install_manifest (workload : string) : string :=
  demo_manifest ["ServiceAccount sa"; "ClusterRole cr"; "ClusterRoleBinding crb"; "Role r";
                 "RoleBinding rb"; workload].

Definition install_host : Host := host_of
  {[ "/cfg/driverconfig/unity/v2.17.0/upgrade-path.yaml" := "v2.15.0";
     "/cfg/driverconfig/unity/v2.17.0/csidriver.yaml" := "CSIDriver csi-unity";
     "/cfg/driverconfig/unity/v2.17.0/driver-config-params.yaml" := "ConfigMap csm-params";
     "/cfg/driverconfig/unity/v2.17.0/controller.yaml" := install_manifest "Deployment csm-controller";
     "/cfg/driverconfig/unity/v2.17.0/node.yaml" := install_manifest "DaemonSet csm-node" ]}
  ∅ ∅.

Definition install_world : World Store :=
  world_of [OCSM (demo_cr Unity []); OSecret (mkSecret (named "dell" "csm-creds") None);
            demo_deployment "csm-controller" 1; demo_daemonset; demo_pod] obeys.

Lemma demo_discovery_reads : DiscoveryReads Store (Discovery0 := demo_discovery).
Proof. split. apply touches_ret. Qed.

Section witnesses.
#[local] Existing Instances demo_host demo_json demo_urls demo_informers demo_discovery
  demo_informer_laws demo_discovery_frames demo_codec no_secrets certs_directory.

Definition demo_serve (reqs : list Request) : M (World Store) () :=
  serve (DriverPackage0 := driver_package (λ _, 0)) (ModulePackage0 := module_package)
    demo_config reqs.

Lemma operator_refines_witness :
  let reqs := [("dell", "csm"); ("dell", "none")] in
  registry (seen (snd (demo_serve reqs demo_pair))) ("dell", "other")
  = registry (seen demo_pair) ("dell", "other").
Proof.
  intros reqs. apply (proj1 (proj2 (operator_refines (λ _, 0) demo_config reqs demo_pair _ _
    (surjective_pairing (demo_serve reqs demo_pair))))).
  decide_goal.
Defined.

Definition demo_reconcile : M (World Store) Result :=
  Reconcile (DriverPackage0 := driver_package (λ _, 0)) (ModulePackage0 := module_package)
    demo_config "dell" "csm".

Lemma operator_completes_deletion_witness :
  ∃ w', demo_reconcile demo_pair = (Ok (mkResult false), w')
    ∧ registry (seen w') ("dell", "csm") = None.
Proof.
  assert (fst (demo_reconcile demo_pair) = Ok (mkResult false)) as E by (vm_compute; reflexivity).
  apply run_fst in E. eexists. split; [exact E|].
  assert (api_Get (key_at ("dell", "csm")) (w_api demo_pair)
    = (inr (OCSM demo_dying), w_api demo_pair)) as G by (vm_compute; reflexivity).
  exact (proj1 (operator_completes_deletion (λ _, 0) demo_config "dell" "csm" demo_dying
    (w_api demo_pair) demo_pair (mkResult false) _ G eq_refl eq_refl E)).
Defined.
End witnesses.

(** the annotation keeps what was applied before: the same request *)
Definition install_json : JSON := {|
  json_Marshal _ := inr "{}";
  json_Unmarshal _ := inr (demo_cr Unity [])
|}.

Section installation.
#[local] Existing Instances install_host install_json demo_urls demo_informers demo_discovery
  demo_informer_laws demo_discovery_frames demo_discovery_reads demo_codec no_secrets
  certs_directory.

Definition demo_install : M (World Store) Result :=
  Reconcile (DriverPackage0 := drivers (λ _, 0)) (ModulePackage0 := modules)
    demo_config "dell" "csm".

(** all but the objects of the monitoring *)
Definition unmonitored (k : Key) : Prop := k.1 ≠ "Service" ∧ k.1 ≠ "ServiceMonitor".

(** Nothing else is taken away: there are no definitions of disaster recovery, and what was
    applied before had no modules. *)
Lemma unmonitored_untouched :
  untouched (W := Store) (ModulePackage0 := module_package) demo_config unmonitored.
Proof.
  split; [done|..].
  - unfold module_package. cbn. unfold ModCommon.PatchCSMDRCRDs.
    destruct (ModCommon.getCSMDRCRDs demo_config) as [y|e|e] eqn:E; [vm_compute in E; discriminate E|..];
      intros w r w' [= <- <-]; by split.
  - intros s old new [= <-]. unfold cleanup_old.
    apply spares_bind; [by apply spares_ret|intros _]. 
    assert (dropped_components (demo_cr Unity []) new = Ok []) as ->
      by (unfold dropped_components; by destruct (enabled new Observability)).
    apply spares_lift_bind. intros comps [= <-].
    by apply spares_ret.
Qed.

Lemma operator_installs_witness :
  ∃ w' d, demo_install install_world = (Ok (mkResult false), w')
    ∧ (∃ cr1 u matched v cr2 m v', alike (demo_cr Unity []) cr1 ∧ images_of cr1 matched u
        ∧ getDriverConfig (DriverPackage0 := drivers (λ _, 0)) cr1 demo_config matched v
          = (Ok (Some d, cr2, m), v'))
    ∧ ∀ k, unmonitored k → k ∈ driver_keys d → is_Some (seen w' !! k).
Proof.
  assert (∃ w', demo_install install_world = (Ok (mkResult false), w')) as [w' E].
  { eexists. apply run_fst. vm_compute. reflexivity. }
  assert (api_Get (key_at ("dell", "csm")) (w_api install_world)
    = (inr (OCSM (demo_cr Unity [])), w_api install_world)) as G by (vm_compute; reflexivity).
  assert (map_Forall (λ _ o, is_deleting o = false) (seen install_world)) as Hlive by decide_goal.
  exists w'. pose proof E as R. unfold demo_install in R.
  destruct (operator_installs (λ _, 0) unmonitored demo_config "dell" "csm"
    (demo_cr Unity []) (w_api install_world) install_world (mkResult false) w'
    unmonitored_untouched G eq_refl eq_refl R) as (d & D & B).
  exists d. split; [exact E|]. split; [exact D|]. intros k Pk Hk.
  destruct (B k Pk Hk) as [X|(o & Ho & Hd)]; [exact X|]. exfalso.
  apply Hlive in Ho. congruence.
Defined.
End installation.
