(* ===== verification/Start.v ===== *)
(** The start of the process: what src/main.go reads before it starts the manager, which file of
    images it chooses, the steps of [main], and the questions it asks of the API server
    (src/k8s/client.go). *)

From S2P Require Import Prelude.
From S2P Require Import GoStrings.
From S2P Require Import Types.
From S2P Require Import Versions.
From Stdlib Require Import Ascii ZArith Lia SpecFloat.
From stdpp Require Import options.

Local Open Scope stdpp_scope.

(** ** Floating point numbers, as [strconv.ParseFloat(s, 64)] reads them *)

Abbreviation float64 := spec_float.

(** the float next to [m / 10^k] *)
Definition decimal_float (m : Z) (k : nat) : float64 :=
  match m with
  | Zpos _ =>
      let '(q, e, l) := SFdiv_core_binary 53 1024 m 0 (10 ^ Z.of_nat k) 0 in
      binary_round_aux 53 1024 false q e l
  | _ => S754_zero false
  end.

(** a text of digits with at most one point among them *)
Definition decimal (s : string) : option float64 :=
  match Split s "." with
  | [i] => if decide (i = "") then None else n ← digits 0 i; Some (decimal_float n 0)
  | [i; f] =>
      if decide (i = "" ∧ f = "") then None
      else n ← digits 0 (i +:+ f); Some (decimal_float n (String.length f))
  | _ => None
  end.

Definition is_decimal_char (c : ascii) : bool :=
  bool_decide (is_Some (digit c)) || bool_decide (c = "."%char).

Definition float_lt : float64 → float64 → bool := SFltb.

(** ** What main.go and client.go ask of their surroundings *)

Record VersionInfo := mkVersionInfo { vi_Major : string; vi_Minor : string }.

Record Flags := mkFlags {
  fl_metricsBindAddress : string;
  fl_healthProbeBindAddress : string;
  fl_leaderElect : bool;
  fl_secureMetrics : bool
}.

Record Options := mkOptions {
  op_MetricsBindAddress : string;
  op_SecureServing : bool;
  op_NextProtos : list string;
  op_HealthProbeBindAddress : string;
  op_LeaderElection : bool;
  op_LeaderElectionID : string;
  op_WebhookPort : Z
}.

(** The value that [ParseFloat] gives for a text with other characters than digits and points
    (an exponent, a sign, infinity, hexadecimal digits) is left open. *)
Class Startup := {
  GetClientSet : option error;
  ServerGroupsAndResources : option (list string) * option error;
  ServerVersion : error + VersionInfo;
  ReadDir : string → option error;
  yaml_K8sImagesConfig : string → error + K8sImagesConfig;
  other_float : string → float64;
  GetConfigOrDie : option error;
  NewManager : Options → option error;
  NewForConfigOrDie : option error;
  Complete : option error;
  AddHealthzCheck : option error;
  AddReadyzCheck : option error;
  Start : option error
}.

(** ** k8s/client.go *)

Section client.
Context `{Startup}.

Definition GetKubeAPIServerVersion : option VersionInfo * option error :=
  match GetClientSet with
  | Some e => (None, Some e)
  | None =>
      match ServerVersion with
      | inl e => (None, Some e)
      | inr sv => (Some sv, None)
      end
  end.

Definition IsOpenShift : bool * option error :=
  match GetClientSet with
  | Some e => (false, Some e)
  | None =>
      match fst ServerGroupsAndResources with
      | None => (false, Some (Errorf "serverGroups is nil"))
      | Some serverGroups =>
          (existsb (λ g, bool_decide (g = "security.openshift.io")) serverGroups, None)
      end
  end.
End client.

(** ** main.go: the configuration of the operator *)

Definition ConfigDir : string := "/etc/config/dell-csm-operator".
Definition Operatorconfig : string := "operatorconfig".
Definition K8sMinimumSupportedVersion : string := "1.34".
Definition K8sMaximumSupportedVersion : string := "1.36".

Definition TrimSuffix (s suf : string) : string :=
  if HasSuffix s suf then String.rev (drop_str (String.length suf) (String.rev s)) else s.

Definition getk8sPath (kubeVersion : string) (currentVersion minVersion maxVersion : float64)
    : string :=
  if float_lt currentVersion minVersion then "/driverconfig/common/default.yaml"
  else if float_lt maxVersion currentVersion then
    "/driverconfig/common/k8s-" +:+ K8sMaximumSupportedVersion +:+ "-values.yaml"
  else "/driverconfig/common/k8s-" +:+ kubeVersion +:+ "-values.yaml".

Section config.
Context `{Startup} `{Host}.

(** a syntax error leaves the number 0 *)
Definition ParseFloat (s : string) : float64 :=
  if all_chars is_decimal_char s then default (S754_zero false) (decimal s) else other_float s.

Definition k8s_path (info : VersionInfo) : string :=
  let minorVersion := TrimSuffix (vi_Minor info) "+" in
  let kubeVersion := vi_Major info +:+ "." +:+ minorVersion in
  getk8sPath kubeVersion (ParseFloat kubeVersion) (ParseFloat K8sMinimumSupportedVersion)
    (ParseFloat K8sMaximumSupportedVersion).

(** Whether the file can be read is only logged: the bytes of an unreadable file are none. *)
Definition getOperatorConfig : outcome OperatorConfig :=
  let isOpenShift := fst IsOpenShift in
  info ← deref (fst GetKubeAPIServerVersion);
  let k8sPath := k8s_path info in
  let '(directory, k8sPath) :=
    match ReadDir (Clean ConfigDir) with
    | Some _ => (Operatorconfig, Operatorconfig +:+ k8sPath)
    | None => (Clean ConfigDir, ConfigDir +:+ k8sPath)
    end in
  let buf := match ReadFile (Clean k8sPath) with inr b => b | inl _ => "" end in
  imageConfig ← wrapErr (res (yaml_K8sImagesConfig buf)) (errorf "unmarshalling");
  Ok (mkOperatorConfig isOpenShift imageConfig directory).
End config.

(** ** [main] *)

(** The reconciler as [main] fills it; its clients, logger, scheme and lock are not values. *)
Record Reconciler := mkReconciler {
  rc_Config : OperatorConfig;
  rc_ContentWatchChannels : gmap string nat
}.

(** What [main] does to its surroundings, in its order. The limiter of the work queue waits
    between the two delays, in milliseconds. *)
Inductive action :=
  | ACreateManager (o : Options)
  | ASetupWithManager (r : Reconciler) (baseDelay maxDelay : Z) (maxReconcilers : nat)
  | AHealthzCheck (name : string)
  | AReadyzCheck (name : string)
  | AStart
  | ACloseStopWatch
  | AExit (code : Z)
  | APanic (why : string).

(** the flags without arguments *)
Definition initFlags : Flags := mkFlags ":8443" ":8081" false true.

Definition manager_options (flags : Flags) : Options := {|
  op_MetricsBindAddress := fl_metricsBindAddress flags;
  op_SecureServing := fl_secureMetrics flags;
  op_NextProtos := ["http/1.1"];
  op_HealthProbeBindAddress := fl_healthProbeBindAddress flags;
  op_LeaderElection := fl_leaderElect flags;
  op_LeaderElectionID := "090cae6a.dell.com";
  op_WebhookPort := 9443
|}.

(** the exit that ends the process, so that nothing deferred runs *)
Definition exit1 : list action := [AExit 1].

(** an action that may fail, and what follows when it does not *)
Definition or_exit (e : option error) (next : list action) : list action :=
  match e with
  | Some _ => exit1
  | None => next
  end.

Section main.
Context `{Startup} `{Host}.

Definition main (flags : Flags) : list action :=
  match getOperatorConfig with
  | Panic why => [APanic why]
  | Fail _ => exit1
  | Ok operatorConfig =>
      or_exit GetConfigOrDie (
      ACreateManager (manager_options flags) :: or_exit (NewManager (manager_options flags)) (
      match NewForConfigOrDie with
      | Some e => [APanic (error_text e)]
      | None =>
          ASetupWithManager (mkReconciler operatorConfig ∅) 5 120000 1 ::
          or_exit Complete (
          AHealthzCheck "healthz" :: or_exit AddHealthzCheck (
          AReadyzCheck "readyz" :: or_exit AddReadyzCheck (
          AStart :: or_exit Start [ACloseStopWatch])))
      end))
  end.
End main.

(** ** Which file of images a version of Kubernetes gets *)

(** Versions are compared as decimal fractions: the minor versions 4 to 9 count as later than 36,
    and those from 100 to 339 as earlier than 34. *)
Definition images_file (minor : N) : string :=
  if decide (34 ≤ minor ≤ 36 ∨ 340 ≤ minor ≤ 360)%N then
    "k8s-1." +:+ pretty minor +:+ "-values.yaml"
  else if decide (4 ≤ minor ≤ 9 ∨ 37 ≤ minor ≤ 99 ∨ 361 ≤ minor)%N then "k8s-1.36-values.yaml"
  else "default.yaml".

(** the version of the API server that calls itself 1.[minor], or 1.[minor]+ *)
Definition server_1 (minor : N) (plus : bool) : VersionInfo :=
  mkVersionInfo "1" (pretty minor +:+ if plus then "+" else "").

Section facts.
Context `{Startup} `{Host}.

Definition path_agrees (plus : bool) (n : nat) : bool :=
  let path := "/driverconfig/common/" +:+ images_file (N.of_nat n) in
  bool_decide (k8s_path (server_1 (N.of_nat n) plus) = path) &&
  bool_decide (Clean (ConfigDir +:+ path) = ConfigDir +:+ path) &&
  bool_decide (Clean (Operatorconfig +:+ path) = Operatorconfig +:+ path).

Lemma paths_agree : forallb (path_agrees false) (seq 0 1000) && forallb (path_agrees true) (seq 0 1000) = true.
Proof. vm_compute. reflexivity. Qed.

Lemma path_agrees_at minor plus : (minor < 1000)%N → path_agrees plus (N.to_nat minor) = true.
Proof.
  intros L. pose proof paths_agree as E. apply andb_true_iff in E as [E0 E1].
  rewrite forallb_forall in E0, E1.
  destruct plus; [apply E1|apply E0]; apply in_seq; lia.
Qed.

Lemma k8s_path_server minor plus :
  (minor < 1000)%N →
  let path := "/driverconfig/common/" +:+ images_file minor in
  k8s_path (server_1 minor plus) = path ∧ Clean (ConfigDir +:+ path) = ConfigDir +:+ path ∧
  Clean (Operatorconfig +:+ path) = Operatorconfig +:+ path.
Proof.
  intros L path. pose proof (path_agrees_at minor plus L) as E. unfold path_agrees in E.
  rewrite N2Nat.id in E. rewrite !andb_true_iff, !bool_decide_eq_true in E. tauto.
Qed.

(** the directory of the configuration: the mount, or the one beside the binary *)
Definition config_directory : string :=
  if decide (ReadDir ConfigDir = None) then ConfigDir else Operatorconfig.

Lemma elem_of_default (x : string) o : x ∈ default [] o ↔ ∃ l, o = Some l ∧ x ∈ l.
Proof.
  destruct o as [l|]; cbn; split; try naive_solver. intros E. by apply not_elem_of_nil in E.
Qed.

Lemma IsOpenShift_spec :
  GetClientSet = None →
  fst IsOpenShift = bool_decide ("security.openshift.io" ∈ default [] (fst ServerGroupsAndResources)).
Proof.
  intros G. unfold IsOpenShift. rewrite G. destruct (fst ServerGroupsAndResources) as [gs|]; [|done].
  unfold default. cbn [fst]. unfold id. induction gs as [|g gs IH]; [done|]. cbn [existsb]. rewrite IH.
  apply eq_true_iff_eq. rewrite orb_true_iff, !bool_decide_eq_true, elem_of_cons. naive_solver.
Qed.

Lemma getOperatorConfig_run minor plus :
  (minor < 1000)%N → GetClientSet = None → ServerVersion = inr (server_1 minor plus) →
  getOperatorConfig =
    (let file := config_directory +:+ "/driverconfig/common/" +:+ images_file minor in
     images ← wrapErr (res (yaml_K8sImagesConfig
       match ReadFile file with inr b => b | inl _ => "" end)) (errorf "unmarshalling");
     Ok (mkOperatorConfig (bool_decide ("security.openshift.io" ∈
       default [] (fst ServerGroupsAndResources))) images config_directory)).
Proof.
  intros L G V. destruct (k8s_path_server minor plus L) as (P & C1 & C2).
  unfold getOperatorConfig, GetKubeAPIServerVersion. rewrite IsOpenShift_spec by done.
  rewrite G, V. cbn [fst deref]. unfold mbind at 1, outcome_bind at 1. rewrite P.
  unfold config_directory. change (Clean ConfigDir) with ConfigDir.
  destruct (ReadDir ConfigDir) as [e|]; [rewrite decide_False by done|rewrite decide_True by done];
    rewrite ?C1, ?C2; reflexivity.
Qed.

Lemma getOperatorConfig_panics :
  (∃ why, getOperatorConfig = Panic why) ↔ GetClientSet ≠ None ∨ ∃ e, ServerVersion = inl e.
Proof.
  unfold getOperatorConfig, GetKubeAPIServerVersion. destruct GetClientSet as [e|] eqn:G.
  { split; [left; done|eexists; reflexivity]. }
  destruct ServerVersion as [e|sv] eqn:V.
  { split; [right; eauto|eexists; reflexivity]. }
  split; [|intros [?|[? ?]]; congruence]. intros [why E]. exfalso. revert E.
  cbv beta iota zeta delta [fst deref mbind outcome_bind].
  destruct (ReadDir _); cbv beta iota;
    destruct (yaml_K8sImagesConfig _); cbv beta iota delta [res wrapErr]; discriminate.
Qed.

(** C37: With an API server that calls itself 1.minor (or 1.minor+) for a minor version below 1000,
    the configuration of the operator is: the environment is OpenShift exactly when the server has
    the group security.openshift.io; the directory is the mounted one when it can be read, the one
    beside the binary otherwise; the images are those of the file of the minor version in it, which
    is the own file of 34 to 36, the default below and the latest above, but for the minor
    versions 4 to 9 (latest) and 100 to 360 (compared as 10 to 36), since versions are compared
    as decimal fractions. A file that cannot be read counts as empty. The process panics exactly
    when the version of the server is not to be had. *)
Theorem start_configuration_spec :
  (∀ minor plus c,
    (minor < 1000)%N → GetClientSet = None → ServerVersion = inr (server_1 minor plus) →
    (getOperatorConfig = Ok c ↔
       (oc_IsOpenShift c = true ↔
          ∃ groups, fst ServerGroupsAndResources = Some groups ∧ "security.openshift.io" ∈ groups) ∧
       oc_ConfigDirectory c = config_directory ∧
       yaml_K8sImagesConfig
         match ReadFile (config_directory +:+ "/driverconfig/common/" +:+ images_file minor) with
         | inr text => text
         | inl _ => ""
         end = inr (oc_K8sVersion c))) ∧
  ((∃ why, getOperatorConfig = Panic why) ↔ GetClientSet ≠ None ∨ ∃ e, ServerVersion = inl e).
Proof.
  split; [|apply getOperatorConfig_panics]. intros minor plus c L G V.
  rewrite (getOperatorConfig_run minor plus L G V). cbv zeta.
  destruct (yaml_K8sImagesConfig _) as [e|images] eqn:Y; [split; [discriminate|naive_solver]|].
  unfold res, wrapErr, mbind, outcome_bind. split.
  - intros [= <-]. cbn [oc_IsOpenShift oc_ConfigDirectory oc_K8sVersion].
    rewrite bool_decide_eq_true. split; [apply elem_of_default|done].
  - intros (O & D & [= ->]). destruct c as [o i d]. cbn in O, D |- *. subst d. f_equal. f_equal.
    apply eq_true_iff_eq. rewrite bool_decide_eq_true, O. apply elem_of_default.
Qed.

Definition is_end (a : action) : Prop :=
  match a with
  | ACloseStopWatch | AExit _ | APanic _ => True
  | _ => False
  end.

Definition ends_well (l : list action) : Prop :=
  ∃ before a, l = before ++ [a] ∧ is_end a ∧ Forall (λ b, ¬ is_end b) before.

Lemma ends_well_one a : is_end a → ends_well [a].
Proof. intros E. exists [], a. auto. Qed.

Lemma ends_well_cons b l : ¬ is_end b → ends_well l → ends_well (b :: l).
Proof.
  intros N (before & a & -> & E & F). exists (b :: before), a. split_and!; auto.
Qed.

Lemma ends_well_or_exit e l : ends_well l → ends_well (or_exit e l).
Proof. destruct e; [intros _; apply ends_well_one; done|done]. Qed.

(** the actions of a start in which nothing fails before the manager runs *)
Definition whole_start (flags : Flags) (c : OperatorConfig) : list action :=
  [ACreateManager (manager_options flags); ASetupWithManager (mkReconciler c ∅) 5 120000 1;
   AHealthzCheck "healthz"; AReadyzCheck "readyz"; AStart;
   match Start with Some _ => AExit 1 | None => ACloseStopWatch end].

(** C38: The manager is started exactly when the configuration was read and no step before it
    failed; the process has then set up one reconciler with that configuration, no watches and a
    single worker, and both health checks, in this order. Whatever happens, the process ends with
    exactly one of: the exit code 1, a panic, or, after a manager that stopped without an
    error, the closing of the stop channel. *)
Theorem main_spec flags :
  (AStart ∈ main flags ↔
    ∃ c, getOperatorConfig = Ok c ∧ main flags = whole_start flags c ∧
      GetConfigOrDie = None ∧ NewManager (manager_options flags) = None ∧
      NewForConfigOrDie = None ∧ Complete = None ∧ AddHealthzCheck = None ∧
      AddReadyzCheck = None) ∧
  ends_well (main flags).
Proof.
  split.
  - split.
    + unfold main, or_exit, whole_start, exit1. intros E.
      destruct getOperatorConfig as [c| |]; [|set_solver..]. exists c.
      repeat match type of E with context [match ?x with _ => _ end] =>
        destruct x; try (exfalso; set_solver) end; auto 10.
    + intros (c & _ & -> & _). unfold whole_start. set_solver.
  - unfold main. destruct getOperatorConfig; [|by apply ends_well_one..].
    repeat first [apply ends_well_one; done | apply ends_well_or_exit
      | apply ends_well_cons; [by intros []|] | destruct NewForConfigOrDie].
Qed.
End facts.

(** ** A concrete start *)

Definition demo_images : K8sImagesConfig :=
  mkK8sImagesConfig "1.35" (mkK8sImages "attacher:1" "" "" "" "" "" "" "" "" "").

#[local] Instance demo_startup : Startup := {
  GetClientSet := None;
  ServerGroupsAndResources := (Some ["apps"; "security.openshift.io"], Some (Errorf "partial"));
  ServerVersion := inr (mkVersionInfo "1" "35+");
  ReadDir := λ _, None;
  yaml_K8sImagesConfig := λ s,
    if decide (s = "images of 1.35") then inr demo_images else inl (Errorf "no images");
  other_float := λ _, S754_nan;
  GetConfigOrDie := None;
  NewManager := λ _, None;
  NewForConfigOrDie := None;
  Complete := None;
  AddHealthzCheck := None;
  AddReadyzCheck := None;
  Start := Some (Errorf "problem running manager")
}.

#[local] Instance demo_files : Host := {
  ReadFile := λ p,
    if decide (p = "/etc/config/dell-csm-operator/driverconfig/common/k8s-1.35-values.yaml")
    then inr "images of 1.35" else inl (Errorf "no such file");
  FileExists := λ _, false;
  Getenv := λ _, "";
  yaml_UpgradePaths := λ _, inl (Errorf "");
  yaml_ModuleVersions := λ _, inl (Errorf "");
  yaml_VersionMapping := λ _, inl (Errorf "");
  yaml_CSM := λ _, inl (Errorf "");
  yaml_VersionSpecs := λ _, inl (Errorf "")
}.

Lemma start_configuration_spec_witness :
  getOperatorConfig = Ok (mkOperatorConfig true demo_images ConfigDir) ∧
  ¬ ∃ why, getOperatorConfig = Panic why.
Proof.
  destruct start_configuration_spec as [ok panics]. split.
  - apply (ok 35%N true); [lia|reflexivity|reflexivity|].
    split_and!; [|reflexivity|vm_compute; reflexivity].
    split; [intros _|reflexivity]. eexists. split; [reflexivity|]. apply list_elem_of_further, list_elem_of_here.
  - rewrite panics. intros [C|[e C]]; [by apply C|discriminate C].
Defined.

Example demo_main : main initFlags =
  whole_start initFlags (mkOperatorConfig true demo_images ConfigDir).
Proof. vm_compute. reflexivity. Qed.
