(* ===== verification/Semver.v ===== *)
(** The stamping of a build with its version: core/semver/semver.go, which reads the version out of
    the answer of git describe by a regular expression and prints it in several forms. *)

From S2P Require Import Prelude.
From S2P Require Import GoStrings.
From Stdlib Require Import Ascii ZArith Lia.
From stdpp Require Import options.

Local Open Scope stdpp_scope.

(** ** Regular expressions, as Go's [regexp] matches them

    Of the matches from the start to the end of the text the one that a backtracking search finds
    first: a greedy repetition prefers more, a lazy one fewer, an optional part to be there. The
    texts are bytes; since every class below takes either only ASCII or everything else of a
    character, it is the same on the characters. *)

Inductive regexp :=
  | Char (p : ascii → bool)
  | Rep (greedy : bool) (least : nat) (p : ascii → bool)
  | Seq (r1 r2 : regexp)
  | Opt (r : regexp)
  | Group (i : nat) (r : regexp).

Abbreviation captures := (gmap nat string).

(** what [s] has before its end [s'] *)
Definition before (s s' : string) : string :=
  String.substring 0 (String.length s - String.length s') s.

Fixpoint repeated {A} (greedy : bool) (p : ascii → bool) (k : string → option A)
    (least : nat) (s : string) : option A :=
  match least, s with
  | S n, String c s' => if p c then repeated greedy p k n s' else None
  | S _, "" => None
  | O, "" => k ""
  | O, String c s' =>
      let more := if p c then repeated greedy p k 0 s' else None in
      if greedy then match more with Some r => Some r | None => k s end
      else match k s with Some r => Some r | None => more end
  end.

Fixpoint match_here (r : regexp) (s : string) (m : captures)
    (k : string → captures → option captures) : option captures :=
  match r with
  | Char p =>
      match s with
      | String c s' => if p c then k s' m else None
      | "" => None
      end
  | Rep greedy least p => repeated greedy p (λ s', k s' m) least s
  | Seq r1 r2 => match_here r1 s m (λ s' m', match_here r2 s' m' k)
  | Opt r1 =>
      match match_here r1 s m k with
      | Some x => Some x
      | None => k s m
      end
  | Group i r1 => match_here r1 s m (λ s' m', k s' (<[i := before s s']> m'))
  end.

(** the match of [^r$] *)
Definition FindStringSubmatch (r : regexp) (s : string) : option captures :=
  match_here r s ∅ (λ s' m, if decide (s' = "") then Some m else None).

(** the group [i], empty where it took no part *)
Definition group (m : captures) (i : nat) : string := default "" (m !! i).

Definition is_digit (c : ascii) : bool := bool_decide (is_Some (digit c)).
Definition is_letter (c : ascii) : bool :=
  let n := nat_of_ascii (lower c) in (97 <=? n)%nat && (n <=? 122)%nat.
Definition is_blank (c : ascii) : bool :=
  bool_decide (nat_of_ascii c ∈ [9; 10; 12; 13; 32]%nat).
Definition is_any (c : ascii) : bool := negb (bool_decide (nat_of_ascii c = 10%nat)).
Definition is_char (d c : ascii) : bool := bool_decide (c = d).

Fixpoint word (s : string) (r : regexp) : regexp :=
  match s with
  | "" => r
  | String c s' => Seq (Char (is_char c)) (word s' r)
  end.

Definition number (i : nat) : regexp := Group i (Rep true 1 is_digit).

(** [^[^\d]*(\d+)\.(\d+)\.(\d+)(?:-([a-zA-Z].+?))?(?:-(\d+)-g(.+?)(?:-(dirty))?)?\s*$] *)
Definition rx_notes : regexp :=
  word "-" (Group 4 (Seq (Char is_letter) (Rep false 1 is_any))).

Definition rx_dirty : regexp :=
  word "-" (Group 7 (word "dirt" (Char (is_char "y")))).

Definition rx_commit : regexp :=
  word "-" (Seq (number 5) (word "-g" (Seq (Group 6 (Rep false 1 is_any)) (Opt rx_dirty)))).

Definition rx : regexp :=
  Seq (Rep true 0 (λ c, negb (is_digit c)))
    (Seq (number 1) (word "." (Seq (number 2) (word "." (Seq (number 3)
      (Seq (Opt rx_notes) (Seq (Opt rx_commit) (Rep true 0 is_blank)))))))).

Definition matched (s : string) : option (list string) :=
  (λ m, group m <$> seq 1 7) <$> FindStringSubmatch rx s.

Example matched_1 : matched "v2.13.0-notes-12-gd058795-dirty"
  = Some ["2"; "13"; "0"; "notes"; "12"; "d058795"; "dirty"].
Proof. vm_compute. reflexivity. Qed.
Example matched_2 : matched "v2.13.0" = Some ["2"; "13"; "0"; ""; ""; ""; ""].
Proof. vm_compute. reflexivity. Qed.
Example matched_3 : matched "v2.13.0-a-5-g12" = Some ["2"; "13"; "0"; "a-5-g12"; ""; ""; ""].
Proof. vm_compute. reflexivity. Qed.
Example matched_4 : matched "v2.13" = None.
Proof. vm_compute. reflexivity. Qed.

(** ** What the program asks of its surroundings *)

Record semver := mkSemver {
  GOOS : string;
  GOARCH : string;
  OS : string;
  Arch : string;
  Major : Z;
  Minor : Z;
  Patch : Z;
  Build : Z;
  Notes : string;
  Type_ : string;
  Dirty : bool;
  Sha7 : string;
  Sha32 : string;
  Epoch : Z;
  SemVer : string;
  SemVerRPM : string;
  BuildDate : string;
  ReleaseDate : string
}.

(** A command gives its output, or fails: with the status of the process when it ran. A date is
    printed in the zone of the machine. [Create] is asked with the cleaned path. A template that
    fails has written a part of its text. *)
Class Machine := {
  exec : list string → option Z + string;
  env : string → string;
  runtime_GOOS : string;
  runtime_GOARCH : string;
  Stat_is_missing : string → bool;
  read_file : string → error + string;
  Create : string → option error;
  Close : option error;
  FormatTime : Z → string → string;
  EncodeJSON : semver → error + string;
  Template : string → error + (semver → string * option error)
}.

(** how the process ends, and the texts that it has written to the chosen output *)
Inductive ending := Returns | Exits (code : Z) | Panics.

(** A step of the program: it goes on with a value, or the process ends. *)
Abbreviation step A := (ending + A)%type.

(** ** The printed forms *)

Definition String_ (v : semver) : string :=
  Itoa (Major v) +:+ "." +:+ Itoa (Minor v) +:+ "." +:+ Itoa (Patch v)
  +:+ (if decide (Notes v = "") then "" else "-" +:+ Notes v)
  +:+ (if decide (0 < Build v)%Z then "+" +:+ Itoa (Build v) else "")
  +:+ (if Dirty v then "+dirty" else "").

Definition RPM (v : semver) : string := ReplaceAll (String_ v) "-" "+".

(** [%3.3d] *)
Definition three_digits (z : Z) : string :=
  let d := Itoa (Z.abs z) in
  (if decide (z < 0)%Z then "-" else "")
  +:+ (match String.length d with 1 => "00" | 2 => "0" | _ => "" end)%nat +:+ d.

Definition quote : string := String (ascii_of_nat 34) "".
Definition in_quotes (s : string) : string := quote +:+ s +:+ quote.

Definition bool_text (b : bool) : string := if b then "true" else "false".

Definition EnvVars (v : semver) : list string := [
  "GOOS=" +:+ GOOS v;
  "GOARCH=" +:+ GOARCH v;
  "OS=" +:+ OS v;
  "ARCH=" +:+ Arch v;
  "MAJOR=" +:+ Itoa (Major v);
  "MINOR=" +:+ Itoa (Minor v);
  "PATCH=" +:+ Itoa (Patch v);
  "BUILD=" +:+ three_digits (Build v);
  "NOTES=" +:+ in_quotes (Notes v);
  "TYPE=" +:+ Type_ v;
  "DIRTY=" +:+ bool_text (Dirty v);
  "SHA7=" +:+ Sha7 v;
  "SHA32=" +:+ Sha32 v;
  "EPOCH=" +:+ Itoa (Epoch v);
  "SEMVER=" +:+ in_quotes (SemVer v);
  "SEMVER_RPM=" +:+ in_quotes (SemVerRPM v);
  "BUILD_DATE=" +:+ in_quotes (BuildDate v);
  "RELEASE_DATE=" +:+ in_quotes (ReleaseDate v)].

Definition toInt (sz : string) : Z := fst (Atoi sz).

Definition goosToUname : gmap string string := list_to_map [
  ("android", "Android"); ("darwin", "Darwin"); ("dragonfly", "DragonFly");
  ("freebsd", "kFreeBSD"); ("linux", "Linux"); ("nacl", "NaCl"); ("netbsd", "NetBSD");
  ("openbsd", "OpenBSD"); ("plan9", "Plan9"); ("solaris", "Solaris"); ("windows", "Windows")].

Definition goarchToUname : gmap string string := list_to_map [
  ("386", "i386"); ("amd64", "x86_64"); ("amd64p32", "x86_64_P32"); ("arm", "ARMv7");
  ("arm64", "ARMv8"); ("mips", "MIPS32"); ("mips64", "MIPS64"); ("mips64le", "MIPS64LE");
  ("mipsle", "MIPS32LE"); ("ppc64", "PPC64"); ("ppc64le", "PPC64LE"); ("s390x", "S390X")].

(** One line of a makefile. The quotes of [val] are cut off by its first and last byte, so a lone
    quote is sliced beyond its end. *)
Definition unquoted (val : string) : step string :=
  if HasPrefix val quote && HasSuffix val quote then
    if decide (String.length val = 1%nat) then inl Panics
    else inr (String.substring 1 (String.length val - 2) val)
  else inr val.

Definition nl : string := String (ascii_of_nat 10) "".

Definition make_line (v : string) : step string :=
  match SplitN2 v "=" with
  | None => inr (v +:+ " ?=" +:+ nl)
  | Some (key, val) =>
      match unquoted val with
      | inl e => inl e
      | inr val => inr (key +:+ " ?= " +:+ ReplaceAll val "$" "$$" +:+ nl)
      end
  end.

(** ** The program *)

Inductive Format :=
  | FEnv | FGo | FJson | FMk | FRpm | FVer
  | FTpl (execute : semver → string * option error).

Record Flags := mkFlags { fl_format : string; fl_output : string; fl_export : bool }.

(** what a run leaves: the file it created, the text it wrote there (or to the standard output)
    and how it ended *)
Record run := mkRun { created : option string; written : string; ended : ending }.

(** The characters beside [K], [k], [S] and [s] that Go takes for the same letter: the Kelvin sign and the long s. *)
Definition kelvin : string := bytes_str [226; 132; 170]%nat.
Definition long_s : string := bytes_str [197; 191]%nat.
Definition EqualFold_name (name s : string) : bool :=
  EqualFold name (ReplaceAll (ReplaceAll s kelvin "k") long_s "s").

Section machine.
Context `{Machine}.

Definition chkErr (r : option Z + string) : step string :=
  match r with
  | inr out => inr (TrimSpace out)
  | inl (Some status) => inl (Exits status)
  | inl None => inl (Exits 1)
  end.

Definition fileExists (filePath : string) : bool := negb (Stat_is_missing filePath).

Definition template_of (text : string) : step Format :=
  match Template text with
  | inl _ => inl Panics
  | inr execute => inr (FTpl execute)
  end.

Definition format_of (format : string) : step Format :=
  if EqualFold_name "env" format then inr FEnv
  else if EqualFold_name "go" format then inr FGo
  else if EqualFold_name "json" format then inr FJson
  else if EqualFold_name "mk" format then inr FMk
  else if EqualFold_name "rpm" format then inr FRpm
  else if EqualFold_name "ver" format then inr FVer
  else if fileExists format then
    match read_file format with
    | inl _ => inl (Exits 1)
    | inr buf => template_of buf
    end
  else template_of format.

Definition or_else (s other : string) : string := if decide (s = "") then other else s.

(** the version before its printed forms are filled in *)
Definition bare_version (m : captures) (sha32 epoch : string) : semver :=
  let goos := or_else (env "XGOOS") runtime_GOOS in
  let goarch := or_else (env "XGOARCH") runtime_GOARCH in
  {| GOOS := goos; GOARCH := goarch;
     OS := default "" (goosToUname !! goos); Arch := default "" (goarchToUname !! goarch);
     Major := toInt (group m 1); Minor := toInt (group m 2); Patch := toInt (group m 3);
     Build := toInt (or_else (env "BUILD_NUMBER") (group m 5));
     Notes := group m 4; Type_ := or_else (env "BUILD_TYPE") "X";
     Dirty := negb (bool_decide (group m 7 = "")); Sha7 := group m 6; Sha32 := sha32;
     Epoch := toInt epoch; SemVer := ""; SemVerRPM := ""; BuildDate := ""; ReleaseDate := "" |}.

Definition with_texts (v : semver) : semver :=
  {| GOOS := GOOS v; GOARCH := GOARCH v; OS := OS v; Arch := Arch v; Major := Major v;
     Minor := Minor v; Patch := Patch v; Build := Build v; Notes := Notes v; Type_ := Type_ v;
     Dirty := Dirty v; Sha7 := Sha7 v; Sha32 := Sha32 v; Epoch := Epoch v;
     SemVer := String_ v; SemVerRPM := RPM v;
     BuildDate := FormatTime (Epoch v) "Mon, 02 Jan 2006 15:04:05 MST";
     ReleaseDate := FormatTime (Epoch v) "06-01-02" |}.

Definition version_of : step semver :=
  match chkErr (exec ["git"; "describe"; "--long"; "--dirty"]) with
  | inl e => inl e
  | inr gitdesc =>
      match FindStringSubmatch rx gitdesc with
      | None => inl (Exits 1)
      | Some m =>
          match chkErr (exec ["git"; "log"; "-n1"; "--format=%H"]) with
          | inl e => inl e
          | inr sha32 =>
              match chkErr (exec ["git"; "log"; "-n1"; "--format=%ct"]) with
              | inl e => inl e
              | inr epoch => inr (with_texts (bare_version m sha32 epoch))
              end
          end
      end
  end.

(** lines written one after the other, up to one that panics *)
Fixpoint write_lines (lines : list (step string)) : string * ending :=
  match lines with
  | [] => ("", Returns)
  | inl e :: _ => ("", e)
  | inr line :: lines' => let '(text, e) := write_lines lines' in (line +:+ text, e)
  end.

Definition print (flags : Flags) (fmt : Format) (ver : semver) : string * ending :=
  match fmt with
  | FEnv =>
      write_lines ((λ v, inr ((if fl_export flags then "export " else "") +:+ v +:+ nl))
        <$> EnvVars ver)
  | FGo => ("", Returns)
  | FJson =>
      match EncodeJSON ver with
      | inl _ => ("", Exits 1)
      | inr text => (text, Returns)
      end
  | FMk => write_lines (make_line <$> EnvVars ver)
  | FRpm => (RPM ver +:+ nl, Returns)
  | FTpl execute =>
      let '(text, e) := execute ver in
      (text, match e with Some _ => Exits 1 | None => Returns end)
  | FVer => (String_ ver +:+ nl, Returns)
  end.

(** A run that returns closes its file, and panics when that fails; one that exits does not come
    to it. *)
Definition main (flags : Flags) : run :=
  match format_of (fl_format flags) with
  | inl e => mkRun None "" e
  | inr fmt =>
      let path := if decide (fl_output flags = "") then None else Some (Clean (fl_output flags)) in
      match path ≫= Create with
      | Some _ => mkRun None "" (Exits 1)
      | None =>
          let '(text, e) :=
            match version_of with
            | inl e => ("", e)
            | inr ver => print flags fmt ver
            end in
          mkRun path text
            match e, path, Close with
            | Returns, Some _, Some _ => Panics
            | e, _, _ => e
            end
      end
  end.
End machine.

(** ** What the expression finds *)

Lemma length_append_minus x y : String.length (x +:+ y) - String.length y = String.length x.
Proof. rewrite length_append. lia. Qed.

Lemma before_app x y : before (x +:+ y) y = x.
Proof.
  unfold before. rewrite length_append_minus. induction x as [|c x IH]; [by destruct y|].
  rewrite append_cons. simpl. by rewrite IH.
Qed.

Definition head_is_not (p : ascii → bool) (s : string) : Prop :=
  match s with
  | "" => True
  | String c _ => p c = false
  end.

Lemma repeated_greedy {A} p (k : string → option A) r y x least :
  all_chars p x = true → head_is_not p y → least ≤ String.length x → k y = Some r →
  repeated true p k least (x +:+ y) = Some r.
Proof.
  intros Hx Hy L K. revert least L. induction x as [|c x IH]; intros least L.
  - assert (least = 0) as -> by (simpl in L; lia). destruct y as [|c y]; [done|].
    simpl in *. by rewrite Hy.
  - simpl in Hx. apply andb_true_iff in Hx as [Hc Hx]. rewrite append_cons.
    destruct least as [|least]; cbn [repeated]; rewrite Hc.
    + rewrite IH by (done || lia). done.
    + apply IH; [done|]. simpl in L. lia.
Qed.

Lemma repeated_lazy {A} p (k : string → option A) r y x least :
  all_chars p x = true → least ≤ String.length x → k y = Some r →
  (∀ x1 x2, x = x1 +:+ x2 → x2 ≠ "" → least ≤ String.length x1 → k (x2 +:+ y) = None) →
  repeated false p k least (x +:+ y) = Some r.
Proof.
  intros Hx L K. revert least L. induction x as [|c x IH]; intros least L N.
  - assert (least = 0) as -> by (simpl in L; lia). destruct y as [|c y]; [done|].
    simpl in *. by rewrite K.
  - simpl in Hx. apply andb_true_iff in Hx as [Hc Hx]. rewrite append_cons.
    destruct least as [|least]; cbn [repeated]; rewrite Hc.
    + rewrite <- append_cons, (N "" (String c x)) by (done || lia).
      apply IH; [done|lia|]. intros x1 x2 -> X2 _.
      apply (N (String c x1)); [by rewrite append_cons|done|lia].
    + apply IH; [done|simpl in L; lia|]. intros x1 x2 -> X2 L1.
      apply (N (String c x1)); [by rewrite append_cons|done|simpl; lia].
Qed.

Lemma match_word w r s m k : match_here (word w r) (w +:+ s) m k = match_here r s m k.
Proof.
  induction w as [|c w IH]; [done|]. rewrite append_cons. cbn [word match_here].
  unfold is_char at 1. rewrite bool_decide_true by done. apply IH.
Qed.

Lemma digits_all s acc z : digits acc s = Some z → all_chars is_digit s = true.
Proof.
  revert acc. induction s as [|c s IH]; intros acc; [done|]. simpl. unfold is_digit at 1.
  destruct (digit c) as [d|]; [|done]. intros E. apply IH in E. by rewrite E.
Qed.

Lemma match_number i (n : N) y m k r :
  head_is_not is_digit y → k y (<[i := pretty n]> m) = Some r →
  match_here (number i) (pretty n +:+ y) m k = Some r.
Proof.
  intros Hy K. cbn [number match_here]. apply repeated_greedy; [|done| |by rewrite before_app].
  - eapply digits_all, digits_pretty_N.
  - destruct (pretty_N_head n) as (d & t & _ & ->). simpl. lia.
Qed.

(** behind the commit only blanks may follow *)
Definition at_end : string → captures → option captures :=
  λ s m, match_here (Rep true 0 is_blank) s m (λ s' m', if decide (s' = "") then Some m' else None).

Lemma at_end_fails c s m : is_blank c = false → at_end (String c s) m = None.
Proof. intros B. unfold at_end. cbn [match_here repeated]. by rewrite B. Qed.

Definition name_char (c : ascii) : bool := negb (is_blank c) && negb (bool_decide (c = "-"%char)).

Lemma name_char_any c : name_char c = true → is_any c = true.
Proof.
  unfold name_char, is_blank, is_any. rewrite andb_true_iff, !negb_true_iff, !bool_decide_eq_false.
  intros [B _] E. apply B. rewrite E. set_solver.
Qed.

Lemma all_chars_impl (p q : ascii → bool) s :
  (∀ c, p c = true → q c = true) → all_chars p s = true → all_chars q s = true.
Proof.
  intros I. induction s as [|c s IH]; [done|]. simpl. rewrite !andb_true_iff. naive_solver.
Qed.

Lemma all_chars_app p s t : all_chars p (s +:+ t) = all_chars p s && all_chars p t.
Proof.
  induction s as [|c s IH]; [done|]. rewrite append_cons. simpl. by rewrite IH, andb_assoc.
Qed.

(** a part that starts with a dash is not there before a character of a name *)
Lemma no_dash r c s m k : name_char c = true → match_here (word "-" r) (String c s) m k = None.
Proof.
  unfold name_char. rewrite andb_true_iff, !negb_true_iff, bool_decide_eq_false. intros [_ D].
  cbn [word match_here]. unfold is_char. by rewrite bool_decide_false.
Qed.

Lemma not_blank c : name_char c = true → is_blank c = false.
Proof. unfold name_char. rewrite andb_true_iff, negb_true_iff. tauto. Qed.

Definition commit_text (n : N) (sha : string) (dirty : bool) : string :=
  "-" +:+ (pretty n +:+ ("-g" +:+ (sha +:+ (if dirty then "-dirty" else "")))).

Definition commit_groups (n : N) (sha : string) (dirty : bool) (m : captures) : captures :=
  let m := <[6 := sha]> (<[5 := pretty n]> m) in if dirty then <[7 := "dirty"]> m else m.

Lemma match_commit n sha dirty m :
  sha ≠ "" → all_chars name_char sha = true →
  match_here (Opt rx_commit) (commit_text n sha dirty) m at_end = Some (commit_groups n sha dirty m).
Proof.
  intros S1 S2. cbn [match_here]. enough (match_here rx_commit (commit_text n sha dirty) m at_end
    = Some (commit_groups n sha dirty m)) as -> by done.
  unfold rx_commit, commit_text. rewrite match_word. cbn [match_here].
  apply match_number; [reflexivity|]. rewrite match_word. cbn [match_here].
  apply repeated_lazy.
  - eapply all_chars_impl; [apply name_char_any|done].
  - destruct sha; [done|simpl; lia].
  - rewrite before_app. by destruct dirty.
  - intros x1 x2 -> X2 _. rewrite all_chars_app in S2. apply andb_true_iff in S2 as [_ S2].
    destruct x2 as [|c x2]; [done|]. simpl in S2. apply andb_true_iff in S2 as [Hc _].
    rewrite append_cons. unfold rx_dirty. rewrite no_dash by done. by apply at_end_fails, not_blank.
Qed.

Definition notes_text (notes : string) : string :=
  if decide (notes = "") then "" else "-" +:+ notes.

(** the notes that are found again: none, or a letter and at least one character more, without
    dashes and blanks *)
Definition plain_notes (notes : string) : bool :=
  match notes with
  | "" => true
  | String c t => is_letter c && negb (bool_decide (t = "")) && all_chars name_char notes
  end.

Definition notes_groups (notes : string) (m : captures) : captures :=
  if decide (notes = "") then m else <[4 := notes]> m.

Lemma digit_not_letter n : (n < 10)%N → is_letter (pretty_N_char n) = false.
Proof.
  intros L. assert (n = 0 ∨ n = 1 ∨ n = 2 ∨ n = 3 ∨ n = 4 ∨ n = 5 ∨ n = 6 ∨ n = 7 ∨ n = 8 ∨ n = 9)%N
    as D by lia. by repeat destruct D as [->|D]; [..|subst n].
Qed.

(** the rest of a match from the notes on *)
Definition behind_notes : string → captures → option captures :=
  λ s m, match_here (Opt rx_commit) s m at_end.

Lemma match_notes notes n sha dirty m :
  plain_notes notes = true → sha ≠ "" → all_chars name_char sha = true →
  match_here (Opt rx_notes) (notes_text notes +:+ commit_text n sha dirty) m behind_notes
    = Some (commit_groups n sha dirty (notes_groups notes m)).
Proof.
  intros N S1 S2. unfold notes_text, notes_groups. destruct notes as [|c t].
  - rewrite !decide_True by done. change ("" +:+ ?s) with s. cbn [match_here].
    unfold rx_notes at 1, commit_text at 1. rewrite match_word. cbn [match_here].
    destruct (pretty_N_head n) as (d & t & D & E). rewrite E, append_cons.
    rewrite digit_not_letter by done.
    by apply match_commit.
  - rewrite !decide_False by done. simpl in N. rewrite !andb_true_iff in N.
    destruct N as [[L T] [_ A]]. apply negb_true_iff, bool_decide_eq_false in T.
    cbn [match_here]. rewrite append_assoc. unfold rx_notes. rewrite match_word. cbn [match_here].
    rewrite append_cons, L.
    rewrite (repeated_lazy _ _ (commit_groups n sha dirty (<[4:=String c t]> m))); [done|..].
    + eapply all_chars_impl; [apply name_char_any|done].
    + destruct t; [done|simpl; lia].
    + rewrite <- append_cons, before_app. by apply match_commit.
    + intros x1 x2 -> X2 _. rewrite all_chars_app in A. apply andb_true_iff in A as [_ A].
      destruct x2 as [|c2 x2]; [done|]. simpl in A. apply andb_true_iff in A as [Hc _].
      unfold behind_notes. cbn [match_here]. rewrite append_cons. unfold rx_commit.
      rewrite no_dash by done. by apply at_end_fails, not_blank.
Qed.

(** the answer of git describe --long --dirty behind a tag vMAJOR.MINOR.PATCH-NOTES *)
Definition describe_text (major minor patch : N) (notes : string) (n : N) (sha : string)
    (dirty : bool) : string :=
  "v" +:+ (pretty major +:+ ("." +:+ (pretty minor +:+ ("." +:+ (pretty patch +:+
    (notes_text notes +:+ commit_text n sha dirty)))))).

Definition describe_groups (major minor patch : N) (notes : string) (n : N) (sha : string)
    (dirty : bool) : captures :=
  commit_groups n sha dirty (notes_groups notes
    (<[3 := pretty patch]> (<[2 := pretty minor]> (<[1 := pretty major]> ∅)))).

Lemma match_describe major minor patch notes n sha dirty :
  plain_notes notes = true → sha ≠ "" → all_chars name_char sha = true →
  FindStringSubmatch rx (describe_text major minor patch notes n sha dirty)
    = Some (describe_groups major minor patch notes n sha dirty).
Proof.
  intros N S1 S2. unfold FindStringSubmatch, rx, describe_text. cbn [match_here].
  apply repeated_greedy; [done| |simpl; lia|].
  { destruct (pretty_N_head major) as (d & t & D & ->). rewrite append_cons. simpl.
    unfold is_digit. by rewrite digit_pretty_N_char. }
  apply match_number; [reflexivity|]. rewrite match_word. cbn [match_here].
  apply match_number; [reflexivity|]. rewrite match_word. cbn [match_here].
  apply match_number; [by unfold notes_text; case_decide|].
  by apply match_notes.
Qed.

(** ** What a build is stamped with *)

Lemma Itoa_N (n : N) : Itoa (Z.of_N n) = pretty n.
Proof. by destruct n. Qed.

Lemma toInt_pretty n : (Z.of_N n ≤ max_int)%Z → toInt (pretty n) = Z.of_N n.
Proof. intros L. unfold toInt. by rewrite Atoi_Itoa_N. Qed.

Lemma no_dash_replaced s : no_byte "-" (ReplaceAll s "-" "+").
Proof.
  unfold ReplaceAll. induction s as [|c s IH]; [apply not_elem_of_nil|]. cbn [replace_from].
  destruct (HasPrefix (String c s) "-") eqn:P.
  - change (no_byte "-" (String "+" (replace_from 0 s "-" "+"))). by apply no_byte_cons.
  - apply no_byte_cons. split; [|done]. intros ->. destruct s; discriminate P.
Qed.

Lemma groups_found major minor patch notes n sha dirty :
  let m := describe_groups major minor patch notes n sha dirty in
  group m 1 = pretty major ∧ group m 2 = pretty minor ∧ group m 3 = pretty patch ∧
  group m 4 = notes ∧ group m 5 = pretty n ∧ group m 6 = sha ∧
  group m 7 = (if dirty then "dirty" else "").
Proof.
  unfold group, describe_groups, commit_groups, notes_groups.
  destruct dirty; case_decide as E; rewrite ?E; split_and!; by simplify_map_eq.
Qed.

(** the text of a version *)
Definition version_line (major minor patch : N) (notes : string) (n : N) (dirty : bool) : string :=
  pretty major +:+ "." +:+ pretty minor +:+ "." +:+ pretty patch +:+ notes_text notes
  +:+ (if decide (0 < n)%N then "+" +:+ pretty n else "") +:+ (if dirty then "+dirty" else "").

Lemma String_version v major minor patch notes n dirty :
  Major v = Z.of_N major → Minor v = Z.of_N minor → Patch v = Z.of_N patch → Notes v = notes →
  Build v = Z.of_N n → Dirty v = dirty →
  String_ v = version_line major minor patch notes n dirty.
Proof.
  intros E1 E2 E3 E4 E5 E6. unfold String_, version_line, notes_text.
  rewrite E1, E2, E3, E4, E5, E6, !Itoa_N. do 7 f_equal.
  destruct (decide (0 < n)%N); [by rewrite decide_True by lia|by rewrite decide_False by lia].
Qed.

Section stamping.
Context `{Machine}.

(** C39: what git describe says of a commit is what the build is stamped with. Let the last tag be
    vMAJOR.MINOR.PATCH, with notes of at least two characters or none, and let the program run in
    a clean environment. Then the version that it reads out has these numbers and notes, the
    number of commits since the tag as its build, the hash of the commit, and is dirty exactly when the work tree is; its
    text is MAJOR.MINOR.PATCH[-NOTES][+BUILD][+dirty], printed as one line by the format ver;
    and its text for RPM has no dash. *)
Theorem describe_roundtrip major minor patch notes n sha dirty described sha32 epoch e :
  Forall (λ i, Z.of_N i ≤ max_int)%Z [major; minor; patch; n] →
  plain_notes notes = true → sha ≠ "" → all_chars name_char sha = true →
  exec ["git"; "describe"; "--long"; "--dirty"] = inr described →
  TrimSpace described = describe_text major minor patch notes n sha dirty →
  exec ["git"; "log"; "-n1"; "--format=%H"] = inr sha32 →
  exec ["git"; "log"; "-n1"; "--format=%ct"] = inr epoch →
  env "BUILD_NUMBER" = "" →
  (∃ v, version_of = inr v
    ∧ Major v = Z.of_N major ∧ Minor v = Z.of_N minor ∧ Patch v = Z.of_N patch
    ∧ Build v = Z.of_N n ∧ Notes v = notes ∧ Sha7 v = sha ∧ Dirty v = dirty
    ∧ SemVer v = version_line major minor patch notes n dirty ∧ no_byte "-" (SemVerRPM v))
  ∧ main (mkFlags "ver" "" e)
    = mkRun None (version_line major minor patch notes n dirty +:+ nl) Returns.
Proof.
  intros L N S1 S2 D T H1 H2 B. rewrite !Forall_cons in L. destruct L as (L1 & L2 & L3 & L4 & _).
  destruct (groups_found major minor patch notes n sha dirty) as (G1 & G2 & G3 & G4 & G5 & G6 & G7).
  set (m := describe_groups major minor patch notes n sha dirty) in *.
  set (v := bare_version m (TrimSpace sha32) (TrimSpace epoch)).
  assert (version_of = inr (with_texts v)) as V.
  { unfold version_of. rewrite D, H1, H2. cbn [chkErr]. by rewrite T, match_describe. }
  assert (Dirty v = dirty) as Ed by (unfold v; cbn [Dirty bare_version]; rewrite G7; by destruct dirty).
  assert (Build v = Z.of_N n) as Eb.
  { unfold v. cbn [Build bare_version]. unfold or_else. rewrite B, G5, decide_True by done.
    by apply toInt_pretty. }
  assert (Major v = Z.of_N major ∧ Minor v = Z.of_N minor ∧ Patch v = Z.of_N patch) as (E1 & E2 & E3).
  { unfold v. cbn [Major Minor Patch bare_version]. rewrite G1, G2, G3. by rewrite !toInt_pretty. }
  assert (String_ v = version_line major minor patch notes n dirty) as E by by apply String_version.
  split.
  - exists (with_texts v). split_and!; try done. apply no_dash_replaced.
  - unfold main. change (format_of _) with (inr FVer : step Format). cbn [fl_output].
    rewrite decide_True by done. change (None ≫= Create) with (@None error). cbv iota.
    rewrite V. cbn [print]. change (String_ (with_texts v)) with (String_ v). by rewrite E.
Qed.

(** The output is created before git is asked: when git fails, or says something else than a
    version, an empty file is left, with the status of git or 1. *)
Lemma main_without_version flags fmt :
  format_of (fl_format flags) = inr fmt → fl_output flags ≠ "" →
  Create (Clean (fl_output flags)) = None →
  (∀ status, exec ["git"; "describe"; "--long"; "--dirty"] = inl status →
     main flags = mkRun (Some (Clean (fl_output flags))) "" (Exits (default 1%Z status)))
  ∧ (∀ described, exec ["git"; "describe"; "--long"; "--dirty"] = inr described →
     FindStringSubmatch rx (TrimSpace described) = None →
     main flags = mkRun (Some (Clean (fl_output flags))) "" (Exits 1)).
Proof.
  intros F O C. unfold main, version_of. rewrite F, decide_False by done.
  change (Some ?x ≫= Create) with (Create x). rewrite C. split.
  - intros status ->. by destruct status.
  - intros described -> N. cbn [chkErr]. by rewrite N.
Qed.
End stamping.

(** ** A concrete build *)

#[local] Instance demo_machine : Machine := {
  exec := λ args,
    if decide (args = ["git"; "describe"; "--long"; "--dirty"])
    then inr ("v2.13.0-rc1-12-gd058795-dirty" +:+ nl)
    else if decide (args = ["git"; "log"; "-n1"; "--format=%H"]) then inr ("d058795ab" +:+ nl)
    else inr ("1700000000" +:+ nl);
  env := λ _, "";
  runtime_GOOS := "linux";
  runtime_GOARCH := "amd64";
  Stat_is_missing := λ _, true;
  read_file := λ _, inl (Errorf "no such file");
  Create := λ _, None;
  Close := None;
  FormatTime := λ _ layout, layout;
  EncodeJSON := λ _, inl (Errorf "unused");
  Template := λ _, inl (Errorf "unused")
}.

Lemma describe_roundtrip_witness :
  main (mkFlags "ver" "" false) = mkRun None ("2.13.0-rc1+12+dirty" +:+ nl) Returns.
Proof.
  destruct (describe_roundtrip 2 13 0 "rc1" 12 "d058795" true
    ("v2.13.0-rc1-12-gd058795-dirty" +:+ nl) ("d058795ab" +:+ nl) ("1700000000" +:+ nl) false)
    as [_ E]; [|reflexivity|discriminate|reflexivity..|exact E].
  repeat constructor; vm_compute; discriminate.
Defined.

Example demo_make : take 9 (let '(text, _) := print (mkFlags "mk" "" false) FMk
    (bare_version ∅ "" "7") in Split text (ascii_of_nat 10))
  = ["GOOS ?= linux"; "GOARCH ?= amd64"; "OS ?= Linux"; "ARCH ?= x86_64"; "MAJOR ?= 0";
     "MINOR ?= 0"; "PATCH ?= 0"; "BUILD ?= 000"; "NOTES ?= "].
Proof. vm_compute. reflexivity. Qed.
